(* ===== verification/_CoqProject ===== *)
-Q . S2P
Prelude.v
Process.v
GoStrings.v
Regexp.v
RegexpTheory.v
Admission.v
Utils.v
Webhook.v
Namespace.v
RegularUser.v
ClusterLogging.v
Service.v
NetworkOperator.v
PodImageSpec.v
Pod.v
Node.v
ClusterRole.v
ClusterRoleBinding.v
ServiceAccount.v
SCC.v
PrometheusRule.v
NetworkPolicies.v
ImageContentPolicies.v
IngressController.v
IngressConfig.v
CustomResourceDefinitions.v
HcpNamespace.v
HostedCluster.v
HostedControlPlane.v
ManifestWorks.v
SdnMigration.v
TechPreviewNoUpgrade.v
HiveOwnership.v
KubeObjects.v
Manifests.v
Registry.v
Url.v
Strconv.v
Flag.v
K8sUtil.v
Dispatcher.v
Server.v
Concurrent.v
Main.v
SyncSet.v
Json.v
Filepath.v
Encode.v
Resources.v
Generate.v
Deployment.v
ApiServer.v
Documentation.v
NamespaceList.v
Utf8.v
TestUtils.v
