(* ===== verification/Prelude.v ===== *)
(** * Managed cluster validating webhooks: a verification development

    The program is an HTTP server that answers admission reviews of the
    Kubernetes API server, and a generator of the manifests that deploy it.  This
    development models the server from the command line to the exit code and from
    a request's URI to the written review, all 25 webhooks behind it, the
    generator from its flags to the written files, and the small programs around
    them: the namespace list, the documentation, the helpers of the unit tests.

    ** The program and the files

    - [Prelude]: results, panics, tactics, hint databases, list and string lemmas;
      [Process]: the monad of a main function that prints, writes files and exits.
    - [GoStrings], [Regexp], [RegexpTheory], [Url], [Strconv], [Flag], [Json],
      [Filepath], [Utf8]: what the code uses of Go's standard library: strings,
      slices.Contains, strconv.ParseUint, RE2 regular expressions (parsed from the
      patterns in the source and matched by a backtracking matcher in Go's
      leftmost-first order), net/url, strconv.ParseInt, flag, decoded JSON
      documents with assignment at a path, path/filepath and the validity of
      UTF-8.  [RegexpTheory]
      relates the matcher to a declarative semantics of patterns and gives the
      rules with which the patterns of the program are understood.
    - [Admission]: requests and responses of pkg/webhook/admission of
      controller-runtime, with the fields the code uses; the response
      constructors (Allowed, Denied, Errored, ...) and the decoders are classes
      ([AdmissionCtl], [Decoder]) with their documented laws; the state a handler
      may touch (the counters of pkg/localmetrics) and the monad of handlers,
      which may panic.
    - [Utils]: pkg/webhooks/utils/utils.go, pkg/config (the list of privileged
      namespaces and its test).
    - [Webhook]: pkg/webhooks/register.go: the interface as a record of
      operations, Register, and the class [WebhookLaws] that states what a webhook
      promises to the dispatcher.
    - one file per webhook, named as its package under pkg/webhooks: [Namespace],
      [RegularUser], [ClusterLogging], [Service], [NetworkOperator],
      [PodImageSpec], [Pod], [Node], [ClusterRole], [ClusterRoleBinding],
      [ServiceAccount], [SCC], [PrometheusRule], [NetworkPolicies],
      [ImageContentPolicies], [IngressController], [IngressConfig],
      [CustomResourceDefinitions], [HcpNamespace], [HostedCluster],
      [HostedControlPlane], [ManifestWorks], [SdnMigration],
      [TechPreviewNoUpgrade], [HiveOwnership].  Each has the registration data and
      accessors under the names of the Go methods, [Validate], the decision
      [authorized] with its helpers, [Authorized], the record [NewWebhook] and an
      instance of [WebhookLaws].
    - [Registry]: the init functions of pkg/webhooks/add_*.go and the registry.
    - [Dispatcher]: pkg/dispatcher, pkg/helpers (SendResponse) and
      utils.ParseHTTPRequest.
    - [Server]: the loop of cmd/main.go that registers the URIs, and the theorems
      about the assembled server.
    - [Concurrent]: [HandleRequest] once more, as a machine with a step for each
      call between Lock and Unlock, and any number of goroutines that interleave.
    - [K8sUtil]: pkg/k8sutil: run mode, operator namespace and name, the client.
    - [Main]: the rest of cmd/main.go: [setup] from the command line to the
      server's configuration, then a step relation ([step]) for the server
      goroutine, the select on its error and the signal, and the shutdown.
    - [KubeObjects]: the Kubernetes types the generator fills in, and what it
      means for a selector, a mount or a certificate to fit; [Manifests]: the
      generator's flags and every create function of build/resources.go but those
      of the webhook configurations, which are in [Resources] with the two
      selection loops; [SyncSet], [Encode]: pkg/syncset, the grouping by selector
      and the encoders that edit the encoded document, which the loops call and
      whose failures end the generator; [Generate]: main of build/resources.go,
      from the command line to the written files.
    - [Deployment]: the generated objects against the server of [Main];
      [ApiServer]: the Kubernetes API server as an interface with its documented
      laws, and the deployed system as it sees it.
    - [Documentation]: hack/documentation; [NamespaceList]: pkg/config/generate;
      [TestUtils]: pkg/testutils.

    ** How the parts interact

    [main] builds the dispatcher from the registry and registers each URI with
    the HTTP mux.  A request reaches [HandleRequest], which holds a lock from
    start to end, looks up the path, parses the body, asks the webhook's Validate
    and Authorized, and writes the response.  A run of the server is therefore a
    sequence of handled requests that share the counters ([serve]); [Concurrent]
    proves the therefore: whatever the goroutines do, [serve] explains it.  The client
    side of the interface, [Dispatcher], is proved against [WebhookLaws]; the
    files of the webhooks discharge it; [Registry] and [Server] put both
    together.  [Main] puts the server into a process; [Deployment] starts that
    process with the command line that [Manifests] writes into the pods, and
    sends it the requests that the configurations of [Resources] ask for;
    [ApiServer] closes the circle: the rules of these configurations select the
    requests, and what they select is valid and answered.
    [NamespaceList] writes the list that [Utils.IsPrivilegedNamespace] tests.

    ** State, errors and panics

    Go errors are values of [result]; their text is kept where the code prints
    it.  A nil dereference, an index out of range and an explicit panic are
    [Panicked]; the HTTP server recovers from a panic of a handler, so [serve]
    goes on with the next request.  Exhausting the stack, the one panic of
    [SendResponse], ends the process ([fatal]): [Concurrent] stops there
    ([crashed]) and [Main] ends with a crash, while [serve], the bare sequence of
    handled requests, goes on.  Pointers are options where only nil
    matters, and carry their address where the code compares addresses
    ([NetworkOperator]).  Maps are finite maps; an order of iteration that Go
    leaves open is a permutation in the statement.  uint64 arithmetic is taken
    modulo 2^64 ([u64]).  Strings are byte sequences.

    ** The groups of theorems

    - decisions: for each webhook an equivalence that says exactly which requests
      are refused or allowed, in terms of the requester, the operation and the
      decoded objects; for the four deletion guards an instance of one contract
      ([guards_deletion]);
    - mutations: the patches of [Service] and [PodImageSpec] do what they are for,
      change nothing else, and are not repeated;
    - parsing: the round trip of image references, durations and their bounds,
      regular expressions;
    - errors: when handlers panic, what overflows, and where a check does not see
      what it should;
    - the server: an answer that allows comes from a registered webhook, every
      webhook is reachable, requests do not influence each other, [SendResponse]
      needs two frames of stack; concurrent requests are linearizable and never
      wait for each other forever;
    - the process: how the start-up ends for each command line, and, by induction
      on the steps, what holds in every interleaving of requests, errors, signals
      and shutdown;
    - the generator: grouping by selector is minimal and complete, both files
      hold exactly the objects and encoded configurations they should unless
      marshalling or writing fails, which ends it, the encoders change what they
      are for and nothing else; its flags can be set to anything and the
      command lines of the Makefile do what they are for;
    - the deployment: the generated objects fit together, for all flags or with
      the exact condition; every call that the API server makes by a generated
      configuration passes the webhook's validation and gets its verdict, and a
      guarded deletion is sent to its guard and refused;
    - the small programs: the generated namespace list reads back and privileges
      what it lists, the documentation is complete and sorted, a unit test of a
      valid request sees what the server answers.

    ** Fuel

    The matcher [Regexp.run] is structural in the pattern; a star gets as fuel
    the length of the text that is left, which is enough because each of its
    rounds consumes something.  [MustCompile] parses with three units plus two
    per byte of the pattern, one for each byte and two for each level of
    nesting; that every pattern of the program compiles is checked where the
    pattern is used.  [SendResponse] takes the number of stack frames left, which
    is its only resource.  In [Concurrent] a goroutine has at most six steps, and
    a measure over all goroutines ([remaining]) bounds every run.  All other
    functions are structural.

    ** What is not modelled

    Decoding of Kubernetes objects, JSON and YAML codecs, controller-runtime's
    constructors, the API server (the one that calls the webhooks, in [ApiServer],
    and the one that [PodImageSpec] asks), the authority part of URLs, HTTP transport, the file system and the environment are parameters; the
    classes that declare them state as laws what the code relies on.  Logging,
    the metrics library, the TLS handshake and certificate pools, scheme
    registration, the FIPS build tag,
    the end-to-end tests and the build files are left out.  What becomes of a call
    that times out or panics is decided by the API server and the failure policy
    of the configuration, and is not followed further. *)

From stdpp Require Export base gmap strings list fin_maps.
From Corelib Require Export ssreflect.
From Stdlib Require Export ZArith Lia.
From Stdlib Require Export Ascii.

#[export] Set Default Goal Selector "!".
#[export] Set Warnings "-rewrite-rw,-clear-no-such-hyp,-notation-overridden".

(** ** Scopes and databases of the development *)

Declare Scope go_scope.
Delimit Scope go_scope with go.

(** [go_bool] rewrites the boolean primitives of Go (string comparison,
    [slices.Contains], [strings.HasPrefix], ...) into propositions. *)
Create Rewrite HintDb go_bool.
Create HintDb webhook.

(** ** Results and panics *)

(** Go's [error] values are only ever inspected for being nil or printed, so
    an error is its message. *)
Abbreviation error := string (only parsing).

(** A Go function that returns [(T, error)] and whose callers look at [T] only
    when the error is nil. *)
Inductive result (A : Type) : Type :=
  | Ok (a : A)
  | Err (e : error).
Arguments Ok {A} a.
Arguments Err {A} e.

(** A computation that either returns or stops with a run-time panic (a nil
    pointer dereference in all the cases below). *)
Inductive outcome (A : Type) : Type :=
  | Returned (a : A)
  | Panicked (why : string).
Arguments Returned {A} a.
Arguments Panicked {A} why.

#[export] Instance outcome_ret : MRet outcome := @Returned.
#[export] Instance outcome_bind : MBind outcome := λ A B f m,
  match m with Returned a => f a | Panicked w => Panicked w end.

(** How a process ends: with os.Exit, or with a panic that nobody recovers. *)
Inductive ending := Exit (code : Z) | Crash (why : string).

(** Dereferencing a Go pointer. *)
Definition nilDereference : string := "invalid memory address or nil pointer dereference".
Definition deref {A} (p : option A) : outcome A :=
  match p with Some a => Returned a | None => Panicked nilDereference end.

(** ** Tactics *)

(** [atomic_scrutinee x]: [x] has no undecided branching inside. *)
Ltac atomic_scrutinee x :=
  lazymatch x with
  | context [if _ then _ else _] => fail
  | context [match _ with Ok _ => _ | Err _ => _ end] => fail
  | _ => idtac
  end.

(** Splits every [if] and every [match] on a result or an option that blocks
    the goal, innermost first, keeping the equations. *)
Ltac split_ifs :=
  repeat match goal with
  | |- context [if ?b then _ else _] =>
      atomic_scrutinee b; let E := fresh "E" in destruct b eqn:E; simpl
  | |- context [match ?x with Ok _ => _ | Err _ => _ end] =>
      atomic_scrutinee x; let E := fresh "E" in destruct x eqn:E; simpl
  | |- context [match ?x with Some _ => _ | None => _ end] =>
      atomic_scrutinee x; let E := fresh "E" in destruct x eqn:E; simpl
  end.

(** A computation whose only panic is a nil dereference. *)
Definition nil_only {A} (o : outcome A) : Prop := ∀ why, o = Panicked why → why = nilDereference.

Lemma nil_only_returned {A} (a : A) : nil_only (Returned a).
Proof. by intros why. Qed.

Lemma nil_only_deref {A} (p : option A) : nil_only (deref p).
Proof. destruct p; by intros why [= <-]. Qed.

Lemma nil_only_bind {A B} (o : outcome A) (f : A → outcome B) :
  nil_only o → (∀ a, nil_only (f a)) → nil_only (o ≫= f).
Proof. intros Ho Hf. destruct o as [a|w]; [apply Hf|]. intros why [= <-]. by apply Ho. Qed.

(** Walks through a function in the monad of panics. *)
Ltac solve_nil_only :=
  repeat first
    [ apply nil_only_returned | apply nil_only_deref | assumption
    | apply nil_only_bind; [|intros ?]
    | match goal with
      | |- nil_only (if ?b then _ else _) => destruct b
      | |- nil_only (match ?x with _ => _ end) => destruct x
      | |- nil_only (let '(_, _) := ?x in _) => destruct x
      end ].

(** Removes negations from boolean hypotheses. *)
Ltac norm_negb :=
  repeat match goal with
  | H : negb _ = true |- _ => apply negb_true_iff in H
  | H : negb _ = false |- _ => apply negb_false_iff in H
  end.

(** ** Booleans *)

Lemma bool_iff (b : bool) (P : Prop) : (b = true ↔ P) → (b = false ↔ ¬ P).
Proof. destruct b; intuition congruence. Qed.

Lemma bool_eq_iff (b c : bool) : (b = true ↔ c = true) → b = c.
Proof. destruct b, c; intuition congruence. Qed.

(** ** Strings as byte sequences *)

#[global] Arguments String.append : simpl nomatch.

Lemma str_app_nil_r (s : string) : s +:+ "" = s.
Proof. induction s as [|c s IH]; simpl; congruence. Qed.

Lemma str_app_assoc (a b c : string) : a +:+ (b +:+ c) = (a +:+ b) +:+ c.
Proof. induction a as [|x a IH]; simpl; congruence. Qed.

Lemma str_length_app (a b : string) :
  String.length (a +:+ b) = String.length a + String.length b.
Proof. induction a as [|x a IH]; simpl; congruence. Qed.

Lemma str_app_inj_r (a b c : string) : a +:+ c = b +:+ c → a = b.
Proof.
  revert b. induction a as [|x a IH]; intros [|y b] E; simpl in *.
  - done.
  - apply (f_equal String.length) in E. simpl in E. rewrite str_length_app in E. lia.
  - apply (f_equal String.length) in E. simpl in E. rewrite str_length_app in E. lia.
  - inv E. f_equal. by apply IH.
Qed.

Lemma str_app_inj_l (a b c : string) : a +:+ b = a +:+ c → b = c.
Proof. induction a as [|x a IH]; simpl; intros E; [done|]. inv E. auto. Qed.

Lemma str_length_0 (s : string) : String.length s = 0 ↔ s = "".
Proof. by destruct s. Qed.

(** The characters of a string, as a list. *)
Fixpoint chars (s : string) : list ascii :=
  match s with EmptyString => [] | String c s' => c :: chars s' end.

Lemma chars_app (a b : string) : chars (a +:+ b) = chars a ++ chars b.
Proof. induction a as [|c a IH]; simpl; congruence. Qed.

(** [all_chars p s]: every byte of [s] satisfies [p]. *)
Fixpoint all_chars (p : ascii → bool) (s : string) : bool :=
  match s with EmptyString => true | String c s' => p c && all_chars p s' end.

Lemma all_chars_app p (a b : string) :
  all_chars p (a +:+ b) = all_chars p a && all_chars p b.
Proof. induction a as [|c a IH]; simpl; [done|]. by rewrite IH andb_assoc. Qed.

Lemma all_chars_impl (p q : ascii → bool) (s : string) :
  (∀ c, p c = true → q c = true) → all_chars p s = true → all_chars q s = true.
Proof.
  intros Hpq. induction s as [|c s IH]; simpl; [done|].
  rewrite !andb_true_iff. naive_solver.
Qed.

Lemma substring_app (a b : string) : String.substring 0 (String.length a) (a +:+ b) = a.
Proof. induction a as [|c a IH]; simpl; [by destruct b|]. by rewrite IH. Qed.

(** ** Lists *)

(** Two filters of one list, the first implying the second, that keep equally
    many elements keep the same ones. *)
Lemma filter_length_le {A} (p q : A → bool) (l : list A) :
  (∀ x, List.In x l → p x = true → q x = true) →
  length (List.filter p l) ≤ length (List.filter q l).
Proof.
  induction l as [|a l IH]; simpl; intros Hpq; [done|].
  specialize (IH (λ x Hx, Hpq x (or_intror Hx))). pose proof (Hpq a (or_introl eq_refl)) as Ha.
  destruct (p a); simpl.
  - rewrite (Ha eq_refl). simpl. lia.
  - destruct (q a); simpl; lia.
Qed.

Lemma filter_same_length {A} (p q : A → bool) (l : list A) x :
  (∀ x, List.In x l → p x = true → q x = true) →
  length (List.filter p l) = length (List.filter q l) →
  List.In x l → p x = q x.
Proof.
  induction l as [|a l IH]; simpl; intros Hpq Hlen; [done|].
  pose proof (filter_length_le p q l (λ x Hx, Hpq x (or_intror Hx))) as Hle.
  specialize (IH (λ x Hx, Hpq x (or_intror Hx))). pose proof (Hpq a (or_introl eq_refl)) as Ha.
  destruct (p a) eqn:Ep, (q a) eqn:Eq; simpl in *; try lia; try (discriminate (Ha eq_refl));
    (intros [<-|Hx]; [congruence|]); apply IH; [lia|done|lia|done].
Qed.

Lemma existsb_elem_of {A} (p : A → bool) (l : list A) :
  existsb p l = true ↔ ∃ x, x ∈ l ∧ p x = true.
Proof. rewrite existsb_exists. by setoid_rewrite list_elem_of_In. Qed.

Lemma filter_nil_iff {A} (p : A → bool) (l : list A) :
  List.filter p l = [] ↔ ∀ x, x ∈ l → p x = false.
Proof.
  induction l as [|a l IH]; simpl; [split; [intros _ x Hx; by apply not_elem_of_nil in Hx|done]|].
  setoid_rewrite elem_of_cons. destruct (p a) eqn:E.
  - split; [done|]. intros Hx. rewrite Hx in E; auto. done.
  - rewrite IH. split; [intros Hx x [->|Hin]; auto|auto].
Qed.

Lemma filter_idem {A} (p : A → bool) (l : list A) : List.filter p (List.filter p l) = List.filter p l.
Proof.
  induction l as [|a l IH]; simpl; [done|]. destruct (p a) eqn:E; simpl; [|done]. by rewrite E IH.
Qed.

Lemma filter_negb_nil {A} (p : A → bool) (l : list A) :
  List.filter p (List.filter (λ x, negb (p x)) l) = [].
Proof.
  induction l as [|a l IH]; simpl; [done|]. destruct (p a) eqn:E; simpl; [done|]. by rewrite E.
Qed.

(** When only one element of a list yields anything, the first result is its
    first result. *)
Lemma hd_flat_map_unique {A B} (f : A → list B) (l : list A) (x : A) :
  List.In x l → f x ≠ [] → (∀ y, List.In y l → f y ≠ [] → y = x) →
  List.hd_error (flat_map f l) = List.hd_error (f x).
Proof.
  induction l as [|a l IH]; simpl; [done|]. intros Hin Hx Hu.
  destruct (f a) as [|b bs] eqn:Ea.
  - simpl. apply IH; [|done|auto]. destruct Hin as [->|Hin]; [congruence|done].
  - assert (a = x) as -> by (apply Hu; [auto|congruence]). by rewrite Ea.
Qed.

Lemma existsb_false {A} (p : A → bool) (l : list A) :
  existsb p l = false ↔ ∀ x, x ∈ l → p x = false.
Proof.
  rewrite (bool_iff _ _ (existsb_elem_of p l)). split.
  - intros Hn x Hx. apply not_true_iff_false. intros Hp. apply Hn. eauto.
  - intros Hall (x & Hx & Hp). rewrite (Hall x Hx) in Hp. done.
Qed.
