(* ===== verification/Process.v ===== *)
(** * A process that prints, writes files and exits

    The monad of a [main] function: what has been printed and written stays when
    the process ends in the middle, by os.Exit or by a panic. *)

From S2P Require Import Prelude.

(** What the process has done: the lines on standard output and the files, with
    their contents. *)
Record Effects := { lines : list string; files : list (string * string) }.

Definition nothing : Effects := {| lines := []; files := [] |}.

Definition process (A : Type) : Type := Effects → (ending + A) * Effects.

#[export] Instance process_ret : MRet process := λ A a e, (inr a, e).
#[export] Instance process_bind : MBind process := λ A B f m e,
  match m e with (inr a, e') => f a e' | (inl s, e') => (inl s, e') end.

Definition stop {A} (s : ending) : process A := λ e, (inl s, e).

Definition Println (line : string) : process unit :=
  λ e, (inr (), {| lines := lines e ++ [line]; files := files e |}).

(** A file that has been written. *)
Definition wrote (path text : string) : process unit :=
  λ e, (inr (), {| lines := lines e; files := files e ++ [(path, text)] |}).

Definition when (b : bool) (p : process unit) : process unit := if b then p else mret ().

(** Nobody recovers from a panic of [main]. *)
Definition unrecovered {A} (o : outcome A) : process A :=
  match o with Returned a => mret a | Panicked why => stop (Crash why) end.

(** ** Running *)

Lemma bind_runs {A B} (m : process A) (f : A → process B) e a e' : m e = (inr a, e') → (m ≫= f) e = f a e'.
Proof. intros E. unfold mbind, process_bind. by rewrite E. Qed.

Lemma bind_stops {A B} (m : process A) (f : A → process B) e s e' : m e = (inl s, e') → (m ≫= f) e = (inl s, e').
Proof. intros E. unfold mbind, process_bind. by rewrite E. Qed.

(** Printing nothing, or one line. *)
Lemma when_Println b line e :
  when b (Println line) e = (inr (), {| lines := lines e ++ (if b then [line] else []); files := files e |}).
Proof. destruct b; [done|]. cbn. rewrite app_nil_r. by destruct e. Qed.
