(* ===== verification/GoStrings.v ===== *)
(** * The parts of Go's [strings], [slices], [strconv] and [fmt] the webhooks use

    Go strings are byte sequences; they are Rocq strings (lists of 8-bit
    [ascii]).  Every function below is the executable counterpart of a
    standard-library call that occurs in the sources, with the lemma that
    characterises it.  Machine integers are [Z] with the wrap-around written
    out ([u64]). *)

From S2P Require Import Prelude.

(** ** slices.Contains *)

Fixpoint Contains (haystack : list string) (needle : string) : bool :=
  match haystack with
  | [] => false
  | h :: rest => if String.eqb needle h then true else Contains rest needle
  end.

Lemma Contains_iff (l : list string) (x : string) : Contains l x = true ↔ x ∈ l.
Proof.
  induction l as [|y l IH]; simpl; [set_solver|].
  destruct (String.eqb_spec x y) as [->|Hne]; set_solver.
Qed.

Lemma Contains_false (l : list string) (x : string) : Contains l x = false ↔ x ∉ l.
Proof. apply bool_iff, Contains_iff. Qed.

(** ** strings.HasPrefix, HasSuffix, Contains *)

Fixpoint HasPrefix (s prefix : string) : bool :=
  match prefix, s with
  | EmptyString, _ => true
  | String p prefix', String c s' => if Ascii.eqb c p then HasPrefix s' prefix' else false
  | String _ _, EmptyString => false
  end.

Lemma HasPrefix_iff (s p : string) : HasPrefix s p = true ↔ ∃ r, s = p +:+ r.
Proof.
  revert s. induction p as [|a p IH]; intros s; simpl.
  - split; [by exists s|by destruct s].
  - destruct s as [|c s]; simpl; [split; [done|by intros [r [=]]]|].
    destruct (Ascii.eqb_spec c a) as [->|Hne].
    + rewrite IH. split; intros [r E]; exists r; simpl in *; congruence.
    + split; [done|]. intros [r [=]]. congruence.
Qed.

Lemma HasPrefix_app (p r : string) : HasPrefix (p +:+ r) p = true.
Proof. apply HasPrefix_iff. eauto. Qed.

Lemma HasPrefix_refl (p : string) : HasPrefix p p = true.
Proof. apply HasPrefix_iff. exists "". by rewrite str_app_nil_r. Qed.

Definition HasSuffix (s suffix : string) : bool :=
  HasPrefix (String.rev s) (String.rev suffix).

(** [strings.Contains(s, substr)] *)
Fixpoint ContainsSub (s substr : string) : bool :=
  HasPrefix s substr ||
  match s with EmptyString => false | String _ s' => ContainsSub s' substr end.

Lemma ContainsSub_iff (s sub : string) :
  ContainsSub s sub = true ↔ ∃ a b, s = a +:+ sub +:+ b.
Proof.
  induction s as [|c s IH]; cbn [ContainsSub].
  - rewrite orb_false_r HasPrefix_iff. split.
    + intros [r E]. by exists "", r.
    + intros ([|] & b & E); simpl in *; [by exists b|done].
  - rewrite orb_true_iff HasPrefix_iff IH. split.
    + intros [[r E]|(a & b & ->)]; [by exists "", r|by exists (String c a), b].
    + intros ([|x a] & b & E); simpl in *; [left; by exists b|].
      right. inv E. eauto.
Qed.

(** ** strings.Split and strings.Join *)

(** [strings.Split(s, sep)] for a separator of one byte. *)
Fixpoint Split (s : string) (sep : ascii) : list string :=
  match s with
  | EmptyString => [EmptyString]
  | String c s' =>
      if Ascii.eqb c sep then EmptyString :: Split s' sep
      else match Split s' sep with
           | [] => []
           | w :: ws => String c w :: ws
           end
  end.

(** [strings.Split(s, "")] explodes [s] into its characters (bytes here; the
    flags it is applied to are ASCII), and the empty string into no word. *)
Fixpoint Explode (s : string) : list string :=
  match s with EmptyString => [] | String c s' => String c EmptyString :: Explode s' end.

Fixpoint Join (elems : list string) (sep : string) : string :=
  match elems with
  | [] => ""
  | [w] => w
  | w :: ws => w +:+ sep +:+ Join ws sep
  end.

Definition no_char (sep : ascii) (w : string) : bool :=
  all_chars (λ c, negb (Ascii.eqb c sep)) w.

Lemma Split_nonempty s sep : Split s sep ≠ [].
Proof.
  induction s as [|c s IH]; simpl; [done|].
  destruct (Ascii.eqb c sep); [done|]. by destruct (Split s sep).
Qed.

Lemma Split_no_sep s sep : Forall (λ w, no_char sep w = true) (Split s sep).
Proof.
  induction s as [|c s IH]; simpl; [by constructor|].
  destruct (Ascii.eqb c sep) eqn:E; [by constructor|].
  destruct (Split s sep) as [|w ws]; [done|]. inv IH. constructor; [|done].
  unfold no_char in *. simpl. by rewrite E.
Qed.

Lemma Join_cons w ws sep : ws ≠ [] → Join (w :: ws) sep = w +:+ sep +:+ Join ws sep.
Proof. by destruct ws. Qed.

(** Joining what was split gives the string back. *)
Lemma Join_Split s sep : Join (Split s sep) (String sep "") = s.
Proof.
  induction s as [|c s IH]; [done|]. simpl.
  pose proof (Split_nonempty s sep) as Hne.
  destruct (Ascii.eqb_spec c sep) as [->|Hc].
  - rewrite Join_cons; [done|]. simpl. by rewrite IH.
  - destruct (Split s sep) as [|w ws] eqn:E; [done|].
    destruct ws as [|w' ws]; simpl in *; congruence.
Qed.

Lemma Split_word w sep : no_char sep w = true → Split w sep = [w].
Proof.
  unfold no_char. induction w as [|c w IH]; simpl; [done|].
  rewrite andb_true_iff negb_true_iff. intros [-> Hw]. by rewrite IH.
Qed.

Lemma Split_app_sep w s sep :
  no_char sep w = true → Split (w +:+ String sep s) sep = w :: Split s sep.
Proof.
  unfold no_char. induction w as [|c w IH]; simpl; [by rewrite Ascii.eqb_refl|].
  rewrite andb_true_iff negb_true_iff. intros [-> Hw]. by rewrite IH.
Qed.

(** Splitting what was joined gives the words back, when no word holds the
    separator. *)
Lemma Split_Join ws sep :
  ws ≠ [] → Forall (λ w, no_char sep w = true) ws →
  Split (Join ws (String sep "")) sep = ws.
Proof.
  intros Hne Hall. induction Hall as [|w ws Hw Hws IH]; [done|].
  destruct ws as [|w' ws]; [by apply Split_word|].
  rewrite Join_cons; [done|]. simpl. rewrite Split_app_sep; [done|]. by rewrite IH.
Qed.

(** ** strings.NewReplacer("~", "~0", "/", "~1").Replace: RFC 6901 escaping *)

Fixpoint rfc6901Encoder (s : string) : string :=
  match s with
  | EmptyString => ""
  | String c s' =>
      (if Ascii.eqb c "~"%char then "~0"
       else if Ascii.eqb c "/"%char then "~1"
       else String c "") +:+ rfc6901Encoder s'
  end.

(** ** fmt: the [%v] / [%s] rendering of a []string *)

Definition fmt_list (l : list string) : string := "[" +:+ Join l " " +:+ "]".
#[global] Arguments fmt_list : simpl never.

(** ** strconv.ParseUint(s, 10, 0) on a 64-bit platform *)

Definition max_u64 : Z := 2 ^ 64 - 1.

(** Unsigned 64-bit wrap-around. *)
Definition u64 (z : Z) : Z := z mod 2 ^ 64.

Definition is_digit (c : ascii) : bool :=
  let n := N_of_ascii c in N.leb 48 n && N.leb n 57.

Definition digit_val (c : ascii) : Z := Z.of_N (N_of_ascii c) - 48.

Fixpoint digits_val (acc : Z) (s : string) : Z :=
  match s with EmptyString => acc | String c s' => digits_val (acc * 10 + digit_val c) s' end.

Definition ParseUint (s : string) : result Z :=
  if String.eqb s "" then Err "invalid syntax"
  else if negb (all_chars is_digit s) then Err "invalid syntax"
  else let v := digits_val 0 s in
       if (v <=? max_u64)%Z then Ok v else Err "value out of range".

Lemma digit_val_bounds c : is_digit c = true → (0 ≤ digit_val c ≤ 9)%Z.
Proof. unfold is_digit, digit_val. rewrite andb_true_iff !N.leb_le. lia. Qed.

Lemma digits_val_nonneg s acc :
  all_chars is_digit s = true → (0 ≤ acc)%Z → (acc ≤ digits_val acc s)%Z.
Proof.
  revert acc. induction s as [|c s IH]; intros acc; simpl; [lia|].
  rewrite andb_true_iff. intros [Hc Hs] Hacc.
  pose proof (digit_val_bounds c Hc). specialize (IH (acc * 10 + digit_val c)%Z Hs). lia.
Qed.

Lemma ParseUint_digits s :
  s ≠ "" → all_chars is_digit s = true →
  ParseUint s = if (digits_val 0 s <=? max_u64)%Z then Ok (digits_val 0 s) else Err "value out of range".
Proof. intros Hne Hs. unfold ParseUint. apply String.eqb_neq in Hne. by rewrite Hne Hs. Qed.

Lemma ParseUint_bounds s n : ParseUint s = Ok n → (0 ≤ n ≤ max_u64)%Z.
Proof.
  unfold ParseUint. destruct (String.eqb s ""); [done|].
  destruct (all_chars is_digit s) eqn:Hs; [simpl|done].
  destruct (Z.leb_spec (digits_val 0 s) max_u64); [|done].
  intros [= <-]. pose proof (digits_val_nonneg s 0 Hs). lia.
Qed.

#[export] Hint Rewrite Contains_iff Contains_false HasPrefix_iff ContainsSub_iff
  andb_true_iff orb_true_iff negb_true_iff String.eqb_eq String.eqb_neq : go_bool.

(** ** Where a separator stands *)

Lemma no_char_cons c x w : no_char c (String x w) = true ↔ x ≠ c ∧ no_char c w = true.
Proof. unfold no_char. simpl. by rewrite andb_true_iff negb_true_iff Ascii.eqb_neq. Qed.

(** Between words without the separator there is only one place for it. *)
Lemma only_separator c a z w y :
  no_char c a = true → no_char c z = true →
  w +:+ String c y = a +:+ String c z → w = a.
Proof.
  intros Ha Hz. revert w Ha. induction a as [|x a IH]; intros [|v w] Ha E; simpl in *.
  - done.
  - inv E. exfalso. revert Hz. clear. induction w as [|v w IH]; simpl.
    + by intros [? _]%no_char_cons.
    + by intros [_ Hz]%no_char_cons; apply IH.
  - inv E. by apply no_char_cons in Ha as [? _].
  - inv E. apply no_char_cons in Ha as [_ Ha]. f_equal. by apply IH.
Qed.

(** The first separator. *)
Lemma first_separator c a b y z :
  no_char c a = true → no_char c b = true → a +:+ String c y = b +:+ String c z → a = b.
Proof.
  revert b. induction a as [|x a IH]; intros [|v b] Ha Hb E; simpl in *.
  - done.
  - inv E. by apply no_char_cons in Hb as [? _].
  - inv E. by apply no_char_cons in Ha as [? _].
  - inv E. apply no_char_cons in Ha as [_ Ha], Hb as [_ Hb]. f_equal. by apply IH.
Qed.

(** ** The last word of a split *)

Lemma Split_snoc p w c : no_char c w = true → Split (p +:+ String c w) c = Split p c ++ [w].
Proof.
  intros Hw. induction p as [|x p IH]; simpl.
  - rewrite Ascii.eqb_refl. by rewrite Split_word.
  - destruct (Ascii.eqb x c); [by rewrite IH|]. rewrite IH.
    pose proof (Split_nonempty p c). by destruct (Split p c).
Qed.

Lemma last_separator s c :
  no_char c s = true ∨ ∃ p w, s = p +:+ String c w ∧ no_char c w = true.
Proof.
  induction s as [|x s IH]; [by left|]. destruct IH as [Hs|(p & w & -> & Hw)].
  - destruct (Ascii.eqb_spec x c) as [->|Hx]; [right; by exists "", s|left; by apply no_char_cons].
  - right. by exists (String x p), w.
Qed.

Lemma nth_snoc {A} (l : list A) x d : nth (length (l ++ [x]) - 1) (l ++ [x]) d = x.
Proof.
  rewrite length_app. cbn [length]. rewrite Nat.add_sub.
  induction l as [|a l IH]; [done|exact IH].
Qed.

Lemma Split_last s c w :
  no_char c w = true →
  nth (length (Split s c) - 1) (Split s c) "" = w ↔ s = w ∨ ∃ p, s = p +:+ String c w.
Proof.
  intros Hw. split.
  - destruct (last_separator s c) as [Hs|(p & v & -> & Hv)].
    + rewrite (Split_word _ _ Hs). by left.
    + rewrite (Split_snoc _ _ _ Hv) nth_snoc. intros <-. eauto.
  - intros [->|[p ->]]; [by rewrite (Split_word _ _ Hw)|].
    by rewrite (Split_snoc _ _ _ Hw) nth_snoc.
Qed.
