(* ===== verification/RegexpTheory.v ===== *)
(** * What the compiled expressions match

    [matches] is the declarative meaning of an expression; [run_iff] shows that
    the backtracking matcher of [Regexp] enumerates exactly its end states, and
    [Match_iff] that [Match] decides whether some part of the text matches.
    The [accepts_*] equivalences turn a concrete expression into a statement
    about the text; they form the rewrite database [regexp]. *)

From S2P Require Import Prelude GoStrings Regexp.

Create Rewrite HintDb regexp.

(** ** Declarative semantics *)

Inductive matches : re → mstate → mstate → Prop :=
  | M_eps st : matches REps st st
  | M_set cs i c s k :
      cset_mem cs c = true →
      matches (RSet cs) (MState i (String c s) k) (MState (S i) s k)
  | M_begin s k : matches RBegin (MState 0 s k) (MState 0 s k)
  | M_end i k : matches REnd (MState i "" k) (MState i "" k)
  | M_cat r1 r2 st st1 st2 :
      matches r1 st st1 → matches r2 st1 st2 → matches (RCat r1 r2) st st2
  | M_alt_l r1 r2 st st' : matches r1 st st' → matches (RAlt r1 r2) st st'
  | M_alt_r r1 r2 st st' : matches r2 st st' → matches (RAlt r1 r2) st st'
  | M_star_nil r st : matches (RStar r) st st
  | M_star_cons r st st1 st2 :
      matches r st st1 → progress st st1 = true →
      matches (RStar r) st1 st2 → matches (RStar r) st st2
  | M_group i r st st' : matches r st st' → matches (RGroup i r) st (with_cap i st st').

#[export] Hint Constructors matches : webhook.

(** ** The matcher is sound and complete *)

Lemma star_run_sound r n st st' :
  (∀ st st', List.In st' (run r st) → matches r st st') →
  List.In st' (star_run (run r) n st) → matches (RStar r) st st'.
Proof.
  intros IH. revert st. induction n as [|n IHn]; intros st; simpl.
  { intros [->|[]]. constructor. }
  rewrite in_app_iff in_flat_map. intros [(st1 & Hin & Hst1)|[->|[]]]; [|constructor].
  apply filter_In in Hin as [Hin Hp]. econstructor; eauto.
Qed.

Lemma run_sound r st st' : List.In st' (run r st) → matches r st st'.
Proof.
  revert st st'. induction r; intros st st'; simpl.
  - intros [->|[]]. constructor.
  - destruct st as [i [|c s] k]; simpl; [done|].
    destruct (cset_mem cs c) eqn:E; [|done]. intros [<-|[]]. by constructor.
  - destruct (Nat.eqb_spec (m_pos st) 0) as [E|]; [|done]. intros [->|[]].
    destruct st'; simpl in *; subst. constructor.
  - destruct st as [i [|c s] k]; simpl; [|done]. intros [<-|[]]. constructor.
  - rewrite in_flat_map. intros (st1 & H1 & H2). econstructor; eauto.
  - rewrite in_app_iff. intros [H|H]; [apply M_alt_l|apply M_alt_r]; auto.
  - apply star_run_sound, IHr.
  - rewrite in_map_iff. intros (st1 & <- & H). constructor; auto.
Qed.

Lemma star_run_mono r n st st' :
  List.In st' (star_run (run r) n st) → List.In st' (star_run (run r) (S n) st).
Proof.
  revert st. induction n as [|n IH]; intros st H.
  { simpl in H. destruct H as [->|[]]. simpl. rewrite in_app_iff. right. by left. }
  cbn [star_run] in H. rewrite in_app_iff in_flat_map in H.
  cbn [star_run]. rewrite in_app_iff in_flat_map.
  destruct H as [(st1 & H1 & H2)|H]; [|by right]. left. exists st1. split; [done|].
  by apply IH.
Qed.

Lemma star_run_le r n m st st' :
  n ≤ m → List.In st' (star_run (run r) n st) → List.In st' (star_run (run r) m st).
Proof. intros Hle. induction Hle; auto using star_run_mono. Qed.

Lemma star_run_complete r st st' :
  (∀ st st', matches r st st' → List.In st' (run r st)) →
  matches (RStar r) st st' →
  List.In st' (star_run (run r) (String.length (m_rest st)) st).
Proof.
  intros IH H. remember (RStar r) as rs eqn:Ers.
  induction H as [| | | | | | |r0 st|r0 st st1 st2 H1 _ Hp H2 IH2|]; try done.
  - destruct (String.length (m_rest st)); simpl; [by left|].
    rewrite in_app_iff. right. by left.
  - injection Ers as ->. specialize (IH2 eq_refl).
    unfold progress in Hp. pose proof (proj1 (Nat.ltb_lt _ _) Hp) as Hlt.
    destruct (String.length (m_rest st)) as [|n] eqn:En; [lia|].
    cbn [star_run]. rewrite in_app_iff in_flat_map. left. exists st1. split.
    + apply filter_In. split; [by apply IH|]. unfold progress. by rewrite En.
    + eapply star_run_le; [|exact IH2]. lia.
Qed.

Lemma run_complete r st st' : matches r st st' → List.In st' (run r st).
Proof.
  revert st st'. induction r; intros st st' H.
  - inv H. by left.
  - inversion H as [|cs' i c s k Hc| | | | | | | |]; subst. simpl. rewrite Hc. by left.
  - inv H. by left.
  - inv H. by left.
  - inv H. simpl. rewrite in_flat_map. eauto.
  - inv H; simpl; rewrite in_app_iff; auto.
  - by apply star_run_complete.
  - inv H. simpl. rewrite in_map_iff. eauto.
Qed.

Lemma run_iff r st st' : List.In st' (run r st) ↔ matches r st st'.
Proof. split; [apply run_sound|apply run_complete]. Qed.

(** ** Searching: a match may start anywhere *)

Lemma starts_iff i s st :
  List.In st (starts i s) ↔ ∃ a b, s = a +:+ b ∧ st = MState (i + String.length a) b [].
Proof.
  revert i. induction s as [|c s IH]; intros i; simpl.
  - split.
    + intros [<-|[]]. exists "", "". by rewrite Nat.add_0_r.
    + intros ([|x a] & b & E & ->); simpl in *; [|done]. left. by rewrite Nat.add_0_r -E.
  - rewrite IH. split.
    + intros [<-|(a & b & -> & ->)].
      * exists "", (String c s). by rewrite Nat.add_0_r.
      * exists (String c a), b. simpl. split; [done|]. f_equal. lia.
    + intros ([|x a] & b & E & ->); simpl in *.
      * left. by rewrite Nat.add_0_r E.
      * right. inv E. exists a, b. split; [done|]. f_equal. lia.
Qed.

Lemma hd_error_in {A} (l : list A) x : List.hd_error l = Some x → List.In x l.
Proof. destruct l; simpl; [done|]. intros [= ->]. by left. Qed.

Lemma find_match_sound r s st st' :
  find_match r s = Some (st, st') →
  ∃ a b, s = a +:+ b ∧ st = MState (String.length a) b [] ∧ matches r st st'.
Proof.
  unfold find_match. intros H%hd_error_in.
  apply in_flat_map in H as (st0 & Hst & Hin). apply in_map_iff in Hin as (st1 & [= -> ->] & Hin).
  apply starts_iff in Hst as (a & b & -> & ->). exists a, b. by repeat split; [..|apply run_sound].
Qed.

Lemma find_match_None r s :
  find_match r s = None ↔ ∀ a b st', s = a +:+ b → ¬ matches r (MState (String.length a) b []) st'.
Proof.
  unfold find_match. split.
  - intros H a b st' -> Hm. apply run_complete in Hm.
    assert (List.In (MState (String.length a) b [], st')
      (flat_map (λ st, List.map (pair st) (run r st)) (starts 0 (a +:+ b)))) as Hin.
    { apply in_flat_map. exists (MState (String.length a) b []). split.
      - apply starts_iff. eauto.
      - by apply in_map. }
    by destruct (flat_map _ _).
  - intros H. destruct (flat_map _ _) as [|[st st'] l] eqn:E; [done|]. exfalso.
    assert (find_match r s = Some (st, st')) as Hf by exact (f_equal List.hd_error E).
    apply find_match_sound in Hf as (a & b & Hs & -> & Hm). exact (H a b st' Hs Hm).
Qed.

(** [accepts r i s]: some match of [r] starts at offset [i], with the text [s]
    to its right. *)
Definition accepts (r : re) (i : nat) (s : string) : Prop :=
  ∃ st', matches r (MState i s []) st'.

Lemma Match_iff rx s :
  Match rx s = true ↔ ∃ a b, s = a +:+ b ∧ accepts (prog rx) (String.length a) b.
Proof.
  unfold Match. destruct (find_match _ _) as [[st st']|] eqn:E.
  - apply find_match_sound in E as (a & b & -> & -> & Hm). unfold accepts. naive_solver.
  - rewrite find_match_None in E. split; [done|]. intros (a & b & -> & st' & Hm).
    by apply E in Hm.
Qed.

(** ** Submatches do not influence what is accepted *)

Lemma matches_caps r st st' :
  matches r st st' → ∀ d, ∃ d',
    matches r (MState (m_pos st) (m_rest st) d) (MState (m_pos st') (m_rest st') d').
Proof.
  induction 1 as [st| | | |r1 r2 st st1 st2 _ IH1 _ IH2|r1 r2 st st' _ IH|r1 r2 st st' _ IH
    |r st|r st st1 st2 _ IH1 Hp _ IH2|n r st st' _ IH]; intros d; simpl; eauto with webhook.
  - destruct (IH1 d) as [d1 H1], (IH2 d1) as [d2 H2]. eauto with webhook.
  - destruct (IH d); eauto with webhook.
  - destruct (IH d); eauto with webhook.
  - destruct (IH1 d) as [d1 H1], (IH2 d1) as [d2 H2]. exists d2.
    eapply M_star_cons; [exact H1|exact Hp|exact H2].
  - destruct (IH d) as [d1 H1]. eexists. exact (M_group n _ _ _ H1).
Qed.

Lemma accepts_any r i s c st' : matches r (MState i s c) st' → accepts r i s.
Proof. intros H. destruct (matches_caps _ _ _ H []) as [d' H']. eexists. exact H'. Qed.

(** ** Reading off what an expression accepts *)

Lemma accepts_eps i s : accepts REps i s ↔ True.
Proof. split; [done|]. intros _. eexists. constructor. Qed.

Lemma accepts_cat r k i s :
  accepts (RCat r k) i s ↔
  ∃ st1, matches r (MState i s []) st1 ∧ accepts k (m_pos st1) (m_rest st1).
Proof.
  split.
  - intros [st' H]. inversion H as [| | | |r1 r2 st st1 st2 H1 H2| | | | |]; subst.
    exists st1. split; [done|]. destruct st1. eapply accepts_any, H2.
  - intros ([j t c] & H1 & [st' H2]). destruct (matches_caps _ _ _ H2 c) as [d' H3].
    eexists. econstructor; [exact H1|exact H3].
Qed.

Lemma accepts_cat_eps k i s : accepts (RCat REps k) i s ↔ accepts k i s.
Proof.
  rewrite accepts_cat. split.
  - intros (st1 & H & Hk). by inv H.
  - intros H. exists (MState i s []). split; [constructor|exact H].
Qed.

Lemma accepts_cat_cat a b k i s :
  accepts (RCat (RCat a b) k) i s ↔ accepts (RCat a (RCat b k)) i s.
Proof.
  split.
  - intros [st' H]. inversion H as [| | | |? ? ? st1 ? Hab Hk| | | | |]; subst.
    inversion Hab as [| | | |? ? ? st2 ? Ha Hb| | | | |]; subst. eexists. eauto with webhook.
  - intros [st' H]. inversion H as [| | | |? ? ? st1 ? Ha Hbk| | | | |]; subst.
    inversion Hbk as [| | | |? ? ? st2 ? Hb Hk| | | | |]; subst. eexists. eauto with webhook.
Qed.

Lemma accepts_cat_alt a b k i s :
  accepts (RCat (RAlt a b) k) i s ↔ accepts (RCat a k) i s ∨ accepts (RCat b k) i s.
Proof.
  rewrite !accepts_cat. split.
  - intros (st1 & H & Hk). inv H; eauto.
  - intros [(st1 & H & Hk)|(st1 & H & Hk)]; eauto with webhook.
Qed.

Lemma accepts_alt a b i s : accepts (RAlt a b) i s ↔ accepts a i s ∨ accepts b i s.
Proof.
  unfold accepts. split.
  - intros [st' H]. inv H; eauto.
  - intros [[st' H]|[st' H]]; eauto with webhook.
Qed.

Lemma accepts_cat_group n r k i s :
  accepts (RCat (RGroup n r) k) i s ↔ accepts (RCat r k) i s.
Proof.
  rewrite !accepts_cat. split.
  - intros (st1 & H & Hk). inv H. eauto.
  - intros (st1 & H & Hk). eexists. split; [apply M_group, H|exact Hk].
Qed.

Lemma accepts_cat_begin k i s : accepts (RCat RBegin k) i s ↔ i = 0 ∧ accepts k i s.
Proof.
  rewrite accepts_cat. split.
  - intros (st1 & H & Hk). by inv H.
  - intros [-> H]. exists (MState 0 s []). split; [constructor|exact H].
Qed.

Lemma accepts_cat_end k i s : accepts (RCat REnd k) i s ↔ s = "" ∧ accepts k i s.
Proof.
  rewrite accepts_cat. split.
  - intros (st1 & H & Hk). by inv H.
  - intros [-> H]. exists (MState i "" []). split; [constructor|exact H].
Qed.

Lemma accepts_cat_set cs k i s :
  accepts (RCat (RSet cs) k) i s ↔
  ∃ c s', s = String c s' ∧ cset_mem cs c = true ∧ accepts k (S i) s'.
Proof.
  rewrite accepts_cat. split.
  - intros (st1 & H & Hk). inv H. eauto.
  - intros (c & s' & -> & Hc & Hk). eexists. split; [apply M_set, Hc|exact Hk].
Qed.

Lemma cset_mem_char c d : cset_mem (CSet false [(c, c)]) d = Ascii.eqb d c.
Proof.
  unfold cset_mem. cbn [cs_neg cs_ranges existsb]. rewrite xorb_false_l orb_false_r.
  unfold in_range. cbn [fst snd]. apply bool_eq_iff. rewrite andb_true_iff !N.leb_le Ascii.eqb_eq. split.
  - intros [H1 H2]. assert (N_of_ascii c = N_of_ascii d) as E by lia.
    by rewrite -(ascii_N_embedding c) -(ascii_N_embedding d) E.
  - by intros ->.
Qed.

Lemma accepts_lit w k i s :
  accepts (RLit w k) i s ↔ ∃ s', s = w +:+ s' ∧ accepts k (i + String.length w) s'.
Proof.
  revert i s. induction w as [|c w IH]; intros i s; simpl.
  - rewrite Nat.add_0_r. naive_solver.
  - unfold RChar. rewrite accepts_cat_set. setoid_rewrite cset_mem_char. split.
    + intros (d & t & -> & ->%Ascii.eqb_eq & Hk). apply IH in Hk as (s' & -> & Hk).
      exists s'. split; [done|]. by replace (i + S (String.length w)) with (S i + String.length w) by lia.
    + intros (s' & -> & Hk). exists c, (w +:+ s'). rewrite Ascii.eqb_refl IH.
      split; [done|]. split; [done|]. exists s'. split; [done|].
      by replace (S i + String.length w) with (i + S (String.length w)) by lia.
Qed.

Lemma accepts_cat_lit w k1 k2 i s :
  accepts (RCat (RLit w k1) k2) i s ↔
  ∃ s', s = w +:+ s' ∧ accepts (RCat k1 k2) (i + String.length w) s'.
Proof.
  revert i s. induction w as [|c w IH]; intros i s.
  - simpl. rewrite Nat.add_0_r. naive_solver.
  - change (RLit (String c w) k1) with (RCat (RChar c) (RLit w k1)).
    rewrite accepts_cat_cat (accepts_lit (String c "") (RCat (RLit w k1) k2)). simpl.
    setoid_rewrite IH. split.
    + intros (s1 & -> & s2 & -> & H). exists s2. split; [done|].
      by replace (i + S (String.length w)) with (i + 1 + String.length w) by lia.
    + intros (s2 & -> & H). exists (w +:+ s2). split; [done|]. exists s2. split; [done|].
      by replace (i + 1 + String.length w) with (i + S (String.length w)) by lia.
Qed.

(** A starred class consumes any run of its members. *)
Lemma matches_star_set cs i s c st' :
  matches (RStar (RSet cs)) (MState i s c) st' ↔
  ∃ w t, s = w +:+ t ∧ all_chars (cset_mem cs) w = true ∧ st' = MState (i + String.length w) t c.
Proof.
  split.
  - intros H. remember (RStar (RSet cs)) as r eqn:Er. remember (MState i s c) as st eqn:Est.
    revert i s Est. induction H as [| | | | | | |r0 st|r0 st st1 st2 H1 _ Hp H2 IH2|];
      try done; intros i s Est; subst.
    + exists "", s. simpl. by rewrite Nat.add_0_r.
    + injection Er as ->. inversion H1 as [|cs' j x s' k Hx| | | | | | | |]; subst.
      destruct (IH2 eq_refl (S i) s' eq_refl) as (w & t & -> & Hw & ->).
      exists (String x w), t. simpl. rewrite Hx Hw. split; [done|]. split; [done|]. f_equal. lia.
  - intros (w & t & -> & Hw & ->). revert i. induction w as [|x w IH]; intros i; simpl in *.
    + rewrite Nat.add_0_r. constructor.
    + apply andb_true_iff in Hw as [Hx Hw]. econstructor; [by constructor| |].
      * unfold progress. simpl. apply Nat.ltb_lt. lia.
      * replace (i + S (String.length w)) with (S i + String.length w) by lia. by apply IH.
Qed.

Lemma accepts_cat_star_set cs k i s :
  accepts (RCat (RStar (RSet cs)) k) i s ↔
  ∃ w t, s = w +:+ t ∧ all_chars (cset_mem cs) w = true ∧ accepts k (i + String.length w) t.
Proof.
  rewrite accepts_cat. setoid_rewrite matches_star_set. split.
  - intros (st1 & (w & t & -> & Hw & ->) & Hk). eauto.
  - intros (w & t & -> & Hw & Hk). eexists. split; [eauto|exact Hk].
Qed.

(** A counted class consumes exactly that many members. *)
Lemma accepts_cat_repeat_set n cs k i s :
  accepts (RCat (RRepeat n (RSet cs)) k) i s ↔
  ∃ w t, s = w +:+ t ∧ String.length w = n ∧ all_chars (cset_mem cs) w = true ∧
    accepts k (i + n) t.
Proof.
  revert i s. induction n as [|n IH]; intros i s; cbn [RRepeat].
  - rewrite accepts_cat_eps Nat.add_0_r. split.
    + intros H. by exists "", s.
    + by intros ([|] & t & -> & Hl & _ & H).
  - rewrite accepts_cat_cat accepts_cat_set. split.
    + intros (c & s' & -> & Hc & H). apply IH in H as (w & t & -> & Hl & Hw & H).
      exists (String c w), t. simpl. rewrite Hl Hc Hw.
      by replace (i + S n) with (S i + n) by lia.
    + intros (w & t & -> & Hl & Hw & H). destruct w as [|c w]; [done|]. simpl in *.
      apply andb_true_iff in Hw as [Hc Hw]. exists c, (w +:+ t). rewrite IH.
      split; [done|]. split; [done|]. exists w, t. replace (S i + n) with (i + S n) by lia.
      by injection Hl.
Qed.

(** Nothing to check after a starred class: it accepts. *)
Lemma accepts_cat_star_eps cs i s : accepts (RCat (RStar (RSet cs)) REps) i s ↔ True.
Proof.
  rewrite accepts_cat_star_set. split; [done|]. intros _. exists "", s. by rewrite accepts_eps.
Qed.

#[export] Hint Rewrite accepts_eps accepts_cat_star_eps accepts_cat_eps accepts_cat_cat accepts_cat_alt
  accepts_alt accepts_cat_group accepts_cat_begin accepts_cat_end accepts_lit accepts_cat_lit : regexp.

(** ** The shapes of the sources' patterns *)

Definition pat_exact (w : string) : re := RCat RBegin (RLit w (RCat REnd REps)).
Definition pat_prefix (w : string) : re := RCat RBegin (RLit w (RCat (RStar RAny) REps)).

Lemma Match_anchored r ns s :
  Match (MkRegexp (RCat RBegin r) ns) s = true ↔ accepts r 0 s.
Proof.
  rewrite Match_iff. simpl. setoid_rewrite accepts_cat_begin. split.
  - intros (a & b & -> & Ha & H). apply str_length_0 in Ha as ->. done.
  - intros H. by exists "", s.
Qed.

(** [^w$] matches the text [w] alone. *)
Lemma Match_exact w ns s : Match (MkRegexp (pat_exact w) ns) s = true ↔ s = w.
Proof.
  unfold pat_exact. rewrite Match_anchored accepts_lit.
  setoid_rewrite accepts_cat_end. setoid_rewrite accepts_eps. split.
  - intros (s' & -> & -> & _). apply str_app_nil_r.
  - intros ->. exists "". by rewrite str_app_nil_r.
Qed.

(** [^w.*] matches the texts that start with [w]. *)
Lemma Match_prefix w ns s : Match (MkRegexp (pat_prefix w) ns) s = true ↔ HasPrefix s w = true.
Proof.
  unfold pat_prefix, RAny. rewrite Match_anchored accepts_lit HasPrefix_iff.
  setoid_rewrite accepts_cat_star_eps. naive_solver.
Qed.

(** An expression with no anchor in front may match anywhere. *)
Lemma Match_lit_anywhere w ns s :
  Match (MkRegexp (RLit w REps) ns) s = true ↔ ContainsSub s w = true.
Proof.
  rewrite Match_iff ContainsSub_iff. simpl. setoid_rewrite accepts_lit.
  setoid_rewrite accepts_eps. naive_solver.
Qed.

(** ** Compiling literals *)

(** Bytes that stand for themselves. *)
Definition plain (w : string) : bool := all_chars (λ c, negb (is_meta c)) w.

Lemma parse_atom_plain f ns c s :
  is_meta c = false → parse_atom (S f) ns (String c s) = Some (RChar c, s, ns).
Proof.
  intros Hc. cbn [parse_atom].
  destruct c as [[] [] [] [] [] [] [] []]; first [discriminate Hc|reflexivity].
Qed.

Lemma parse_postfix_none a s : no_postfix s = true → parse_postfix a s = Some (a, s).
Proof.
  intros Hs. destruct s as [|[[] [] [] [] [] [] [] []] s]; first [discriminate Hs|reflexivity].
Qed.

Lemma is_meta_postfix c : is_meta c = false → is_postfix c = false.
Proof. destruct c as [[] [] [] [] [] [] [] []]; vm_compute; congruence. Qed.

Lemma parse_cat_plain f ns c s :
  is_meta c = false →
  parse_cat (S f) ns (String c s) =
    ('(a, s1, ns1) ← parse_atom f ns (String c s);
     '(a', s2) ← parse_postfix a s1;
     '(k, s3, ns2) ← parse_cat f ns1 s2;
     Some (RCat a' k, s3, ns2)).
Proof.
  intros Hc. cbn [parse_cat].
  destruct c as [[] [] [] [] [] [] [] []]; first [discriminate Hc|reflexivity].
Qed.

(** A run of plain bytes parses to a literal. *)
Lemma parse_cat_lit w f ns s :
  plain w = true → no_postfix s = true →
  parse_cat (String.length w + S f) ns (w +:+ s) =
    ('(k, s', ns') ← parse_cat (S f) ns s; Some (RLit w k, s', ns')).
Proof.
  intros Hw Hs. revert Hw. induction w as [|c w IH]; cbn -[parse_cat]; intros Hw.
  { by destruct (parse_cat (S f) ns s) as [[[? ?] ?]|]. }
  apply andb_true_iff in Hw as [Hc Hw]. apply negb_true_iff in Hc.
  rewrite parse_cat_plain; [done|].
  replace (String.length w + S f) with (S (String.length w + f)) at 1 by lia.
  rewrite parse_atom_plain; [done|]. cbn -[parse_cat].
  rewrite parse_postfix_none.
  { destruct w as [|d w]; [done|]. simpl in *. apply andb_true_iff in Hw as [Hd _].
    apply negb_true_iff in Hd. by rewrite is_meta_postfix. }
  cbn -[parse_cat]. rewrite (IH Hw). by destruct (parse_cat (S f) ns s) as [[[? ?] ?]|].
Qed.

Lemma MustCompile_caret w tail k ns :
  plain w = true → no_postfix tail = true → no_postfix (w +:+ tail) = true →
  (∀ f, 3 ≤ f → parse_cat f [""] tail = Some (k, "", ns)) →
  MustCompile ("^" +:+ w +:+ tail) = Some (MkRegexp (RCat RBegin (RLit w k)) ns).
Proof.
  intros Hw Ht Hwt Hk. unfold MustCompile.
  change (String.length ("^" +:+ w +:+ tail)) with (S (String.length (w +:+ tail))).
  rewrite str_length_app. set (n := String.length w). set (m := String.length tail).
  replace (3 + 2 * S (n + m)) with (S (S (n + S (2 + n + 2 * m)))) by lia.
  cbn [parse_alt String.append]. cbn [parse_cat].
  replace (parse_atom (n + S (2 + n + 2 * m)) [""] (String "^" (w +:+ tail)))
    with (Some (RBegin, w +:+ tail, [""])) by (rewrite Nat.add_succ_r; reflexivity).
  cbn -[parse_cat]. rewrite parse_postfix_none; [done|]. cbn -[parse_cat].
  subst n. rewrite parse_cat_lit; [done..|]. rewrite Hk; [lia|]. reflexivity.
Qed.

(** [^w$] for a plain [w]: what pkg/config/generate writes for a namespace. *)
Lemma MustCompile_exact w :
  plain w = true → MustCompile ("^" +:+ w +:+ "$") = Some (MkRegexp (pat_exact w) [""]).
Proof.
  intros Hw. apply MustCompile_caret; [done..| |].
  - destruct w as [|c w]; [done|]. simpl in *. apply andb_true_iff in Hw as [Hc _].
    apply negb_true_iff in Hc. by rewrite is_meta_postfix.
  - intros [|[|f]] Hf; [lia..|]. reflexivity.
Qed.

Lemma MatchPattern_exact w s :
  plain w = true → MatchPattern ("^" +:+ w +:+ "$") s = true ↔ s = w.
Proof. intros Hw. unfold MatchPattern. rewrite MustCompile_exact; [done|]. apply Match_exact. Qed.

(** ** Inversion of [matches], for the text the groups capture *)

Lemma matches_eps st st' : matches REps st st' ↔ st' = st.
Proof. split; [by inversion 1|intros ->; constructor]. Qed.

Lemma matches_cat a b st st2 :
  matches (RCat a b) st st2 ↔ ∃ st1, matches a st st1 ∧ matches b st1 st2.
Proof. split; [inversion 1; subst; eauto|intros (st1 & H1 & H2); econstructor; eauto]. Qed.

Lemma matches_group n r st st' :
  matches (RGroup n r) st st' ↔ ∃ st1, matches r st st1 ∧ st' = with_cap n st st1.
Proof. split; [inversion 1; subst; eauto|intros (st1 & H1 & ->); by constructor]. Qed.

Lemma matches_set cs i s k st' :
  matches (RSet cs) (MState i s k) st' ↔
  ∃ c t, s = String c t ∧ cset_mem cs c = true ∧ st' = MState (S i) t k.
Proof. split; [inversion 1; subst; eauto|intros (c & t & -> & Hc & ->); by constructor]. Qed.

Lemma matches_begin i s k st' :
  matches RBegin (MState i s k) st' ↔ i = 0 ∧ st' = MState i s k.
Proof. split; [by inversion 1|intros [-> ->]; constructor]. Qed.

Lemma matches_end i s k st' :
  matches REnd (MState i s k) st' ↔ s = "" ∧ st' = MState i s k.
Proof. split; [by inversion 1|intros [-> ->]; constructor]. Qed.

Lemma consumed_app i w t k j k' : consumed (MState i (w +:+ t) k) (MState j t k') = w.
Proof.
  unfold consumed. simpl. rewrite str_length_app.
  replace (String.length w + String.length t - String.length t) with (String.length w) by lia.
  apply substring_app.
Qed.

(** A match exists exactly when the search finds one. *)
Lemma find_match_anchored r s :
  (∃ st', matches (RCat RBegin r) (MState 0 s []) st') →
  ∃ st st', find_match (RCat RBegin r) s = Some (st, st').
Proof.
  intros [st' Hm]. destruct (find_match _ s) as [[st st1]|] eqn:E; [by eauto|].
  rewrite find_match_None in E. by destruct (E "" s st').
Qed.

Lemma find_match_begin r s st st' :
  find_match (RCat RBegin r) s = Some (st, st') →
  st = MState 0 s [] ∧ matches r (MState 0 s []) st'.
Proof.
  intros (a & b & -> & -> & Hm)%find_match_sound.
  apply matches_cat in Hm as (st1 & [Ha ->]%matches_begin & Hm).
  apply str_length_0 in Ha as ->. done.
Qed.

(** ** The first result, when it is determined *)

Lemma run_lit w i s k : run (RLit w REps) (MState i (w +:+ s) k) = [MState (i + String.length w) s k].
Proof.
  revert i. induction w as [|c w IH]; intros i; [by rewrite Nat.add_0_r|].
  change (run (RLit (String c w) REps) (MState i (String c w +:+ s) k)) with
    (flat_map (run (RLit w REps))
      (if cset_mem (CSet false [(c, c)]) c then [MState (S i) (w +:+ s) k] else [])).
  rewrite cset_mem_char Ascii.eqb_refl. cbn [flat_map]. rewrite IH app_nil_r. simpl.
  by replace (S (i + String.length w)) with (i + S (String.length w)) by lia.
Qed.

(** A starred class is greedy: its first result leaves a text that does not
    start with a member of the class. *)
Lemma star_run_greedy cs w n i t k :
  all_chars (cset_mem cs) w = true → String.length w ≤ n →
  (∀ c t', t = String c t' → cset_mem cs c = false) →
  List.hd_error (star_run (run (RSet cs)) n (MState i (w +:+ t) k)) =
  Some (MState (i + String.length w) t k).
Proof.
  intros Hw Hn Ht. revert i n Hn. induction w as [|c w IH]; intros i n Hn.
  - rewrite Nat.add_0_r. destruct n as [|n]; [done|]. cbn [star_run run m_rest String.append].
    destruct t as [|c t]; [done|]. by rewrite (Ht c t eq_refl).
  - simpl in Hn. destruct n as [|n]; [lia|]. simpl in Hw. apply andb_true_iff in Hw as [Hc Hw].
    cbn [star_run run m_rest String.append]. rewrite Hc.
    assert (progress (MState i (String c (w +:+ t)) k) (MState (S i) (w +:+ t) k) = true) as Hp.
    { unfold progress. simpl. apply Nat.ltb_lt. lia. }
    cbn [List.filter m_pos m_caps]. rewrite Hp. cbn [flat_map].
    specialize (IH Hw (S i) n ltac:(lia)). rewrite app_nil_r.
    destruct (star_run _ n _) as [|st l]; [done|]. simpl in *.
    by replace (i + S (String.length w)) with (S (i + String.length w)) by lia.
Qed.

(** Only a match at offset 0 can start an anchored expression. *)
Lemma find_match_first r s st' :
  List.hd_error (run r (MState 0 s [])) = Some st' →
  find_match (RCat RBegin r) s = Some (MState 0 s [], st').
Proof.
  intros Hhd. unfold find_match. destruct s as [|c s]; simpl;
    destruct (run r _) as [|x l]; simpl in *; congruence.
Qed.
