(* ===== verification/Admission.v ===== *)
(** * Admission requests, responses and the libraries that handle them

    The data exchanged with the API server (k8s.io/api/admission/v1,
    admissionregistration/v1 and the metadata types), with the fields the
    webhooks read or set, and the third-party code they call as interfaces:
    - [AdmissionCtl]: the response constructors of
      sigs.k8s.io/controller-runtime/pkg/webhook/admission;
    - [Decoder T]: its [Decoder] at the object type [T].
    Neither is part of the repository.  What their documentation promises is
    stated in the classes [AdmissionCtlLaws] and [DecoderLaws]; the theorems of
    the component files are proved against these interfaces.  [exampleCtl] and
    [exampleDecoder] are concrete instances that show the laws can hold. *)

From S2P Require Import Prelude GoStrings.

(** ** Requests *)

(** runtime.RawExtension: the undecoded object. *)
Record RawExtension := { Raw : string }.

(** metav1.GroupVersionKind *)
Record GroupVersionKind := { gvk_Group : string; gvk_Version : string; gvk_Kind : string }.

(** authenticationv1.UserInfo *)
Record UserInfo := { Username : string; Groups : list string }.

(** admissionv1.Operation is a string type with these constants. *)
Definition Create : string := "CREATE".
Definition Update : string := "UPDATE".
Definition Delete : string := "DELETE".
Definition Connect : string := "CONNECT".

(** admissionv1.AdmissionRequest, embedded in admissionctl.Request: the
    expressions [request.UserInfo] and [request.AdmissionRequest.UserInfo] of
    the sources are the same field.  [RequestKind] is a pointer. *)
Record Request := {
  req_UID : string;
  req_Kind : GroupVersionKind;
  req_RequestKind : option GroupVersionKind;
  req_Name : string;
  req_Namespace : string;
  req_Operation : string;
  req_UserInfo : UserInfo;
  req_Object : RawExtension;
  req_OldObject : RawExtension;
}.

Definition username (req : Request) : string := Username (req_UserInfo req).
Definition groups (req : Request) : list string := Groups (req_UserInfo req).

(** ** Responses *)

(** metav1.Status: what [Response.Result] points to. *)
Record Status := { status_Code : Z; status_Reason : string; status_Message : string }.

(** The values the sources put into a JSON patch: a string or a
    map[string]string. *)
Inductive patch_value :=
  | PString (s : string)
  | PMap (m : gmap string string).

(** jsonpatch.JsonPatchOperation *)
Record JsonPatchOperation := { op_Operation : string; op_Path : string; op_Value : patch_value }.

(** admissionctl.Response with its embedded admissionv1.AdmissionResponse.  A
    nil map of annotations is [None]. *)
Record Response := {
  resp_UID : string;
  resp_Allowed : bool;
  resp_Result : option Status;
  resp_Patches : list JsonPatchOperation;
  resp_Patch : string;
  resp_AuditAnnotations : option (gmap string string);
}.

(** [ret.UID = request.AdmissionRequest.UID] *)
Definition withUID (uid : string) (r : Response) : Response := {|
  resp_UID := uid;
  resp_Allowed := resp_Allowed r;
  resp_Result := resp_Result r;
  resp_Patches := resp_Patches r;
  resp_Patch := resp_Patch r;
  resp_AuditAnnotations := resp_AuditAnnotations r |}.

Lemma withUID_Allowed uid r : resp_Allowed (withUID uid r) = resp_Allowed r.
Proof. done. Qed.

Lemma withUID_UID uid r : resp_UID (withUID uid r) = uid.
Proof. done. Qed.

(** The idiom of the handlers: [ret = ...; ret.UID = request.AdmissionRequest.UID]. *)
Definition reply (request : Request) (r : Response) : Response := withUID (req_UID request) r.

Lemma reply_Allowed req r : resp_Allowed (reply req r) = resp_Allowed r.
Proof. done. Qed.

Lemma reply_UID req r : resp_UID (reply req r) = req_UID req.
Proof. done. Qed.

(** HTTP status codes (net/http) *)
Definition StatusOK : Z := 200.
Definition StatusBadRequest : Z := 400.
Definition StatusNotFound : Z := 404.
Definition StatusInternalServerError : Z := 500.

(** ** The response constructors of controller-runtime *)

Class AdmissionCtl := {
  Allowed : string → Response;
  Denied : string → Response;
  Errored : Z → error → Response;
  ValidationResponse : bool → string → Response;
  Patched : string → list JsonPatchOperation → Response;
  PatchResponseFromRaw : string → string → Response;
  (** [Complete] changes the response in place and may report an error. *)
  Complete : Response → Request → Response * option error;
}.

(** Their documentation: Allowed (resp. Denied) makes a response that allows
    (resp. does not allow) the operation, without patches; Errored makes one for
    error handling, that does not allow it, with the code and the message of
    the error; ValidationResponse allows or not as told; Patched allows the
    operation and carries the patches; PatchResponseFromRaw is an error
    response or a patch; Complete populates the fields of the
    response that are yet to be set, the request's UID among them, and changes
    nothing of the decision.  The constructors leave the UID empty
    (pkg/helpers/response_test.go expects it of Errored). *)
Class AdmissionCtlLaws `{AdmissionCtl} : Prop := {
  Allowed_allowed m : resp_Allowed (Allowed m) = true;
  Denied_denied m : resp_Allowed (Denied m) = false;
  Errored_denied c e : resp_Allowed (Errored c e) = false;
  Errored_code c e :
    ∃ st, resp_Result (Errored c e) = Some st ∧ status_Code st = c ∧ status_Message st = e;
  Errored_UID c e : resp_UID (Errored c e) = "";
  ValidationResponse_allowed b m : resp_Allowed (ValidationResponse b m) = b;
  Patched_allowed m ps : resp_Allowed (Patched m ps) = true;
  Patched_patches m ps : resp_Patches (Patched m ps) = ps;
  Complete_UID r req : resp_UID (fst (Complete r req)) = req_UID req;
  Complete_allowed r req : resp_Allowed (fst (Complete r req)) = resp_Allowed r;
  Complete_patches r req : resp_Patches (fst (Complete r req)) = resp_Patches r;
}.

(** ** Decoding *)

(** admissionctl.NewDecoder(scheme).DecodeRaw / .Decode into a fresh object of
    type [T]; the object is meaningful only when no error is returned. *)
Class Decoder (T : Type) := {
  DecodeRaw : RawExtension → result T;
  Decode : Request → result T;
}.

(** The documentation of the two methods: both error out on zero bytes, and
    [Decode] decodes the request's (inlined) object. *)
Class DecoderLaws (T : Type) `{Decoder T} : Prop := {
  DecodeRaw_empty raw : Raw raw = "" → ∃ e, DecodeRaw raw = Err e;
  Decode_object req : Raw (req_Object req) ≠ "" → Decode req = DecodeRaw (req_Object req);
  Decode_empty req : Raw (req_Object req) = "" → ∃ e, Decode req = Err e;
}.

(** [len(raw.Raw) > 0] *)
Definition nonempty (raw : RawExtension) : bool := negb (String.eqb (Raw raw) "").

Lemma nonempty_true raw : nonempty raw = true ↔ Raw raw ≠ "".
Proof. unfold nonempty. by rewrite negb_true_iff String.eqb_neq. Qed.

Lemma nonempty_false raw : nonempty raw = false ↔ Raw raw = "".
Proof. unfold nonempty. by rewrite negb_false_iff String.eqb_eq. Qed.

(** ** The process state and effectful handlers *)

(** What handlers leave behind: the counter vector
    managed_webhook_node_blocked_request of pkg/localmetrics, by user. *)
Record World := { blockedRequests : gmap string nat }.

(** A handler may panic and may touch the counters. *)
Definition M (A : Type) : Type := World → outcome A * World.

#[export] Instance M_ret : MRet M := λ A a w, (Returned a, w).
#[export] Instance M_bind : MBind M := λ A B f m w,
  match m w with
  | (Returned a, w') => f a w'
  | (Panicked why, w') => (Panicked why, w')
  end.

Definition lift_outcome {A} (o : outcome A) : M A := λ w, (o, w).
Definition modify (f : World → World) : M unit := λ w, (Returned tt, f w).

(** ** Concrete instances, for the witnesses *)

Definition exampleResponse (allowed : bool) (code : Z) (reason msg : string)
    (ps : list JsonPatchOperation) : Response := {|
  resp_UID := ""; resp_Allowed := allowed;
  resp_Result := Some {| status_Code := code; status_Reason := reason; status_Message := msg |};
  resp_Patches := ps; resp_Patch := ""; resp_AuditAnnotations := None |}.

Definition exampleValidationResponse (allowed : bool) (msg : string) : Response :=
  if allowed then exampleResponse true 200 "" msg []
  else exampleResponse false 403 "Forbidden" msg [].

Definition exampleCtl : AdmissionCtl := {|
  Allowed := exampleValidationResponse true;
  Denied := exampleValidationResponse false;
  Errored := λ c e, exampleResponse false c "" e [];
  ValidationResponse := exampleValidationResponse;
  Patched := λ m ps, exampleResponse true 200 "" m ps;
  PatchResponseFromRaw := λ _ _, exampleResponse true 200 "" "" [];
  Complete := λ r req, (withUID (req_UID req) r, None) |}.

Lemma exampleCtl_laws : @AdmissionCtlLaws exampleCtl.
Proof.
  constructor; simpl; intros; try done; try (by eexists). by destruct b.
Qed.

(** A decoder that knows the blobs of a table. *)
Fixpoint exampleLookup {T} (table : list (string * T)) (blob : string) : result T :=
  match table with
  | [] => Err "cannot decode"
  | (b, o) :: rest => if String.eqb blob b then Ok o else exampleLookup rest blob
  end.

Definition exampleDecodeRaw {T} (table : list (string * T)) (raw : RawExtension) : result T :=
  if nonempty raw then exampleLookup table (Raw raw) else Err "there is no content to decode".

Definition exampleDecoder {T} (table : list (string * T)) : Decoder T := {|
  DecodeRaw := exampleDecodeRaw table;
  Decode := λ req, exampleDecodeRaw table (req_Object req) |}.

Lemma exampleDecoder_laws {T} (table : list (string * T)) : @DecoderLaws T (exampleDecoder table).
Proof.
  constructor; simpl.
  - intros raw Hr%nonempty_false. unfold exampleDecodeRaw. rewrite Hr. by eexists.
  - done.
  - intros req Hr%nonempty_false. unfold exampleDecodeRaw. rewrite Hr. by eexists.
Qed.

Definition noRaw : RawExtension := {| Raw := "" |}.
Definition newRaw : RawExtension := {| Raw := "new" |}.
Definition oldRaw : RawExtension := {| Raw := "old" |}.

(** A request of user [u] in groups [gs]. *)
Definition exampleRequest (op kind group u : string) (gs : list string)
    (object oldObject : RawExtension) : Request := {|
  req_UID := "uid-1";
  req_Kind := {| gvk_Group := group; gvk_Version := "v1"; gvk_Kind := kind |};
  req_RequestKind := Some {| gvk_Group := group; gvk_Version := "v1"; gvk_Kind := kind |};
  req_Name := "";
  req_Namespace := "";
  req_Operation := op;
  req_UserInfo := {| Username := u; Groups := gs |};
  req_Object := object;
  req_OldObject := oldObject |}.

#[export] Hint Rewrite reply_Allowed : go_bool.
#[export] Hint Rewrite @Allowed_allowed @Denied_denied @Errored_denied
  @ValidationResponse_allowed @Patched_allowed using typeclasses eauto : go_bool.
