(* ===== verification/Utils.v ===== *)
(** * pkg/webhooks/utils and pkg/config

    The helpers every webhook shares, and the list of privileged namespaces.
    [isPrivilegedNamespace_iff] and [privilegedServiceAccount_iff] say in plain
    terms which names the regular expressions select; the theorems about the
    webhooks use them instead of the expressions. *)

From S2P Require Import Prelude GoStrings Regexp RegexpTheory Admission.

(** ** utils.go *)

Definition validContentType : string := "application/json".

Definition PrivilegedServiceAccountGroups : string :=
  "^system:serviceaccounts:(kube-.*|openshift|openshift-.*|default|redhat-.*|osde2e-(h-)?[a-z0-9]{5})".

Definition RequestMatchesGroupKind (req : Request) (kind group : string) : bool :=
  String.eqb (gvk_Kind (req_Kind req)) kind && String.eqb (gvk_Group (req_Kind req)) group.

Definition protectedNames : list string := [
  "alertmanagerconfigs.monitoring.coreos.com";
  "alertmanagers.monitoring.coreos.com";
  "prometheuses.monitoring.coreos.com";
  "thanosrulers.monitoring.coreos.com";
  "podmonitors.monitoring.coreos.com";
  "probes.monitoring.coreos.com";
  "prometheusrules.monitoring.coreos.com";
  "servicemonitors.monitoring.coreos.com";
  "prometheusagents.monitoring.coreos.com";
  "scrapeconfigs.monitoring.coreos.com"].

Definition IsProtectedByResourceName (name : string) : bool := Contains protectedNames name.

(** A haystack entry that does not compile would panic; see
    [PrivilegedNamespaces_compile]. *)
Fixpoint RegexSliceContains (needle : string) (haystack : list string) : bool :=
  match haystack with
  | [] => false
  | check :: rest =>
      if MatchPattern check needle then true else RegexSliceContains needle rest
  end.

Definition WebhookResponse `{AdmissionCtl} (req : Request) (allowed : bool) (reason : string) : Response :=
  withUID (req_UID req) (ValidationResponse allowed reason).

(** ** pkg/config *)

Definition ConfigMapSources : list string := [
  "openshift-monitoring/managed-namespaces";
  "openshift-monitoring/ocp-namespaces"].

Definition PrivilegedNamespaces : list string := [
  "^default$";
  "^openshift$";
  "^kube-.*";
  "^redhat-.*";
  "^dedicated-admin$";
  "^openshift-addon-operator$";
  "^openshift-aqua$";
  "^openshift-aws-vpce-operator$";
  "^openshift-backplane$";
  "^openshift-backplane-cee$";
  "^openshift-backplane-csa$";
  "^openshift-backplane-cse$";
  "^openshift-backplane-csm$";
  "^openshift-backplane-managed-scripts$";
  "^openshift-backplane-mobb$";
  "^openshift-backplane-srep$";
  "^openshift-backplane-srep-ro$";
  "^openshift-backplane-tam$";
  "^openshift-cloud-ingress-operator$";
  "^openshift-codeready-workspaces$";
  "^openshift-compliance$";
  "^openshift-compliance-monkey$";
  "^openshift-container-security$";
  "^openshift-custom-domains-operator$";
  "^openshift-customer-monitoring$";
  "^openshift-deployment-validation-operator$";
  "^openshift-managed-node-metadata-operator$";
  "^openshift-file-integrity$";
  "^openshift-logging$";
  "^openshift-managed-upgrade-operator$";
  "^openshift-must-gather-operator$";
  "^openshift-observability-operator$";
  "^openshift-ocm-agent-operator$";
  "^openshift-operators-redhat$";
  "^openshift-osd-metrics$";
  "^openshift-rbac-permissions$";
  "^openshift-route-monitor-operator$";
  "^openshift-scanning$";
  "^openshift-security$";
  "^openshift-splunk-forwarder-operator$";
  "^openshift-sre-pruning$";
  "^openshift-suricata$";
  "^openshift-validation-webhook$";
  "^openshift-velero$";
  "^openshift-monitoring$";
  "^openshift$";
  "^openshift-cluster-version$";
  "^goalert$";
  "^keycloak$";
  "^configure-goalert-operator$";
  "^kube-system$";
  "^openshift-apiserver$";
  "^openshift-apiserver-operator$";
  "^openshift-authentication$";
  "^openshift-authentication-operator$";
  "^openshift-cloud-controller-manager$";
  "^openshift-cloud-controller-manager-operator$";
  "^openshift-cloud-credential-operator$";
  "^openshift-cloud-network-config-controller$";
  "^openshift-cluster-api$";
  "^openshift-cluster-csi-drivers$";
  "^openshift-cluster-machine-approver$";
  "^openshift-cluster-node-tuning-operator$";
  "^openshift-cluster-samples-operator$";
  "^openshift-cluster-storage-operator$";
  "^openshift-config$";
  "^openshift-config-managed$";
  "^openshift-config-operator$";
  "^openshift-console$";
  "^openshift-console-operator$";
  "^openshift-console-user-settings$";
  "^openshift-controller-manager$";
  "^openshift-controller-manager-operator$";
  "^openshift-dns$";
  "^openshift-dns-operator$";
  "^openshift-etcd$";
  "^openshift-etcd-operator$";
  "^openshift-host-network$";
  "^openshift-image-registry$";
  "^openshift-ingress$";
  "^openshift-ingress-canary$";
  "^openshift-ingress-operator$";
  "^openshift-insights$";
  "^openshift-kni-infra$";
  "^openshift-kube-apiserver$";
  "^openshift-kube-apiserver-operator$";
  "^openshift-kube-controller-manager$";
  "^openshift-kube-controller-manager-operator$";
  "^openshift-kube-scheduler$";
  "^openshift-kube-scheduler-operator$";
  "^openshift-kube-storage-version-migrator$";
  "^openshift-kube-storage-version-migrator-operator$";
  "^openshift-machine-api$";
  "^openshift-machine-config-operator$";
  "^openshift-marketplace$";
  "^openshift-monitoring$";
  "^openshift-multus$";
  "^openshift-network-diagnostics$";
  "^openshift-network-operator$";
  "^openshift-nutanix-infra$";
  "^openshift-oauth-apiserver$";
  "^openshift-openstack-infra$";
  "^openshift-operator-lifecycle-manager$";
  "^openshift-operators$";
  "^openshift-ovirt-infra$";
  "^openshift-sdn$";
  "^openshift-ovn-kubernetes$";
  "^openshift-platform-operators$";
  "^openshift-route-controller-manager$";
  "^openshift-service-ca$";
  "^openshift-service-ca-operator$";
  "^openshift-user-workload-monitoring$";
  "^openshift-vsphere-infra$"].

Definition IsPrivilegedNamespace (ns : string) : bool :=
  RegexSliceContains ns PrivilegedNamespaces.

(** A group matched by [privilegedServiceAccountsRe.Match], for some group of
    the list: the loop that several webhooks run over [request.UserInfo.Groups]. *)
Definition privilegedServiceAccount (group : string) : bool :=
  MatchPattern PrivilegedServiceAccountGroups group.

(** ** What the lists and expressions select *)

Lemma RegexSliceContains_iff needle haystack :
  RegexSliceContains needle haystack = true ↔
  ∃ p, p ∈ haystack ∧ MatchPattern p needle = true.
Proof.
  induction haystack as [|p l IH]; simpl; [set_solver|].
  destruct (MatchPattern p needle) eqn:E.
  - split; [intros _|done]. exists p. split; [apply list_elem_of_here|done].
  - rewrite IH. setoid_rewrite elem_of_cons. split.
    + intros (q & Hq & Hm). eauto.
    + intros (q & [->|Hq] & Hm); [congruence|eauto].
Qed.

Lemma WebhookResponse_allowed `{AdmissionCtl, !AdmissionCtlLaws} req b m :
  resp_Allowed (WebhookResponse req b m) = b.
Proof. apply ValidationResponse_allowed. Qed.

(** The text between the anchors of [^w$]. *)
Definition strip_exact (p : string) : string :=
  String.substring 1 (String.length p - 2) p.

Lemma strip_exact_wrap w : strip_exact ("^" +:+ w +:+ "$") = w.
Proof.
  unfold strip_exact. simpl. rewrite str_length_app. simpl.
  replace (String.length w + 1 - 1) with (String.length w) by lia. apply substring_app.
Qed.

(** Each entry is [^w$] for a plain [w], or one of the two prefix patterns. *)
Definition known_shape (p : string) : bool :=
  String.eqb p "^kube-.*" || String.eqb p "^redhat-.*" ||
  (plain (strip_exact p) && String.eqb p ("^" +:+ strip_exact p +:+ "$")).

Lemma PrivilegedNamespaces_shapes : forallb known_shape PrivilegedNamespaces = true.
Proof. vm_compute. reflexivity. Qed.

(** No entry makes [regexp.MustCompile] panic. *)
Lemma PrivilegedNamespaces_compile :
  forallb (λ p, match MustCompile p with Some _ => true | None => false end)
    PrivilegedNamespaces = true.
Proof. vm_compute. reflexivity. Qed.

Lemma MatchPattern_kube s : MatchPattern "^kube-.*" s = true ↔ HasPrefix s "kube-" = true.
Proof. apply (Match_prefix "kube-" [""]). Qed.

Lemma MatchPattern_redhat s : MatchPattern "^redhat-.*" s = true ↔ HasPrefix s "redhat-" = true.
Proof. apply (Match_prefix "redhat-" [""]). Qed.

Lemma isPrivilegedNamespace_iff ns :
  IsPrivilegedNamespace ns = true ↔
  HasPrefix ns "kube-" = true ∨ HasPrefix ns "redhat-" = true ∨
  ("^" +:+ ns +:+ "$") ∈ PrivilegedNamespaces.
Proof.
  unfold IsPrivilegedNamespace. rewrite RegexSliceContains_iff.
  pose proof PrivilegedNamespaces_shapes as Hshapes. rewrite forallb_forall in Hshapes. split.
  - intros (p & Hin & Hm). pose proof (Hshapes p (proj1 (list_elem_of_In _ _) Hin)) as Hp.
    unfold known_shape in Hp. rewrite !orb_true_iff andb_true_iff !String.eqb_eq in Hp.
    destruct Hp as [[->| ->]|[Hw Hp]].
    + left. by apply MatchPattern_kube.
    + right; left. by apply MatchPattern_redhat.
    + right; right. rewrite Hp in Hm. apply MatchPattern_exact in Hm as ->; [|done].
      by rewrite -Hp.
  - intros [H|[H|Hin]].
    + exists "^kube-.*". split; [by apply Contains_iff|by apply MatchPattern_kube].
    + exists "^redhat-.*". split; [by apply Contains_iff|by apply MatchPattern_redhat].
    + exists ("^" +:+ ns +:+ "$"). split; [done|].
      pose proof (Hshapes _ (proj1 (list_elem_of_In _ _) Hin)) as Hp.
      unfold known_shape in Hp. rewrite strip_exact_wrap in Hp.
      rewrite !orb_true_iff andb_true_iff !String.eqb_eq in Hp.
      destruct Hp as [[Hp|Hp]|[Hw _]]; [..|by apply MatchPattern_exact].
      all: pose proof (f_equal strip_exact Hp) as E; rewrite strip_exact_wrap in E; by subst ns.
Qed.

(** The groups of service accounts that count as privileged: nothing anchors
    the end of the expression, so a namespace only has to start like one of
    the alternatives. *)
Definition fiveAlnum (s : string) : Prop :=
  ∃ a b, s = a +:+ b ∧ String.length a = 5 ∧
    all_chars (cset_mem (CSet false [("a", "z"); ("0", "9")]%char)) a = true.

Definition osde2eClass : cset := CSet false [("a", "z"); ("0", "9")]%char.

Lemma privilegedServiceAccount_compiles :
  MustCompile PrivilegedServiceAccountGroups = Some (MkRegexp
    (RCat RBegin (RLit "system:serviceaccounts:" (RCat (RGroup 1
      (RAlt (RLit "kube-" (RCat (RStar RAny) REps))
      (RAlt (RLit "openshift" REps)
      (RAlt (RLit "openshift-" (RCat (RStar RAny) REps))
      (RAlt (RLit "default" REps)
      (RAlt (RLit "redhat-" (RCat (RStar RAny) REps))
            (RLit "osde2e-" (RCat (RAlt (RGroup 2 (RLit "h-" REps)) REps)
               (RCat (RRepeat 5 (RSet osde2eClass)) REps))))))))) REps))) [""; ""; ""]).
Proof. vm_compute. reflexivity. Qed.

Lemma accepts_prefix_any w i s :
  accepts (RCat (RLit w (RCat (RStar RAny) REps)) REps) i s ↔ HasPrefix s w = true.
Proof.
  rewrite accepts_cat_lit HasPrefix_iff. setoid_rewrite accepts_cat_cat. unfold RAny.
  setoid_rewrite accepts_cat_star_set. setoid_rewrite accepts_cat_eps.
  setoid_rewrite accepts_eps. split; [naive_solver|]. intros [r ->]. exists r.
  split; [done|]. by exists "", r.
Qed.

Lemma accepts_prefix_lit w i s :
  accepts (RCat (RLit w REps) REps) i s ↔ HasPrefix s w = true.
Proof.
  rewrite accepts_cat_lit HasPrefix_iff. setoid_rewrite accepts_cat_eps.
  setoid_rewrite accepts_eps. naive_solver.
Qed.

Lemma accepts_osde2e i s :
  accepts (RCat (RLit "osde2e-" (RCat (RAlt (RGroup 2 (RLit "h-" REps)) REps)
    (RCat (RRepeat 5 (RSet osde2eClass)) REps))) REps) i s ↔
  ∃ r, (s = "osde2e-" +:+ r ∨ s = "osde2e-h-" +:+ r) ∧ fiveAlnum r.
Proof.
  assert (∀ j t, accepts (RCat (RCat (RRepeat 5 (RSet osde2eClass)) REps) REps) j t ↔ fiveAlnum t)
    as H5.
  { intros j t. rewrite accepts_cat_cat accepts_cat_repeat_set. unfold fiveAlnum.
    setoid_rewrite accepts_cat_eps. setoid_rewrite accepts_eps. naive_solver. }
  rewrite accepts_cat_lit. setoid_rewrite accepts_cat_cat. setoid_rewrite accepts_cat_alt.
  setoid_rewrite accepts_cat_group. setoid_rewrite accepts_cat_lit.
  setoid_rewrite accepts_cat_eps. setoid_rewrite H5. split.
  - intros (s' & -> & [(t & -> & Ht)|Ht]); eauto.
  - intros (r & [->| ->] & Hr); [by eauto|]. exists ("h-" +:+ r). eauto.
Qed.

Lemma privilegedServiceAccount_iff g :
  privilegedServiceAccount g = true ↔
  ∃ ns, g = "system:serviceaccounts:" +:+ ns ∧
    (HasPrefix ns "kube-" = true ∨ HasPrefix ns "openshift" = true ∨
     HasPrefix ns "default" = true ∨ HasPrefix ns "redhat-" = true ∨
     ∃ r, (ns = "osde2e-" +:+ r ∨ ns = "osde2e-h-" +:+ r) ∧ fiveAlnum r).
Proof.
  unfold privilegedServiceAccount, MatchPattern. rewrite privilegedServiceAccount_compiles.
  rewrite Match_anchored accepts_lit. setoid_rewrite accepts_cat_group.
  repeat setoid_rewrite accepts_cat_alt. setoid_rewrite accepts_osde2e.
  setoid_rewrite accepts_prefix_any. setoid_rewrite accepts_prefix_lit.
  split; intros (ns & -> & H); exists ns; (split; [done|]).
  - destruct H as [H|[H|[H|[H|[H|H]]]]]; auto 10.
    right; left. apply HasPrefix_iff in H as [r ->]. done.
  - destruct H as [H|[H|[H|[H|H]]]]; auto 10.
Qed.

(** A service account of namespace [ns] is in the group system:serviceaccounts:ns. *)
Definition serviceAccountsGroup (ns : string) : string := "system:serviceaccounts:" +:+ ns.

(** ** Allow lists *)

(** The requester is one of the users or in one of the groups. *)
Definition listed (users gs : list string) (req : Request) : Prop :=
  username req ∈ users ∨ ∃ g, g ∈ gs ∧ g ∈ groups req.

(** The shape of the [isAllowedUserGroup] functions of the webhooks. *)
Lemma listed_iff users gs req :
  (if Contains users (username req) then true else existsb (Contains (groups req)) gs) = true ↔
  listed users gs req.
Proof.
  unfold listed. rewrite -Contains_iff. setoid_rewrite <-(Contains_iff (groups req)).
  rewrite -existsb_elem_of. destruct (Contains users _); naive_solver.
Qed.

(** A sufficient check for the negation, for concrete requests. *)
Lemma not_listed users gs req :
  (if Contains users (username req) then true else existsb (Contains (groups req)) gs) = false →
  ¬ listed users gs req.
Proof. rewrite -listed_iff. by intros ->. Qed.

(** A user that is neither a kube: nor a system: user is authenticated. *)
Lemma not_system_authenticated req :
  HasPrefix (username req) "system:" = false →
  String.eqb (username req) "system:unauthenticated" = false.
Proof. intros Hs. apply String.eqb_neq. intros E. by rewrite E in Hs. Qed.
