(* ===== verification/Webhook.v ===== *)
(** * The webhook interface (pkg/webhooks/register.go) and its registry

    The registration data of k8s.io/api/admissionregistration/v1 and
    metav1.LabelSelector, with the fields the sources set; the interface
    [Webhook]; the registry that maps names to factories; and the default label
    selector of pkg/webhooks/utils. *)

From S2P Require Import Prelude GoStrings Admission.

(** ** Registration data *)

(** FailurePolicyType, MatchPolicyType, SideEffectClass and ScopeType are
    string types with constants. *)
Inductive FailurePolicyType := Ignore | Fail.
Inductive MatchPolicyType := Exact | Equivalent.
Inductive SideEffectClass := SideEffectClassNone | SideEffectClassNoneOnDryRun.
Inductive ScopeType := ClusterScope | NamespacedScope | AllScopes.

(** admissionregv1.OperationAll *)
Definition OperationAll : string := "*".

(** RuleWithOperations with its inlined Rule; [Scope] is a pointer. *)
Record RuleWithOperations := {
  Operations : list string;
  APIGroups : list string;
  APIVersions : list string;
  Resources : list string;
  Scope : option ScopeType;
}.

(** metav1.LabelSelectorRequirement *)
Inductive LabelSelectorOperator := LabelSelectorOpIn | LabelSelectorOpNotIn.
Record LabelSelectorRequirement := {
  lsr_Key : string;
  lsr_Operator : LabelSelectorOperator;
  lsr_Values : list string;
}.

(** metav1.LabelSelector: a nil map or slice is [None] (reflect.DeepEqual tells
    it from an empty one). *)
Record LabelSelector := {
  MatchLabels : option (gmap string string);
  MatchExpressions : option (list LabelSelectorRequirement);
}.

#[export] Instance LabelSelectorOperator_eq_dec : EqDecision LabelSelectorOperator.
Proof. solve_decision. Defined.
#[export] Instance LabelSelectorRequirement_eq_dec : EqDecision LabelSelectorRequirement.
Proof. solve_decision. Defined.
#[export] Instance LabelSelector_eq_dec : EqDecision LabelSelector.
Proof. solve_decision. Defined.

(** [append(slice, elems...)] *)
Definition append {A} (slice : option (list A)) (elems : list A) : option (list A) :=
  match slice, elems with
  | None, [] => None
  | None, _ => Some elems
  | Some l, _ => Some (l ++ elems)
  end.

(** utils.DefaultLabelSelector *)
Definition DefaultLabelSelector : LabelSelector := {|
  MatchLabels := Some {["api.openshift.com/managed" := "true"]};
  MatchExpressions := None |}.

(** A copy of the default selector with more requirements appended to it. *)
Definition customLabelSelector (reqs : list LabelSelectorRequirement) : LabelSelector := {|
  MatchLabels := MatchLabels DefaultLabelSelector;
  MatchExpressions := append (MatchExpressions DefaultLabelSelector) reqs |}.

(** ** The interface *)

Record Webhook := {
  wh_Authorized : Request → M Response;
  wh_GetURI : string;
  wh_Validate : Request → bool;
  wh_Name : string;
  wh_FailurePolicy : FailurePolicyType;
  wh_MatchPolicy : MatchPolicyType;
  wh_Rules : list RuleWithOperations;
  wh_ObjectSelector : option LabelSelector;
  wh_SideEffects : SideEffectClass;
  wh_TimeoutSeconds : Z;
  wh_Doc : string;
  wh_SyncSetLabelSelector : LabelSelector;
  wh_ClassicEnabled : bool;
  wh_HypershiftEnabled : bool;
}.

(** A factory makes a new hook per call; the hooks hold no state of their own
    that outlives the call, so the factory is the hook it makes. *)
Abbreviation WebhookFactory := Webhook (only parsing).

(** RegisteredWebhooks is a map from names to factories. *)
Definition RegisteredWebhooks : Type := gmap string WebhookFactory.

Definition Register (name : string) (input : WebhookFactory) (hooks : RegisteredWebhooks) :
    RegisteredWebhooks := <[name := input]> hooks.

(** ** The admission decision of a handler's outcome *)

(** The handler returned and the response allows (resp. refuses) the request. *)
Definition allows (o : outcome Response) : Prop := ∃ r, o = Returned r ∧ resp_Allowed r = true.
Definition refuses (o : outcome Response) : Prop := ∃ r, o = Returned r ∧ resp_Allowed r = false.

Lemma allows_refuses o : allows o → ¬ refuses o.
Proof. intros (r & -> & H) (r' & [= <-] & H'). congruence. Qed.

Lemma allows_returned r : allows (Returned r) ↔ resp_Allowed r = true.
Proof. split; [by intros (r' & [= <-] & H)|]. by exists r. Qed.

Lemma refuses_returned r : refuses (Returned r) ↔ resp_Allowed r = false.
Proof. split; [by intros (r' & [= <-] & H)|]. by exists r. Qed.

Lemma allows_panicked w : allows (Panicked w) ↔ False.
Proof. split; [by intros (r' & [=] & H)|done]. Qed.

Lemma refuses_panicked w : refuses (Panicked w) ↔ False.
Proof. split; [by intros (r' & [=] & H)|done]. Qed.

#[export] Hint Rewrite allows_returned refuses_returned allows_panicked refuses_panicked : go_bool.

(** ** A verdict without its message: the response allows or refuses, and
    carries the request's UID *)

Definition answers (req : Request) (allowed : bool) (r : Response) : Prop :=
  resp_Allowed r = allowed ∧ resp_UID r = req_UID req.

(** The contract of the webhooks that guard deletions: a request is refused
    exactly when it deletes something protected and the requester is not
    exempt. *)
Definition guards_deletion (decide : Request → Response) (protected exempt : Request → Prop) : Prop :=
  ∀ req, resp_Allowed (decide req) = false ↔ req_Operation req = Delete ∧ protected req ∧ ¬ exempt req.

(** ** What the dispatcher may rely on

    [WebhookLaws h]: every response of [h] either answers the request under the
    request's UID or is the error response of controller-runtime, whose UID is
    unset; the verdict does not depend on what was counted before; the counters
    never go down. *)

Definition blockedCount (w : World) (user : string) : nat := default 0 (blockedRequests w !! user).

Definition identified `{AdmissionCtl} (req : Request) (r : Response) : Prop :=
  resp_UID r = req_UID req ∨ ∃ c e, r = Errored c e.

Class WebhookLaws `{AdmissionCtl} (h : Webhook) : Prop := {
  hook_identified req w r w' : wh_Authorized h req w = (Returned r, w') → identified req r;
  hook_stateless req w1 w2 : fst (wh_Authorized h req w1) = fst (wh_Authorized h req w2);
  hook_monotone req w user : blockedCount w user ≤ blockedCount (snd (wh_Authorized h req w)) user;
}.

(** A handler that does not touch the counters only has to identify itself. *)
Lemma pure_webhook_laws `{AdmissionCtl} (h : Webhook) (f : Request → outcome Response) :
  (∀ req w, wh_Authorized h req w = (f req, w)) →
  (∀ req r, f req = Returned r → identified req r) → WebhookLaws h.
Proof.
  intros Hh Hf. constructor.
  - intros req w r w'. rewrite Hh. intros [= Hr _]. by apply Hf.
  - intros. by rewrite !Hh.
  - intros. by rewrite Hh.
Qed.

Lemma identified_reply `{AdmissionCtl} req r : identified req (reply req r).
Proof. by left. Qed.

Lemma identified_errored `{AdmissionCtl} req c e : identified req (Errored c e).
Proof. right. eauto. Qed.

#[export] Hint Resolve identified_reply identified_errored : webhook.

(** Walks through a handler and shows each of its responses identified. *)
Ltac solve_identified :=
  split_ifs; intros;
  repeat match goal with
  | E : Returned _ = Returned _ |- _ => injection E as <-
  | E : Panicked _ = Returned _ |- _ => discriminate E
  end;
  first [apply identified_reply | apply identified_errored | by left].
