(* ===== verification/Namespace.v ===== *)
(** * pkg/webhooks/namespace: the namespace-validation webhook

    Keeps customers out of the namespaces Red Hat manages, out of names that
    break DNS resolution, and away from the labels that lift quotas. *)

From S2P Require Import Prelude GoStrings Regexp RegexpTheory Admission Utils Webhook.

(** ** Data *)

Definition WebhookName : string := "namespace-validation".
Definition badNamespace : string := "(^com$|^io$|^in$)".
Definition layeredProductNamespace : string := "^redhat-.*".
Definition layeredProductAdminGroupName : string := "layered-sre-cluster-admins".
Definition clusterAdminGroup : string := "cluster-admins".

Definition clusterAdminUsers : list string :=
  ["kube:admin"; "system:admin"; "backplane-cluster-admin"].
Definition sreAdminGroups : list string := ["system:serviceaccounts:openshift-backplane-srep"].

Definition protectedLabels : list string := [
  "managed.openshift.io/storage-pv-quota-exempt";
  "managed.openshift.io/service-lb-quota-exempt"].

Definition rules : list RuleWithOperations := [{|
  Operations := ["CREATE"; "UPDATE"; "DELETE"];
  APIGroups := [""];
  APIVersions := ["*"];
  Resources := ["namespaces"];
  Scope := Some ClusterScope |}].

(** corev1.Namespace: [metadata.name] and [metadata.labels]; looking a key up in
    a nil map and in an empty one is the same. *)
Record Namespace := { ns_Name : string; ns_Labels : gmap string string }.

(** ** The accessors of the interface *)

Definition ObjectSelector : option LabelSelector := None.
Definition Doc : string :=
  "Managed OpenShift Customers may not modify namespaces specified in the " +:+
  fmt_list ConfigMapSources +:+
  " ConfigMaps because customer workloads should be placed in customer-created namespaces. Customers may not create namespaces identified by this regular expression " +:+
  badNamespace +:+
  " because it could interfere with critical DNS resolution. Additionally, customers may not set or change the values of these Namespace labels " +:+
  fmt_list protectedLabels +:+ ".".
Definition TimeoutSeconds : Z := 2.
Definition MatchPolicy : MatchPolicyType := Equivalent.
Definition Name : string := WebhookName.
Definition FailurePolicy : FailurePolicyType := Ignore.
Definition Rules : list RuleWithOperations := rules.
Definition GetURI : string := "/namespace-validation".
Definition SideEffects : SideEffectClass := SideEffectClassNone.
Definition SyncSetLabelSelector : LabelSelector := DefaultLabelSelector.
Definition ClassicEnabled : bool := true.
Definition HypershiftEnabled : bool := false.

Definition Validate (req : Request) : bool :=
  negb (String.eqb (username req) "") &&
  String.eqb (gvk_Kind (req_Kind req)) "Namespace".

(** ** Requesters *)

Definition amIAdmin (request : Request) : bool :=
  if Contains clusterAdminUsers (username request) || Contains (groups request) clusterAdminGroup
  then true
  else existsb (Contains (groups request)) sreAdminGroups.

(** ** Labels *)

(** Iterating over the labels reads [ns.ObjectMeta], which panics on a nil
    namespace. *)
Definition doesNamespaceContainProtectedLabels (ns : option Namespace) : outcome (list string) :=
  n ← deref ns;
  Returned (List.filter (λ label, bool_decide (is_Some (ns_Labels n !! label))) protectedLabels).

(** [m[key]] on a map[string]string: the zero value when the key is absent. *)
Definition label_value (labels : gmap string string) (key : string) : string :=
  default "" (labels !! key).

Section Authorized.
Context `{AdmissionCtl} `{Decoder Namespace}.

(** ** Rendering *)

Definition renderNamespace (req : Request) : result Namespace :=
  if nonempty (req_OldObject req) then DecodeRaw (req_OldObject req) else Decode req.

(** Return order as in the source: new, old. *)
Definition renderOldAndNewNamespaces (req : Request) :
    result (option Namespace * option Namespace) :=
  match
    (if nonempty (req_OldObject req)
     then match DecodeRaw (req_OldObject req) with Ok o => Ok (Some o) | Err e => Err e end
     else Ok None)
  with
  | Err e => Err e
  | Ok oldNamespace =>
      match
        (if nonempty (req_Object req)
         then match Decode req with Ok n => Ok (Some n) | Err e => Err e end
         else Ok None)
      with
      | Err e => Err e
      | Ok newNamespace => Ok (newNamespace, oldNamespace)
      end
  end.

(** The first protected label of [found] whose value differs. *)
Fixpoint changedLabel (found : list string) (old new : Namespace) : option string :=
  match found with
  | [] => None
  | labelKey :: rest =>
      if String.eqb (label_value (ns_Labels old) labelKey) (label_value (ns_Labels new) labelKey)
      then changedLabel rest old new
      else Some labelKey
  end.

Definition unauthorizedLabelChanges (req : Request) : outcome (bool * option error) :=
  if String.eqb (req_Operation req) Delete then Returned (false, None)
  else match renderOldAndNewNamespaces req with
  | Err e => Returned (true, Some e)
  | Ok (newNamespace, oldNamespace) =>
      if String.eqb (req_Operation req) Create then
        protectedLabelsFound ← doesNamespaceContainProtectedLabels newNamespace;
        if length protectedLabelsFound =? 0 then Returned (false, None)
        else Returned (true, Some ("Managed OpenShift customers may not directly set certain protected labels (" +:+ fmt_list protectedLabels +:+ ") on Namespaces"))
      else if String.eqb (req_Operation req) Update then
        protectedLabelsFoundInOld ← doesNamespaceContainProtectedLabels oldNamespace;
        protectedLabelsFoundInNew ← doesNamespaceContainProtectedLabels newNamespace;
        if negb (length protectedLabelsFoundInOld =? length protectedLabelsFoundInNew) then
          Returned (true, Some ("Managed OpenShift customers may not add or remove protected labels (" +:+ fmt_list protectedLabels +:+ ") from Namespaces"))
        else
          old ← deref oldNamespace;
          new ← deref newNamespace;
          match changedLabel protectedLabelsFoundInOld old new with
          | Some labelKey =>
              Returned (true, Some ("Managed OpenShift customers may not change the value or certain protected labels (" +:+ fmt_list protectedLabels +:+ ") on Namespaces. " +:+ labelKey +:+ " changed from " +:+ label_value (ns_Labels old) labelKey +:+ " to " +:+ label_value (ns_Labels new) labelKey))
          | None => Returned (false, None)
          end
      else Returned (false, None)
  end.

(** ** The decision *)

Definition authorized (request : Request) : outcome Response :=
  if amIAdmin request then
    Returned (reply request (Allowed "Cluster and SRE admins may access"))
  else if existsb privilegedServiceAccount (groups request) then
    Returned (reply request (Allowed "Privileged service accounts may access"))
  else match renderNamespace request with
  | Err err => Returned (Errored StatusBadRequest err)
  | Ok ns =>
      if Contains (groups request) layeredProductAdminGroupName &&
         MatchPattern layeredProductNamespace (ns_Name ns) then
        Returned (reply request (Allowed "Layered product admins may access"))
      else if IsPrivilegedNamespace (ns_Name ns) then
        Returned (reply request (Denied ("Prevented from accessing Red Hat managed namespaces. Customer workloads should be placed in customer namespaces, and should not match an entry in this list of regular expressions: " +:+ fmt_list PrivilegedNamespaces)))
      else if MatchPattern badNamespace (ns_Name ns) then
        Returned (reply request (Denied ("Prevented from creating a potentially harmful namespace. Customer namespaces should not match this regular expression, as this would impact DNS resolution: " +:+ badNamespace)))
      else
        '(unauthorized, err) ← unauthorizedLabelChanges request;
        if negb (amIAdmin request) && unauthorized then
          Returned (reply request (Denied ("Denied. Err " +:+ default "<nil>" err)))
        else Returned (reply request (Allowed "RBAC allowed"))
  end.

Definition Authorized (request : Request) : M Response := lift_outcome (authorized request).

Definition NewWebhook : Webhook := {|
  wh_Authorized := Authorized; wh_GetURI := GetURI; wh_Validate := Validate; wh_Name := Name;
  wh_FailurePolicy := FailurePolicy; wh_MatchPolicy := MatchPolicy; wh_Rules := Rules;
  wh_ObjectSelector := ObjectSelector; wh_SideEffects := SideEffects;
  wh_TimeoutSeconds := TimeoutSeconds; wh_Doc := Doc;
  wh_SyncSetLabelSelector := SyncSetLabelSelector; wh_ClassicEnabled := ClassicEnabled;
  wh_HypershiftEnabled := HypershiftEnabled |}.

End Authorized.

(** ** Facts about the expressions *)

Lemma badNamespace_iff s : MatchPattern badNamespace s = true ↔ s ∈ ["com"; "io"; "in"].
Proof.
  assert (MustCompile badNamespace = Some (MkRegexp (RCat (RGroup 1
    (RAlt (pat_exact "com") (RAlt (pat_exact "io") (pat_exact "in")))) REps) [""; ""]))
    as HC by (vm_compute; reflexivity).
  unfold MatchPattern. rewrite HC Match_iff. cbn [prog].
  setoid_rewrite accepts_cat_group. repeat setoid_rewrite accepts_cat_alt. unfold pat_exact.
  setoid_rewrite accepts_cat_cat. setoid_rewrite accepts_cat_begin.
  setoid_rewrite accepts_cat_lit. setoid_rewrite accepts_cat_cat. setoid_rewrite accepts_cat_end.
  rewrite !elem_of_cons. split.
  - intros (a & b & -> & H). destruct H as [H|[H|H]]; destruct H as (->%str_length_0 & s' & -> & -> & _);
      simpl; auto.
  - intros H. exists "", s. split; [done|].
    destruct H as [->|[->|[->|H]]]; [left|right;left|right;right|by apply not_elem_of_nil in H];
      (split; [done|]); exists ""; rewrite accepts_cat_eps accepts_eps; done.
Qed.

Section Theory.
Context `{AdmissionCtl, !AdmissionCtlLaws} `{Decoder Namespace, !DecoderLaws Namespace}.

(** Who may do anything to any namespace. *)
Definition privileged_requester (req : Request) : Prop :=
  amIAdmin req = true ∨ ∃ g, g ∈ groups req ∧ privilegedServiceAccount g = true.

Lemma privileged_requester_allowed req : privileged_requester req → allows (authorized req).
Proof.
  unfold authorized. intros [->|Hsa]; autorewrite with go_bool; [done|].
  rewrite (proj2 (existsb_elem_of _ _) Hsa). destruct (amIAdmin req); autorewrite with go_bool; done.
Qed.

Lemma namespace_decision req :
  allows (authorized req) ↔
  privileged_requester req ∨
  ∃ ns, renderNamespace req = Ok ns ∧
    ((layeredProductAdminGroupName ∈ groups req ∧ HasPrefix (ns_Name ns) "redhat-" = true) ∨
     (IsPrivilegedNamespace (ns_Name ns) = false ∧ (ns_Name ns ∉ ["com"; "io"; "in"]) ∧
      ∃ err, unauthorizedLabelChanges req = Returned (false, err))).
Proof.
  split.
  - unfold privileged_requester, authorized.
    destruct (amIAdmin req) eqn:Ea; [by auto|].
    destruct (existsb _ _) eqn:Es; [intros _; left; right; by apply existsb_elem_of|].
    destruct (renderNamespace req) as [ns|e]; [|autorewrite with go_bool; done].
    destruct (_ && _) eqn:El.
    { autorewrite with go_bool in El. destruct El as [El Er%MatchPattern_redhat].
      intros _. right. exists ns. auto. }
    destruct (IsPrivilegedNamespace _) eqn:Ep; [autorewrite with go_bool; done|].
    destruct (MatchPattern badNamespace _) eqn:Eb; [autorewrite with go_bool; done|].
    destruct (unauthorizedLabelChanges req) as [[[] err]|why]; simpl; autorewrite with go_bool; try done.
    intros _. right. exists ns. split; [done|]. right. rewrite -badNamespace_iff Eb. naive_solver.
  - intros [Hp|(ns & Hr & Hns)]; [by apply privileged_requester_allowed|].
    unfold authorized. rewrite Hr.
    destruct (amIAdmin req) eqn:Ea; [autorewrite with go_bool; done|].
    destruct (existsb _ _) eqn:Es; [autorewrite with go_bool; done|].
    destruct (Contains _ _ && _) eqn:El; [autorewrite with go_bool; done|].
    destruct Hns as [[Hl Hn]|(-> & Hb & err & ->)].
    { apply Contains_iff in Hl. apply MatchPattern_redhat in Hn.
      unfold layeredProductNamespace in El. by rewrite Hl Hn in El. }
    rewrite -badNamespace_iff in Hb. apply not_true_iff_false in Hb. rewrite Hb. simpl.
    autorewrite with go_bool. done.
Qed.

(** ** Labels *)

Lemma changedLabel_None found old new :
  changedLabel found old new = None ↔
  ∀ k, List.In k found → label_value (ns_Labels old) k = label_value (ns_Labels new) k.
Proof.
  induction found as [|k l IH]; simpl; [naive_solver|].
  destruct (String.eqb_spec (label_value (ns_Labels old) k) (label_value (ns_Labels new) k)) as [E|E].
  - rewrite IH. naive_solver.
  - split; [done|]. intros Hk. by destruct E; apply Hk; left.
Qed.

Definition has_label (n : Namespace) (label : string) : bool :=
  bool_decide (is_Some (ns_Labels n !! label)).

Lemma decoded_nonempty (raw : RawExtension) (n : Namespace) : DecodeRaw raw = Ok n → nonempty raw = true.
Proof.
  intros Hd. apply nonempty_true. intros Hr. destruct (DecodeRaw_empty raw Hr) as [e He]. congruence.
Qed.

Lemma decoded_object_nonempty (req : Request) (n : Namespace) :
  Decode req = Ok n → nonempty (req_Object req) = true.
Proof.
  intros Hd. apply nonempty_true. intros Hr. destruct (Decode_empty req Hr) as [e He]. congruence.
Qed.

Lemma render_both req new old :
  DecodeRaw (req_OldObject req) = Ok old → Decode req = Ok new →
  renderOldAndNewNamespaces req = Ok (Some new, Some old).
Proof.
  intros Ho Hn. unfold renderOldAndNewNamespaces.
  by rewrite (decoded_nonempty _ _ Ho) (decoded_object_nonempty _ _ Hn) Ho Hn.
Qed.

(** The verdict on an update whose two objects decode. *)
Lemma unauthorizedLabelChanges_update req new old :
  req_Operation req = Update →
  DecodeRaw (req_OldObject req) = Ok old → Decode req = Ok new →
  (∃ err, unauthorizedLabelChanges req = Returned (false, err)) ↔
  length (List.filter (has_label old) protectedLabels) =
    length (List.filter (has_label new) protectedLabels) ∧
  ∀ k, List.In k (List.filter (has_label old) protectedLabels) →
    label_value (ns_Labels old) k = label_value (ns_Labels new) k.
Proof.
  intros Hop Ho Hn. unfold unauthorizedLabelChanges.
  rewrite Hop (render_both _ _ _ Ho Hn) -changedLabel_None.
  cbn -[protectedLabels List.filter fmt_list].
  change (λ label, bool_decide (is_Some (ns_Labels ?n !! label))) with (has_label n).
  destruct (Nat.eqb_spec (length (List.filter (has_label old) protectedLabels))
    (length (List.filter (has_label new) protectedLabels))) as [El|El]; simpl negb; cbn match.
  - destruct (changedLabel _ _ _); naive_solver.
  - naive_solver.
Qed.

(** What an authorized update leaves alone: every protected label, set or not,
    when no protected label of the old object is set to the empty string. *)
Lemma update_keeps_labels req new old :
  req_Operation req = Update →
  DecodeRaw (req_OldObject req) = Ok old → Decode req = Ok new →
  (∀ l, l ∈ protectedLabels → ns_Labels old !! l ≠ Some "") →
  (∃ err, unauthorizedLabelChanges req = Returned (false, err)) →
  ∀ l, l ∈ protectedLabels → ns_Labels new !! l = ns_Labels old !! l.
Proof.
  intros Hop Ho Hn Hne Hu l Hl. apply (unauthorizedLabelChanges_update _ _ _ Hop Ho Hn) in Hu as [Hlen Heq].
  assert (∀ k, List.In k protectedLabels → has_label old k = true →
    ns_Labels new !! k = ns_Labels old !! k) as Hkeep.
  { intros k Hk Hhas. specialize (Heq k). rewrite filter_In in Heq. specialize (Heq (conj Hk Hhas)).
    unfold has_label in Hhas. apply bool_decide_eq_true in Hhas as [v Hv].
    unfold label_value in Heq. rewrite Hv in Heq. simpl in Heq. rewrite Hv.
    assert (v ≠ "") as Hv' by (intros ->; by apply (Hne k); [apply list_elem_of_In|]).
    destruct (ns_Labels new !! k); simpl in *; congruence. }
  apply list_elem_of_In in Hl.
  assert (has_label old l = has_label new l) as Hsame.
  { apply (filter_same_length _ _ protectedLabels); [|done..]. intros k Hk Hhas.
    pose proof (Hkeep k Hk Hhas) as E. unfold has_label in *. by rewrite E. }
  destruct (has_label old l) eqn:Eo; [by apply Hkeep|].
  unfold has_label in *. symmetry in Hsame. apply bool_decide_eq_false in Eo, Hsame.
  apply eq_None_not_Some in Eo, Hsame. congruence.
Qed.

Lemma no_protected_labels n :
  List.filter (has_label n) protectedLabels = [] ↔ ∀ l, l ∈ protectedLabels → ns_Labels n !! l = None.
Proof.
  rewrite filter_nil_iff. unfold has_label. setoid_rewrite bool_decide_eq_false. by setoid_rewrite <-eq_None_not_Some.
Qed.

(** The verdict on a creation whose object decodes. *)
Lemma unauthorizedLabelChanges_create req new :
  req_Operation req = Create → Raw (req_OldObject req) = "" → Decode req = Ok new →
  (∃ err, unauthorizedLabelChanges req = Returned (false, err)) ↔
  ∀ l, l ∈ protectedLabels → ns_Labels new !! l = None.
Proof.
  intros Hop Ho Hn. unfold unauthorizedLabelChanges, renderOldAndNewNamespaces.
  rewrite Hop (proj2 (nonempty_false _) Ho) (decoded_object_nonempty _ _ Hn) Hn.
  cbn -[protectedLabels List.filter fmt_list].
  change (λ label, bool_decide (is_Some (ns_Labels ?n !! label))) with (has_label n).
  transitivity (List.filter (has_label new) protectedLabels = []).
  - rewrite -length_zero_iff_nil.
    destruct (Nat.eqb_spec (length (List.filter (has_label new) protectedLabels)) 0); naive_solver.
  - apply no_protected_labels.
Qed.

(** An object of the request: absent, or there and decoded. *)
Definition decodes (raw : RawExtension) (decoded : result Namespace) (n : option Namespace) : Prop :=
  (Raw raw = "" ∧ n = None) ∨ (Raw raw ≠ "" ∧ ∃ x, decoded = Ok x ∧ n = Some x).

(** What the protected labels may do: a new namespace has none; an update keeps
    their number, and the value (the empty one if it is unset) of each one that
    the old object has. *)
Definition protected_labels_kept (op : string) (new old : option Namespace) : Prop :=
  if String.eqb op Create then ∃ n, new = Some n ∧ ∀ l, l ∈ protectedLabels → ns_Labels n !! l = None
  else if String.eqb op Update then
    ∃ n o, new = Some n ∧ old = Some o ∧
      length (List.filter (has_label o) protectedLabels) = length (List.filter (has_label n) protectedLabels) ∧
      ∀ l, l ∈ protectedLabels → is_Some (ns_Labels o !! l) →
        default "" (ns_Labels o !! l) = default "" (ns_Labels n !! l)
  else True.

Definition labels_authorized (req : Request) : Prop :=
  req_Operation req = Delete ∨
  ∃ new old, decodes (req_OldObject req) (DecodeRaw (req_OldObject req)) old ∧
    decodes (req_Object req) (Decode req) new ∧ protected_labels_kept (req_Operation req) new old.

Lemma renderOldAndNew_iff req new old :
  renderOldAndNewNamespaces req = Ok (new, old) ↔
  decodes (req_OldObject req) (DecodeRaw (req_OldObject req)) old ∧ decodes (req_Object req) (Decode req) new.
Proof.
  unfold renderOldAndNewNamespaces, decodes. rewrite -!nonempty_true -!nonempty_false.
  destruct (nonempty (req_OldObject req)), (nonempty (req_Object req));
    destruct (DecodeRaw (req_OldObject req)) as [o|], (Decode req) as [n|]; naive_solver.
Qed.

Lemma unauthorizedLabelChanges_iff req :
  (∃ err, unauthorizedLabelChanges req = Returned (false, err)) ↔ labels_authorized req.
Proof.
  unfold labels_authorized. setoid_rewrite (assoc (∧)). setoid_rewrite <-renderOldAndNew_iff.
  unfold unauthorizedLabelChanges, protected_labels_kept, doesNamespaceContainProtectedLabels.
  destruct (String.eqb_spec (req_Operation req) Delete) as [E|E]; [naive_solver|].
  destruct (renderOldAndNewNamespaces req) as [[new old]|e]; [|naive_solver].
  transitivity (protected_labels_kept (req_Operation req) new old); [|naive_solver]. unfold protected_labels_kept.
  destruct (String.eqb (req_Operation req) Create).
  { destruct new as [n|]; cbn -[protectedLabels List.filter fmt_list]; [|naive_solver]. fold (has_label n).
    transitivity (List.filter (has_label n) protectedLabels = []); [|rewrite no_protected_labels; naive_solver].
    destruct (List.filter (has_label n) protectedLabels); naive_solver. }
  destruct (String.eqb (req_Operation req) Update); [|naive_solver].
  destruct old as [o|]; cbn -[protectedLabels List.filter fmt_list]; [|naive_solver].
  destruct new as [n|]; cbn -[protectedLabels List.filter fmt_list]; [|naive_solver]. fold (has_label n) (has_label o).
  transitivity (length (List.filter (has_label o) protectedLabels) = length (List.filter (has_label n) protectedLabels) ∧
    changedLabel (List.filter (has_label o) protectedLabels) o n = None).
  - destruct (Nat.eqb_spec (length (List.filter (has_label o) protectedLabels))
      (length (List.filter (has_label n) protectedLabels))); simpl negb; cbn match; [|naive_solver].
    destruct (changedLabel _ _ _); naive_solver.
  - rewrite changedLabel_None. setoid_rewrite filter_In. setoid_rewrite <-list_elem_of_In.
    unfold has_label, label_value. setoid_rewrite bool_decide_eq_true. naive_solver.
Qed.

(** Who counts as an administrator. *)
Definition administrator (req : Request) : Prop :=
  username req ∈ clusterAdminUsers ∨ clusterAdminGroup ∈ groups req ∨ ∃ g, g ∈ sreAdminGroups ∧ g ∈ groups req.

Lemma amIAdmin_iff req : amIAdmin req = true ↔ administrator req.
Proof.
  assert (existsb (Contains (groups req)) sreAdminGroups = true ↔ ∃ g, g ∈ sreAdminGroups ∧ g ∈ groups req) as Hsre.
  { rewrite existsb_elem_of. by setoid_rewrite Contains_iff. }
  unfold amIAdmin, administrator. rewrite -Hsre -!Contains_iff.
  destruct (Contains clusterAdminUsers _), (Contains (groups req) clusterAdminGroup); simpl; naive_solver.
Qed.

Lemma renderNamespace_iff req ns :
  renderNamespace req = Ok ns ↔
  (Raw (req_OldObject req) ≠ "" ∧ DecodeRaw (req_OldObject req) = Ok ns) ∨
  (Raw (req_OldObject req) = "" ∧ Decode req = Ok ns).
Proof.
  unfold renderNamespace. rewrite -nonempty_true -nonempty_false. destruct (nonempty _); naive_solver.
Qed.

(** C1: The whole decision of the namespace webhook.  A request passes exactly
    when the requester is an administrator or in the group of a privileged service
    account, or the namespace (the old object if there is one) decodes and either a
    layered-product admin acts on a redhat- namespace, or the name is neither
    privileged nor harmful to DNS and the protected labels are kept: a deletion
    may have any, a creation none, an update as many as before, with the values
    of those the old object has. *)
Theorem namespace_authorized_iff req :
  allows (authorized req) ↔
  administrator req ∨ (∃ g, g ∈ groups req ∧ privilegedServiceAccount g = true) ∨
  ∃ ns,
    ((Raw (req_OldObject req) ≠ "" ∧ DecodeRaw (req_OldObject req) = Ok ns) ∨
     (Raw (req_OldObject req) = "" ∧ Decode req = Ok ns)) ∧
    ((layeredProductAdminGroupName ∈ groups req ∧ HasPrefix (ns_Name ns) "redhat-" = true) ∨
     (IsPrivilegedNamespace (ns_Name ns) = false ∧ (ns_Name ns ∉ ["com"; "io"; "in"]) ∧ labels_authorized req)).
Proof.
  setoid_rewrite <-renderNamespace_iff. setoid_rewrite <-unauthorizedLabelChanges_iff.
  rewrite -amIAdmin_iff (assoc (∨)).
  apply namespace_decision.
Qed.

(** A requester with no standing of their own over managed namespaces. *)
Definition customer (req : Request) : Prop :=
  ¬ privileged_requester req ∧ layeredProductAdminGroupName ∉ groups req.

Lemma customer_allowed_iff req :
  customer req →
  allows (authorized req) ↔
  ∃ ns, renderNamespace req = Ok ns ∧ IsPrivilegedNamespace (ns_Name ns) = false ∧
    (ns_Name ns ∉ ["com"; "io"; "in"]) ∧
    ∃ err, unauthorizedLabelChanges req = Returned (false, err).
Proof. unfold customer. rewrite namespace_decision. naive_solver. Qed.

(** C2: A customer's update that passes is an update of a namespace that is not
    managed, and leaves every protected label as it was, set or unset, provided
    no protected label was set to the empty string before. *)
Theorem namespace_customer_update_keeps_labels req new old :
  customer req → req_Operation req = Update →
  DecodeRaw (req_OldObject req) = Ok old → Decode req = Ok new →
  (∀ l, l ∈ protectedLabels → ns_Labels old !! l ≠ Some "") →
  allows (authorized req) →
  IsPrivilegedNamespace (ns_Name old) = false ∧
  ∀ l, l ∈ protectedLabels → ns_Labels new !! l = ns_Labels old !! l.
Proof.
  intros Hc Hop Ho Hn Hne Ha. apply (customer_allowed_iff req Hc) in Ha as (ns & Hr & Hp & _ & Hu).
  unfold renderNamespace in Hr. rewrite (decoded_nonempty _ _ Ho) in Hr.
  assert (ns = old) as -> by congruence. split; [done|]. by apply (update_keeps_labels req).
Qed.

(** Which namespaces a customer may create: those whose name is neither
    managed nor harmful to DNS and that carry no protected label. *)
Theorem namespace_customer_create_iff req new :
  customer req → req_Operation req = Create →
  Raw (req_OldObject req) = "" → Decode req = Ok new →
  allows (authorized req) ↔
  IsPrivilegedNamespace (ns_Name new) = false ∧ (ns_Name new ∉ ["com"; "io"; "in"]) ∧
  ∀ l, l ∈ protectedLabels → ns_Labels new !! l = None.
Proof.
  intros Hc Hop Ho Hn. rewrite (customer_allowed_iff req Hc).
  setoid_rewrite (unauthorizedLabelChanges_create req new Hop Ho Hn).
  unfold renderNamespace. rewrite (proj2 (nonempty_false _) Ho) Hn. naive_solver.
Qed.

(** The handler returns a response, whoever asks, when the objects that the
    operation has are there: a creation has an object, an update both. *)
Theorem namespace_no_panic req :
  (req_Operation req = Create → Raw (req_Object req) ≠ "") →
  (req_Operation req = Update → Raw (req_Object req) ≠ "" ∧ Raw (req_OldObject req) ≠ "") →
  ∃ r, authorized req = Returned r.
Proof.
  intros Hc Hu.
  assert (∃ v, unauthorizedLabelChanges req = Returned v) as [[u err] Hl].
  { setoid_rewrite <-nonempty_true in Hc. setoid_rewrite <-nonempty_true in Hu.
    unfold unauthorizedLabelChanges, renderOldAndNewNamespaces, Delete, Create, Update in *.
    destruct (String.eqb_spec (req_Operation req) "DELETE") as [|_]; [by eauto|].
    destruct (String.eqb_spec (req_Operation req) "CREATE") as [Ec|_].
    { rewrite (Hc Ec). split_ifs; eauto. }
    destruct (String.eqb_spec (req_Operation req) "UPDATE") as [Eu|_]; [|split_ifs; eauto].
    destruct (Hu Eu) as [-> ->]. split_ifs; eauto. }
  unfold authorized. rewrite Hl. simpl. split_ifs; eauto.
Qed.
End Theory.

(** ** Two gaps *)

Section Gaps.
Context `{AdmissionCtl, !AdmissionCtlLaws} `{Decoder Namespace, !DecoderLaws Namespace}.

(** The guard against the empty string in the theorem on updates is needed.  The check compares how many protected labels there are and the
    values of those of the old object, and an absent label reads as the empty
    string: a customer trades a protected label set to the empty string for
    the other protected label with a value of their choice. *)
Theorem namespace_label_swap req new old v :
  customer req → req_Operation req = Update →
  DecodeRaw (req_OldObject req) = Ok old → Decode req = Ok new →
  IsPrivilegedNamespace (ns_Name old) = false → ns_Name old ∉ ["com"; "io"; "in"] →
  ns_Labels old = {["managed.openshift.io/storage-pv-quota-exempt" := ""]} →
  ns_Labels new = {["managed.openshift.io/service-lb-quota-exempt" := v]} →
  allows (authorized req).
Proof.
  intros Hc Hop Ho Hn Hp Hb Elo Eln. apply (customer_allowed_iff req Hc). exists old.
  unfold renderNamespace. rewrite (decoded_nonempty _ _ Ho). split; [done|]. split; [done|].
  split; [done|]. apply (unauthorizedLabelChanges_update req new old Hop Ho Hn).
  unfold has_label, label_value. rewrite Elo Eln. split; [done|].
  intros k [<-|[]]. done.
Qed.

(** Names that start with a managed name and go on are not managed. *)
Lemma default_suffix_unmanaged r : r ≠ "" → IsPrivilegedNamespace ("default" +:+ r) = false.
Proof.
  intros Hr. apply (bool_iff _ _ (isPrivilegedNamespace_iff _)).
  intros [Hk|[Hk|Hin]]; [done..|].
  assert (Forall (λ p, HasPrefix p "^default" = true → p = "^default$") PrivilegedNamespaces) as HF.
  { apply Forall_forall. intros p Hin'. apply list_elem_of_In in Hin'.
    repeat (destruct Hin' as [<-|Hin']; [done|]). destruct Hin'. }
  rewrite Forall_forall in HF. specialize (HF _ Hin (HasPrefix_app "^default" (r +:+ "$"))).
  assert (r +:+ "$" = "$") as E by (by injection HF).
  apply Hr, (str_app_inj_r _ _ "$"). by rewrite E.
Qed.

Lemma default_suffix_privileged r :
  privilegedServiceAccount (serviceAccountsGroup ("default" +:+ r)) = true.
Proof.
  apply privilegedServiceAccount_iff. exists ("default" +:+ r). split; [done|].
  do 2 right; left. apply HasPrefix_app.
Qed.

(** C35: The expression for privileged service accounts is not anchored at its
    end.  For every non-empty [r] a customer may create the namespace
    default[r], and whoever acts as a service account of that namespace may then
    do anything to any namespace, managed ones included. *)
Theorem namespace_service_account_escalation r create act new :
  r ≠ "" →
  customer create → req_Operation create = Create →
  Raw (req_OldObject create) = "" → Decode create = Ok new →
  ns_Name new = "default" +:+ r → ns_Labels new = ∅ →
  serviceAccountsGroup (ns_Name new) ∈ groups act →
  allows (authorized create) ∧ allows (authorized act).
Proof.
  intros Hr Hc Hop Ho Hn Hname Hl Hact. split.
  - apply (customer_allowed_iff create Hc). exists new. unfold renderNamespace.
    rewrite (proj2 (nonempty_false _) Ho). split; [done|]. rewrite Hname.
    split; [by apply default_suffix_unmanaged|]. split; [set_solver|].
    apply (unauthorizedLabelChanges_create _ _ Hop Ho Hn). intros l _. by rewrite Hl.
  - apply privileged_requester_allowed. right. exists (serviceAccountsGroup (ns_Name new)).
    split; [done|]. rewrite Hname. apply default_suffix_privileged.
Qed.
End Gaps.

(** ** The interface, discharged *)

Section Laws.
Context `{AdmissionCtl} `{Decoder Namespace}.

#[export] Instance namespace_laws : WebhookLaws NewWebhook.
Proof.
  apply (pure_webhook_laws _ authorized); [done|].
  intros req r. unfold authorized.
  destruct (unauthorizedLabelChanges req) as [[u err]|why]; simpl; solve_identified.
Qed.
End Laws.

(** ** Witnesses *)

Module Witness.

#[local] Existing Instance exampleCtl.
#[local] Existing Instance exampleCtl_laws.

Definition plainNs : Namespace := {| ns_Name := "my-app"; ns_Labels := ∅ |}.
Definition labelledNs : Namespace :=
  {| ns_Name := "my-app"; ns_Labels := {["managed.openshift.io/storage-pv-quota-exempt" := "true"]} |}.
Definition emptyLabelNs : Namespace :=
  {| ns_Name := "my-app"; ns_Labels := {["managed.openshift.io/storage-pv-quota-exempt" := ""]} |}.
Definition swappedNs : Namespace :=
  {| ns_Name := "my-app"; ns_Labels := {["managed.openshift.io/service-lb-quota-exempt" := "true"]} |}.
Definition defaultxNs : Namespace := {| ns_Name := "defaultx"; ns_Labels := ∅ |}.

Definition table : list (string * Namespace) :=
  [("plain", plainNs); ("labelled", labelledNs); ("empty", emptyLabelNs); ("swapped", swappedNs);
   ("defaultx", defaultxNs)].

#[local] Instance decoder : Decoder Namespace := exampleDecoder table.
#[local] Instance decoder_laws : DecoderLaws Namespace := exampleDecoder_laws table.

Definition ask (op object oldObject : string) (gs : list string) : Request :=
  exampleRequest op "Namespace" "" "alice" gs {| Raw := object |} {| Raw := oldObject |}.

(** A sufficient check that a requester is a customer. *)
Definition is_customer (req : Request) : bool :=
  negb (amIAdmin req) && negb (existsb privilegedServiceAccount (groups req)) &&
  negb (Contains (groups req) layeredProductAdminGroupName).

Lemma is_customer_sound req : is_customer req = true → customer req.
Proof.
  unfold is_customer. rewrite !andb_true_iff !negb_true_iff. intros [[Ha Hs] Hl].
  apply Contains_false in Hl. split; [|done]. intros [Ha'|Hs']; [congruence|].
  apply existsb_elem_of in Hs'. congruence.
Qed.

Lemma namespace_authorized_iff_witness : allows (authorized (ask Create "plain" "" ["devs"])).
Proof.
  apply namespace_authorized_iff. right; right. exists plainNs. split; [right; split; reflexivity|]. right.
  split; [vm_compute; reflexivity|]. split; [by apply Contains_false|].
  apply unauthorizedLabelChanges_iff. exists None. reflexivity.
Defined.

Lemma namespace_customer_update_keeps_labels_witness :
  ns_Labels labelledNs !! "managed.openshift.io/storage-pv-quota-exempt" = Some "true" ∧
  ∀ l, l ∈ protectedLabels → ns_Labels labelledNs !! l = ns_Labels labelledNs !! l.
Proof.
  split; [reflexivity|].
  apply (namespace_customer_update_keeps_labels (ask Update "labelled" "labelled" ["devs"])).
  - apply is_customer_sound. vm_compute. reflexivity.
  - reflexivity.
  - reflexivity.
  - reflexivity.
  - intros l [-> | [-> | []%not_elem_of_nil]%elem_of_cons]%elem_of_cons; vm_compute; discriminate.
  - eexists. split; [reflexivity|reflexivity].
Defined.

Lemma namespace_customer_create_iff_witness : ¬ allows (authorized (ask Create "labelled" "" ["devs"])).
Proof.
  intros Ha. apply (namespace_customer_create_iff _ labelledNs) in Ha as (_ & _ & Hl).
  - specialize (Hl "managed.openshift.io/storage-pv-quota-exempt" (list_elem_of_here _ _)).
    vm_compute in Hl. discriminate.
  - apply is_customer_sound. vm_compute. reflexivity.
  - reflexivity.
  - reflexivity.
  - reflexivity.
Defined.

Lemma namespace_no_panic_witness : ∃ r, authorized (ask Update "plain" "labelled" ["devs"]) = Returned r.
Proof. apply namespace_no_panic; intros [=]; by vm_compute. Defined.

Lemma namespace_label_swap_witness : allows (authorized (ask Update "swapped" "empty" ["devs"])).
Proof.
  apply (namespace_label_swap _ swappedNs emptyLabelNs "true").
  - apply is_customer_sound. vm_compute. reflexivity.
  - reflexivity.
  - reflexivity.
  - reflexivity.
  - vm_compute. reflexivity.
  - by apply Contains_false.
  - reflexivity.
  - reflexivity.
Defined.

Lemma namespace_service_account_escalation_witness :
  allows (authorized (ask Create "defaultx" "" ["devs"])) ∧
  allows (authorized (ask Delete "" "plain" ["system:serviceaccounts:defaultx"])).
Proof.
  apply (namespace_service_account_escalation "x" _ _ defaultxNs).
  - discriminate.
  - apply is_customer_sound. vm_compute. reflexivity.
  - reflexivity.
  - reflexivity.
  - reflexivity.
  - reflexivity.
  - reflexivity.
  - by apply Contains_iff.
Defined.
End Witness.
