(* ===== verification/RegularUser.v ===== *)
(** * pkg/webhooks/regularuser/common: the regular-user-validation webhook

    Keeps regular users away from the API groups Red Hat manages; machine
    configuration, ClusterVersion, MustGather, CustomDomain, NetNamespace and
    ConfigMap objects have rules of their own. *)

From S2P Require Import Prelude GoStrings Regexp Admission Utils Webhook.
From S2P Require Namespace.

(** ** Data *)

Definition WebhookName : string := "regular-user-validation".
Definition mustGatherKind : string := "MustGather".
Definition mustGatherGroup : string := "managed.openshift.io".
Definition clusterVersionKind : string := "ClusterVersion".
Definition clusterVersionGroup : string := "config.openshift.io".
Definition customDomainKind : string := "CustomDomain".
Definition customDomainGroup : string := "managed.openshift.io".
Definition netNamespaceKind : string := "NetNamespace".
Definition netNamespaceGroup : string := "network.openshift.io".
Definition machineConfigGroup : string := "machineconfiguration.openshift.io".

Definition adminGroups : list string := ["system:serviceaccounts:openshift-backplane-srep"].
Definition adminUsers : list string := ["backplane-cluster-admin"].
Definition clusterVersionUsers : list string := [
  "system:serviceaccount:openshift-managed-upgrade-operator:managed-upgrade-operator";
  "system:serviceaccount:openshift-cluster-version:default";
  "system:serviceaccount:openshift-cluster-version:cluster-version-operator"].
Definition machineConfigUsers : list string := [
  "system:serviceaccount:openshift-cluster-node-tuning-operator:cluster-node-tuning-operator";
  "system:serviceaccount:openshift-machine-config-operator:machine-config-controller";
  "system:admin"].
Definition ceeGroup : string := "system:serviceaccounts:openshift-backplane-cee".

Definition rules : list RuleWithOperations := [{|
  Operations := ["*"];
  APIGroups := ["cloudcredential.openshift.io"; "machine.openshift.io";
    "admissionregistration.k8s.io"; "addons.managed.openshift.io";
    "cloudingress.managed.openshift.io"; "managed.openshift.io"; "ocmagent.managed.openshift.io";
    "splunkforwarder.managed.openshift.io"; "upgrade.managed.openshift.io"];
  APIVersions := ["*"];
  Resources := ["*/*"];
  Scope := Some AllScopes |}; {|
  Operations := ["*"];
  APIGroups := ["autoscaling.openshift.io"];
  APIVersions := ["*"];
  Resources := ["clusterautoscalers"; "machineautoscalers"];
  Scope := Some AllScopes |}; {|
  Operations := ["*"];
  APIGroups := ["config.openshift.io"];
  APIVersions := ["*"];
  Resources := ["clusterversions"; "clusterversions/status"; "schedulers"; "apiservers"; "proxies"];
  Scope := Some AllScopes |}; {|
  Operations := ["CREATE"; "UPDATE"; "DELETE"];
  APIGroups := [""];
  APIVersions := ["*"];
  Resources := ["configmaps"];
  Scope := Some AllScopes |}; {|
  Operations := ["*"];
  APIGroups := ["machineconfiguration.openshift.io"];
  APIVersions := ["*"];
  Resources := ["machineconfigs"; "machineconfigpools"];
  Scope := Some AllScopes |}; {|
  Operations := ["*"];
  APIGroups := ["operator.openshift.io"];
  APIVersions := ["*"];
  Resources := ["kubeapiservers"; "openshiftapiservers"];
  Scope := Some AllScopes |}; {|
  Operations := ["*"];
  APIGroups := ["managed.openshift.io"];
  APIVersions := ["*"];
  Resources := ["subjectpermissions"; "subjectpermissions/*"];
  Scope := Some AllScopes |}; {|
  Operations := ["*"];
  APIGroups := ["network.openshift.io"];
  APIVersions := ["*"];
  Resources := ["netnamespaces"; "netnamespaces/*"];
  Scope := Some AllScopes |}].

(** networkv1.NetNamespace and corev1.ConfigMap: the parts of their metadata
    that are read. *)
Record NetNamespace := { netns_Name : string }.
Record ConfigMap := { cm_Name : string; cm_Namespace : string }.

(** ** The accessors of the interface *)

(** The groups of the rules, without the empty one; the source collects them
    in the keys of a map, whose iteration order Go leaves open: here it is that
    of [elements]. *)
Definition hist : gset string :=
  list_to_set (List.filter (λ group, negb (String.eqb group "")) (flat_map APIGroups rules)).

Definition Doc : string :=
  "Managed OpenShift customers may not manage any objects in the following APIGroups " +:+
  fmt_list (elements hist) +:+
  ", nor may Managed OpenShift customers alter the APIServer, KubeAPIServer, OpenShiftAPIServer, ClusterVersion, Proxy or SubjectPermission objects.".
Definition ObjectSelector : option LabelSelector := None.
Definition TimeoutSeconds : Z := 2.
Definition MatchPolicy : MatchPolicyType := Equivalent.
Definition Name : string := WebhookName.
Definition FailurePolicy : FailurePolicyType := Ignore.
Definition Rules : list RuleWithOperations := rules.
Definition GetURI : string := "/regularuser-validation".
Definition SideEffects : SideEffectClass := SideEffectClassNone.
Definition SyncSetLabelSelector : LabelSelector := DefaultLabelSelector.
Definition ClassicEnabled : bool := true.
Definition HypershiftEnabled : bool := true.

Definition Validate (req : Request) : bool := negb (String.eqb (username req) "").

(** ** Requesters *)

Definition isMustGatherAuthorized (request : Request) : bool := Contains (groups request) ceeGroup.

Definition isCustomDomainAuthorized (request : Request) : bool :=
  Contains (groups request) "cluster-admins" || Contains (groups request) "dedicated-admins".

Definition isClusterVersionAuthorized (request : Request) : bool :=
  if Contains clusterVersionUsers (username request) then true
  else if Contains adminUsers (username request) then true
  else if existsb (Contains adminGroups) (groups request) then true
  else if HasPrefix (username request) "system:" &&
          negb (HasPrefix (username request) "system:serviceaccount:") then true
  else false.

Definition isMachineConfigAuthorized (request : Request) : bool :=
  if Contains (groups request) "cluster-admins" then true
  else if Contains adminUsers (username request) then true
  else if Contains machineConfigUsers (username request) then true
  else false.

Definition preventedMessage : string :=
  "Prevented from accessing Red Hat managed resources. This is in an effort to prevent harmful actions that may cause unintended consequences or affect the stability of the cluster. If you have any questions about this, please reach out to Red Hat support at https://access.redhat.com/support".

Section Authorized.
Context `{AdmissionCtl} `{Decoder NetNamespace} `{Decoder ConfigMap}.

Definition isNetNamespaceValid (request : Request) : bool :=
  if negb (nonempty (req_Object request)) then false
  else match (Decode request : result NetNamespace) with
  | Err _ => false
  | Ok netNamespace =>
      if MatchPattern Namespace.badNamespace (netns_Name netNamespace) ||
         IsPrivilegedNamespace (netns_Name netNamespace) then false
      else true
  end.

Definition isNetNamespaceAuthorized (request : Request) : bool :=
  (Contains (groups request) "cluster-admins" || Contains (groups request) "dedicated-admins") &&
  isNetNamespaceValid request.

Definition shouldAllowConfigMapChange (request : Request) : bool :=
  match
    ((if String.eqb (req_Operation request) Delete
      then DecodeRaw (req_OldObject request) else DecodeRaw (req_Object request)) : result ConfigMap)
  with
  | Err _ => false
  | Ok configMap =>
      if negb (String.eqb (cm_Name configMap) "user-ca-bundle") ||
         negb (String.eqb (cm_Namespace configMap) "openshift-config") then true
      else false
  end.

(** ** The decision *)

(** The checks after the switch on the kind of the object. *)
Definition authorizedCommon (request : Request) : Response :=
  if HasPrefix (username request) "system:" then
    reply request (Allowed "authenticated system: users are allowed")
  else if Contains adminUsers (username request) then
    reply request (Allowed "Specified admin users are allowed")
  else if existsb (Contains adminGroups) (groups request) then
    reply request (Allowed "Members of admin groups are allowed")
  else if String.eqb (gvk_Kind (req_Kind request)) "ConfigMap" &&
          shouldAllowConfigMapChange request then
    reply request (Allowed "Modification of Config Maps that are not user-ca-bundle are allowed")
  else reply request (Denied preventedMessage).

Definition authorized (request : Request) : Response :=
  if String.eqb (username request) "system:unauthenticated" then
    reply request (Denied "Unauthenticated")
  else if String.eqb (gvk_Group (req_Kind request)) machineConfigGroup then
    if isMachineConfigAuthorized request then WebhookResponse request true ""
    else WebhookResponse request false preventedMessage
  else if HasPrefix (username request) "kube:" then
    reply request (Allowed "kube: users are allowed")
  else if RequestMatchesGroupKind request mustGatherKind mustGatherGroup then
    if isMustGatherAuthorized request then
      reply request (Allowed "Management of MustGather CR is authorized")
    else authorizedCommon request
  else if RequestMatchesGroupKind request customDomainKind customDomainGroup then
    if isCustomDomainAuthorized request then
      reply request (Allowed "Management of CustomDomain CR is authorized")
    else authorizedCommon request
  else if RequestMatchesGroupKind request clusterVersionKind clusterVersionGroup then
    if isClusterVersionAuthorized request then WebhookResponse request true ""
    else WebhookResponse request false preventedMessage
  else if RequestMatchesGroupKind request netNamespaceKind netNamespaceGroup then
    if isNetNamespaceAuthorized request then
      reply request (Allowed "Management of NetNamespace CR is authorized")
    else authorizedCommon request
  else authorizedCommon request.

Definition Authorized (request : Request) : M Response := mret (authorized request).

Definition NewWebhook : Webhook := {|
  wh_Authorized := Authorized; wh_GetURI := GetURI; wh_Validate := Validate; wh_Name := Name;
  wh_FailurePolicy := FailurePolicy; wh_MatchPolicy := MatchPolicy; wh_Rules := Rules;
  wh_ObjectSelector := ObjectSelector; wh_SideEffects := SideEffects;
  wh_TimeoutSeconds := TimeoutSeconds; wh_Doc := Doc;
  wh_SyncSetLabelSelector := SyncSetLabelSelector; wh_ClassicEnabled := ClassicEnabled;
  wh_HypershiftEnabled := HypershiftEnabled |}.

End Authorized.

(** ** Theory *)

Section Theory.
Context `{AdmissionCtl, !AdmissionCtlLaws} `{Decoder NetNamespace, Decoder ConfigMap}.

(** A user without any standing of their own. *)
Definition regular_user (req : Request) : Prop :=
  HasPrefix (username req) "kube:" = false ∧ HasPrefix (username req) "system:" = false ∧
  (username req ∉ adminUsers) ∧ existsb (Contains adminGroups) (groups req) = false.

Definition admin_group_member (req : Request) : Prop :=
  "cluster-admins" ∈ groups req ∨ "dedicated-admins" ∈ groups req.

(** The lock on machine configuration.  Being a kube: or a system: user does
    not help: only cluster-admins, the backplane administrator and three named
    users pass. *)
Theorem regularuser_machineconfig_iff req :
  gvk_Group (req_Kind req) = machineConfigGroup →
  resp_Allowed (authorized req) = true ↔
  username req ≠ "system:unauthenticated" ∧
  ("cluster-admins" ∈ groups req ∨ username req ∈ adminUsers ++ machineConfigUsers).
Proof.
  intros Hg. unfold authorized, isMachineConfigAuthorized. rewrite Hg String.eqb_refl.
  rewrite elem_of_app.
  destruct (String.eqb_spec (username req) "system:unauthenticated") as [->|Hu].
  { autorewrite with go_bool. naive_solver. }
  destruct (Contains (groups req) _) eqn:E1; [|destruct (Contains adminUsers _) eqn:E2;
    [|destruct (Contains machineConfigUsers _) eqn:E3]]; rewrite WebhookResponse_allowed;
    autorewrite with go_bool in *; naive_solver.
Qed.

Lemma RequestMatchesGroupKind_iff req kind group :
  RequestMatchesGroupKind req kind group = true ↔
  gvk_Kind (req_Kind req) = kind ∧ gvk_Group (req_Kind req) = group.
Proof. unfold RequestMatchesGroupKind. by autorewrite with go_bool. Qed.

Lemma isClusterVersionAuthorized_iff req :
  isClusterVersionAuthorized req = true ↔
  username req ∈ clusterVersionUsers ++ adminUsers ∨
  existsb (Contains adminGroups) (groups req) = true ∨
  (HasPrefix (username req) "system:" = true ∧
   HasPrefix (username req) "system:serviceaccount:" = false).
Proof.
  unfold isClusterVersionAuthorized. rewrite elem_of_app -!Contains_iff.
  destruct (Contains clusterVersionUsers _), (Contains adminUsers _), (existsb _ _),
    (HasPrefix _ "system:"), (HasPrefix _ "system:serviceaccount:"); naive_solver.
Qed.

(** Who may change a ClusterVersion: kube: users, the service accounts of the
    upgrade machinery, the SRE administrators and system: users other than
    service accounts.  A service account of any other name, even of a managed
    namespace, is refused unless it is in the SRE group. *)
Theorem regularuser_clusterversion_iff req :
  gvk_Kind (req_Kind req) = clusterVersionKind → gvk_Group (req_Kind req) = clusterVersionGroup →
  resp_Allowed (authorized req) = true ↔
  username req ≠ "system:unauthenticated" ∧
  (HasPrefix (username req) "kube:" = true ∨
   username req ∈ clusterVersionUsers ++ adminUsers ∨
   existsb (Contains adminGroups) (groups req) = true ∨
   (HasPrefix (username req) "system:" = true ∧
    HasPrefix (username req) "system:serviceaccount:" = false)).
Proof.
  intros Hk Hg. rewrite -isClusterVersionAuthorized_iff.
  unfold authorized, RequestMatchesGroupKind. rewrite Hk Hg. simpl.
  destruct (String.eqb_spec (username req) "system:unauthenticated") as [->|Hu].
  { autorewrite with go_bool. naive_solver. }
  destruct (HasPrefix _ "kube:"); [autorewrite with go_bool; naive_solver|].
  destruct (isClusterVersionAuthorized req); rewrite WebhookResponse_allowed; naive_solver.
Qed.

(** The object is sent, decodes, and its name is neither reserved nor that of a
    privileged namespace. *)
Definition unmanaged_netnamespace (req : Request) : Prop :=
  ∃ ns : NetNamespace, Raw (req_Object req) ≠ "" ∧ Decode req = Ok ns ∧
    MatchPattern Namespace.badNamespace (netns_Name ns) = false ∧ IsPrivilegedNamespace (netns_Name ns) = false.

Lemma isNetNamespaceValid_iff req : isNetNamespaceValid req = true ↔ unmanaged_netnamespace req.
Proof.
  unfold isNetNamespaceValid, unmanaged_netnamespace. setoid_rewrite <-nonempty_true.
  destruct (nonempty _); simpl; [|naive_solver]. destruct (Decode req) as [ns|]; [|naive_solver].
  destruct (MatchPattern _ _) eqn:E1, (IsPrivilegedNamespace _) eqn:E2; simpl;
    (split; [intros [=]; by exists ns|intros (ns' & _ & [= <-] & ? & ?); congruence]).
Qed.

(** The config map that is deleted, or the one that is to be, is not
    openshift-config/user-ca-bundle. *)
Definition unprotected_configmap (req : Request) : Prop :=
  ∃ configMap : ConfigMap,
    DecodeRaw (if String.eqb (req_Operation req) Delete then req_OldObject req else req_Object req) = Ok configMap ∧
    ¬ (cm_Name configMap = "user-ca-bundle" ∧ cm_Namespace configMap = "openshift-config").

Lemma shouldAllowConfigMapChange_iff req : shouldAllowConfigMapChange req = true ↔ unprotected_configmap req.
Proof.
  unfold shouldAllowConfigMapChange, unprotected_configmap.
  destruct (String.eqb (req_Operation req) Delete); (destruct (DecodeRaw _) as [cm|]; [|naive_solver]);
    destruct (String.eqb_spec (cm_Name cm) "user-ca-bundle"), (String.eqb_spec (cm_Namespace cm) "openshift-config");
    simpl; naive_solver.
Qed.

(** The kinds with rules of their own, and what those rules let a regular user do. *)
Definition kind_rule (req : Request) : Prop :=
  let kind := gvk_Kind (req_Kind req) in
  let group := gvk_Group (req_Kind req) in
  (group = machineConfigGroup ∧ "cluster-admins" ∈ groups req) ∨
  (group ≠ machineConfigGroup ∧
   ((kind = mustGatherKind ∧ group = mustGatherGroup ∧ ceeGroup ∈ groups req) ∨
    (kind = customDomainKind ∧ group = customDomainGroup ∧ admin_group_member req) ∨
    (kind = netNamespaceKind ∧ group = netNamespaceGroup ∧ admin_group_member req ∧
       unmanaged_netnamespace req) ∨
    (kind = "ConfigMap" ∧ unprotected_configmap req))).

Lemma authorizedCommon_regular req :
  regular_user req →
  resp_Allowed (authorizedCommon req) = true ↔
  gvk_Kind (req_Kind req) = "ConfigMap" ∧ shouldAllowConfigMapChange req = true.
Proof.
  intros (_ & Hs & Ha%Contains_false & Hg). unfold authorizedCommon. rewrite Hs Ha Hg.
  destruct (String.eqb_spec (gvk_Kind (req_Kind req)) "ConfigMap"),
    (shouldAllowConfigMapChange req); simpl; autorewrite with go_bool; naive_solver.
Qed.

Lemma admin_group_member_iff req :
  Contains (groups req) "cluster-admins" || Contains (groups req) "dedicated-admins" = true ↔
  admin_group_member req.
Proof. unfold admin_group_member. by autorewrite with go_bool. Qed.

Lemma system_users (users : list string) u :
  forallb (λ v, HasPrefix v "system:") users = true →
  HasPrefix u "system:" = false → Contains users u = false.
Proof.
  rewrite forallb_forall. intros Hall Hs. apply Contains_false. intros Hin.
  apply list_elem_of_In, Hall in Hin. congruence.
Qed.

Lemma isMachineConfigAuthorized_regular req :
  regular_user req → isMachineConfigAuthorized req = Contains (groups req) "cluster-admins".
Proof.
  intros (_ & Hs & Ha%Contains_false & _). unfold isMachineConfigAuthorized.
  rewrite (system_users machineConfigUsers _ eq_refl Hs) Ha. by destruct (Contains (groups req) "cluster-admins").
Qed.

Lemma isClusterVersionAuthorized_regular req :
  regular_user req → isClusterVersionAuthorized req = false.
Proof.
  intros (_ & Hs & Ha%Contains_false & Hg). unfold isClusterVersionAuthorized.
  by rewrite (system_users clusterVersionUsers _ eq_refl Hs) Ha Hg Hs.
Qed.

Lemma regular_user_authenticated req :
  regular_user req → String.eqb (username req) "system:unauthenticated" = false.
Proof.
  intros (_ & Hs & _). apply String.eqb_neq. intros E. by rewrite E in Hs.
Qed.

(** Whether the branch of a kind allows the request, in a uniform shape. *)
Lemma branch_or_common req (b : bool) m :
  regular_user req →
  resp_Allowed (if b then reply req (Allowed m) else authorizedCommon req) = true ↔
  b = true ∨ (gvk_Kind (req_Kind req) = "ConfigMap" ∧ shouldAllowConfigMapChange req = true).
Proof.
  intros Hr. destruct b; [autorewrite with go_bool; naive_solver|].
  rewrite (authorizedCommon_regular _ Hr). naive_solver.
Qed.

(** C3: The whole decision for a regular user: machine configuration is for
    cluster-admins, MustGather for CEE, CustomDomain and unmanaged NetNamespace
    objects for the two customer admin groups, ConfigMaps other than
    openshift-config/user-ca-bundle for everyone, and nothing else passes. *)
Theorem regularuser_customer_iff req :
  regular_user req → resp_Allowed (authorized req) = true ↔ kind_rule req.
Proof.
  intros Hr. unfold authorized, kind_rule. rewrite -isNetNamespaceValid_iff -shouldAllowConfigMapChange_iff.
  rewrite (regular_user_authenticated _ Hr).
  rewrite (isMachineConfigAuthorized_regular _ Hr) -Contains_iff.
  destruct (String.eqb_spec (gvk_Group (req_Kind req)) machineConfigGroup) as [Em|Em].
  { destruct (Contains _ "cluster-admins"); rewrite WebhookResponse_allowed; naive_solver. }
  destruct Hr as [Hk Hr']. rewrite Hk. pose proof (conj Hk Hr' : regular_user req) as Hr.
  setoid_rewrite <-admin_group_member_iff. rewrite -(Contains_iff (groups req) ceeGroup).
  unfold isMustGatherAuthorized, isCustomDomainAuthorized, isNetNamespaceAuthorized.
  unfold RequestMatchesGroupKind.
  pose proof (branch_or_common req) as Hb. pose proof (authorizedCommon_regular _ Hr) as Hcm.
  revert Hb Hcm Em.
  generalize (gvk_Kind (req_Kind req)) (gvk_Group (req_Kind req)). intros k g Hb Hcm Em.
  destruct (String.eqb_spec k mustGatherKind) as [->|E1];
    [destruct (String.eqb_spec g mustGatherGroup) as [->|G1]|]; simpl.
  { rewrite Hb; [done|]. naive_solver. }
  { rewrite Hcm. naive_solver. }
  destruct (String.eqb_spec k customDomainKind) as [->|E2];
    [destruct (String.eqb_spec g customDomainGroup) as [->|G2]|]; simpl.
  { rewrite Hb; [done|]. naive_solver. }
  { rewrite Hcm. naive_solver. }
  destruct (String.eqb_spec k clusterVersionKind) as [->|E3];
    [destruct (String.eqb_spec g clusterVersionGroup) as [->|G3]|]; simpl.
  { rewrite (isClusterVersionAuthorized_regular _ Hr) WebhookResponse_allowed. naive_solver. }
  { rewrite Hcm. naive_solver. }
  destruct (String.eqb_spec k netNamespaceKind) as [->|E4];
    [destruct (String.eqb_spec g netNamespaceGroup) as [->|G4]|]; simpl.
  { rewrite Hb; [done|]. rewrite andb_true_iff. naive_solver. }
  { rewrite Hcm. naive_solver. }
  rewrite Hcm. naive_solver.
Qed.
End Theory.

(** ** The interface, discharged *)

Section Laws.
Context `{AdmissionCtl} `{Decoder NetNamespace, Decoder ConfigMap}.

#[export] Instance regularuser_laws : WebhookLaws NewWebhook.
Proof.
  apply (pure_webhook_laws _ (λ req, Returned (authorized req))); [done|].
  assert (∀ req, identified req (authorizedCommon req)) as Hc.
  { intros req. unfold authorizedCommon. destruct (HasPrefix _ _); [apply identified_reply|].
    destruct (Contains adminUsers _); [apply identified_reply|].
    destruct (existsb _ _); [apply identified_reply|]. destruct (_ && _); apply identified_reply. }
  intros req r [= <-]. unfold authorized. split_ifs; first [apply Hc | apply identified_reply].
Qed.
End Laws.

(** ** Witnesses *)

Module Witness.

#[local] Existing Instance exampleCtl.
#[local] Existing Instance exampleCtl_laws.
#[local] Instance netNamespaceDecoder : Decoder NetNamespace :=
  exampleDecoder [("netns", {| netns_Name := "my-app" |})].
#[local] Instance configMapDecoder : Decoder ConfigMap :=
  exampleDecoder [("ca", {| cm_Name := "user-ca-bundle"; cm_Namespace := "openshift-config" |})].

Definition ask (op kind group u : string) (gs : list string) (object : string) : Request :=
  exampleRequest op kind group u gs {| Raw := object |} noRaw.

Lemma regularuser_machineconfig_iff_witness :
  resp_Allowed (authorized (ask Create "MachineConfig" machineConfigGroup "kube:admin" ["devs"] "mc")) ≠ true.
Proof.
  intros [_ [Hin|Hin]]%regularuser_machineconfig_iff; [..|reflexivity];
    apply Contains_iff in Hin; vm_compute in Hin; discriminate.
Defined.

Lemma regularuser_clusterversion_iff_witness :
  resp_Allowed (authorized (ask Update clusterVersionKind clusterVersionGroup
    "system:serviceaccount:openshift-cluster-version:default" [] "cv")) = true.
Proof.
  apply regularuser_clusterversion_iff; [reflexivity|reflexivity|]. split; [discriminate|].
  right; left. apply Contains_iff. reflexivity.
Defined.

Lemma regularuser_customer_iff_witness :
  resp_Allowed (authorized (ask Create netNamespaceKind netNamespaceGroup "alice" ["dedicated-admins"] "netns")) = true.
Proof.
  apply regularuser_customer_iff.
  - split; [reflexivity|]. split; [reflexivity|]. split; [by apply Contains_false|reflexivity].
  - right. split; [discriminate|]. do 2 right; left. split; [reflexivity|]. split; [reflexivity|].
    split; [right; by apply Contains_iff|]. apply isNetNamespaceValid_iff. vm_compute. reflexivity.
Defined.
End Witness.
