(* ===== verification/ClusterLogging.v ===== *)
(** * pkg/webhooks/clusterlogging: the clusterlogging-validation webhook

    Bounds the log retention of a ClusterLogging object.  Durations are a
    decimal number and a unit, compared as 64-bit unsigned seconds; the
    multiplications of [convertToSeconds] wrap around. *)

From S2P Require Import Prelude GoStrings Regexp RegexpTheory Admission Utils Webhook.

(** ** Data *)

Definition ClusterLoggingKind : string := "ClusterLogging".
Definition WebhookName : string := "clusterlogging-validation".
Definition docString : string :=
  "Managed OpenShift Customers may set log retention outside the allowed range of 0-7 days".
Definition reTimeUnit : string := "^(?P<number>\d+)(?P<unit>[yMwdhHms])$".

Definition rules : list RuleWithOperations := [{|
  Operations := ["CREATE"; "UPDATE"];
  APIGroups := ["logging.openshift.io"];
  APIVersions := ["v1"];
  Resources := ["clusterloggings"];
  Scope := Some NamespacedScope |}].

(** cl.ClusterLogging and the parts of its spec that are read; pointers as in
    the API. *)
Record RetentionPolicySpec := { MaxAge : string }.
Record RetentionPoliciesSpec := {
  App : option RetentionPolicySpec;
  Infra : option RetentionPolicySpec;
  Audit : option RetentionPolicySpec;
}.
Record LogStoreSpec := { RetentionPolicy : option RetentionPoliciesSpec }.
Record ClusterLogging := { LogStore : option LogStoreSpec }.

(** ** The accessors of the interface *)

Definition SyncSetLabelSelector : LabelSelector := customLabelSelector [{|
  lsr_Key := "hive.openshift.io/version-major-minor";
  lsr_Operator := LabelSelectorOpIn;
  lsr_Values := ["4.4"; "4.5"; "4.6"] |}].
Definition ObjectSelector : option LabelSelector := None.
Definition Doc : string := docString.
Definition TimeoutSeconds : Z := 1.
Definition MatchPolicy : MatchPolicyType := Equivalent.
Definition Name : string := WebhookName.
Definition FailurePolicy : FailurePolicyType := Ignore.
Definition Rules : list RuleWithOperations := rules.
Definition GetURI : string := "/" +:+ WebhookName.
Definition SideEffects : SideEffectClass := SideEffectClassNone.
Definition ClassicEnabled : bool := true.
Definition HypershiftEnabled : bool := false.

Definition Validate (req : Request) : bool :=
  negb (String.eqb (username req) "") &&
  String.eqb (gvk_Kind (req_Kind req)) ClusterLoggingKind.

(** ** Durations *)

Definition parseTimeUnit (value : string) : result (Z * string) :=
  match FindPattern reTimeUnit value with
  | None => Err ("unable to parse timeunit '" +:+ value +:+ "' for invalid timeunit")
  | Some m =>
      if length m <? 2 then Err ("unable to parse timeunit '" +:+ value +:+ "' for invalid timeunit")
      else
        let n := nth 1 m "" in
        match ParseUint n with
        | Err _ => Err ("unable to parse uint '" +:+ n +:+ "' ")
        | Ok number => Ok (number, nth 2 m "")
        end
  end.

(** One [if unit == ... { number = number * k; unit = ... }] of [convertToSeconds]. *)
Definition rescale (from : list string) (k : Z) (to : string) (q : Z * string) : Z * string :=
  let '(number, unit) := q in
  if Contains from unit then (u64 (number * k), to) else (number, unit).

Definition convertToSeconds (number : Z) (unit : string) : Z :=
  let q := (number, unit) in
  let q := rescale ["y"] 365 "d" q in
  let q := rescale ["M"] 31 "d" q in
  let q := rescale ["w"] 7 "d" q in
  let q := rescale ["d"] 24 "h" q in
  let q := rescale ["h"; "H"] 60 "m" q in
  let '(number, unit) := q in
  if String.eqb unit "m" then u64 (number * 60) else number.

Definition le (lhs rhs : string) : result bool :=
  match parseTimeUnit lhs with
  | Err err => Err err
  | Ok (lhsNumber, lhsUnit) =>
      match parseTimeUnit rhs with
      | Err err => Err err
      | Ok (rhsNumber, rhsUnit) =>
          Ok (convertToSeconds lhsNumber lhsUnit <=? convertToSeconds rhsNumber rhsUnit)%Z
      end
  end.

(** ** Validators *)

Record retentionPolicyValidator := {
  name : string; hint : string; lowerBound : string; upperBound : string }.

Definition isAllowed (r : retentionPolicyValidator) (retentionPolicy : option RetentionPolicySpec) :
    result (bool * string) :=
  match retentionPolicy with
  | None =>
      Ok (false, "The entered retention policy is not allowed. " +:+ name r +:+
                 " must not be unset. Hint: " +:+ hint r)
  | Some policy =>
      match le (lowerBound r) (MaxAge policy) with
      | Err err => Err err
      | Ok isAllowedRetentionDaysLower =>
          match le (MaxAge policy) (upperBound r) with
          | Err err => Err err
          | Ok isAllowedRetentionDaysUpper =>
              if negb isAllowedRetentionDaysLower || negb isAllowedRetentionDaysUpper then
                Ok (false, "The entered RetentionPolicy " +:+ name r +:+ " is not allowed. " +:+ hint r)
              else Ok (true, "")
          end
      end
  end.

Definition appValidator : retentionPolicyValidator := {|
  name := "app"; hint := "Set MaxAge to a value <= 7d, >= 1h"; lowerBound := "1h"; upperBound := "7d" |}.
Definition infraValidator : retentionPolicyValidator := {|
  name := "infra"; hint := "MaxAge must be 1h"; lowerBound := "1h"; upperBound := "1h" |}.
Definition auditValidator : retentionPolicyValidator := {|
  name := "audit"; hint := "audit log must be 1h"; lowerBound := "1h"; upperBound := "1h" |}.

Section Authorized.
Context `{AdmissionCtl} `{Decoder ClusterLogging}.

Definition checkPolicy (r : retentionPolicyValidator) (retentionPolicy : option RetentionPolicySpec) :
    bool * Response :=
  match isAllowed r retentionPolicy with
  | Err err => (false, Errored StatusBadRequest err)
  | Ok (allowed, deniedMessage) =>
      if negb allowed then (false, Denied deniedMessage)
      else (true, Allowed "Allowed to create ClusterLogging")
  end.

Definition renderClusterLogging (request : Request) : result ClusterLogging :=
  if nonempty (req_OldObject request) then DecodeRaw (req_OldObject request)
  else DecodeRaw (req_Object request).

(** ** The decision *)

Definition authorized (request : Request) : outcome Response :=
  match renderClusterLogging request with
  | Err err => Returned (Errored StatusBadRequest err)
  | Ok clusterLogging =>
      logStore ← deref (LogStore clusterLogging);
      retentionPolicy ← deref (RetentionPolicy logStore);
      let '(ok, ret) := checkPolicy appValidator (App retentionPolicy) in
      if negb ok then Returned ret
      else
        let '(ok, ret) := checkPolicy infraValidator (Infra retentionPolicy) in
        if negb ok then Returned ret
        else
          let '(ok, ret) := checkPolicy auditValidator (Audit retentionPolicy) in
          if negb ok then Returned ret else Returned ret
  end.

Definition Authorized (request : Request) : M Response :=
  r ← lift_outcome (authorized request); mret (reply request r).

Definition NewWebhook : Webhook := {|
  wh_Authorized := Authorized; wh_GetURI := GetURI; wh_Validate := Validate; wh_Name := Name;
  wh_FailurePolicy := FailurePolicy; wh_MatchPolicy := MatchPolicy; wh_Rules := Rules;
  wh_ObjectSelector := ObjectSelector; wh_SideEffects := SideEffects;
  wh_TimeoutSeconds := TimeoutSeconds; wh_Doc := Doc;
  wh_SyncSetLabelSelector := SyncSetLabelSelector; wh_ClassicEnabled := ClassicEnabled;
  wh_HypershiftEnabled := HypershiftEnabled |}.

End Authorized.

(** ** What a duration means *)

Definition unit_set : cset := CSet false
  [("y", "y"); ("M", "M"); ("w", "w"); ("d", "d"); ("h", "h"); ("H", "H"); ("m", "m"); ("s", "s")]%char.
Definition digit_set : cset := CSet false [("0", "9")]%char.

Definition timeUnitTail : re :=
  RCat (RGroup 1 (RCat (RCat (RSet digit_set) (RStar (RSet digit_set))) REps))
    (RCat (RGroup 2 (RCat (RSet unit_set) REps)) (RCat REnd REps)).

Lemma reTimeUnit_compiles :
  MustCompile reTimeUnit = Some (MkRegexp (RCat RBegin timeUnitTail) [""; "number"; "unit"]).
Proof. vm_compute. reflexivity. Qed.

Lemma digit_set_spec c : cset_mem digit_set c = is_digit c.
Proof. unfold cset_mem, digit_set, is_digit, in_range. simpl. by rewrite orb_false_r. Qed.

Lemma all_digit_set w : all_chars (cset_mem digit_set) w = all_chars is_digit w.
Proof. induction w as [|c w IH]; simpl; [done|]. by rewrite digit_set_spec IH. Qed.

(** A number, one or more digits, followed by a unit. *)
Definition timeUnit (v w : string) (c : ascii) : Prop :=
  v = w +:+ String c "" ∧ w ≠ "" ∧ all_chars is_digit w = true ∧ cset_mem unit_set c = true.

Lemma timeUnit_functional v w c w' c' : timeUnit v w c → timeUnit v w' c' → w = w' ∧ c = c'.
Proof.
  intros (-> & _) (E & _). revert w' E. induction w as [|x w IH]; intros [|x' w'] E; simpl in *.
  - by inv E.
  - inv E. by destruct w'.
  - inv E. by destruct w.
  - inv E. destruct (IH w') as [-> ->]; done.
Qed.

(** The states in which the expression can end, with the groups it records. *)
Lemma timeUnitTail_matches s st' :
  matches timeUnitTail (MState 0 s []) st' ↔
  ∃ w c, timeUnit s w c ∧
    st' = MState (String.length s) "" [(2, String c ""); (1, w)].
Proof.
  unfold timeUnitTail, timeUnit. rewrite matches_cat. split.
  - intros (st1 & (st2 & Hd & ->)%matches_group & Hrest).
    apply matches_cat in Hd as (st3 & Hd & ->%matches_eps).
    apply matches_cat in Hd as (st4 & (x & t & -> & Hx & ->)%matches_set & Hs).
    apply matches_star_set in Hs as (w & t' & -> & Hw & ->).
    unfold with_cap in Hrest. simpl in Hrest.
    apply matches_cat in Hrest as (st5 & (st6 & Hu & ->)%matches_group & Hrest).
    apply matches_cat in Hu as (st7 & (c & t & -> & Hc & ->)%matches_set & ->%matches_eps).
    unfold with_cap in Hrest. simpl in Hrest.
    apply matches_cat in Hrest as (st8 & [-> ->]%matches_end & ->%matches_eps).
    exists (String x w), c. rewrite all_digit_set in Hw. rewrite digit_set_spec in Hx. simpl.
    rewrite Hx Hw str_length_app. simpl. split; [done|]. f_equal; [lia|].
    rewrite (consumed_app _ (String x w)) (consumed_app _ (String c "")). done.
  - intros (w & c & (-> & Hne & Hw & Hc) & ->). destruct w as [|x w]; [done|].
    simpl in Hw. apply andb_true_iff in Hw as [Hx Hw].
    exists (MState (S (String.length w)) (String c "") [(1, String x w)]). split.
    + apply matches_group. exists (MState (S (String.length w)) (String c "") []). split.
      * apply matches_cat. eexists. split; [|by apply matches_eps]. apply matches_cat.
        exists (MState 1 (w +:+ String c "") []). split.
        { apply matches_set. exists x, (w +:+ String c ""). by rewrite digit_set_spec. }
        apply matches_star_set. exists w, (String c ""). by rewrite all_digit_set.
      * unfold with_cap. by rewrite (consumed_app _ (String x w)).
    + apply matches_cat. exists (MState (S (S (String.length w))) "" [(2, String c ""); (1, String x w)]).
      split.
      * apply matches_group. exists (MState (S (S (String.length w))) "" [(1, String x w)]). split.
        { apply matches_cat. eexists. split; [|by apply matches_eps].
          apply matches_set. by exists c, "". }
        unfold with_cap. by rewrite (consumed_app _ (String c "")).
      * rewrite str_length_app. simpl. rewrite Nat.add_1_r.
        apply matches_cat. eexists. split; [by apply matches_end|by apply matches_eps].
Qed.

Lemma FindPattern_timeUnit v w c :
  timeUnit v w c → FindPattern reTimeUnit v = Some [v; w; String c ""].
Proof.
  intros Hv. unfold FindPattern. rewrite reTimeUnit_compiles. unfold FindStringSubmatch. cbn [prog names].
  destruct (find_match_anchored timeUnitTail v) as (st & st' & E).
  { eexists. apply matches_cat. eexists. split; [by apply matches_begin|].
    apply timeUnitTail_matches. eauto. }
  rewrite E. apply find_match_begin in E as [-> (w' & c' & Hv' & ->)%timeUnitTail_matches].
  destruct (timeUnit_functional _ _ _ _ _ Hv Hv') as [<- <-].
  pose proof (consumed_app 0 v "" [] (String.length v) [(2, String c ""); (1, w)]) as Ec.
  rewrite str_app_nil_r in Ec. rewrite Ec. done.
Qed.

Lemma FindPattern_timeUnit_Some v m :
  FindPattern reTimeUnit v = Some m → ∃ w c, timeUnit v w c.
Proof.
  unfold FindPattern. rewrite reTimeUnit_compiles. unfold FindStringSubmatch. cbn [prog names].
  destruct (find_match _ v) as [[st st']|] eqn:E; [|done].
  apply find_match_begin in E as [-> (w' & c' & Hv' & ->)%timeUnitTail_matches]. eauto.
Qed.

(** What [parseTimeUnit] accepts and what it returns. *)
Lemma parseTimeUnit_iff v n u :
  parseTimeUnit v = Ok (n, u) ↔
  ∃ w c, timeUnit v w c ∧ u = String c "" ∧ n = digits_val 0 w ∧ (n ≤ max_u64)%Z.
Proof.
  assert (∀ w c, timeUnit v w c → parseTimeUnit v =
    if (digits_val 0 w <=? max_u64)%Z then Ok (digits_val 0 w, String c "")
    else Err ("unable to parse uint '" +:+ w +:+ "' ")) as Hp.
  { intros w c Hv. unfold parseTimeUnit. rewrite (FindPattern_timeUnit _ _ _ Hv).
    cbn [length nth Nat.ltb Nat.leb]. destruct Hv as (_ & Hne & Hw & _).
    rewrite (ParseUint_digits _ Hne Hw). by destruct (_ <=? _)%Z. }
  split.
  - intros H. destruct (FindPattern reTimeUnit v) as [m|] eqn:E;
      [|unfold parseTimeUnit in H; by rewrite E in H].
    destruct (FindPattern_timeUnit_Some _ _ E) as (w & c & Hv). rewrite (Hp _ _ Hv) in H.
    destruct (Z.leb_spec (digits_val 0 w) max_u64); [|done]. injection H as <- <-. by exists w, c.
  - intros (w & c & Hv & -> & -> & Hn). by rewrite (Hp _ _ Hv) (proj2 (Z.leb_le _ _) Hn).
Qed.

(** The seconds of a unit; a year has 365 days and a month 31. *)
Definition unit_seconds (c : ascii) : Z :=
  (if Ascii.eqb c "y" then 365 * 86400
  else if Ascii.eqb c "M" then 31 * 86400
  else if Ascii.eqb c "w" then 7 * 86400
  else if Ascii.eqb c "d" then 86400
  else if Ascii.eqb c "h" then 3600
  else if Ascii.eqb c "H" then 3600
  else if Ascii.eqb c "m" then 60
  else 1)%Z.

(** The length of the duration [v], an unbounded number of seconds. *)
Definition duration (v : string) (seconds : Z) : Prop :=
  ∃ w c, timeUnit v w c ∧ (digits_val 0 w ≤ max_u64)%Z ∧
    seconds = (digits_val 0 w * unit_seconds c)%Z.

Lemma u64_mul_l a b : u64 (u64 a * b) = u64 (a * b).
Proof. unfold u64. by rewrite Zmult_mod_idemp_l. Qed.

Lemma u64_small a : (0 ≤ a ≤ max_u64)%Z → u64 a = a.
Proof. unfold u64, max_u64. intros Ha. apply Z.mod_small. lia. Qed.

(** [convertToSeconds] computes the length modulo 2^64. *)
Lemma convertToSeconds_spec n c :
  cset_mem unit_set c = true → (0 ≤ n ≤ max_u64)%Z →
  convertToSeconds n (String c "") = u64 (n * unit_seconds c).
Proof.
  intros Hc Hn. unfold cset_mem, unit_set, in_range in Hc. simpl in Hc.
  assert (c ∈ chars "yMwdhHms") as Hin.
  { clear Hn. apply list_elem_of_In. destruct c as [[] [] [] [] [] [] [] []]; try discriminate Hc; simpl; auto 10. }
  clear Hc. apply list_elem_of_In in Hin. simpl in Hin.
  repeat destruct Hin as [<-|Hin]; [..|done]; unfold convertToSeconds, unit_seconds; simpl;
    first [by rewrite Z.mul_1_r u64_small | repeat rewrite ?u64_mul_l -?Z.mul_assoc; reflexivity].
Qed.

(** [le] between durations compares their lengths modulo 2^64. *)
Lemma parse_duration v :
  (∃ e, parseTimeUnit v = Err e ∧ ¬ ∃ d, duration v d) ∨
  (∃ n u d, parseTimeUnit v = Ok (n, u) ∧ duration v d ∧ convertToSeconds n u = u64 d).
Proof.
  destruct (parseTimeUnit v) as [[n u]|e] eqn:E.
  - right. apply parseTimeUnit_iff in E as (w & c & Hv & -> & -> & Hn).
    exists (digits_val 0 w), (String c ""), (digits_val 0 w * unit_seconds c)%Z.
    split; [done|]. split; [by exists w, c|]. destruct Hv as (_ & _ & Hw & Hc).
    apply convertToSeconds_spec; [done|]. pose proof (digits_val_nonneg w 0 Hw). lia.
  - left. exists e. split; [done|]. intros (d & w & c & Hv & Hn & _).
    assert (parseTimeUnit v = Ok (digits_val 0 w, String c "")) by (apply parseTimeUnit_iff; eauto 10).
    congruence.
Qed.

Lemma duration_functional v d d' : duration v d → duration v d' → d = d'.
Proof.
  intros (w & c & Hv & _ & ->) (w' & c' & Hv' & _ & ->).
  by destruct (timeUnit_functional _ _ _ _ _ Hv Hv') as [-> ->].
Qed.

(** What a validator with bounds of [lo] and [hi] seconds lets through. *)
Definition within (lo hi : Z) (p : option RetentionPolicySpec) : Prop :=
  ∃ policy d, p = Some policy ∧ duration (MaxAge policy) d ∧ (lo ≤ u64 d ≤ hi)%Z.

Lemma isAllowed_iff r p nl ul nh uh :
  parseTimeUnit (lowerBound r) = Ok (nl, ul) → parseTimeUnit (upperBound r) = Ok (nh, uh) →
  (∃ msg, isAllowed r p = Ok (true, msg)) ↔
  within (convertToSeconds nl ul) (convertToSeconds nh uh) p.
Proof.
  intros Hl Hh. unfold isAllowed, within, le. destruct p as [policy|]; [|naive_solver].
  rewrite Hl Hh. destruct (parse_duration (MaxAge policy)) as [(e & -> & Hd)|(n & u & d & -> & Hd & ->)].
  - split; [by intros [? [=]]|]. intros (p' & d & [= <-] & Hd' & _). by destruct Hd; exists d.
  - destruct (Z.leb_spec (convertToSeconds nl ul) (u64 d)), (Z.leb_spec (u64 d) (convertToSeconds nh uh));
      simpl; split; try (by intros [? [=]]); try (by eauto 10);
      intros (p' & d' & [= <-] & Hd' & Hb); rewrite (duration_functional _ _ _ Hd' Hd) in Hb; lia.
Qed.

Lemma duration_nonneg v d : duration v d → (0 ≤ d)%Z.
Proof.
  intros (w & c & (_ & _ & Hw & _) & _ & ->). pose proof (digits_val_nonneg w 0 Hw).
  assert (0 < unit_seconds c)%Z; [|nia]. unfold unit_seconds. split_ifs; lia.
Qed.

Lemma within_exact lo hi policy d :
  duration (MaxAge policy) d → (d ≤ max_u64)%Z → within lo hi (Some policy) ↔ (lo ≤ d ≤ hi)%Z.
Proof.
  intros Hd Hm. pose proof (duration_nonneg _ _ Hd). unfold within. split.
  - intros (p' & d' & [= <-] & Hd' & Hb). rewrite -(duration_functional _ _ _ Hd Hd') in Hb.
    by rewrite u64_small in Hb.
  - intros Hb. exists policy, d. by rewrite u64_small.
Qed.

Lemma u64_hours_wrap k : u64 ((k * 2 ^ 60 + 1) * 3600) = 3600%Z.
Proof.
  unfold u64. replace ((k * 2 ^ 60 + 1) * 3600)%Z with (3600 + (k * 225) * 2 ^ 64)%Z by lia.
  by rewrite Z_mod_plus_full.
Qed.

Section Theory.
Context `{AdmissionCtl, !AdmissionCtlLaws} `{Decoder ClusterLogging}.

Lemma checkPolicy_false r p : fst (checkPolicy r p) = false → resp_Allowed (snd (checkPolicy r p)) = false.
Proof.
  unfold checkPolicy. destruct (isAllowed r p) as [[[] m]|e]; simpl; autorewrite with go_bool; done.
Qed.

Lemma checkPolicy_true r p nl ul nh uh :
  parseTimeUnit (lowerBound r) = Ok (nl, ul) → parseTimeUnit (upperBound r) = Ok (nh, uh) →
  fst (checkPolicy r p) = true ↔ within (convertToSeconds nl ul) (convertToSeconds nh uh) p.
Proof.
  intros Hl Hh. rewrite -(isAllowed_iff r p _ _ _ _ Hl Hh). unfold checkPolicy.
  destruct (isAllowed r p) as [[[] m]|e]; simpl; naive_solver.
Qed.

Lemma checkPolicy_response r p : resp_Allowed (snd (checkPolicy r p)) = fst (checkPolicy r p).
Proof.
  destruct (fst (checkPolicy r p)) eqn:E; [|by apply checkPolicy_false].
  unfold checkPolicy in *. destruct (isAllowed r p) as [[[] m]|e]; simpl in *; autorewrite with go_bool; done.
Qed.

(** The retention policies of an object, if no pointer on the way is nil. *)
Definition policies (cl : ClusterLogging) : option RetentionPoliciesSpec :=
  logStore ← LogStore cl; RetentionPolicy logStore.

Lemma authorized_policies req cl rp :
  renderClusterLogging req = Ok cl → policies cl = Some rp →
  ∃ r, authorized req = Returned r ∧
    resp_Allowed r = fst (checkPolicy appValidator (App rp)) &&
      fst (checkPolicy infraValidator (Infra rp)) && fst (checkPolicy auditValidator (Audit rp)).
Proof.
  intros Hr Hp. unfold authorized. rewrite Hr. unfold policies in Hp.
  destruct (LogStore cl) as [ls|]; [|done]. simpl in *. rewrite Hp. simpl.
  pose proof (checkPolicy_response appValidator (App rp)) as Eapp.
  pose proof (checkPolicy_response infraValidator (Infra rp)) as Einfra.
  pose proof (checkPolicy_response auditValidator (Audit rp)) as Eaudit.
  destruct (checkPolicy appValidator (App rp)) as [[] r1]; simpl in *; [|by eauto].
  destruct (checkPolicy infraValidator (Infra rp)) as [[] r2]; simpl in *; [|by eauto].
  destruct (checkPolicy auditValidator (Audit rp)) as [[] r3]; simpl in *; by eauto.
Qed.

Lemma clusterlogging_decision req cl rp :
  renderClusterLogging req = Ok cl → policies cl = Some rp →
  allows (authorized req) ↔
  within 3600 604800 (App rp) ∧ within 3600 3600 (Infra rp) ∧ within 3600 3600 (Audit rp).
Proof.
  intros Hr Hp. destruct (authorized_policies _ _ _ Hr Hp) as (r & -> & Er).
  rewrite allows_returned Er !andb_true_iff.
  rewrite (checkPolicy_true appValidator _ 1 "h" 7 "d"); [by vm_compute..|].
  rewrite !(checkPolicy_true _ _ 1 "h" 1 "h"); [by vm_compute..|]. tauto.
Qed.

(** C19: The retention bounds.  When no product overflows 64 bits, an object with
    retention policies passes exactly when application logs are kept between one
    hour and seven days and infrastructure and audit logs for one hour. *)
Theorem clusterlogging_bounds req cl rp app infra audit a i u :
  renderClusterLogging req = Ok cl → policies cl = Some rp →
  App rp = Some app → Infra rp = Some infra → Audit rp = Some audit →
  duration (MaxAge app) a → duration (MaxAge infra) i → duration (MaxAge audit) u →
  (a ≤ max_u64)%Z → (i ≤ max_u64)%Z → (u ≤ max_u64)%Z →
  allows (authorized req) ↔ (3600 ≤ a ≤ 604800)%Z ∧ i = 3600%Z ∧ u = 3600%Z.
Proof.
  intros Hr Hp Ea Ei Eu Ha Hi Hu ? ? ?. rewrite (clusterlogging_decision _ _ _ Hr Hp) Ea Ei Eu.
  rewrite (within_exact _ _ app a Ha) // (within_exact _ _ infra i Hi) //.
  rewrite (within_exact _ _ audit u Hu) //. lia.
Qed.

(** C20: The overflow.  [number * 60 * 60] wraps around, so every count of hours
    that is one more than a multiple of 2^60 passes for one hour: infrastructure
    and audit logs can be kept for 2^60 + 1 hours and application logs as well. *)
Theorem clusterlogging_overflow req cl rp app infra audit a i u :
  renderClusterLogging req = Ok cl → policies cl = Some rp →
  App rp = Some app → Infra rp = Some infra → Audit rp = Some audit →
  duration (MaxAge app) ((a * 2 ^ 60 + 1) * 3600) →
  duration (MaxAge infra) ((i * 2 ^ 60 + 1) * 3600) →
  duration (MaxAge audit) ((u * 2 ^ 60 + 1) * 3600) →
  allows (authorized req).
Proof.
  intros Hr Hp Ea Ei Eu Ha Hi Hu. apply (clusterlogging_decision _ _ _ Hr Hp). rewrite Ea Ei Eu.
  split; [|split]; do 2 eexists; (split; [reflexivity|]); (split; [eassumption|]);
    rewrite u64_hours_wrap; lia.
Qed.

(** An object without a log store, or a log store without retention policies,
    makes the handler panic with a nil dereference, and nothing else does. *)
Theorem clusterlogging_panics_iff req :
  (∃ why, authorized req = Panicked why) ↔
  ∃ cl, renderClusterLogging req = Ok cl ∧ policies cl = None.
Proof.
  split.
  - destruct (renderClusterLogging req) as [cl|e] eqn:Er.
    + destruct (policies cl) as [rp|] eqn:Ep; [|by eauto].
      destruct (authorized_policies _ _ _ Er Ep) as (r & -> & _). by intros [? [=]].
    + unfold authorized. rewrite Er. by intros [? [=]].
  - intros (cl & Hr & Hp). unfold authorized. rewrite Hr. unfold policies in Hp.
    destruct (LogStore cl) as [ls|]; simpl in *; [|by eauto]. rewrite Hp. by eauto.
Qed.

(** On an update the object that is checked is the old one: the verdict does
    not depend on the new object, so an update of a conforming object may set
    any retention, and an object out of bounds cannot be corrected. *)
Theorem clusterlogging_update_checks_old req req' :
  Raw (req_OldObject req) ≠ "" → req_OldObject req' = req_OldObject req →
  authorized req' = authorized req.
Proof.
  intros Hne E. unfold authorized, renderClusterLogging. rewrite E.
  by rewrite (proj2 (nonempty_true _) Hne).
Qed.
End Theory.

(** ** The interface, discharged *)

Section Laws.
Context `{AdmissionCtl} `{Decoder ClusterLogging}.

#[export] Instance clusterlogging_laws : WebhookLaws NewWebhook.
Proof.
  apply (pure_webhook_laws _ (λ req, r ← authorized req; Returned (reply req r))).
  - intros req w. simpl. unfold Authorized, lift_outcome. simpl. unfold mbind, M_bind.
    by destruct (authorized req).
  - intros req r. destruct (authorized req); simpl; [|done]. intros [= <-]. apply identified_reply.
Qed.
End Laws.

(** ** Witnesses *)

Module Witness.

#[local] Existing Instance exampleCtl.
#[local] Existing Instance exampleCtl_laws.

Definition retention (app infra audit : string) : RetentionPoliciesSpec := {|
  App := Some {| MaxAge := app |}; Infra := Some {| MaxAge := infra |};
  Audit := Some {| MaxAge := audit |} |}.
Definition logging (app infra audit : string) : ClusterLogging :=
  {| LogStore := Some {| RetentionPolicy := Some (retention app infra audit) |} |}.
Definition aeon : string := "1152921504606846977h".

#[local] Instance decoder : Decoder ClusterLogging := exampleDecoder
  [("week", logging "7d" "1h" "60m"); ("month", logging "1M" "1h" "1h");
   ("aeon", logging aeon aeon aeon); ("none", {| LogStore := None |})].

Definition ask (op object oldObject : string) : Request :=
  exampleRequest op "ClusterLogging" "logging.openshift.io" "alice" [] {| Raw := object |} {| Raw := oldObject |}.

Ltac duration w c := exists w, c; vm_compute; repeat split; congruence.

Lemma clusterlogging_bounds_witness : allows (authorized (ask Create "week" "")).
Proof.
  apply (clusterlogging_bounds _ (logging "7d" "1h" "60m") (retention "7d" "1h" "60m")
    {| MaxAge := "7d" |} {| MaxAge := "1h" |} {| MaxAge := "60m" |} 604800 3600 3600);
    try reflexivity; try discriminate; try lia.
  - duration "7" "d"%char.
  - duration "1" "h"%char.
  - duration "60" "m"%char.
Defined.

Lemma clusterlogging_overflow_witness : allows (authorized (ask Create "aeon" "")).
Proof.
  apply (clusterlogging_overflow _ (logging aeon aeon aeon) (retention aeon aeon aeon)
    {| MaxAge := aeon |} {| MaxAge := aeon |} {| MaxAge := aeon |} 1 1 1); try reflexivity.
  - duration "1152921504606846977" "h"%char.
  - duration "1152921504606846977" "h"%char.
  - duration "1152921504606846977" "h"%char.
Defined.

Lemma clusterlogging_update_checks_old_witness :
  authorized (ask Update "month" "week") = authorized (ask Update "week" "week").
Proof. apply clusterlogging_update_checks_old; [discriminate|reflexivity]. Defined.

Lemma clusterlogging_panics_iff_witness : ∃ why, authorized (ask Create "none" "") = Panicked why.
Proof. apply clusterlogging_panics_iff. by eexists. Defined.
End Witness.
