(* ===== verification/Service.v ===== *)
(** * pkg/webhooks/service: the service-mutation webhook

    Makes every LoadBalancer service carry the red-hat-managed=true resource
    tag.  The patch the handler builds is given its meaning by [applyPatch]
    (RFC 6902 on the annotations of the object), and the theorems say what the
    service looks like after the patch. *)

From S2P Require Import Prelude GoStrings Admission Utils Webhook.

(** ** Data *)

Definition WebhookName : string := "service-mutation".
Definition docString : string :=
  "LoadBalancer-type services on Managed OpenShift clusters must contain an additional annotation for managed policy compliance.".
Definition annotationKey : string :=
  "service.beta.kubernetes.io/aws-load-balancer-additional-resource-tags".
Definition annotationValuePrefix : string := "red-hat-managed=".
Definition annotationValueSuffix : string := "true".
Definition timeout : Z := 2.

Definition rules : list RuleWithOperations := [{|
  Operations := ["CREATE"; "UPDATE"];
  APIGroups := [""];
  APIVersions := ["v1"];
  Resources := ["services"];
  Scope := Some NamespacedScope |}].

Definition ServiceTypeLoadBalancer : string := "LoadBalancer".

(** corev1.Service: name, annotations (a nil map is [None]) and spec.type. *)
Record Service := {
  svc_Name : string;
  svc_Annotations : option (gmap string string);
  svc_Type : string;
}.

(** ** The accessors of the interface *)

Definition Doc : string := docString.
Definition ObjectSelector : option LabelSelector := None.
Definition TimeoutSeconds : Z := timeout.
Definition MatchPolicy : MatchPolicyType := Equivalent.
Definition Name : string := WebhookName.
Definition FailurePolicy : FailurePolicyType := Ignore.
Definition Rules : list RuleWithOperations := rules.
Definition GetURI : string := "/" +:+ WebhookName.
Definition SideEffects : SideEffectClass := SideEffectClassNone.
Definition SyncSetLabelSelector : LabelSelector := DefaultLabelSelector.
Definition ClassicEnabled : bool := false.
Definition HypershiftEnabled : bool := true.

Definition Validate (request : Request) : bool :=
  negb (String.eqb (username request) "") && String.eqb (gvk_Kind (req_Kind request)) "Service".

(** ** Tags *)

(** The two forms of reading a map, nil or not. *)
Definition lookup_annotation (annotations : option (gmap string string)) (key : string) :
    option string := m ← annotations; m !! key.

Definition requiredTag : string := annotationValuePrefix +:+ annotationValueSuffix.

Definition hasRedHatManagedTag (serviceAnnotations : option (gmap string string)) : bool :=
  let tags := Split (default "" (lookup_annotation serviceAnnotations annotationKey)) ","%char in
  Contains tags requiredTag.

(** The loop over the existing tags. *)
Fixpoint keepTags (existingTags newTags : list string) : list string :=
  match existingTags with
  | [] => newTags
  | exTag :: rest =>
      keepTags rest
        (if negb (HasPrefix exTag annotationValuePrefix) then newTags ++ [exTag] else newTags)
  end.

Definition buildPatch (serviceAnnotations : option (gmap string string)) : JsonPatchOperation :=
  let patchPath :=
    match serviceAnnotations with
    | None => "/metadata/annotations"
    | Some _ => "/metadata/annotations" +:+ "/" +:+ rfc6901Encoder annotationKey
    end in
  match lookup_annotation serviceAnnotations annotationKey with
  | None =>
      match serviceAnnotations with
      | None => {| op_Operation := "add"; op_Path := patchPath;
                   op_Value := PMap {[annotationKey := requiredTag]} |}
      | Some _ => {| op_Operation := "add"; op_Path := patchPath; op_Value := PString requiredTag |}
      end
  | Some existingAnnotationValue =>
      let existingTags := Split existingAnnotationValue ","%char in
      let newTags := keepTags existingTags [requiredTag] in
      {| op_Operation := "replace"; op_Path := patchPath; op_Value := PString (Join newTags ",") |}
  end.

Section Authorized.
Context `{AdmissionCtl} `{Decoder Service}.

Definition renderService (req : Request) : result Service := Decode req.

(** ** The decision *)

Definition authorizeOrMutate (request : Request) : Response :=
  match renderService request with
  | Err err => Errored StatusBadRequest err
  | Ok service =>
      if negb (String.eqb (svc_Type service) ServiceTypeLoadBalancer) then
        reply request (Allowed "Non-LoadBalancer Services are exempt from compliance annotation requirements")
      else if hasRedHatManagedTag (svc_Annotations service) then
        reply request (Allowed ("Service '" +:+ svc_Name service +:+ "' contains the proper compliance annotation"))
      else
        let ret := Patched ("Added necessary compliance annotation to service '" +:+ svc_Name service +:+ "'")
                     [buildPatch (svc_Annotations service)] in
        fst (Complete ret request)
  end.

Definition Authorized (request : Request) : M Response := mret (authorizeOrMutate request).

Definition NewWebhook : Webhook := {|
  wh_Authorized := Authorized; wh_GetURI := GetURI; wh_Validate := Validate; wh_Name := Name;
  wh_FailurePolicy := FailurePolicy; wh_MatchPolicy := MatchPolicy; wh_Rules := Rules;
  wh_ObjectSelector := ObjectSelector; wh_SideEffects := SideEffects;
  wh_TimeoutSeconds := TimeoutSeconds; wh_Doc := Doc;
  wh_SyncSetLabelSelector := SyncSetLabelSelector; wh_ClassicEnabled := ClassicEnabled;
  wh_HypershiftEnabled := HypershiftEnabled |}.

End Authorized.

(** ** The meaning of a patch *)

(** The inverse of RFC 6901 escaping. *)
Fixpoint unescape (s : string) : string :=
  match s with
  | EmptyString => ""
  | String c s' =>
      if Ascii.eqb c "~" then
        match s' with
        | String d s'' =>
            if Ascii.eqb d "1" then String "/" (unescape s'')
            else if Ascii.eqb d "0" then String "~" (unescape s'')
            else String c (unescape s')
        | EmptyString => String c ""
        end
      else String c (unescape s')
  end.

Lemma unescape_rfc6901 s : unescape (rfc6901Encoder s) = s.
Proof.
  induction s as [|c s IH]; [done|]. cbn [rfc6901Encoder].
  destruct (Ascii.eqb_spec c "~") as [->|Hc]; [simpl; by rewrite IH|].
  destruct (Ascii.eqb_spec c "/") as [->|Hd]; [simpl; by rewrite IH|].
  change (String c "" +:+ rfc6901Encoder s) with (String c (rfc6901Encoder s)).
  cbn [unescape]. apply Ascii.eqb_neq in Hc. by rewrite Hc IH.
Qed.

(** [strings.TrimPrefix]-like: what follows a prefix. *)
Definition after (prefix s : string) : option string :=
  if HasPrefix s prefix
  then Some (String.substring (String.length prefix) (String.length s - String.length prefix) s)
  else None.

(** RFC 6902 on the annotations of an object: "add" puts a member into an
    existing object or sets the member itself, "replace" wants the target to
    exist; anything else fails. *)
Definition applyPatch (p : JsonPatchOperation) (annotations : option (gmap string string)) :
    option (gmap string string) :=
  if String.eqb (op_Path p) "/metadata/annotations" then
    match op_Operation p, op_Value p, annotations with
    | "add", PMap m, _ => Some m
    | "replace", PMap m, Some _ => Some m
    | _, _, _ => None
    end
  else
    match after "/metadata/annotations/" (op_Path p), op_Value p, annotations with
    | Some key, PString v, Some m =>
        if String.eqb (op_Operation p) "add" then Some (<[unescape key := v]> m)
        else if String.eqb (op_Operation p) "replace" then
          match m !! unescape key with Some _ => Some (<[unescape key := v]> m) | None => None end
        else None
    | _, _, _ => None
    end.

(** ** Theory *)

Definition tags (annotations : option (gmap string string)) : list string :=
  Split (default "" (lookup_annotation annotations annotationKey)) ","%char.

(** A tag that says something about red-hat-managed. *)
Definition conflicting (tag : string) : bool := HasPrefix tag annotationValuePrefix.

Lemma keepTags_filter ex acc :
  keepTags ex acc = acc ++ List.filter (λ t, negb (conflicting t)) ex.
Proof.
  revert acc. induction ex as [|t ex IH]; intros acc; simpl; [by rewrite app_nil_r|].
  rewrite IH. unfold conflicting. destruct (HasPrefix t _); simpl; [done|]. by rewrite -app_assoc.
Qed.

Lemma keepTags_words v :
  Forall (λ w, no_char "," w = true) (keepTags (Split v ",") [requiredTag]).
Proof.
  rewrite keepTags_filter. apply Forall_app. split; [by repeat constructor|].
  pose proof (Split_no_sep v ",") as Hall. rewrite !List.Forall_forall in Hall |- *.
  intros w [Hw _]%filter_In. by apply Hall.
Qed.

Lemma keepTags_nonempty ex : keepTags ex [requiredTag] ≠ [].
Proof. by rewrite keepTags_filter. Qed.

(** The new annotation splits into the required tag and the old tags that do
    not conflict with it. *)
Lemma Split_keepTags v :
  Split (Join (keepTags (Split v ",") [requiredTag]) ",") "," =
  requiredTag :: List.filter (λ t, negb (conflicting t)) (Split v ",").
Proof.
  rewrite (Split_Join _ ","%char); [apply keepTags_nonempty|apply keepTags_words|].
  apply keepTags_filter.
Qed.

(** The annotation value the patch leaves. *)
Definition patchedValue (annotations : option (gmap string string)) : string :=
  match lookup_annotation annotations annotationKey with
  | None => requiredTag
  | Some v => Join (keepTags (Split v ",") [requiredTag]) ","
  end.

Lemma applyPatch_buildPatch annotations :
  applyPatch (buildPatch annotations) annotations =
  Some (<[annotationKey := patchedValue annotations]> (default ∅ annotations)).
Proof.
  unfold patchedValue, buildPatch. destruct annotations as [m|]; [|done]. simpl lookup_annotation.
  change (lookup_annotation (Some m) annotationKey) with (m !! annotationKey).
  destruct (m !! annotationKey) as [v|] eqn:E; unfold applyPatch; cbn [op_Path op_Value op_Operation].
  - replace (String.eqb _ "/metadata/annotations") with false by done.
    replace (after _ _) with (Some (rfc6901Encoder annotationKey)) by done.
    rewrite unescape_rfc6901 E. done.
  - replace (String.eqb _ "/metadata/annotations") with false by done.
    replace (after _ _) with (Some (rfc6901Encoder annotationKey)) by done.
    rewrite unescape_rfc6901. done.
Qed.

Lemma tags_insert m v : tags (Some (<[annotationKey := v]> m)) = Split v ",".
Proof. unfold tags. simpl. by rewrite lookup_insert_eq. Qed.

Lemma hasRedHatManagedTag_tags a : hasRedHatManagedTag a = Contains (tags a) requiredTag.
Proof. done. Qed.

Lemma tags_patched annotations :
  tags (Some (<[annotationKey := patchedValue annotations]> (default ∅ annotations))) =
  requiredTag ::
    match lookup_annotation annotations annotationKey with
    | None => []
    | Some _ => List.filter (λ t, negb (conflicting t)) (tags annotations)
    end.
Proof.
  rewrite tags_insert. unfold patchedValue, tags.
  destruct (lookup_annotation annotations annotationKey) as [v|]; [apply Split_keepTags|done].
Qed.

Section Theory.
Context `{AdmissionCtl, !AdmissionCtlLaws} `{Decoder Service}.

(** C21: What happens to a LoadBalancer service without the tag.  The response
    allows it and carries one patch; the patch applies; afterwards the service
    has the tag, keeps every other annotation, keeps the other tags in their
    order and loses the tags that contradict the required one. *)
Theorem service_patch_complies req s :
  renderService req = Ok s → svc_Type s = ServiceTypeLoadBalancer →
  hasRedHatManagedTag (svc_Annotations s) = false →
  let r := authorizeOrMutate req in
  resp_Allowed r = true ∧ resp_UID r = req_UID req ∧
  ∃ p m, resp_Patches r = [p] ∧ applyPatch p (svc_Annotations s) = Some m ∧
    hasRedHatManagedTag (Some m) = true ∧
    (∀ k, k ≠ annotationKey → m !! k = lookup_annotation (svc_Annotations s) k) ∧
    (is_Some (lookup_annotation (svc_Annotations s) annotationKey) →
     List.filter (λ t, negb (conflicting t)) (tags (Some m)) =
     List.filter (λ t, negb (conflicting t)) (tags (svc_Annotations s))) ∧
    List.filter conflicting (tags (Some m)) = [requiredTag].
Proof.
  intros Hr Ht Hh. unfold authorizeOrMutate. rewrite Hr Ht Hh. simpl negb. cbn match.
  rewrite Complete_allowed Complete_UID Complete_patches Patched_allowed Patched_patches.
  split; [done|]. split; [done|].
  exists (buildPatch (svc_Annotations s)).
  exists (<[annotationKey := patchedValue (svc_Annotations s)]> (default ∅ (svc_Annotations s))).
  split; [done|]. split; [apply applyPatch_buildPatch|].
  rewrite hasRedHatManagedTag_tags tags_patched. split; [done|]. split; [|split].
  - intros k Hk. rewrite lookup_insert_ne; [congruence|].
    destruct (svc_Annotations s); [done|]. apply lookup_empty.
  - intros [v Hv]. rewrite Hv. simpl. apply filter_idem.
  - destruct (lookup_annotation _ _); [|done]. simpl. by rewrite filter_negb_nil.
Qed.

(** The mutation is idempotent: a service with the patched annotations is
    let through as it is. *)
Theorem service_patch_idempotent annotations req s :
  renderService req = Ok s → applyPatch (buildPatch annotations) annotations = svc_Annotations s →
  ∃ m, authorizeOrMutate req = reply req (Allowed m).
Proof.
  rewrite applyPatch_buildPatch. intros Hr Hs. unfold authorizeOrMutate. rewrite Hr.
  destruct (negb _); [by eexists|]. rewrite hasRedHatManagedTag_tags -Hs tags_patched.
  simpl. by eexists.
Qed.
End Theory.

(** ** The interface, discharged *)

Section Laws.
Context `{AdmissionCtl} `{!AdmissionCtlLaws} `{Decoder Service}.

#[export] Instance service_laws : WebhookLaws NewWebhook.
Proof.
  apply (pure_webhook_laws _ (λ req, Returned (authorizeOrMutate req))); [done|].
  intros req r. unfold authorizeOrMutate. split_ifs; intros [= <-]; eauto with webhook.
  left. apply Complete_UID.
Qed.
End Laws.

(** ** Witnesses *)

Module Witness.

#[local] Existing Instance exampleCtl.
#[local] Existing Instance exampleCtl_laws.

Definition before : Service := {|
  svc_Name := "lb"; svc_Type := "LoadBalancer";
  svc_Annotations := Some {[annotationKey := "team=a,red-hat-managed=false,env=prod"]} |}.
Definition patched : Service := {|
  svc_Name := "lb"; svc_Type := "LoadBalancer";
  svc_Annotations := Some {[annotationKey := "red-hat-managed=true,team=a,env=prod"]} |}.

#[local] Instance decoder : Decoder Service := exampleDecoder [("before", before); ("patched", patched)].

Definition ask (object : string) : Request :=
  exampleRequest Create "Service" "" "alice" [] {| Raw := object |} noRaw.

Lemma service_patch_complies_witness : resp_Allowed (authorizeOrMutate (ask "before")) = true.
Proof. apply (service_patch_complies (ask "before") before); reflexivity. Defined.

Lemma service_patch_idempotent_witness : ∃ m, authorizeOrMutate (ask "patched") = reply (ask "patched") (Allowed m).
Proof. apply (service_patch_idempotent (svc_Annotations before) _ patched); vm_compute; reflexivity. Defined.
End Witness.
