(* ===== verification/NetworkOperator.v ===== *)
(** * pkg/webhooks/networkoperator: the network-operator-validation webhook

    Guards spec.migration of the network operator's configuration.  The MTU
    values are structs of pointers, which Go compares by address; a pointer is
    modelled by the address it holds and the value found there. *)

From S2P Require Import Prelude GoStrings Admission Utils Webhook.

(** ** Data *)

Definition WebhookName : string := "network-operator-validation".
Definition docString : string :=
  "Managed OpenShift customers may not modify critical fields in the network.operator CRD (such as spec.migration.networkType) because it can disrupt Cluster Network Operator operations and CNI migrations. Only backplane-cluster-admin, SRE, Cluster Network Operator (CNO), and Managed Upgrade Operator (MUO) service accounts are allowed to modify these critical fields. Regular cluster-admin users (system:admin) are explicitly blocked.".

Definition rules : list RuleWithOperations := [{|
  Operations := ["UPDATE"];
  APIGroups := ["operator.openshift.io"];
  APIVersions := ["*"];
  Resources := ["network"; "networks"];
  Scope := Some ClusterScope |}].

Definition allowedUsers : list string := [
  "backplane-cluster-admin";
  "system:serviceaccount:openshift-network-operator:cluster-network-operator";
  "system:serviceaccount:openshift-managed-upgrade-operator:managed-upgrade-operator"].
Definition sreAdminGroups : list string := ["system:serviceaccounts:openshift-backplane-srep"].

(** A non-nil uint32 pointer of a decoded object. *)
Record pointer := { addr : nat; pointee : Z }.

(** operatorv1.NetworkMigration and the structs below it. *)
Record FeaturesMigration := { EgressIP : bool; EgressFirewall : bool; Multicast : bool }.
Record MTUMigrationValues := { To : option pointer; From : option pointer }.
Record MTUMigration := {
  mtu_Network : option MTUMigrationValues;
  mtu_Machine : option MTUMigrationValues;
}.
Record NetworkMigration := {
  NetworkType : string;
  Mode : string;
  Features : option FeaturesMigration;
  MTU : option MTUMigration;
}.
Record Network := { Migration : option NetworkMigration }.

(** ** The accessors of the interface *)

Definition ObjectSelector : option LabelSelector := None.
Definition Doc : string := docString.
Definition TimeoutSeconds : Z := 2.
Definition MatchPolicy : MatchPolicyType := Equivalent.
Definition Name : string := WebhookName.
Definition FailurePolicy : FailurePolicyType := Ignore.
Definition Rules : list RuleWithOperations := rules.
Definition GetURI : string := "/network-operator-validation".
Definition SideEffects : SideEffectClass := SideEffectClassNone.
Definition SyncSetLabelSelector : LabelSelector := DefaultLabelSelector.
Definition ClassicEnabled : bool := true.
Definition HypershiftEnabled : bool := true.

(** [req.AdmissionRequest.UserInfo] and [req.UserInfo] are the same field, so
    the fallback from one to the other changes nothing. *)
Definition effectiveUsername (req : Request) : string :=
  if String.eqb (username req) "" then username req else username req.

Definition Validate (req : Request) : bool :=
  negb (String.eqb (effectiveUsername req) "") &&
  String.eqb (gvk_Kind (req_Kind req)) "Network" &&
  String.eqb (gvk_Group (req_Kind req)) "operator.openshift.io".

(** ** Go's == on the types of the migration *)

Definition isNil {A} (p : option A) : bool := match p with None => true | Some _ => false end.

Definition pointer_eqb (p q : option pointer) : bool :=
  match p, q with
  | None, None => true
  | Some a, Some b => addr a =? addr b
  | _, _ => false
  end.

Definition MTUMigrationValues_eqb (v w : MTUMigrationValues) : bool :=
  pointer_eqb (To v) (To w) && pointer_eqb (From v) (From w).

Definition FeaturesMigration_eqb (f g : FeaturesMigration) : bool :=
  Bool.eqb (EgressIP f) (EgressIP g) && Bool.eqb (EgressFirewall f) (EgressFirewall g) &&
  Bool.eqb (Multicast f) (Multicast g).

(** The idiom [if (p == nil) != (q == nil) {return true}; if both non-nil and
    [*p != *q] {return true}]: whether it reports a change. *)
Definition pointees_differ {A} (eqb : A → A → bool) (p q : option A) : bool :=
  if negb (Bool.eqb (isNil p) (isNil q)) then true
  else match p, q with
  | Some a, Some b => negb (eqb a b)
  | _, _ => false
  end.

(** ** The check *)

Definition hasCriticalMigrationFieldChanges (oldObj newObj : Network) : bool :=
  match Migration oldObj, Migration newObj with
  | None, Some _ => true
  | Some _, None => true
  | None, None => false
  | Some oldMigration, Some newMigration =>
      if negb (String.eqb (NetworkType oldMigration) (NetworkType newMigration)) then true
      else if negb (String.eqb (Mode oldMigration) (Mode newMigration)) then true
      else if pointees_differ FeaturesMigration_eqb (Features oldMigration) (Features newMigration)
      then true
      else if negb (Bool.eqb (isNil (MTU oldMigration)) (isNil (MTU newMigration))) then true
      else match MTU oldMigration, MTU newMigration with
      | Some oldMTU, Some newMTU =>
          if pointees_differ MTUMigrationValues_eqb (mtu_Network oldMTU) (mtu_Network newMTU)
          then true
          else pointees_differ MTUMigrationValues_eqb (mtu_Machine oldMTU) (mtu_Machine newMTU)
      | _, _ => false
      end
  end.

Definition isAllowedUserGroup (request : Request) : bool :=
  if Contains allowedUsers (effectiveUsername request) then true
  else if existsb (Contains (groups request)) sreAdminGroups then true
  else existsb (Contains (groups request)) sreAdminGroups.

Section Authorized.
Context `{AdmissionCtl} `{Decoder Network}.

Definition authorized (request : Request) : Response :=
  if String.eqb (req_Operation request) Update then
    match Decode request with
    | Err err => reply request (Errored StatusBadRequest err)
    | Ok object =>
        match DecodeRaw (req_OldObject request) with
        | Err err => reply request (Errored StatusBadRequest err)
        | Ok oldObject =>
            if hasCriticalMigrationFieldChanges oldObject object then
              if isAllowedUserGroup request then
                WebhookResponse request true "Privileged users are allowed to modify critical migration fields"
              else WebhookResponse request false
                "Modification of critical migration fields (spec.migration.networkType and related migration configuration) is not allowed, even for cluster-admin users. These fields are managed by the Cluster Network Operator and manual changes can disrupt CNI migrations."
            else WebhookResponse request true "Non-critical field modifications are allowed"
        end
    end
  else WebhookResponse request true "CREATE and DELETE operations are allowed".

Definition Authorized (request : Request) : M Response := mret (authorized request).

Definition NewWebhook : Webhook := {|
  wh_Authorized := Authorized; wh_GetURI := GetURI; wh_Validate := Validate; wh_Name := Name;
  wh_FailurePolicy := FailurePolicy; wh_MatchPolicy := MatchPolicy; wh_Rules := Rules;
  wh_ObjectSelector := ObjectSelector; wh_SideEffects := SideEffects;
  wh_TimeoutSeconds := TimeoutSeconds; wh_Doc := Doc;
  wh_SyncSetLabelSelector := SyncSetLabelSelector; wh_ClassicEnabled := ClassicEnabled;
  wh_HypershiftEnabled := HypershiftEnabled |}.

End Authorized.

(** ** Values of a migration, and what the check sees of them *)

(** The migration with every pointer replaced by what it points to: what the
    object says, as opposed to where it is stored. *)
Record mtu_values := { to_v : option Z; from_v : option Z }.
Definition values_of (v : MTUMigrationValues) : mtu_values :=
  {| to_v := pointee <$> To v; from_v := pointee <$> From v |}.

Definition migration_value (m : NetworkMigration) :
    string * string * option FeaturesMigration * option (option mtu_values * option mtu_values) :=
  (NetworkType m, Mode m, Features m,
   (λ mtu, (values_of <$> mtu_Network mtu, values_of <$> mtu_Machine mtu)) <$> MTU m).

(** The pointers of an object. *)
Definition value_pointers (v : option MTUMigrationValues) : list pointer :=
  match v with None => [] | Some v => option_list (To v) ++ option_list (From v) end.
Definition pointers (n : Network) : list pointer :=
  match Migration n with
  | None => []
  | Some m =>
      match MTU m with
      | None => []
      | Some mtu => value_pointers (mtu_Network mtu) ++ value_pointers (mtu_Machine mtu)
      end
  end.

(** One memory: an address holds one value. *)
Definition coherent (a b : Network) : Prop :=
  ∀ p q, p ∈ pointers a → q ∈ pointers b → addr p = addr q → pointee p = pointee q.

(** Two decoded objects share no memory. *)
Definition disjoint_memory (a b : Network) : Prop :=
  ∀ p q, p ∈ pointers a → q ∈ pointers b → addr p ≠ addr q.

Lemma disjoint_coherent a b : disjoint_memory a b → coherent a b.
Proof. intros Hd p q Hp Hq E. by destruct (Hd p q Hp Hq). Qed.

Lemma pointees_differ_false {A} (eqb : A → A → bool) p q :
  pointees_differ eqb p q = false ↔
  (p = None ∧ q = None) ∨ ∃ a b, p = Some a ∧ q = Some b ∧ eqb a b = true.
Proof.
  unfold pointees_differ. destruct p as [a|], q as [b|]; simpl; try naive_solver.
  rewrite negb_false_iff. naive_solver.
Qed.

Lemma FeaturesMigration_eqb_eq f g : FeaturesMigration_eqb f g = true → f = g.
Proof.
  unfold FeaturesMigration_eqb. destruct f as [a b c], g as [a' b' c']; simpl.
  by destruct a, b, c, a', b', c'.
Qed.

Lemma pointer_eqb_value p q :
  (∀ a b, p = Some a → q = Some b → addr a = addr b → pointee a = pointee b) →
  pointer_eqb p q = true → pointee <$> p = pointee <$> q.
Proof.
  destruct p as [a|], q as [b|]; simpl; try done. intros Hc E%Nat.eqb_eq. f_equal. by apply Hc.
Qed.

(** No change reported between two structs: the values they point to agree. *)
Lemma values_same (p q : option MTUMigrationValues) :
  (∀ a b, a ∈ value_pointers p → b ∈ value_pointers q → addr a = addr b → pointee a = pointee b) →
  pointees_differ MTUMigrationValues_eqb p q = false → values_of <$> p = values_of <$> q.
Proof.
  intros Hc [[-> ->]|(v & w & -> & -> & [Ht Hf]%andb_true_iff)]%pointees_differ_false; [done|].
  simpl in *. f_equal. unfold values_of. f_equal.
  - apply pointer_eqb_value; [|done]. intros a b Ea Eb. apply Hc; rewrite ?Ea ?Eb; set_solver.
  - apply pointer_eqb_value; [|done]. intros a b Ea Eb. apply Hc; rewrite ?Ea ?Eb; set_solver.
Qed.

(** No false negatives: when no change is reported, the migrations say the same. *)
Lemma no_change_sound old new :
  coherent old new → hasCriticalMigrationFieldChanges old new = false →
  migration_value <$> Migration old = migration_value <$> Migration new.
Proof.
  unfold hasCriticalMigrationFieldChanges, coherent, pointers. intros Hc.
  destruct (Migration old) as [m|], (Migration new) as [m'|]; try done.
  destruct (String.eqb_spec (NetworkType m) (NetworkType m')) as [En|]; [|done].
  destruct (String.eqb_spec (Mode m) (Mode m')) as [Em|]; [|done]. simpl.
  destruct (pointees_differ _ (Features m) _) eqn:Ef; [done|].
  assert (Features m = Features m') as Ef'.
  { apply pointees_differ_false in Ef as [[-> ->]|(f & g & -> & -> & ->%FeaturesMigration_eqb_eq)]; done. }
  unfold migration_value. rewrite En Em Ef'.
  destruct (MTU m) as [u|], (MTU m') as [u'|]; simpl; try done.
  destruct (pointees_differ _ (mtu_Network u) _) eqn:E1; [done|]. intros E2.
  rewrite (values_same _ _ _ E1); [intros ????; apply Hc; set_solver|].
  rewrite (values_same _ _ _ E2); [intros ????; apply Hc; set_solver|]. done.
Qed.

Lemma pointer_set_differs (v w : option MTUMigrationValues) :
  (∀ a b, a ∈ value_pointers v → b ∈ value_pointers w → addr a ≠ addr b) →
  value_pointers v ≠ [] → pointees_differ MTUMigrationValues_eqb v w = true.
Proof.
  intros Hd Hne. apply not_false_iff_true. intros
    [[-> _]|(a & b & -> & -> & [Ht Hf]%andb_true_iff)]%pointees_differ_false; [done|].
  simpl in *. destruct a as [[t|] [f|]], b as [[t'|] [f'|]]; simpl in *; try done;
    first [apply Nat.eqb_eq in Ht; by destruct (Hd t t'); [set_solver..|]
          |apply Nat.eqb_eq in Hf; by destruct (Hd f f'); [set_solver..|]].
Qed.

Section Theory.
Context `{AdmissionCtl, !AdmissionCtlLaws} `{Decoder Network}.

Lemma network_allowed_iff req : isAllowedUserGroup req = true ↔ listed allowedUsers sreAdminGroups req.
Proof.
  rewrite -listed_iff. unfold isAllowedUserGroup, effectiveUsername.
  destruct (String.eqb _ _), (Contains allowedUsers _),
    (existsb (Contains (groups req)) sreAdminGroups); done.
Qed.

Lemma network_authorized_update req new old :
  req_Operation req = Update → Decode req = Ok new → DecodeRaw (req_OldObject req) = Ok old →
  resp_Allowed (authorized req) =
    negb (hasCriticalMigrationFieldChanges old new) || isAllowedUserGroup req.
Proof.
  intros Hop Hn Ho. unfold authorized. rewrite Hop Hn Ho. simpl.
  destruct (hasCriticalMigrationFieldChanges old new), (isAllowedUserGroup req);
    apply WebhookResponse_allowed.
Qed.

(** C22: Nobody but the three named users and the SRE group changes the migration:
    an update of anyone else that passes leaves what spec.migration says as it
    was. *)
Theorem networkoperator_migration_kept req new old :
  req_Operation req = Update → Decode req = Ok new → DecodeRaw (req_OldObject req) = Ok old →
  coherent old new →
  ¬ listed allowedUsers sreAdminGroups req →
  resp_Allowed (authorized req) = true →
  migration_value <$> Migration old = migration_value <$> Migration new.
Proof.
  intros Hop Hn Ho Hc Hu. rewrite (network_authorized_update _ _ _ Hop Hn Ho) orb_true_iff.
  rewrite negb_true_iff network_allowed_iff. intros [Hs|]; [by apply no_change_sound|done].
Qed.

(** C23: A false alarm.  The MTU values are compared by address, and two decoded
    objects share no memory: while an MTU value is set in the old object, every
    update of anyone else is refused, also one that changes nothing. *)
Theorem networkoperator_mtu_blocks_everything req new old m mtu :
  req_Operation req = Update → Decode req = Ok new → DecodeRaw (req_OldObject req) = Ok old →
  disjoint_memory old new →
  ¬ listed allowedUsers sreAdminGroups req →
  Migration old = Some m → MTU m = Some mtu →
  value_pointers (mtu_Network mtu) ++ value_pointers (mtu_Machine mtu) ≠ [] →
  resp_Allowed (authorized req) = false.
Proof.
  intros Hop Hn Ho Hd Hu Em Eu Hne. rewrite (network_authorized_update _ _ _ Hop Hn Ho).
  rewrite orb_false_iff negb_false_iff. split.
  2:{ apply not_true_iff_false. by rewrite network_allowed_iff. }
  unfold disjoint_memory, pointers, hasCriticalMigrationFieldChanges in *. rewrite Em Eu in Hd |- *.
  destruct (Migration new) as [m'|]; [|done].
  destruct (negb _); [done|]. destruct (negb _); [done|]. destruct (pointees_differ _ _ _); [done|].
  destruct (MTU m') as [mtu'|]; simpl; [|done].
  destruct (decide (value_pointers (mtu_Network mtu) = [])) as [E|E].
  - rewrite E in Hne. rewrite (pointer_set_differs (mtu_Machine mtu)); [|done|by destruct (pointees_differ _ _ _)].
    intros a b Ha Hb. apply Hd; set_solver.
  - rewrite (pointer_set_differs (mtu_Network mtu)); [|done|done].
    intros a b Ha Hb. apply Hd; set_solver.
Qed.
End Theory.

(** ** The interface, discharged *)

Section Laws.
Context `{AdmissionCtl} `{Decoder Network}.

#[export] Instance networkoperator_laws : WebhookLaws NewWebhook.
Proof.
  apply (pure_webhook_laws _ (λ req, Returned (authorized req))); [done|].
  intros req r. unfold authorized. solve_identified.
Qed.
End Laws.

(** ** Witnesses *)

Module Witness.

#[local] Existing Instance exampleCtl.
#[local] Existing Instance exampleCtl_laws.

Definition mtuAt (a : nat) : MTUMigration := {|
  mtu_Network := Some {| To := Some {| addr := a; pointee := 1400 |}; From := None |};
  mtu_Machine := None |}.
Definition migrationAt (a : nat) : NetworkMigration := {|
  NetworkType := "OVNKubernetes"; Mode := "Live"; Features := None; MTU := Some (mtuAt a) |}.
Definition migrating (a : nat) : Network := {| Migration := Some (migrationAt a) |}.

(** Live migrations with features: one whose MTU values are at given addresses,
    and one whose MTU is there but has no values, as decoding leaves it. *)
Definition features : FeaturesMigration := {| EgressIP := true; EgressFirewall := true; Multicast := false |}.
Definition live (f : FeaturesMigration) (mtu : MTUMigration) : Network := {| Migration := Some {|
  NetworkType := "OVNKubernetes"; Mode := "Live"; Features := Some f; MTU := Some mtu |} |}.
Definition valueless : MTUMigration := {| mtu_Network := Some {| To := None; From := None |}; mtu_Machine := None |}.
Definition without : FeaturesMigration := {| EgressIP := true; EgressFirewall := false; Multicast := false |}.

#[local] Instance decoder : Decoder Network :=
  exampleDecoder [("old", migrating 1); ("new", migrating 2); ("live", live features (mtuAt 1));
    ("valueless", live features valueless); ("without", live without valueless)].

Definition ask (object oldObject : string) : Request :=
  exampleRequest Update "Network" "operator.openshift.io" "system:admin" ["devs"]
    {| Raw := object |} {| Raw := oldObject |}.

(** An update that passes, of objects that share the memory of their MTU value:
    the new migration is the old one.  And an update that would switch a feature
    off does not pass, since it says something else. *)
Lemma networkoperator_migration_kept_witness :
  migration_value <$> Migration (live features (mtuAt 1)) =
    Some ("OVNKubernetes", "Live", Some features, Some (Some {| to_v := Some 1400%Z; from_v := None |}, None)) ∧
  resp_Allowed (authorized (ask "without" "valueless")) = false.
Proof.
  split.
  - symmetry. apply (networkoperator_migration_kept (ask "live" "live") (live features (mtuAt 1)) (live features (mtuAt 1))).
    + reflexivity.
    + reflexivity.
    + reflexivity.
    + intros p q [->|[]%not_elem_of_nil]%elem_of_cons [->|[]%not_elem_of_nil]%elem_of_cons _. reflexivity.
    + by apply not_listed.
    + reflexivity.
  - destruct (resp_Allowed (authorized (ask "without" "valueless"))) eqn:E; [|reflexivity].
    assert (migration_value <$> Migration (live features valueless) = migration_value <$> Migration (live without valueless)) as Hkept.
    { apply (networkoperator_migration_kept (ask "without" "valueless")).
      - reflexivity.
      - reflexivity.
      - reflexivity.
      - intros p q Hp. by apply not_elem_of_nil in Hp.
      - by apply not_listed.
      - exact E. }
    discriminate Hkept.
Defined.

Lemma networkoperator_mtu_blocks_everything_witness : resp_Allowed (authorized (ask "new" "old")) = false.
Proof.
  apply (networkoperator_mtu_blocks_everything _ (migrating 2) (migrating 1) (migrationAt 1) (mtuAt 1)).
  - reflexivity.
  - reflexivity.
  - reflexivity.
  - intros p q [->|[]%not_elem_of_nil]%elem_of_cons [->|[]%not_elem_of_nil]%elem_of_cons.
    simpl. discriminate.
  - by apply not_listed.
  - reflexivity.
  - reflexivity.
  - discriminate.
Defined.
End Witness.
