(* ===== verification/PodImageSpec.v ===== *)
(** * pkg/webhooks/podimagespec: the podimagespec-mutation webhook

    Rewrites images of the internal registry to the images their image stream
    tags point to while the internal registry is not managed.  The cluster is
    reached through a client that is not part of the repository: the interface
    [KubeClient] has one operation per kind of object that is fetched. *)

From S2P Require Import Prelude GoStrings Regexp RegexpTheory Admission Utils Webhook.

(** ** Data *)

Definition WebhookName : string := "podimagespec-mutation".
Definition docString : string :=
  "OpenShift debugging tools on Managed OpenShift clusters must be available even if internal image registry is removed.".
Definition timeout : Z := 2.

Definition rules : list RuleWithOperations := [{|
  Operations := ["CREATE"];
  APIGroups := [""];
  APIVersions := ["v1"];
  Resources := ["pods"];
  Scope := Some NamespacedScope |}].

Definition imageRegex : string :=
  "^(image-registry\.openshift-image-registry\.svc:5000\/)(?P<namespace>\S*)(/)(?P<image>\w*)(:)(?P<tag>\S*)".

(** corev1.Pod and its containers; [other] stands for all fields that are
    carried along untouched. *)
Record Container := { c_Image : string; c_other : string }.
Record Pod := { Containers : list Container; InitContainers : list Container; pod_other : string }.

(** imagestreamv1.ImageStreamTag: the pointers on the way to Tag.From.Name. *)
Record ObjectReference := { ref_Name : string }.
Record TagReference := { tag_From : option ObjectReference }.
Record ImageStreamTag := { ist_Tag : option TagReference }.

(** operatorv1.Managed *)
Definition Managed : string := "Managed".

(** What is called of the cluster client and of the JSON encoder: creating a
    client may fail; [GetRegistryConfig name] is the management state of the
    registry configuration; [GetImageStreamTag name namespace]. *)
Class KubeClient := {
  newKubeClient : option error;
  GetRegistryConfig : string → result string;
  GetImageStreamTag : string → string → result ImageStreamTag;
  MarshalPod : Pod → result string;
}.

(** ** The accessors of the interface *)

Definition ObjectSelector : option LabelSelector := None.
Definition Doc : string := docString.
Definition TimeoutSeconds : Z := timeout.
Definition MatchPolicy : MatchPolicyType := Equivalent.
Definition Name : string := WebhookName.
Definition FailurePolicy : FailurePolicyType := Ignore.
Definition Rules : list RuleWithOperations := rules.
Definition GetURI : string := "/" +:+ WebhookName.
Definition SideEffects : SideEffectClass := SideEffectClassNone.
Definition SyncSetLabelSelector : LabelSelector := DefaultLabelSelector.
Definition ClassicEnabled : bool := false.
Definition HypershiftEnabled : bool := true.

Definition Validate (request : Request) : bool :=
  negb (String.eqb (username request) "") && String.eqb (gvk_Kind (req_Kind request)) "Pod".

(** ** Image references *)

(** The named group of a match; the names occur in the expression. *)
Definition namedGroup (rx : Regexp) (m : list string) (name : string) : string :=
  match SubexpIndex rx name with Some i => nth i m "" | None => "" end.

Definition checkContainerImageSpecByRegex (imagespec : string) : bool * string * string * string :=
  match MustCompile imageRegex with
  | None => (false, "", "", "")
  | Some rx =>
      match FindStringSubmatch rx imagespec with
      | None => (false, "", "", "")
      | Some m => (true, namedGroup rx m "namespace", namedGroup rx m "image", namedGroup rx m "tag")
      end
  end.

Definition containerMatches (c : Container) : bool :=
  let '(containerMatch, namespace, _, _) := checkContainerImageSpecByRegex (c_Image c) in
  containerMatch && String.eqb namespace "openshift".

(** The two loops set [podMatch] and never reset it. *)
Definition podContainsContainerRegexMatch (pod : Pod) : bool :=
  fold_left (λ podMatch c, if containerMatches c then true else podMatch) (InitContainers pod)
    (fold_left (λ podMatch c, if containerMatches c then true else podMatch) (Containers pod) false).

Section Authorized.
Context `{AdmissionCtl} `{Decoder Pod} `{KubeClient}.

Definition checkImageRegistryStatus : result bool :=
  match GetRegistryConfig "cluster" with
  | Err err => Err ("failed to get image registry config: " +:+ err)
  | Ok managementState => if String.eqb managementState Managed then Ok true else Ok false
  end.

Definition lookupImageStreamTagSpec (imagespec : string) : outcome (result string) :=
  let '(matched, namespace, image, tag) := checkContainerImageSpecByRegex imagespec in
  if negb matched then Returned (Ok imagespec)
  else match GetImageStreamTag (image +:+ ":" +:+ tag) namespace with
  | Err err => Returned (Err ("failed to get image spec: " +:+ err))
  | Ok imageStreamTag =>
      tag ← deref (ist_Tag imageStreamTag);
      from ← deref (tag_From tag);
      Returned (Ok (ref_Name from))
  end.

(** One of the two loops: the containers with their images looked up. *)
Fixpoint mutateContainers (cs : list Container) : outcome (result (list Container)) :=
  match cs with
  | [] => Returned (Ok [])
  | c :: rest =>
      r ← lookupImageStreamTagSpec (c_Image c);
      match r with
      | Err err => Returned (Err err)
      | Ok imageURI =>
          r' ← mutateContainers rest;
          match r' with
          | Err err => Returned (Err err)
          | Ok rest' => Returned (Ok ({| c_Image := imageURI; c_other := c_other c |} :: rest'))
          end
      end
  end.

Definition mutatePod (pod : Pod) : outcome (result string) :=
  r ← mutateContainers (Containers pod);
  match r with
  | Err err => Returned (Err err)
  | Ok containers =>
      r' ← mutateContainers (InitContainers pod);
      match r' with
      | Err err => Returned (Err err)
      | Ok initContainers =>
          Returned (MarshalPod {| Containers := containers; InitContainers := initContainers;
                                  pod_other := pod_other pod |})
      end
  end.

Definition renderPod (request : Request) : result Pod := Decode request.

(** ** The decision *)

Definition authorized (request : Request) : outcome Response :=
  match newKubeClient with
  | Some err => Returned (reply request (Errored StatusBadRequest err))
  | None =>
  match renderPod request with
  | Err err => Returned (reply request (Errored StatusBadRequest err))
  | Ok pod =>
      if negb (podContainsContainerRegexMatch pod) then
        Returned (reply request (Allowed "Pod image spec is valid"))
      else match checkImageRegistryStatus with
      | Err err => Returned (reply request (Errored StatusInternalServerError err))
      | Ok registryAvailable =>
          if registryAvailable then
            Returned (reply request (Allowed "Image registry is available, no mutation required"))
          else
            r ← mutatePod pod;
            match r with
            | Err err => Returned (reply request (Errored StatusInternalServerError err))
            | Ok mutatedPod =>
                Returned (reply request (PatchResponseFromRaw (Raw (req_Object request)) mutatedPod))
            end
      end
  end
  end.

Definition Authorized (request : Request) : M Response :=
  ret ← lift_outcome (authorized request);
  match Complete ret request with
  | (_, Some err) => mret (reply request (Errored StatusInternalServerError err))
  | (completed, None) => mret completed
  end.

Definition NewWebhook : Webhook := {|
  wh_Authorized := Authorized; wh_GetURI := GetURI; wh_Validate := Validate; wh_Name := Name;
  wh_FailurePolicy := FailurePolicy; wh_MatchPolicy := MatchPolicy; wh_Rules := Rules;
  wh_ObjectSelector := ObjectSelector; wh_SideEffects := SideEffects;
  wh_TimeoutSeconds := TimeoutSeconds; wh_Doc := Doc;
  wh_SyncSetLabelSelector := SyncSetLabelSelector; wh_ClassicEnabled := ClassicEnabled;
  wh_HypershiftEnabled := HypershiftEnabled |}.

End Authorized.

(** ** What the expression takes an image reference apart into *)

Definition registryHost : string := "image-registry.openshift-image-registry.svc:5000/".
Definition nonspace : cset := CSet true [("009", "009"); ("010", "010"); ("012", "012"); ("013", "013"); (" ", " ")]%char.
Definition wordchar : cset := CSet false word_ranges.

Definition tagPart : re := RCat (RGroup 6 (RCat (RStar (RSet nonspace)) REps)) REps.
Definition colonPart : re := RCat (RGroup 5 (RCat (RChar ":") REps)) tagPart.
Definition imagePart : re := RCat (RGroup 4 (RCat (RStar (RSet wordchar)) REps)) colonPart.
Definition slashPart : re := RCat (RGroup 3 (RCat (RChar "/") REps)) imagePart.
Definition namespacePart : re := RCat (RGroup 2 (RCat (RStar (RSet nonspace)) REps)) slashPart.

Lemma imageRegex_compiles :
  MustCompile imageRegex = Some (MkRegexp
    (RCat RBegin (RCat (RGroup 1 (RLit registryHost REps)) namespacePart))
    [""; ""; "namespace"; ""; "image"; ""; "tag"]).
Proof. vm_compute. reflexivity. Qed.

(** A group around a starred class: the states it leads to. *)
Lemma in_star_group n cs i s k st' :
  List.In st' (run (RGroup n (RCat (RStar (RSet cs)) REps)) (MState i s k)) ↔
  ∃ w t, s = w +:+ t ∧ all_chars (cset_mem cs) w = true ∧
    st' = MState (i + String.length w) t ((n, w) :: k).
Proof.
  rewrite run_iff matches_group. setoid_rewrite matches_cat. setoid_rewrite matches_star_set. split.
  - intros (st1 & (st2 & (w & t & -> & Hw & ->) & ->%matches_eps) & ->).
    exists w, t. unfold with_cap. by rewrite consumed_app.
  - intros (w & t & -> & Hw & ->). exists (MState (i + String.length w) t k). split.
    + eexists. split; [by eauto|by apply matches_eps].
    + unfold with_cap. by rewrite consumed_app.
Qed.

(** A group around one character. *)
Lemma run_char_group n c r i s k st' :
  List.In st' (run (RCat (RGroup n (RCat (RChar c) REps)) r) (MState i s k)) ↔
  ∃ t, s = String c t ∧ List.In st' (run r (MState (S i) t ((n, String c "") :: k))).
Proof.
  rewrite run_iff matches_cat. setoid_rewrite matches_group. setoid_rewrite matches_cat.
  setoid_rewrite matches_set. setoid_rewrite run_iff. split.
  - intros (st1 & (st2 & (st3 & (d & t & -> & Hd & ->) & ->%matches_eps) & ->) & Hr).
    rewrite cset_mem_char in Hd. apply Ascii.eqb_eq in Hd as ->. exists t. split; [done|].
    unfold with_cap in Hr. by rewrite (consumed_app i (String c "")) in Hr.
  - intros (t & -> & Hr). exists (with_cap n (MState i (String c t) k) (MState (S i) t k)). split.
    + eexists. split; [|done]. eexists. split; [|by apply matches_eps].
      exists c, t. by rewrite cset_mem_char Ascii.eqb_refl.
    + unfold with_cap. by rewrite (consumed_app i (String c "")).
Qed.

Lemma run_cat_group n a b st :
  run (RCat (RGroup n a) b) st = flat_map (run b) (List.map (with_cap n st) (run a st)).
Proof. done. Qed.

Lemma in_run_nonempty {A} (l : list A) : l ≠ [] ↔ ∃ x, List.In x l.
Proof. destruct l as [|a l]; split; [done|by intros []|by exists a; left|done]. Qed.

Lemma hd_char_group n c r i t k :
  List.hd_error (run (RCat (RGroup n (RCat (RChar c) REps)) r) (MState i (String c t) k)) =
  List.hd_error (run r (MState (S i) t ((n, String c "") :: k))).
Proof.
  change (run (RCat (RGroup n (RCat (RChar c) REps)) r) (MState i (String c t) k)) with
    (flat_map (run r) (List.map (with_cap n (MState i (String c t) k))
      (flat_map (run REps) (if cset_mem (CSet false [(c, c)]) c then [MState (S i) t k] else [])))).
  rewrite cset_mem_char Ascii.eqb_refl. cbn [flat_map run List.map List.app].
  unfold with_cap. rewrite (consumed_app i (String c "")) app_nil_r. done.
Qed.

(** A starred class in front of a character it cannot contain, or that occurs
    only there, stops right before it. *)
Lemma hd_star_group n cs r i w t k :
  all_chars (cset_mem cs) w = true →
  run r (MState (i + String.length w) t ((n, w) :: k)) ≠ [] →
  (∀ w' t', w' +:+ t' = w +:+ t → all_chars (cset_mem cs) w' = true →
     run r (MState (i + String.length w') t' ((n, w') :: k)) ≠ [] → w' = w) →
  List.hd_error (run (RCat (RGroup n (RCat (RStar (RSet cs)) REps)) r) (MState i (w +:+ t) k)) =
  List.hd_error (run r (MState (i + String.length w) t ((n, w) :: k))).
Proof.
  intros Hw Hne Hu.
  change (run (RCat (RGroup n (RCat (RStar (RSet cs)) REps)) r) (MState i (w +:+ t) k)) with
    (flat_map (run r) (run (RGroup n (RCat (RStar (RSet cs)) REps)) (MState i (w +:+ t) k))).
  apply hd_flat_map_unique; [|done|].
  - apply in_star_group. eauto.
  - intros y (w' & t' & E & Hw' & ->)%in_star_group Hy.
    assert (w' = w) as -> by (by apply (Hu w' t')). f_equal. by apply str_app_inj_l in E.
Qed.

Definition nonspaces (s : string) : bool := all_chars (cset_mem nonspace) s.
Definition wordchars (s : string) : bool := all_chars (cset_mem wordchar) s.

Lemma wordchars_no_colon s : wordchars s = true → no_char ":" s = true.
Proof.
  apply all_chars_impl. intros c Hc. apply negb_true_iff, Ascii.eqb_neq. by intros ->.
Qed.

Lemma wordchars_no_slash s : wordchars s = true → no_char "/" s = true.
Proof.
  apply all_chars_impl. intros c Hc. apply negb_true_iff, Ascii.eqb_neq. by intros ->.
Qed.

(** The reference [host/namespace/image:tag] of the internal registry. *)
Definition internalImage (namespace image tag : string) : string :=
  registryHost +:+ (namespace +:+ String "/" (image +:+ String ":" tag)).

Lemma hd_tagPart i tag k :
  nonspaces tag = true →
  List.hd_error (run tagPart (MState i tag k)) =
  Some (MState (i + String.length tag) "" ((6, tag) :: k)).
Proof.
  intros Ht. unfold tagPart.
  pose proof (star_run_greedy nonspace tag (String.length tag) i "" k Ht ltac:(lia) ltac:(done)) as Hs.
  rewrite str_app_nil_r in Hs.
  change (run (RCat (RGroup 6 (RCat (RStar (RSet nonspace)) REps)) REps) (MState i tag k)) with
    (flat_map (run REps) (List.map (with_cap 6 (MState i tag k)) (flat_map (run REps)
      (star_run (run (RSet nonspace)) (String.length tag) (MState i tag k))))).
  destruct (star_run (run (RSet nonspace)) (String.length tag) (MState i tag k)) as [|st l]; [done|].
  simpl in Hs. injection Hs as ->. simpl. unfold with_cap. pose proof (consumed_app i tag "" k (i + String.length tag) k) as Ec.
  rewrite str_app_nil_r in Ec. rewrite Ec. done.
Qed.

Lemma hd_Some_nonempty {A} (l : list A) x : List.hd_error l = Some x → l ≠ [].
Proof. by intros E ->. Qed.

Lemma hd_imagePart i image tag k :
  wordchars image = true → nonspaces tag = true →
  ∃ j, List.hd_error (run imagePart (MState i (image +:+ String ":" tag) k)) =
    Some (MState j "" ((6, tag) :: (5, ":") :: (4, image) :: k)).
Proof.
  intros Hi Ht. eexists.
  assert (List.hd_error (run colonPart
    (MState (i + String.length image) (String ":" tag) ((4, image) :: k))) = Some (MState
    (S (i + String.length image) + String.length tag) "" ((6, tag) :: (5, ":") :: (4, image) :: k))) as Hc.
  { unfold colonPart. by rewrite hd_char_group hd_tagPart. }
  unfold imagePart. rewrite hd_star_group; [done| | |exact Hc].
  - by apply (hd_Some_nonempty _ _ Hc).
  - intros w' t' E Hw' (st & Hst)%in_run_nonempty. apply run_char_group in Hst as (t & -> & _).
    apply (first_separator ":" _ _ t tag); [by apply wordchars_no_colon..|done].
Qed.

#[local] Opaque registryHost.

(** The groups the expression records, for a reference in which neither the
    namespace nor the tag holds a slash. *)
Lemma imageRegex_match namespace image tag :
  nonspaces namespace = true → no_char "/" namespace = true → wordchars image = true →
  nonspaces tag = true → no_char "/" tag = true →
  ∃ j, find_match (RCat RBegin (RCat (RGroup 1 (RLit registryHost REps)) namespacePart))
      (internalImage namespace image tag) =
    Some (MState 0 (internalImage namespace image tag) [],
      MState j "" [(6, tag); (5, ":"); (4, image); (3, "/"); (2, namespace); (1, registryHost)]).
Proof.
  intros Hn Hns Hi Ht Hts.
  destruct (hd_imagePart (S (String.length registryHost + String.length namespace)) image tag
    [(3, "/"); (2, namespace); (1, registryHost)] Hi Ht) as [j Hj].
  exists j. apply find_match_first. unfold internalImage.
  rewrite run_cat_group run_lit. cbn [List.map flat_map]. rewrite app_nil_r.
  unfold with_cap. rewrite consumed_app. cbn [m_pos m_rest m_caps].
  assert (List.hd_error (run slashPart (MState (0 + String.length registryHost + String.length namespace)
    (String "/" (image +:+ String ":" tag)) [(2, namespace); (1, registryHost)])) = Some (MState j ""
    [(6, tag); (5, ":"); (4, image); (3, "/"); (2, namespace); (1, registryHost)])) as Hs.
  { unfold slashPart. rewrite hd_char_group. exact Hj. }
  unfold namespacePart. rewrite hd_star_group; [done| | |exact Hs].
  - by apply (hd_Some_nonempty _ _ Hs).
  - intros w' t' E Hw' (st & Hst)%in_run_nonempty. apply run_char_group in Hst as (t & -> & _).
    apply (only_separator "/" _ (image +:+ String ":" tag) _ t); [done| |done].
    pose proof (wordchars_no_slash _ Hi) as His. unfold no_char in *.
    rewrite all_chars_app. simpl. by rewrite His Hts.
Qed.

Lemma check_internalImage namespace image tag :
  nonspaces namespace = true → no_char "/" namespace = true → wordchars image = true →
  nonspaces tag = true → no_char "/" tag = true →
  checkContainerImageSpecByRegex (internalImage namespace image tag) = (true, namespace, image, tag).
Proof.
  intros Hn Hns Hi Ht Hts. unfold checkContainerImageSpecByRegex. rewrite imageRegex_compiles.
  unfold FindStringSubmatch. cbn [prog names].
  destruct (imageRegex_match namespace image tag Hn Hns Hi Ht Hts) as [j ->]. done.
Qed.

(** C18: Parsing inverts building an internal image reference: the expression
    recovers the namespace, the image and the tag of host/namespace/image:tag. *)
Theorem podimagespec_parse_roundtrip namespace image tag :
  nonspaces namespace = true → no_char "/" namespace = true → wordchars image = true →
  nonspaces tag = true → no_char "/" tag = true →
  checkContainerImageSpecByRegex (internalImage namespace image tag) = (true, namespace, image, tag).
Proof. apply check_internalImage. Qed.

(** ** Pods *)

Lemma fold_match cs b :
  fold_left (λ podMatch c, if containerMatches c then true else podMatch) cs b =
  b || existsb containerMatches cs.
Proof.
  revert b. induction cs as [|c cs IH]; intros b; simpl; [by rewrite orb_false_r|].
  rewrite IH. by destruct (containerMatches c), b.
Qed.

Lemma podContainsContainerRegexMatch_iff pod :
  podContainsContainerRegexMatch pod = true ↔
  ∃ c, c ∈ Containers pod ++ InitContainers pod ∧ containerMatches c = true.
Proof.
  unfold podContainsContainerRegexMatch. rewrite !fold_match. simpl.
  rewrite -existsb_app. apply existsb_elem_of.
Qed.

Definition map_images (f : string → string) (cs : list Container) : list Container :=
  (λ c, {| c_Image := f (c_Image c); c_other := c_other c |}) <$> cs.

Section Theory.
Context `{AdmissionCtl, !AdmissionCtlLaws} `{Decoder Pod} `{KubeClient}.

Lemma mutateContainers_map (f : string → string) cs :
  (∀ c, c ∈ cs → lookupImageStreamTagSpec (c_Image c) = Returned (Ok (f (c_Image c)))) →
  mutateContainers cs = Returned (Ok (map_images f cs)).
Proof.
  induction cs as [|c cs IH]; intros Hf; [done|]. simpl.
  rewrite Hf; [apply list_elem_of_here|]. simpl.
  rewrite IH; [intros c' Hc'; apply Hf; by apply list_elem_of_further|]. done.
Qed.

(** C17: The mutation.  While the registry is not managed, a pod with an image of
    the openshift namespace of the internal registry is patched: each of its
    containers and init containers gets the image that its image stream tag
    points to, in place, and everything else of the pod stays. *)
Theorem podimagespec_mutates req pod state f raw :
  newKubeClient = None → renderPod req = Ok pod →
  podContainsContainerRegexMatch pod = true →
  GetRegistryConfig "cluster" = Ok state → state ≠ Managed →
  (∀ c, c ∈ Containers pod ++ InitContainers pod →
     lookupImageStreamTagSpec (c_Image c) = Returned (Ok (f (c_Image c)))) →
  MarshalPod {| Containers := map_images f (Containers pod);
                InitContainers := map_images f (InitContainers pod);
                pod_other := pod_other pod |} = Ok raw →
  authorized req = Returned (reply req (PatchResponseFromRaw (Raw (req_Object req)) raw)).
Proof.
  intros Hk Hr Hm Hg Hs Hf Hmar. unfold authorized, checkImageRegistryStatus, mutatePod.
  rewrite Hk Hr Hm Hg. simpl. apply String.eqb_neq in Hs. rewrite Hs.
  rewrite (mutateContainers_map f (Containers pod)); [intros c Hc; apply Hf, elem_of_app; by left|].
  simpl. rewrite (mutateContainers_map f (InitContainers pod)); [intros c Hc; apply Hf, elem_of_app; by right|]. simpl.
  by rewrite Hmar.
Qed.

(** A pod is let through as it is when no container has an image of the
    openshift namespace of the internal registry, or the registry is managed. *)
Theorem podimagespec_untouched req pod :
  newKubeClient = None → renderPod req = Ok pod →
  (∀ c, c ∈ Containers pod ++ InitContainers pod → containerMatches c = false) ∨
  GetRegistryConfig "cluster" = Ok Managed →
  ∃ m, authorized req = Returned (reply req (Allowed m)).
Proof.
  intros Hk Hr Hor. unfold authorized, checkImageRegistryStatus. rewrite Hk Hr.
  destruct (podContainsContainerRegexMatch pod) eqn:Em; simpl; [|by eexists].
  apply podContainsContainerRegexMatch_iff in Em as (c & Hc & Hm).
  destruct Hor as [Hor|Hor]; [rewrite (Hor c Hc) in Hm; done|]. rewrite Hor. simpl. by eexists.
Qed.

(** An image stream tag without a tag reference, or one without a source,
    makes the handler panic when the first container refers to it: the TODO in
    the source asks for the check that is missing. *)
Theorem podimagespec_panics req pod c cs state namespace image tag ist :
  newKubeClient = None → renderPod req = Ok pod → Containers pod = c :: cs →
  c_Image c = internalImage namespace image tag →
  namespace = "openshift" → wordchars image = true → nonspaces tag = true → no_char "/" tag = true →
  GetRegistryConfig "cluster" = Ok state → state ≠ Managed →
  GetImageStreamTag (image +:+ ":" +:+ tag) "openshift" = Ok ist →
  (t ← ist_Tag ist; tag_From t) = None →
  ∃ why, authorized req = Panicked why.
Proof.
  intros Hk Hr Hcs Hc -> Hi Ht Hts Hg Hs Hist Hnil.
  assert (checkContainerImageSpecByRegex (c_Image c) = (true, "openshift", image, tag)) as Hp.
  { rewrite Hc. by apply check_internalImage. }
  unfold authorized, checkImageRegistryStatus. rewrite Hk Hr Hg.
  rewrite (proj2 (podContainsContainerRegexMatch_iff pod)).
  { exists c. rewrite Hcs. split; [apply list_elem_of_here|]. unfold containerMatches. by rewrite Hp. }
  apply String.eqb_neq in Hs. simpl. rewrite Hs. unfold mutatePod. rewrite Hcs. simpl.
  unfold lookupImageStreamTagSpec. rewrite Hp. simpl negb. cbn match. rewrite Hist.
  destruct (ist_Tag ist) as [t|]; simpl in *; [rewrite Hnil|]; simpl; by eexists.
Qed.
End Theory.

(** ** The interface, discharged *)

Section Laws.
Context `{AdmissionCtl} `{!AdmissionCtlLaws} `{Decoder Pod} `{KubeClient}.

#[export] Instance podimagespec_laws : WebhookLaws NewWebhook.
Proof.
  apply (pure_webhook_laws _ (λ req, ret ← authorized req;
    match Complete ret req with
    | (_, Some err) => Returned (reply req (Errored StatusInternalServerError err))
    | (completed, None) => Returned completed
    end)).
  - intros req w. simpl. unfold Authorized, lift_outcome. simpl. unfold mbind, M_bind.
    destruct (authorized req) as [ret|]; simpl; [|done]. by destruct (Complete ret req) as [c [e|]].
  - intros req r. destruct (authorized req) as [ret|]; simpl; [|done].
    pose proof (Complete_UID ret req) as Hu. destruct (Complete ret req) as [c [e|]]; simpl in Hu;
      intros [= <-]; by left.
Qed.
End Laws.

(** ** Witnesses *)

Module Witness.

#[local] Existing Instance exampleCtl.
#[local] Existing Instance exampleCtl_laws.

Definition cli : Container := {| c_Image := internalImage "openshift" "cli" "latest"; c_other := "cli" |}.
Definition ghost : Container := {| c_Image := internalImage "openshift" "ghost" "v1"; c_other := "g" |}.
Definition external : Container := {| c_Image := "quay.io/app:1"; c_other := "app" |}.
Definition debugPod : Pod :=
  {| Containers := [external; cli]; InitContainers := []; pod_other := "debug" |}.
Definition plainPod : Pod :=
  {| Containers := [external]; InitContainers := []; pod_other := "plain" |}.
Definition ghostPod : Pod :=
  {| Containers := [ghost]; InitContainers := []; pod_other := "ghost" |}.

#[local] Instance decoder : Decoder Pod :=
  exampleDecoder [("debug", debugPod); ("plain", plainPod); ("ghost", ghostPod)].

(** A cluster whose registry was removed and that knows two image stream tags,
    one of them without a tag reference. *)
Definition tagOf (name namespace : string) : result ImageStreamTag :=
  if String.eqb name "cli:latest" then
    Ok {| ist_Tag := Some {| tag_From := Some {| ref_Name := "quay.io/openshift/cli@sha256:1" |} |} |}
  else if String.eqb name "ghost:v1" then Ok {| ist_Tag := None |}
  else Err "not found".

#[local] Instance client : KubeClient := {|
  newKubeClient := None;
  GetRegistryConfig := λ _, Ok "Removed";
  GetImageStreamTag := tagOf;
  MarshalPod := λ pod, Ok (Join (c_Image <$> Containers pod) " ") |}.

Definition ask (object : string) : Request :=
  exampleRequest Create "Pod" "" "alice" [] {| Raw := object |} noRaw.

Definition resolve (image : string) : string :=
  if String.eqb image (c_Image cli) then "quay.io/openshift/cli@sha256:1" else image.

Lemma podimagespec_parse_roundtrip_witness :
  checkContainerImageSpecByRegex (internalImage "openshift" "cli" "latest") =
  (true, "openshift", "cli", "latest").
Proof. apply podimagespec_parse_roundtrip; reflexivity. Defined.

Lemma podimagespec_mutates_witness :
  authorized (ask "debug") = Returned (reply (ask "debug")
    (PatchResponseFromRaw "debug" "quay.io/app:1 quay.io/openshift/cli@sha256:1")).
Proof.
  apply (podimagespec_mutates (ask "debug") debugPod "Removed" resolve).
  - reflexivity.
  - reflexivity.
  - vm_compute. reflexivity.
  - reflexivity.
  - discriminate.
  - intros c [->|[->|[]%not_elem_of_nil]%elem_of_cons]%elem_of_cons; vm_compute; reflexivity.
  - vm_compute. reflexivity.
Defined.

Lemma podimagespec_untouched_witness : ∃ m, authorized (ask "plain") = Returned (reply (ask "plain") (Allowed m)).
Proof.
  apply (podimagespec_untouched _ plainPod); [reflexivity|reflexivity|]. left.
  intros c [->|[]%not_elem_of_nil]%elem_of_cons. vm_compute. reflexivity.
Defined.

Lemma podimagespec_panics_witness : ∃ why, authorized (ask "ghost") = Panicked why.
Proof.
  apply (podimagespec_panics _ ghostPod ghost [] "Removed" "openshift" "ghost" "v1" {| ist_Tag := None |});
    try reflexivity. discriminate.
Defined.
End Witness.
