(* ===== verification/Pod.v ===== *)
(** * pkg/webhooks/pod: the pod-validation webhook

    Keeps pods of customer namespaces off the infra and master nodes. *)

From S2P Require Import Prelude GoStrings Regexp RegexpTheory Admission Utils Webhook.

(** ** Data *)

Definition WebhookName : string := "pod-validation".
Definition unprivilegedNamespace : string := "(openshift-logging|openshift-operators)".
Definition docString : string :=
  "Managed OpenShift Customers may use tolerations on Pods that could cause those Pods to be scheduled on infra or master nodes.".

Definition rules : list RuleWithOperations := [{|
  Operations := ["*"];
  APIGroups := ["v1"];
  APIVersions := ["*"];
  Resources := ["pods"];
  Scope := Some NamespacedScope |}].

Definition TaintEffectNoSchedule : string := "NoSchedule".
Definition TaintEffectPreferNoSchedule : string := "PreferNoSchedule".

(** corev1.Pod: metadata.namespace and spec.tolerations. *)
Record Toleration := { tol_Key : string; tol_Effect : string }.
Record Pod := { pod_Namespace : string; Tolerations : list Toleration }.

(** ** The accessors of the interface *)

Definition Doc : string := docString.
Definition ObjectSelector : option LabelSelector := None.
Definition TimeoutSeconds : Z := 1.
Definition MatchPolicy : MatchPolicyType := Equivalent.
Definition Name : string := WebhookName.
Definition FailurePolicy : FailurePolicyType := Ignore.
Definition Rules : list RuleWithOperations := rules.
Definition GetURI : string := "/" +:+ WebhookName.
Definition SideEffects : SideEffectClass := SideEffectClassNone.
Definition SyncSetLabelSelector : LabelSelector := DefaultLabelSelector.
Definition ClassicEnabled : bool := true.
Definition HypershiftEnabled : bool := false.

Definition Validate (req : Request) : bool :=
  negb (String.eqb (username req) "") && String.eqb (gvk_Kind (req_Kind req)) "Pod".

(** ** The decision *)

Definition isRequestPrivileged (namespace : string) : bool :=
  if IsPrivilegedNamespace namespace then
    if MatchPattern unprivilegedNamespace namespace then false else true
  else false.

(** The loop over the tolerations: the message of the first refusal. *)
Fixpoint deniedToleration (tolerations : list Toleration) : option string :=
  match tolerations with
  | [] => None
  | toleration :: rest =>
      if String.eqb (tol_Key toleration) "node-role.kubernetes.io/infra" &&
         String.eqb (tol_Effect toleration) TaintEffectNoSchedule then
        Some "Not allowed to schedule a pod with NoSchedule taint on infra node"
      else if String.eqb (tol_Key toleration) "node-role.kubernetes.io/infra" &&
              String.eqb (tol_Effect toleration) TaintEffectPreferNoSchedule then
        Some "Not allowed to schedule a pod with PreferNoSchedule taint on infra node"
      else if String.eqb (tol_Key toleration) "node-role.kubernetes.io/master" &&
              String.eqb (tol_Effect toleration) TaintEffectNoSchedule then
        Some "Not allowed to schedule a pod with NoSchedule taint on master node"
      else if String.eqb (tol_Key toleration) "node-role.kubernetes.io/master" &&
              String.eqb (tol_Effect toleration) TaintEffectPreferNoSchedule then
        Some "Not allowed to schedule a pod with PreferNoSchedule taint on master node"
      else deniedToleration rest
  end.

Section Authorized.
Context `{AdmissionCtl} `{Decoder Pod}.

Definition renderPod (req : Request) : result Pod :=
  if nonempty (req_OldObject req) then DecodeRaw (req_OldObject req) else DecodeRaw (req_Object req).

Definition authorized (request : Request) : Response :=
  match renderPod request with
  | Err err => Errored StatusBadRequest err
  | Ok pod =>
      match
        (if negb (isRequestPrivileged (pod_Namespace pod)) then deniedToleration (Tolerations pod)
         else None)
      with
      | Some msg => reply request (Denied msg)
      | None => reply request (Allowed "Allowed to create Pod because of RBAC")
      end
  end.

Definition Authorized (request : Request) : M Response := mret (authorized request).

Definition NewWebhook : Webhook := {|
  wh_Authorized := Authorized; wh_GetURI := GetURI; wh_Validate := Validate; wh_Name := Name;
  wh_FailurePolicy := FailurePolicy; wh_MatchPolicy := MatchPolicy; wh_Rules := Rules;
  wh_ObjectSelector := ObjectSelector; wh_SideEffects := SideEffects;
  wh_TimeoutSeconds := TimeoutSeconds; wh_Doc := Doc;
  wh_SyncSetLabelSelector := SyncSetLabelSelector; wh_ClassicEnabled := ClassicEnabled;
  wh_HypershiftEnabled := HypershiftEnabled |}.

End Authorized.

(** ** Theory *)

(** A toleration for one of the protected taints. *)
Definition protected_toleration (t : Toleration) : bool :=
  Contains ["node-role.kubernetes.io/infra"; "node-role.kubernetes.io/master"] (tol_Key t) &&
  Contains [TaintEffectNoSchedule; TaintEffectPreferNoSchedule] (tol_Effect t).

Lemma deniedToleration_spec ts :
  match deniedToleration ts with Some _ => true | None => false end = existsb protected_toleration ts.
Proof.
  induction ts as [|t ts IH]; [done|]. cbn [deniedToleration existsb].
  unfold protected_toleration at 1. cbn [Contains].
  destruct (String.eqb_spec (tol_Key t) "node-role.kubernetes.io/infra") as [Ei|Ei],
    (String.eqb_spec (tol_Key t) "node-role.kubernetes.io/master") as [Em|Em],
    (String.eqb_spec (tol_Effect t) TaintEffectNoSchedule) as [En|En],
    (String.eqb_spec (tol_Effect t) TaintEffectPreferNoSchedule) as [Ep|Ep]; simpl; congruence.
Qed.

Lemma unprivilegedNamespace_iff s :
  MatchPattern unprivilegedNamespace s = true ↔
  ContainsSub s "openshift-logging" = true ∨ ContainsSub s "openshift-operators" = true.
Proof.
  assert (MustCompile unprivilegedNamespace = Some (MkRegexp (RCat (RGroup 1
    (RAlt (RLit "openshift-logging" REps) (RLit "openshift-operators" REps))) REps) [""; ""]))
    as HC by (vm_compute; reflexivity).
  unfold MatchPattern. rewrite HC Match_iff !ContainsSub_iff. cbn [prog].
  setoid_rewrite accepts_cat_group. setoid_rewrite accepts_cat_alt.
  setoid_rewrite accepts_prefix_lit. setoid_rewrite HasPrefix_iff.
  naive_solver.
Qed.

(** Which namespaces give their pods a free hand: the managed ones, except those
    whose name has one of the two names in it. *)
Lemma isRequestPrivileged_iff ns :
  isRequestPrivileged ns = true ↔
  IsPrivilegedNamespace ns = true ∧
  ContainsSub ns "openshift-logging" = false ∧ ContainsSub ns "openshift-operators" = false.
Proof.
  unfold isRequestPrivileged. pose proof (unprivilegedNamespace_iff ns) as Hu.
  destruct (IsPrivilegedNamespace ns), (MatchPattern unprivilegedNamespace ns),
    (ContainsSub ns "openshift-logging"), (ContainsSub ns "openshift-operators"); naive_solver.
Qed.

Section Theory.
Context `{AdmissionCtl, !AdmissionCtlLaws} `{Decoder Pod}.

(** C24: The whole decision.  A pod passes exactly when it decodes and lives in a
    managed namespace other than the logging and operators ones (and those that
    have these names in theirs), or tolerates no infra or master taint. *)
Theorem pod_authorized_iff req :
  resp_Allowed (authorized req) = true ↔
  ∃ pod, renderPod req = Ok pod ∧
    ((IsPrivilegedNamespace (pod_Namespace pod) = true ∧
      ContainsSub (pod_Namespace pod) "openshift-logging" = false ∧
      ContainsSub (pod_Namespace pod) "openshift-operators" = false) ∨
     existsb protected_toleration (Tolerations pod) = false).
Proof.
  unfold authorized. destruct (renderPod req) as [pod|e]; [|autorewrite with go_bool; naive_solver].
  setoid_rewrite <-isRequestPrivileged_iff. pose proof (deniedToleration_spec (Tolerations pod)) as Hd.
  destruct (isRequestPrivileged (pod_Namespace pod)) eqn:Ep; simpl; [autorewrite with go_bool; naive_solver|].
  destruct (deniedToleration (Tolerations pod)); autorewrite with go_bool; [|naive_solver].
  split; [done|]. intros (pod' & [= <-] & [|]); congruence.
Qed.
End Theory.

(** ** The interface, discharged *)

Section Laws.
Context `{AdmissionCtl} `{Decoder Pod}.

#[export] Instance pod_laws : WebhookLaws NewWebhook.
Proof.
  apply (pure_webhook_laws _ (λ req, Returned (authorized req))); [done|].
  intros req r. unfold authorized. solve_identified.
Qed.
End Laws.

(** ** Witnesses *)

Module Witness.

#[local] Existing Instance exampleCtl.
#[local] Existing Instance exampleCtl_laws.
#[local] Instance decoder : Decoder Pod := exampleDecoder
  [("greedy", {| pod_Namespace := "openshift-operators-redhat";
                 Tolerations := [{| tol_Key := "node-role.kubernetes.io/infra"; tol_Effect := "NoSchedule" |}] |})].

Lemma pod_authorized_iff_witness :
  resp_Allowed (authorized (exampleRequest Create "Pod" "" "alice" [] {| Raw := "greedy" |} noRaw)) ≠ true.
Proof. intros (pod & [= <-] & [(_ & _ & [=])|[=]])%pod_authorized_iff. Defined.
End Witness.
