(* ===== verification/Node.v ===== *)
(** * pkg/webhooks/node: the node-validation-osd webhook, and pkg/localmetrics

    Keeps customers from deleting nodes and from changing infra and control
    plane nodes.  Each refusal of that kind increments a counter of the process,
    so the handler is written in the monad [M]. *)

From S2P Require Import Prelude GoStrings Admission Utils Webhook.

(** ** Data *)

Definition WebhookName : string := "node-validation-osd".
Definition docString : string := "Managed OpenShift customers may not alter Node objects.".
Definition adminGroups : list string := ["system:serviceaccounts:openshift-backplane-srep"].
Definition adminUsers : list string := ["backplane-cluster-admin"].

Definition rules : list RuleWithOperations := [{|
  Operations := ["CREATE"; "UPDATE"; "DELETE"];
  APIGroups := [""];
  APIVersions := ["*"];
  Resources := ["nodes"; "nodes/*"];
  Scope := Some AllScopes |}].

(** corev1.Node: metadata.name and metadata.labels. *)
Record Node := { node_Name : string; node_Labels : gmap string string }.

(** ** The accessors of the interface *)

Definition ObjectSelector : option LabelSelector := None.
Definition Doc : string := docString.
Definition TimeoutSeconds : Z := 2.
Definition MatchPolicy : MatchPolicyType := Equivalent.
Definition Name : string := WebhookName.
Definition FailurePolicy : FailurePolicyType := Ignore.
Definition Rules : list RuleWithOperations := rules.
Definition GetURI : string := "/node-validation-osd".
Definition SideEffects : SideEffectClass := SideEffectClassNone.
Definition SyncSetLabelSelector : LabelSelector := DefaultLabelSelector.
Definition ClassicEnabled : bool := true.
Definition HypershiftEnabled : bool := false.

Definition Validate (req : Request) : bool := negb (String.eqb (username req) "").

(** ** localmetrics *)

(** prometheus.CounterOpts and the counter vector made of it, with its labels. *)
Record CounterOpts := { opts_Name : string; opts_Help : string }.
Record CounterVec := { vec_Opts : CounterOpts; vec_Labels : list string }.

Definition MetricNodeWebhookBlockedReqeust : CounterVec := {|
  vec_Opts := {|
    opts_Name := "managed_webhook_node_blocked_request";
    opts_Help := "Report how many times the managed node webhook has blocked requests" |};
  vec_Labels := ["user"] |}.

Definition MetricsList : list CounterVec := [MetricNodeWebhookBlockedReqeust].

Definition increment (user : string) (w : World) : World :=
  {| blockedRequests := <[user := S (default 0 (blockedRequests w !! user))]> (blockedRequests w) |}.

Definition IncrementNodeWebhookBlockedRequest (user : string) : M unit := modify (increment user).

(** ** The decision *)

Definition supportMessage : string :=
  " This is in an effort to prevent harmful actions that may cause unintended consequences or affect the stability of the cluster. If you have any questions about this, please reach out to Red Hat support at https://access.redhat.com/support".

Definition hasLabel (node : Node) (label : string) : bool :=
  bool_decide (is_Some (node_Labels node !! label)).

Section Authorized.
Context `{AdmissionCtl} `{Decoder Node}.

(** The switch on the operation. *)
Definition renderNode (request : Request) : result Node :=
  if String.eqb (req_Operation request) Delete then DecodeRaw (req_OldObject request)
  else Decode request.

Definition block (request : Request) (msg : string) : M Response :=
  _ ← IncrementNodeWebhookBlockedRequest (username request);
  mret (reply request (Denied msg)).

Definition authorized (request : Request) : M Response :=
  if String.eqb (username request) "system:unauthenticated" then
    mret (reply request (Denied "Unauthenticated"))
  else if HasPrefix (username request) "system:" then
    mret (reply request (Allowed "authenticated system: users are allowed"))
  else if HasPrefix (username request) "kube:" then
    mret (reply request (Allowed "kube: users are allowed"))
  else if Contains adminUsers (username request) then
    mret (reply request (Allowed "Specified admin users are allowed"))
  else if existsb (Contains adminGroups) (groups request) then
    mret (reply request (Allowed "Members of admin groups are allowed"))
  else if String.eqb (gvk_Kind (req_Kind request)) "Node" then
    match renderNode request with
    | Err err => mret (Errored StatusBadRequest err)
    | Ok node =>
        if String.eqb (req_Operation request) Delete then
          block request ("Prevented from deleting nodes." +:+ supportMessage)
        else if hasLabel node "node-role.kubernetes.io/infra" then
          block request ("Prevented from modifying Red Hat managed infra nodes." +:+ supportMessage)
        else if hasLabel node "node-role.kubernetes.io/control-plane" then
          block request ("Prevented from modifying Red Hat managed control plane nodes." +:+ supportMessage)
        else if hasLabel node "node-role.kubernetes.io/master" then
          block request ("Prevented from modifying Red Hat managed master nodes." +:+ supportMessage)
        else mret (reply request (Allowed "Allowed to modify worker nodes"))
    end
  else mret (reply request (Denied ("Prevented from accessing Red Hat managed resources." +:+ supportMessage))).

Definition Authorized (request : Request) : M Response := authorized request.

Definition NewWebhook : Webhook := {|
  wh_Authorized := Authorized; wh_GetURI := GetURI; wh_Validate := Validate; wh_Name := Name;
  wh_FailurePolicy := FailurePolicy; wh_MatchPolicy := MatchPolicy; wh_Rules := Rules;
  wh_ObjectSelector := ObjectSelector; wh_SideEffects := SideEffects;
  wh_TimeoutSeconds := TimeoutSeconds; wh_Doc := Doc;
  wh_SyncSetLabelSelector := SyncSetLabelSelector; wh_ClassicEnabled := ClassicEnabled;
  wh_HypershiftEnabled := HypershiftEnabled |}.

End Authorized.

(** ** Theory *)

(** Users the webhook does not restrain. *)
Definition unrestrained (req : Request) : bool :=
  HasPrefix (username req) "system:" || HasPrefix (username req) "kube:" ||
  Contains adminUsers (username req) || existsb (Contains adminGroups) (groups req).

Definition managedNode (node : Node) : bool :=
  existsb (hasLabel node) ["node-role.kubernetes.io/infra"; "node-role.kubernetes.io/control-plane";
    "node-role.kubernetes.io/master"].

Lemma increment_lookup user w :
  blockedRequests (increment user w) !! user = Some (S (default 0 (blockedRequests w !! user))).
Proof. apply lookup_insert_eq. Qed.

Section Theory.
Context `{AdmissionCtl, !AdmissionCtlLaws} `{Decoder Node}.

Lemma block_run req msg w :
  block req msg w = (Returned (reply req (Denied msg)), increment (username req) w).
Proof. done. Qed.

(** C25: The complete decision for a restrained user, with its effect on the
    counters.  A request for another kind than Node, which Validate lets in, is
    refused and not counted; a node that cannot be decoded gives the decoder's error
    with status 400, which is also a refusal, and is not counted.
    Otherwise the request is refused, and the user's counter goes up by one, exactly
    when it deletes a node or the submitted object carries the label of a managed
    node; else, for worker nodes, it passes and no counter changes. *)
Theorem node_restrained_decision req w :
  unrestrained req = false →
  if String.eqb (gvk_Kind (req_Kind req)) "Node" then
    match renderNode req with
    | Err err => Authorized req w = (Returned (Errored StatusBadRequest err), w) ∧
                 resp_Allowed (Errored StatusBadRequest err) = false
    | Ok node =>
        if String.eqb (req_Operation req) Delete || managedNode node
        then ∃ r, Authorized req w = (Returned r, increment (username req) w) ∧ answers req false r
        else ∃ r, Authorized req w = (Returned r, w) ∧ answers req true r
    end
  else ∃ r, Authorized req w = (Returned r, w) ∧ answers req false r.
Proof.
  unfold unrestrained. rewrite 3!orb_false_iff. intros [[[Hs Hk] Hu] Hg].
  assert (String.eqb (username req) "system:unauthenticated" = false) as Hun.
  { apply String.eqb_neq. intros E. by rewrite E in Hs. }
  unfold Authorized, authorized, managedNode, answers. rewrite Hun Hs Hk Hu Hg.
  destruct (String.eqb (gvk_Kind _) "Node"); [|eexists; split; [reflexivity|]; by autorewrite with go_bool].
  destruct (renderNode req) as [node|err]; [|by autorewrite with go_bool].
  cbn [existsb]. destruct (String.eqb (req_Operation req) Delete); cbn [orb];
    [|destruct (hasLabel node _); cbn [orb];
      [|destruct (hasLabel node _); cbn [orb]; [|destruct (hasLabel node _); cbn [orb]]]];
    rewrite ?block_run; eexists; (split; [reflexivity|]); autorewrite with go_bool; done.
Qed.

(** Unrestrained users pass, whatever they do, and no counter changes; the
    one system: user that is turned away is system:unauthenticated. *)
Theorem node_unrestrained_decision req w :
  unrestrained req = true →
  ∃ r, Authorized req w = (Returned r, w) ∧
    answers req (negb (String.eqb (username req) "system:unauthenticated")) r.
Proof.
  unfold unrestrained, Authorized, authorized, answers. intros Hu.
  destruct (String.eqb (username req) "system:unauthenticated");
    [eexists; split; [reflexivity|]; by autorewrite with go_bool|].
  destruct (HasPrefix _ "system:"), (HasPrefix _ "kube:"), (Contains _ _), (existsb _ _); simpl in *; try done;
    eexists; (split; [reflexivity|]); by autorewrite with go_bool.
Qed.

(** C26: An update is judged by the submitted object alone.  A restrained user may
    change an infra or control plane node as long as the submitted object no
    longer carries its role labels. *)
Theorem node_update_ignores_old_labels req old node w :
  unrestrained req = false → gvk_Kind (req_Kind req) = "Node" → req_Operation req = Update →
  DecodeRaw (req_OldObject req) = Ok old → managedNode old = true →
  Decode req = Ok node → managedNode node = false →
  ∃ r, Authorized req w = (Returned r, w) ∧ resp_Allowed r = true.
Proof.
  unfold unrestrained. rewrite 3!orb_false_iff. intros [[[Hs Hk] Hu] Hg] Hkind Hop _ _ Hr.
  assert (String.eqb (username req) "system:unauthenticated" = false) as Hun.
  { apply String.eqb_neq. intros E. by rewrite E in Hs. }
  unfold managedNode. cbn [existsb]. rewrite !orb_false_iff. intros (L1 & L2 & L3 & _).
  unfold Authorized, authorized, renderNode. rewrite Hun Hs Hk Hu Hg Hkind Hop Hr. simpl.
  rewrite L1 L2 L3. eexists. split; [reflexivity|]. by autorewrite with go_bool.
Qed.
End Theory.

(** ** The interface, discharged *)

Lemma increment_monotone w u user : blockedCount w user ≤ blockedCount (increment u w) user.
Proof.
  unfold blockedCount. simpl. destruct (decide (u = user)) as [->|Hne].
  - rewrite lookup_insert_eq. simpl. lia.
  - by rewrite lookup_insert_ne.
Qed.

Section Laws.
Context `{AdmissionCtl} `{Decoder Node}.

(** The two kinds of outcome: the counters stay, or one counts. *)
Ltac stays := left; eexists; split; [reflexivity|auto with webhook].
Ltac counts := right; eexists; split; [reflexivity|auto with webhook].

Lemma Authorized_runs req :
  (∃ r, (∀ w, Authorized req w = (Returned r, w)) ∧ identified req r) ∨
  ∃ r, (∀ w, Authorized req w = (Returned r, increment (username req) w)) ∧ identified req r.
Proof.
  unfold Authorized, authorized, block.
  destruct (String.eqb (username req) _); [stays|]. destruct (HasPrefix _ "system:"); [stays|].
  destruct (HasPrefix _ "kube:"); [stays|]. destruct (Contains adminUsers _); [stays|].
  destruct (existsb _ (groups req)); [stays|]. destruct (String.eqb (gvk_Kind _) _); [|stays].
  destruct (renderNode req) as [node|e]; [|stays].
  destruct (String.eqb (req_Operation req) _); [counts|]. destruct (hasLabel node _); [counts|].
  destruct (hasLabel node _); [counts|]. destruct (hasLabel node _); [counts|stays].
Qed.

#[export] Instance node_laws : WebhookLaws NewWebhook.
Proof.
  constructor.
  - intros req w r w'. destruct (Authorized_runs req) as [(r' & Hw & Hi)|(r' & Hw & Hi)]; simpl; rewrite Hw; by intros [= <- _].
  - intros req w1 w2. destruct (Authorized_runs req) as [(r' & Hw & _)|(r' & Hw & _)]; simpl; by rewrite !Hw.
  - intros req w user. destruct (Authorized_runs req) as [(r' & Hw & _)|(r' & Hw & _)]; simpl; rewrite Hw; [done|].
    apply increment_monotone.
Qed.
End Laws.

(** ** Witnesses *)

Module Witness.

#[local] Existing Instance exampleCtl.
#[local] Existing Instance exampleCtl_laws.

Definition infra : Node :=
  {| node_Name := "n1"; node_Labels := {["node-role.kubernetes.io/infra" := ""]} |}.
Definition bare : Node := {| node_Name := "n1"; node_Labels := ∅ |}.

#[local] Instance decoder : Decoder Node := exampleDecoder [("infra", infra); ("bare", bare)].

Definition idle : World := {| blockedRequests := ∅ |}.
Definition ask (op u object oldObject : string) : Request :=
  exampleRequest op "Node" "" u ["devs"] {| Raw := object |} {| Raw := oldObject |}.

Definition scale : Request :=
  exampleRequest Update "Scale" "" "alice" ["devs"] {| Raw := "" |} {| Raw := "" |}.

(** A deletion, an update of an infra and one of a worker node, a node that cannot
    be decoded, and another kind. *)
Lemma node_restrained_decision_witness :
  (∃ r, Authorized (ask Delete "alice" "" "bare") idle = (Returned r, increment "alice" idle) ∧
     answers (ask Delete "alice" "" "bare") false r) ∧
  (∃ r, Authorized (ask Update "alice" "infra" "bare") idle = (Returned r, increment "alice" idle) ∧
     answers (ask Update "alice" "infra" "bare") false r) ∧
  (∃ r, Authorized (ask Update "alice" "bare" "bare") idle = (Returned r, idle) ∧
     answers (ask Update "alice" "bare" "bare") true r) ∧
  (∃ err, Authorized (ask Update "alice" "?" "bare") idle = (Returned (Errored StatusBadRequest err), idle)) ∧
  (∃ r, Authorized scale idle = (Returned r, idle) ∧ answers scale false r).
Proof.
  split; [|split; [|split; [|split]]].
  - exact (node_restrained_decision (ask Delete "alice" "" "bare") idle eq_refl).
  - exact (node_restrained_decision (ask Update "alice" "infra" "bare") idle eq_refl).
  - exact (node_restrained_decision (ask Update "alice" "bare" "bare") idle eq_refl).
  - eexists. exact (proj1 (node_restrained_decision (ask Update "alice" "?" "bare") idle eq_refl)).
  - exact (node_restrained_decision scale idle eq_refl).
Defined.

Lemma node_unrestrained_decision_witness :
  ∃ r, Authorized (ask Delete "kube:admin" "" "bare") idle = (Returned r, idle) ∧
    answers (ask Delete "kube:admin" "" "bare") true r.
Proof. apply (node_unrestrained_decision (ask Delete "kube:admin" "" "bare")); reflexivity. Defined.

Lemma node_update_ignores_old_labels_witness :
  ∃ r, Authorized (ask Update "alice" "bare" "infra") idle = (Returned r, idle) ∧ resp_Allowed r = true.
Proof. apply (node_update_ignores_old_labels _ infra bare); reflexivity. Defined.
End Witness.
