(* ===== verification/ClusterRole.v ===== *)
(** * pkg/webhooks/clusterrole: the clusterroles-validation webhook

    Keeps the cluster roles the platform needs from being deleted. *)

From S2P Require Import Prelude GoStrings Admission Utils Webhook.

(** ** Data *)

Definition WebhookName : string := "clusterroles-validation".
Definition backplanePrefix : string := "backplane-".
Definition docString : string :=
  "Managed OpenShift Customers may not delete protected ClusterRoles including cluster-admin, view, edit, admin, specific system roles (system:admin, system:node, system:node-proxier, system:kube-scheduler, system:kube-controller-manager), and backplane-* roles".
Definition timeout : Z := 2.

Definition rules : list RuleWithOperations := [{|
  Operations := ["DELETE"];
  APIGroups := ["rbac.authorization.k8s.io"];
  APIVersions := ["v1"];
  Resources := ["clusterroles"];
  Scope := Some ClusterScope |}].

Definition protectedClusterRoles : list string := [
  "cluster-admin"; "view"; "edit"; "admin"; "system:admin"; "system:node"; "system:kube-scheduler";
  "system:kube-controller-manager"].
Definition allowedUsers : list string := ["backplane-cluster-admin"].
Definition allowedGroups : list string := ["system:serviceaccounts:openshift-backplane-srep"].

(** rbacv1.ClusterRole: its name. *)
Record ClusterRole := { cr_Name : string }.

(** ** The accessors of the interface *)

Definition ObjectSelector : option LabelSelector := None.
Definition Doc : string := docString.
Definition TimeoutSeconds : Z := timeout.
Definition MatchPolicy : MatchPolicyType := Equivalent.
Definition Name : string := WebhookName.
Definition FailurePolicy : FailurePolicyType := Ignore.
Definition Rules : list RuleWithOperations := rules.
Definition GetURI : string := "/" +:+ WebhookName.
Definition SideEffects : SideEffectClass := SideEffectClassNone.
Definition SyncSetLabelSelector : LabelSelector := DefaultLabelSelector.
Definition ClassicEnabled : bool := true.
Definition HypershiftEnabled : bool := true.

Definition Validate (request : Request) : bool :=
  negb (String.eqb (username request) "") && String.eqb (gvk_Kind (req_Kind request)) "ClusterRole".

(** ** The decision *)

Definition isAllowedUserGroup (request : Request) : bool :=
  if Contains allowedUsers (username request) then true
  else existsb (Contains (groups request)) allowedGroups.

Definition isProtectedClusterRole (clusterRole : ClusterRole) : bool :=
  if Contains protectedClusterRoles (cr_Name clusterRole) then true
  else if HasPrefix (cr_Name clusterRole) backplanePrefix then true
  else false.

Section Authorized.
Context `{AdmissionCtl} `{Decoder ClusterRole}.

(** Without an old object the result is the zero ClusterRole. *)
Definition renderClusterRole (request : Request) : result ClusterRole :=
  if nonempty (req_OldObject request) then DecodeRaw (req_OldObject request)
  else Ok {| cr_Name := "" |}.

Definition authorized (request : Request) : Response :=
  if String.eqb (username request) "system:unauthenticated" then
    reply request (Denied "Unauthenticated")
  else if HasPrefix (username request) "system:" &&
          negb (String.eqb (username request) "system:admin") then
    reply request (Allowed "authenticated system: users are allowed")
  else if HasPrefix (username request) "kube:" then
    reply request (Allowed "kube: users are allowed")
  else match renderClusterRole request with
  | Err err => Errored StatusBadRequest err
  | Ok clusterRole =>
      if isProtectedClusterRole clusterRole && negb (isAllowedUserGroup request) &&
         String.eqb (req_Operation request) Delete then
        reply request (Denied ("Deleting ClusterRole " +:+ cr_Name clusterRole +:+ " is not allowed"))
      else reply request (Allowed "Request is allowed")
  end.

Definition Authorized (request : Request) : M Response := mret (authorized request).

Definition NewWebhook : Webhook := {|
  wh_Authorized := Authorized; wh_GetURI := GetURI; wh_Validate := Validate; wh_Name := Name;
  wh_FailurePolicy := FailurePolicy; wh_MatchPolicy := MatchPolicy; wh_Rules := Rules;
  wh_ObjectSelector := ObjectSelector; wh_SideEffects := SideEffects;
  wh_TimeoutSeconds := TimeoutSeconds; wh_Doc := Doc;
  wh_SyncSetLabelSelector := SyncSetLabelSelector; wh_ClassicEnabled := ClassicEnabled;
  wh_HypershiftEnabled := HypershiftEnabled |}.

End Authorized.

(** ** Theory *)

Section Theory.
Context `{AdmissionCtl, !AdmissionCtlLaws} `{Decoder ClusterRole}.

Lemma isProtectedClusterRole_iff cr :
  isProtectedClusterRole cr = true ↔
  cr_Name cr ∈ protectedClusterRoles ∨ HasPrefix (cr_Name cr) "backplane-" = true.
Proof.
  unfold isProtectedClusterRole, backplanePrefix. rewrite -Contains_iff.
  destruct (Contains _ _), (HasPrefix _ _); naive_solver.
Qed.

(** C27: Who may delete what.  For a requester that is neither a kube: user nor a
    system: user (system:admin counts as a customer here), a deletion is refused
    exactly when the role is protected and the requester is not the backplane
    administrator or in the SRE group. *)
Theorem clusterrole_delete_iff req cr :
  (HasPrefix (username req) "system:" = false ∨ username req = "system:admin") →
  HasPrefix (username req) "kube:" = false →
  req_Operation req = Delete → nonempty (req_OldObject req) = true →
  DecodeRaw (req_OldObject req) = Ok cr →
  resp_Allowed (authorized req) = false ↔
  (cr_Name cr ∈ protectedClusterRoles ∨ HasPrefix (cr_Name cr) "backplane-" = true) ∧
  ¬ listed allowedUsers allowedGroups req.
Proof.
  intros Hs Hk Hop Hne Hd. unfold authorized, renderClusterRole. rewrite Hk Hne Hd Hop.
  assert (String.eqb (username req) "system:unauthenticated" = false) as ->.
  { apply String.eqb_neq. intros E. rewrite E in Hs. by destruct Hs. }
  assert (HasPrefix (username req) "system:" && negb (String.eqb (username req) "system:admin") = false) as ->.
  { destruct Hs as [->| ->]; done. }
  rewrite -isProtectedClusterRole_iff String.eqb_refl andb_true_r.
  pose proof (listed_iff allowedUsers allowedGroups req : isAllowedUserGroup req = true ↔ _) as Ha.
  destruct (isProtectedClusterRole cr), (isAllowedUserGroup req); simpl; autorewrite with go_bool; naive_solver.
Qed.
End Theory.

(** ** The interface, discharged *)

Section Laws.
Context `{AdmissionCtl} `{Decoder ClusterRole}.

#[export] Instance clusterrole_laws : WebhookLaws NewWebhook.
Proof.
  apply (pure_webhook_laws _ (λ req, Returned (authorized req))); [done|].
  intros req r. unfold authorized. solve_identified.
Qed.
End Laws.

(** ** Witnesses *)

Module Witness.

#[local] Existing Instance exampleCtl.
#[local] Existing Instance exampleCtl_laws.
#[local] Instance decoder : Decoder ClusterRole := exampleDecoder
  [("admin", {| cr_Name := "cluster-admin" |}); ("proxier", {| cr_Name := "system:node-proxier" |})].

Lemma clusterrole_delete_iff_witness :
  resp_Allowed (authorized (exampleRequest Delete "ClusterRole" "rbac.authorization.k8s.io" "system:admin"
    ["cluster-admins"] noRaw {| Raw := "admin" |})) = false.
Proof.
  apply (clusterrole_delete_iff _ {| cr_Name := "cluster-admin" |}); try reflexivity.
  - right. reflexivity.
  - split; [left; by apply Contains_iff|]. by apply not_listed.
Defined.
End Witness.
