(* ===== verification/ClusterRoleBinding.v ===== *)
(** * pkg/webhooks/clusterrolebinding: the clusterrolebindings-validation webhook

    Keeps the bindings of managed service accounts from being deleted. *)

From S2P Require Import Prelude GoStrings Regexp RegexpTheory Admission Utils Webhook.

(** ** Data *)

Definition WebhookName : string := "clusterrolebindings-validation".
Definition managedNamespaces : string := "(^openshift-.*|kube-system)".
Definition timeout : Z := 2.

Definition rules : list RuleWithOperations := [{|
  Operations := ["DELETE"];
  APIGroups := ["rbac.authorization.k8s.io"];
  APIVersions := ["v1"];
  Resources := ["clusterrolebindings"];
  Scope := Some ClusterScope |}].

Definition exceptionNamespaces : list string := [
  "openshift-logging"; "openshift-user-workload-monitoring"; "openshift-operators";
  "openshift-backplane-managed-scripts"; "openshift-gitops"].
Definition allowedUsers : list string := ["backplane-cluster-admin"].
Definition allowedGroups : list string := ["system:serviceaccounts:openshift-backplane-srep"].

(** rbacv1.ClusterRoleBinding: name, annotations and subjects. *)
Record Subject := { subj_Kind : string; subj_Namespace : string }.
Record ClusterRoleBinding := {
  crb_Name : string;
  crb_Annotations : gmap string string;
  Subjects : list Subject;
}.

(** ** The accessors of the interface *)

Definition Doc : string :=
  "Managed OpenShift Customers may not delete the cluster role bindings under the managed namespaces: " +:+
  managedNamespaces.
Definition ObjectSelector : option LabelSelector := None.
Definition TimeoutSeconds : Z := timeout.
Definition MatchPolicy : MatchPolicyType := Equivalent.
Definition Name : string := WebhookName.
Definition FailurePolicy : FailurePolicyType := Ignore.
Definition Rules : list RuleWithOperations := rules.
Definition GetURI : string := "/" +:+ WebhookName.
Definition SideEffects : SideEffectClass := SideEffectClassNone.
Definition SyncSetLabelSelector : LabelSelector := DefaultLabelSelector.
Definition ClassicEnabled : bool := true.
Definition HypershiftEnabled : bool := true.

Definition Validate (request : Request) : bool :=
  negb (String.eqb (username request) "") &&
  String.eqb (gvk_Kind (req_Kind request)) "ClusterRoleBinding".

(** ** The decision *)

Definition isAllowedUserGroup (request : Request) : bool :=
  if Contains allowedUsers (username request) then true
  else existsb (Contains (groups request)) allowedGroups.

Fixpoint isProtectedSubjects (subjects : list Subject) : bool :=
  match subjects with
  | [] => false
  | subject :: rest =>
      if String.eqb (subj_Kind subject) "ServiceAccount" &&
         (MatchPattern managedNamespaces (subj_Namespace subject) &&
          negb (Contains exceptionNamespaces (subj_Namespace subject)))
      then true
      else isProtectedSubjects rest
  end.

Definition isProtectedNamespace (clusterRoleBinding : ClusterRoleBinding) : bool :=
  isProtectedSubjects (Subjects clusterRoleBinding).

Section Authorized.
Context `{AdmissionCtl} `{Decoder ClusterRoleBinding}.

(** Without an old object the result is the zero ClusterRoleBinding. *)
Definition renderClusterRoleBinding (request : Request) : result ClusterRoleBinding :=
  if nonempty (req_OldObject request) then DecodeRaw (req_OldObject request)
  else Ok {| crb_Name := ""; crb_Annotations := ∅; Subjects := [] |}.

Definition authorized (request : Request) : Response :=
  if String.eqb (username request) "system:unauthenticated" then
    reply request (Denied "Unauthenticated")
  else if HasPrefix (username request) "system:" then
    reply request (Allowed "authenticated system: users are allowed")
  else if HasPrefix (username request) "kube:" then
    reply request (Allowed "kube: users are allowed")
  else match renderClusterRoleBinding request with
  | Err err => Errored StatusBadRequest err
  | Ok clusterRoleBinding =>
      if isProtectedNamespace clusterRoleBinding && negb (isAllowedUserGroup request) &&
         String.eqb (req_Operation request) Delete then
        if String.eqb (default "" (crb_Annotations clusterRoleBinding !! "oc.openshift.io/command"))
             "oc adm must-gather" &&
           String.eqb (username request) "cluster-admin" then
          reply request (Allowed "cluster-admin: cluster-admin may manage must-gather resources")
        else
          reply request (Denied ("Deleting ClusterRoleBinding " +:+ crb_Name clusterRoleBinding +:+ " is not allowed"))
      else reply request (Allowed "Request is allowed")
  end.

Definition Authorized (request : Request) : M Response := mret (authorized request).

Definition NewWebhook : Webhook := {|
  wh_Authorized := Authorized; wh_GetURI := GetURI; wh_Validate := Validate; wh_Name := Name;
  wh_FailurePolicy := FailurePolicy; wh_MatchPolicy := MatchPolicy; wh_Rules := Rules;
  wh_ObjectSelector := ObjectSelector; wh_SideEffects := SideEffects;
  wh_TimeoutSeconds := TimeoutSeconds; wh_Doc := Doc;
  wh_SyncSetLabelSelector := SyncSetLabelSelector; wh_ClassicEnabled := ClassicEnabled;
  wh_HypershiftEnabled := HypershiftEnabled |}.

End Authorized.

(** ** Theory *)

Lemma managedNamespaces_iff s :
  MatchPattern managedNamespaces s = true ↔
  HasPrefix s "openshift-" = true ∨ ContainsSub s "kube-system" = true.
Proof.
  assert (MustCompile managedNamespaces = Some (MkRegexp (RCat (RGroup 1
    (RAlt (RCat RBegin (RLit "openshift-" (RCat (RStar RAny) REps))) (RLit "kube-system" REps))) REps)
    [""; ""])) as HC by (vm_compute; reflexivity).
  unfold MatchPattern. rewrite HC Match_iff ContainsSub_iff. cbn [prog].
  assert (∀ i t, accepts (RCat (RCat RBegin (RLit "openshift-" (RCat (RStar RAny) REps))) REps) i t ↔
    i = 0 ∧ HasPrefix t "openshift-" = true) as Hb.
  { intros i t. by rewrite accepts_cat_cat accepts_cat_begin accepts_prefix_any. }
  setoid_rewrite accepts_cat_group. setoid_rewrite accepts_cat_alt. setoid_rewrite Hb.
  setoid_rewrite accepts_prefix_lit. clear Hb. rewrite !HasPrefix_iff. setoid_rewrite HasPrefix_iff. split.
  - intros (a & b & -> & [[->%str_length_0 Hb]|Hb]); [by left|]. right. naive_solver.
  - intros [[r ->]|(a & b & ->)]; [exists "", ("openshift-" +:+ r)|exists a, ("kube-system" +:+ b)]; naive_solver.
Qed.

(** A subject that makes a binding protected: a service account of a namespace
    that starts with openshift- or has kube-system in its name, exceptions aside. *)
Definition protected_subject (s : Subject) : Prop :=
  subj_Kind s = "ServiceAccount" ∧
  (HasPrefix (subj_Namespace s) "openshift-" = true ∨ ContainsSub (subj_Namespace s) "kube-system" = true) ∧
  subj_Namespace s ∉ exceptionNamespaces.

Lemma isProtectedNamespace_iff crb :
  isProtectedNamespace crb = true ↔ ∃ s, s ∈ Subjects crb ∧ protected_subject s.
Proof.
  unfold isProtectedNamespace. induction (Subjects crb) as [|s l IH]; simpl.
  { split; [done|]. intros (s & Hs & _). by apply not_elem_of_nil in Hs. }
  setoid_rewrite elem_of_cons.
  assert ((String.eqb (subj_Kind s) "ServiceAccount" && (MatchPattern managedNamespaces (subj_Namespace s) &&
    negb (Contains exceptionNamespaces (subj_Namespace s)))) = true ↔ protected_subject s) as Hs.
  { unfold protected_subject. rewrite -managedNamespaces_iff !andb_true_iff negb_true_iff.
    by rewrite String.eqb_eq Contains_false. }
  destruct (_ && _); [naive_solver|]. rewrite IH. naive_solver.
Qed.

Section Theory.
Context `{AdmissionCtl, !AdmissionCtlLaws} `{Decoder ClusterRoleBinding}.

(** C28: Who may delete which binding.  For a requester that is neither a kube:
    nor a system: user, a deletion is refused exactly when the binding has a
    protected subject, the requester is not on the allow list, and it is not the
    user cluster-admin cleaning up after must-gather. *)
Theorem clusterrolebinding_delete_iff req crb :
  HasPrefix (username req) "system:" = false → HasPrefix (username req) "kube:" = false →
  req_Operation req = Delete → nonempty (req_OldObject req) = true →
  DecodeRaw (req_OldObject req) = Ok crb →
  resp_Allowed (authorized req) = false ↔
  (∃ s, s ∈ Subjects crb ∧ protected_subject s) ∧ ¬ listed allowedUsers allowedGroups req ∧
  ¬ (crb_Annotations crb !! "oc.openshift.io/command" = Some "oc adm must-gather" ∧
     username req = "cluster-admin").
Proof.
  intros Hs Hk Hop Hne Hd. unfold authorized, renderClusterRoleBinding. rewrite Hs Hk Hne Hd Hop.
  rewrite (not_system_authenticated _ Hs) -isProtectedNamespace_iff String.eqb_refl andb_true_r.
  pose proof (listed_iff allowedUsers allowedGroups req : isAllowedUserGroup req = true ↔ _) as Ha.
  assert (String.eqb (default "" (crb_Annotations crb !! "oc.openshift.io/command")) "oc adm must-gather" = true ↔
    crb_Annotations crb !! "oc.openshift.io/command" = Some "oc adm must-gather") as Hm.
  { rewrite String.eqb_eq. destruct (crb_Annotations crb !! _); simpl; naive_solver. }
  destruct (isProtectedNamespace crb), (isAllowedUserGroup req); simpl; autorewrite with go_bool; [naive_solver| |naive_solver..].
  destruct (String.eqb (default "" _) _), (String.eqb_spec (username req) "cluster-admin");
    simpl; autorewrite with go_bool; naive_solver.
Qed.
End Theory.

(** ** The interface, discharged *)

Section Laws.
Context `{AdmissionCtl} `{Decoder ClusterRoleBinding}.

#[export] Instance clusterrolebinding_laws : WebhookLaws NewWebhook.
Proof.
  apply (pure_webhook_laws _ (λ req, Returned (authorized req))); [done|].
  intros req r. unfold authorized. solve_identified.
Qed.
End Laws.

(** ** Witnesses *)

Module Witness.

#[local] Existing Instance exampleCtl.
#[local] Existing Instance exampleCtl_laws.

Definition monitoring : Subject := {| subj_Kind := "ServiceAccount"; subj_Namespace := "openshift-monitoring" |}.
Definition binding : ClusterRoleBinding :=
  {| crb_Name := "b"; crb_Annotations := ∅; Subjects := [monitoring] |}.
#[local] Instance decoder : Decoder ClusterRoleBinding := exampleDecoder [("binding", binding)].

Lemma clusterrolebinding_delete_iff_witness :
  resp_Allowed (authorized (exampleRequest Delete "ClusterRoleBinding" "rbac.authorization.k8s.io" "alice"
    ["cluster-admins"] noRaw {| Raw := "binding" |})) = false.
Proof.
  apply (clusterrolebinding_delete_iff _ binding); try reflexivity. split; [|split].
  - exists monitoring. split; [apply list_elem_of_here|]. split; [reflexivity|].
    split; [by left|by apply Contains_false].
  - by apply not_listed.
  - by intros [_ [=]].
Defined.
End Witness.
