(* ===== verification/ServiceAccount.v ===== *)
(** * pkg/webhooks/serviceaccount: the serviceaccount-validation webhook

    Keeps service accounts of managed namespaces from being deleted. *)

From S2P Require Import Prelude GoStrings Admission Utils Webhook.

(** ** Data *)

Definition WebhookName : string := "serviceaccount-validation".
Definition docString : string :=
  "Managed OpenShift Customers may not delete the service accounts under the managed namespaces。".
Definition timeout : Z := 2.

Definition rules : list RuleWithOperations := [{|
  Operations := ["DELETE"];
  APIGroups := [""];
  APIVersions := ["v1"];
  Resources := ["serviceaccounts"];
  Scope := Some NamespacedScope |}].

Definition allowedUsers : list string := ["backplane-cluster-admin"].
Definition allowedGroups : list string := ["system:serviceaccounts:openshift-backplane-srep"].
Definition allowedServiceAccounts : list string := ["builder"; "default"; "deployer"].
Definition exceptionNamespaces : list string := [
  "default"; "openshift-logging"; "openshift-user-workload-monitoring"; "openshift-operators"].

(** corev1.ServiceAccount: its name. *)
Record ServiceAccount := { sa_Name : string }.

(** ** The accessors of the interface *)

Definition Doc : string := docString.
Definition ObjectSelector : option LabelSelector := None.
Definition TimeoutSeconds : Z := timeout.
Definition MatchPolicy : MatchPolicyType := Equivalent.
Definition Name : string := WebhookName.
Definition FailurePolicy : FailurePolicyType := Ignore.
Definition Rules : list RuleWithOperations := rules.
Definition GetURI : string := "/" +:+ WebhookName.
Definition SideEffects : SideEffectClass := SideEffectClassNone.
Definition SyncSetLabelSelector : LabelSelector := DefaultLabelSelector.
Definition ClassicEnabled : bool := true.
Definition HypershiftEnabled : bool := true.

Definition Validate (request : Request) : bool :=
  negb (String.eqb (username request) "") && String.eqb (gvk_Kind (req_Kind request)) "ServiceAccount".

(** ** The decision *)

Definition isAllowedUserGroup (request : Request) : bool :=
  if Contains allowedUsers (username request) then true
  else existsb (Contains (groups request)) allowedGroups.

Definition isProtectedNamespace (request : Request) : bool :=
  let ns := req_Namespace request in
  if IsPrivilegedNamespace ns && negb (Contains exceptionNamespaces ns) then true else false.

Definition isAllowedServiceAccount (sa : ServiceAccount) : bool :=
  existsb (String.eqb (sa_Name sa)) allowedServiceAccounts.

Section Authorized.
Context `{AdmissionCtl} `{Decoder ServiceAccount}.

(** Without an old object the result is the zero ServiceAccount. *)
Definition renderServiceAccount (request : Request) : result ServiceAccount :=
  if nonempty (req_OldObject request) then DecodeRaw (req_OldObject request)
  else Ok {| sa_Name := "" |}.

Definition authorized (request : Request) : Response :=
  if String.eqb (username request) "system:unauthenticated" then
    reply request (Denied "Unauthenticated")
  else if HasPrefix (username request) "system:" then
    reply request (Allowed "authenticated system: users are allowed")
  else if HasPrefix (username request) "kube:" then
    reply request (Allowed "kube: users are allowed")
  else match renderServiceAccount request with
  | Err err => Errored StatusBadRequest err
  | Ok sa =>
      if isProtectedNamespace request && negb (isAllowedUserGroup request) &&
         (String.eqb (req_Operation request) Delete && negb (isAllowedServiceAccount sa)) then
        reply request (Denied ("Deleting protected service account under namespace " +:+ req_Namespace request +:+ " is not allowed"))
      else reply request (Allowed "Request is allowed")
  end.

Definition Authorized (request : Request) : M Response := mret (authorized request).

Definition NewWebhook : Webhook := {|
  wh_Authorized := Authorized; wh_GetURI := GetURI; wh_Validate := Validate; wh_Name := Name;
  wh_FailurePolicy := FailurePolicy; wh_MatchPolicy := MatchPolicy; wh_Rules := Rules;
  wh_ObjectSelector := ObjectSelector; wh_SideEffects := SideEffects;
  wh_TimeoutSeconds := TimeoutSeconds; wh_Doc := Doc;
  wh_SyncSetLabelSelector := SyncSetLabelSelector; wh_ClassicEnabled := ClassicEnabled;
  wh_HypershiftEnabled := HypershiftEnabled |}.

End Authorized.

(** ** Theory *)

Section Theory.
Context `{AdmissionCtl, !AdmissionCtlLaws} `{Decoder ServiceAccount}.

(** Who may delete which service account.  For a requester that is neither a
    kube: nor a system: user, a deletion is refused exactly when the request is
    for a managed namespace that is not an exception, the account is not one of
    builder, default and deployer, and the requester is not on the allow list. *)
Theorem serviceaccount_delete_iff req sa :
  HasPrefix (username req) "system:" = false → HasPrefix (username req) "kube:" = false →
  req_Operation req = Delete → nonempty (req_OldObject req) = true →
  DecodeRaw (req_OldObject req) = Ok sa →
  resp_Allowed (authorized req) = false ↔
  IsPrivilegedNamespace (req_Namespace req) = true ∧ (req_Namespace req ∉ exceptionNamespaces) ∧
  (sa_Name sa ∉ allowedServiceAccounts) ∧ ¬ listed allowedUsers allowedGroups req.
Proof.
  intros Hs Hk Hop Hne Hd. unfold authorized, renderServiceAccount. rewrite Hs Hk Hne Hd Hop.
  rewrite (not_system_authenticated _ Hs) String.eqb_refl. unfold isProtectedNamespace.
  pose proof (listed_iff allowedUsers allowedGroups req : isAllowedUserGroup req = true ↔ _) as Ha.
  assert (isAllowedServiceAccount sa = true ↔ sa_Name sa ∈ allowedServiceAccounts) as Hsa.
  { unfold isAllowedServiceAccount. rewrite existsb_elem_of. setoid_rewrite String.eqb_eq. naive_solver. }
  rewrite -(Contains_false exceptionNamespaces).
  destruct (IsPrivilegedNamespace _), (Contains exceptionNamespaces _), (isAllowedUserGroup req),
    (isAllowedServiceAccount sa); simpl; autorewrite with go_bool; naive_solver.
Qed.
End Theory.

(** ** The interface, discharged *)

Section Laws.
Context `{AdmissionCtl} `{Decoder ServiceAccount}.

#[export] Instance serviceaccount_laws : WebhookLaws NewWebhook.
Proof.
  apply (pure_webhook_laws _ (λ req, Returned (authorized req))); [done|].
  intros req r. unfold authorized. solve_identified.
Qed.
End Laws.

(** ** Witnesses *)

Module Witness.

#[local] Existing Instance exampleCtl.
#[local] Existing Instance exampleCtl_laws.
#[local] Instance decoder : Decoder ServiceAccount := exampleDecoder [("sa", {| sa_Name := "prometheus-k8s" |})].

Definition deletion : Request := {|
  req_UID := "uid-1";
  req_Kind := {| gvk_Group := ""; gvk_Version := "v1"; gvk_Kind := "ServiceAccount" |};
  req_RequestKind := None; req_Name := "prometheus-k8s"; req_Namespace := "openshift-monitoring";
  req_Operation := Delete; req_UserInfo := {| Username := "alice"; Groups := ["cluster-admins"] |};
  req_Object := noRaw; req_OldObject := {| Raw := "sa" |} |}.

Lemma serviceaccount_delete_iff_witness : resp_Allowed (authorized deletion) = false.
Proof.
  apply (serviceaccount_delete_iff _ {| sa_Name := "prometheus-k8s" |}); try reflexivity.
  split; [vm_compute; reflexivity|]. split; [by apply Contains_false|].
  split; [by apply Contains_false|by apply not_listed].
Defined.
End Witness.
