(* ===== verification/SCC.v ===== *)
(** * pkg/webhooks/scc: the scc-validation webhook

    Keeps the default security context constraints from being changed. *)

From S2P Require Import Prelude GoStrings Admission Utils Webhook.

(** ** Data *)

Definition WebhookName : string := "scc-validation".
Definition timeout : Z := 2.

Definition rules : list RuleWithOperations := [{|
  Operations := ["UPDATE"; "DELETE"];
  APIGroups := ["security.openshift.io"];
  APIVersions := ["*"];
  Resources := ["securitycontextconstraints"];
  Scope := Some ClusterScope |}].

Definition allowedUsers : list string := [
  "system:serviceaccount:openshift-kube-apiserver-operator:kube-apiserver-operator";
  "system:serviceaccount:openshift-monitoring:cluster-monitoring-operator";
  "system:serviceaccount:openshift-cluster-version:default";
  "system:admin"].
Definition allowedGroups : list string := [].
Definition defaultSCCs : list string := [
  "anyuid"; "hostaccess"; "hostmount-anyuid"; "hostnetwork"; "hostnetwork-v2"; "node-exporter";
  "nonroot"; "nonroot-v2"; "privileged"; "restricted"; "restricted-v2"].

(** securityv1.SecurityContextConstraints: its name. *)
Record SecurityContextConstraints := { scc_Name : string }.

(** ** The accessors of the interface *)

Definition Doc : string :=
  "Managed OpenShift Customers may not modify the following default SCCs: " +:+ fmt_list defaultSCCs.
Definition ObjectSelector : option LabelSelector := None.
Definition TimeoutSeconds : Z := timeout.
Definition MatchPolicy : MatchPolicyType := Equivalent.
Definition Name : string := WebhookName.
Definition FailurePolicy : FailurePolicyType := Ignore.
Definition Rules : list RuleWithOperations := rules.
Definition GetURI : string := "/" +:+ WebhookName.
Definition SideEffects : SideEffectClass := SideEffectClassNone.
Definition SyncSetLabelSelector : LabelSelector := DefaultLabelSelector.
Definition ClassicEnabled : bool := true.
Definition HypershiftEnabled : bool := true.

Definition Validate (request : Request) : bool :=
  negb (String.eqb (username request) "") &&
  String.eqb (gvk_Kind (req_Kind request)) "SecurityContextConstraints".

(** ** The decision *)

Definition isAllowedUserGroup (request : Request) : bool :=
  if Contains allowedUsers (username request) then true
  else existsb (Contains (groups request)) allowedGroups.

Definition isDefaultSCC (scc : SecurityContextConstraints) : bool :=
  existsb (String.eqb (scc_Name scc)) defaultSCCs.

Section Authorized.
Context `{AdmissionCtl} `{Decoder SecurityContextConstraints}.

(** Without an old object the result is the zero object. *)
Definition renderSCC (request : Request) : result SecurityContextConstraints :=
  if nonempty (req_OldObject request) then DecodeRaw (req_OldObject request)
  else Ok {| scc_Name := "" |}.

Definition authorized (request : Request) : Response :=
  match renderSCC request with
  | Err err => Errored StatusBadRequest err
  | Ok scc =>
      if isDefaultSCC scc && negb (isAllowedUserGroup request) then
        if String.eqb (req_Operation request) Delete then
          reply request (Denied ("Deleting default SCCs " +:+ fmt_list defaultSCCs +:+ " is not allowed"))
        else if String.eqb (req_Operation request) Update then
          reply request (Denied ("Modifying default SCCs " +:+ fmt_list defaultSCCs +:+ " is not allowed"))
        else reply request (Allowed "Request is allowed")
      else reply request (Allowed "Request is allowed")
  end.

Definition Authorized (request : Request) : M Response := mret (authorized request).

Definition NewWebhook : Webhook := {|
  wh_Authorized := Authorized; wh_GetURI := GetURI; wh_Validate := Validate; wh_Name := Name;
  wh_FailurePolicy := FailurePolicy; wh_MatchPolicy := MatchPolicy; wh_Rules := Rules;
  wh_ObjectSelector := ObjectSelector; wh_SideEffects := SideEffects;
  wh_TimeoutSeconds := TimeoutSeconds; wh_Doc := Doc;
  wh_SyncSetLabelSelector := SyncSetLabelSelector; wh_ClassicEnabled := ClassicEnabled;
  wh_HypershiftEnabled := HypershiftEnabled |}.

End Authorized.

(** ** Theory *)

Section Theory.
Context `{AdmissionCtl, !AdmissionCtlLaws} `{Decoder SecurityContextConstraints}.

(** C29: The whole decision on an object that decodes.  An update or a deletion is
    refused exactly when it is of one of the default constraints and the
    requester is not one of the four listed users: no group helps. *)
Theorem scc_refused_iff req scc :
  nonempty (req_OldObject req) = true → DecodeRaw (req_OldObject req) = Ok scc →
  resp_Allowed (authorized req) = false ↔
  scc_Name scc ∈ defaultSCCs ∧ (username req ∉ allowedUsers) ∧
  (req_Operation req = Delete ∨ req_Operation req = Update).
Proof.
  intros Hne Hd. unfold authorized, renderSCC. rewrite Hne Hd.
  assert (isDefaultSCC scc = true ↔ scc_Name scc ∈ defaultSCCs) as Hdef.
  { unfold isDefaultSCC. rewrite existsb_elem_of. setoid_rewrite String.eqb_eq. naive_solver. }
  assert (isAllowedUserGroup req = true ↔ username req ∈ allowedUsers) as Ha.
  { unfold isAllowedUserGroup. rewrite -Contains_iff. by destruct (Contains allowedUsers (username req)). }
  rewrite -!(String.eqb_eq (req_Operation req)).
  destruct (isDefaultSCC scc), (isAllowedUserGroup req), (String.eqb (req_Operation req) Delete),
    (String.eqb (req_Operation req) Update); simpl; autorewrite with go_bool; naive_solver.
Qed.
End Theory.

(** ** The interface, discharged *)

Section Laws.
Context `{AdmissionCtl} `{Decoder SecurityContextConstraints}.

#[export] Instance scc_laws : WebhookLaws NewWebhook.
Proof.
  apply (pure_webhook_laws _ (λ req, Returned (authorized req))); [done|].
  intros req r. unfold authorized. solve_identified.
Qed.
End Laws.

(** ** Witnesses *)

Module Witness.

#[local] Existing Instance exampleCtl.
#[local] Existing Instance exampleCtl_laws.
#[local] Instance decoder : Decoder SecurityContextConstraints := exampleDecoder [("scc", {| scc_Name := "anyuid" |})].

Lemma scc_refused_iff_witness :
  resp_Allowed (authorized (exampleRequest Update "SecurityContextConstraints" "security.openshift.io" "kube:admin"
    ["system:serviceaccounts:openshift-backplane-srep"] {| Raw := "scc" |} {| Raw := "scc" |})) = false.
Proof.
  apply (scc_refused_iff _ {| scc_Name := "anyuid" |}); try reflexivity.
  split; [by apply Contains_iff|]. split; [by apply Contains_false|by right].
Defined.
End Witness.
