(* ===== verification/PrometheusRule.v ===== *)
(** * pkg/webhooks/prometheusrule: the prometheusrule-validation webhook

    Keeps customers from touching PrometheusRules of managed namespaces. *)

From S2P Require Import Prelude GoStrings Regexp Admission Utils Webhook.

(** ** Data *)

Definition WebhookName : string := "prometheusrule-validation".
Definition docString : string :=
  "Managed OpenShift Customers may not create PrometheusRule in namespaces managed by Red Hat.".
Definition timeout : Z := 2.
Definition allowedUsers : list string := ["kube:admin"; "system:admin"; "backplane-cluster-admin"].
Definition sreAdminGroups : list string := ["system:serviceaccounts:openshift-backplane-srep"].
Definition privilegedLabels : gmap string string := {["app.kubernetes.io/name" := "stackrox"]}.

Definition rules : list RuleWithOperations := [{|
  Operations := ["CREATE"; "UPDATE"; "DELETE"];
  APIGroups := ["monitoring.coreos.com"];
  APIVersions := ["*"];
  Resources := ["prometheusrules"];
  Scope := Some NamespacedScope |}].

Definition privilegedNamespacesAllowed : list string := [
  "openshift-customer-monitoring"; "openshift-user-workload-monitoring"].

(** The metadata of the rule: namespace and labels. *)
Record prometheusRule := { pr_Namespace : string; pr_Labels : gmap string string }.

(** ** The accessors of the interface *)

Definition Doc : string := docString.
Definition ObjectSelector : option LabelSelector := None.
Definition TimeoutSeconds : Z := timeout.
Definition MatchPolicy : MatchPolicyType := Equivalent.
Definition Name : string := WebhookName.
Definition FailurePolicy : FailurePolicyType := Ignore.
Definition Rules : list RuleWithOperations := rules.
Definition GetURI : string := "/" +:+ WebhookName.
Definition SideEffects : SideEffectClass := SideEffectClassNone.
Definition SyncSetLabelSelector : LabelSelector := DefaultLabelSelector.
Definition ClassicEnabled : bool := true.
Definition HypershiftEnabled : bool := false.

Definition Validate (request : Request) : bool :=
  negb (String.eqb (username request) "") && String.eqb (gvk_Kind (req_Kind request)) "PrometheusRule".

(** ** The decision *)

Definition isAllowedUser (request : Request) : bool :=
  if Contains allowedUsers (username request) then true
  else existsb (Contains (groups request)) sreAdminGroups.

(** The order in which the map is traversed does not matter: the result is the
    same for every order. *)
Definition hasPrivilegedLabel (rule : prometheusRule) : bool :=
  existsb (λ kv, String.eqb (default "" (pr_Labels rule !! fst kv)) (snd kv)) (map_to_list privilegedLabels).

Section Authorized.
Context `{AdmissionCtl} `{Decoder prometheusRule}.

Definition renderPrometheusRule (req : Request) : result prometheusRule :=
  if nonempty (req_OldObject req) then DecodeRaw (req_OldObject req) else Decode req.

Definition authorized (request : Request) : Response :=
  match renderPrometheusRule request with
  | Err err => Errored StatusBadRequest err
  | Ok pr =>
      if IsPrivilegedNamespace (pr_Namespace pr) &&
         negb (Contains privilegedNamespacesAllowed (pr_Namespace pr)) then
        if isAllowedUser request then
          reply request (Allowed "User can do operations on PrometheusRules")
        else if existsb privilegedServiceAccount (groups request) then
          reply request (Allowed "Privileged service accounts do operations on PrometheusRules")
        else if hasPrivilegedLabel pr then
          reply request (Allowed "PrometheusRules with privileged labels can be modified")
        else reply request (Denied "Prevented from accessing Red Hat managed resources. This is in an effort to prevent harmful actions that may cause unintended consequences or affect the stability of the cluster. If you have any questions about this, please reach out to Red Hat support at https://access.redhat.com/support")
      else reply request (Allowed "Non managed namespace")
  end.

Definition Authorized (request : Request) : M Response := mret (authorized request).

Definition NewWebhook : Webhook := {|
  wh_Authorized := Authorized; wh_GetURI := GetURI; wh_Validate := Validate; wh_Name := Name;
  wh_FailurePolicy := FailurePolicy; wh_MatchPolicy := MatchPolicy; wh_Rules := Rules;
  wh_ObjectSelector := ObjectSelector; wh_SideEffects := SideEffects;
  wh_TimeoutSeconds := TimeoutSeconds; wh_Doc := Doc;
  wh_SyncSetLabelSelector := SyncSetLabelSelector; wh_ClassicEnabled := ClassicEnabled;
  wh_HypershiftEnabled := HypershiftEnabled |}.

End Authorized.

(** ** Theory *)

Lemma hasPrivilegedLabel_iff rule :
  hasPrivilegedLabel rule = true ↔ pr_Labels rule !! "app.kubernetes.io/name" = Some "stackrox".
Proof.
  unfold hasPrivilegedLabel, privilegedLabels. rewrite map_to_list_singleton. simpl.
  rewrite orb_false_r String.eqb_eq. destruct (pr_Labels rule !! _); simpl; naive_solver.
Qed.

Section Theory.
Context `{AdmissionCtl, !AdmissionCtlLaws} `{Decoder prometheusRule}.

(** The whole decision on a rule that decodes.  It is refused exactly when
    its namespace is managed and not one of the two monitoring namespaces, the
    requester is neither listed nor a privileged service account, and the rule
    does not carry the stackrox label. *)
Theorem prometheusrule_refused_iff req pr :
  renderPrometheusRule req = Ok pr →
  resp_Allowed (authorized req) = false ↔
  IsPrivilegedNamespace (pr_Namespace pr) = true ∧ (pr_Namespace pr ∉ privilegedNamespacesAllowed) ∧
  ¬ listed allowedUsers sreAdminGroups req ∧
  (∀ g, g ∈ groups req → privilegedServiceAccount g = false) ∧
  pr_Labels pr !! "app.kubernetes.io/name" ≠ Some "stackrox".
Proof.
  intros Hr. unfold authorized. rewrite Hr -hasPrivilegedLabel_iff -(Contains_false privilegedNamespacesAllowed).
  pose proof (listed_iff allowedUsers sreAdminGroups req : isAllowedUser req = true ↔ _) as Ha.
  assert (existsb privilegedServiceAccount (groups req) = false ↔
    ∀ g, g ∈ groups req → privilegedServiceAccount g = false) as Hs by apply existsb_false.
  rewrite -Hs. clear Hs.
  destruct (IsPrivilegedNamespace _), (Contains privilegedNamespacesAllowed _), (isAllowedUser req),
    (existsb privilegedServiceAccount (groups req)), (hasPrivilegedLabel pr); simpl;
    autorewrite with go_bool; naive_solver.
Qed.
End Theory.

(** ** The interface, discharged *)

Section Laws.
Context `{AdmissionCtl} `{Decoder prometheusRule}.

#[export] Instance prometheusrule_laws : WebhookLaws NewWebhook.
Proof.
  apply (pure_webhook_laws _ (λ req, Returned (authorized req))); [done|].
  intros req r. unfold authorized. solve_identified.
Qed.
End Laws.

(** ** Witnesses *)

Module Witness.

#[local] Existing Instance exampleCtl.
#[local] Existing Instance exampleCtl_laws.
Definition rule : prometheusRule := {| pr_Namespace := "openshift-monitoring"; pr_Labels := ∅ |}.
#[local] Instance decoder : Decoder prometheusRule := exampleDecoder [("rule", rule)].

Lemma prometheusrule_refused_iff_witness :
  resp_Allowed (authorized (exampleRequest Create "PrometheusRule" "monitoring.coreos.com" "alice" ["devs"]
    {| Raw := "rule" |} noRaw)) = false.
Proof.
  apply (prometheusrule_refused_iff _ rule); [reflexivity|]. split; [vm_compute; reflexivity|].
  split; [by apply Contains_false|]. split; [by apply not_listed|]. split; [|discriminate].
  intros g [->|[]%not_elem_of_nil]%elem_of_cons. vm_compute. reflexivity.
Defined.
End Witness.
