(* ===== verification/NetworkPolicies.v ===== *)
(** * pkg/webhooks/networkpolicies: the networkpolicies-validation webhook

    Keeps customers from placing network policies in managed namespaces, and
    from touching the default ingress in openshift-ingress. *)

From S2P Require Import Prelude GoStrings Regexp Admission Utils Webhook.

(** ** Data *)

Definition WebhookName : string := "networkpolicies-validation".
Definition docString : string :=
  "Managed OpenShift Customers may not create NetworkPolicies in namespaces managed by Red Hat.".
Definition timeout : Z := 2.
Definition allowedUsers : list string := ["system:admin"; "backplane-cluster-admin"].
Definition sreAdminGroups : list string := ["system:serviceaccounts:openshift-backplane-srep"].

Definition rules : list RuleWithOperations := [{|
  Operations := ["CREATE"; "UPDATE"; "DELETE"];
  APIGroups := ["networking.k8s.io"];
  APIVersions := ["*"];
  Resources := ["networkpolicies"];
  Scope := Some NamespacedScope |}].

(** networkingv1.NetworkPolicy: namespace and spec.podSelector.matchLabels. *)
Record NetworkPolicy := { np_Namespace : string; np_MatchLabels : gmap string string }.

(** ** The accessors of the interface *)

Definition Doc : string := docString.
Definition ObjectSelector : option LabelSelector := None.
Definition TimeoutSeconds : Z := timeout.
Definition MatchPolicy : MatchPolicyType := Equivalent.
Definition Name : string := WebhookName.
Definition FailurePolicy : FailurePolicyType := Ignore.
Definition Rules : list RuleWithOperations := rules.
Definition GetURI : string := "/" +:+ WebhookName.
Definition SideEffects : SideEffectClass := SideEffectClassNone.
Definition SyncSetLabelSelector : LabelSelector := DefaultLabelSelector.
Definition ClassicEnabled : bool := true.
Definition HypershiftEnabled : bool := false.

Definition Validate (request : Request) : bool :=
  negb (String.eqb (username request) "") && String.eqb (gvk_Kind (req_Kind request)) "NetworkPolicy".

(** ** The decision *)

Definition isAllowedNamespace (namespace : string) : bool :=
  negb (IsPrivilegedNamespace namespace) || String.eqb namespace "openshift-ingress".

Definition isAllowedUser (request : Request) : bool :=
  if Contains allowedUsers (username request) then true
  else existsb (Contains (groups request)) sreAdminGroups.

Definition ingressLabel : string := "ingresscontroller.operator.openshift.io/deployment-ingresscontroller".

Definition supportMessage : string :=
  " This is in an effort to prevent harmful actions that may cause unintended consequences or affect the stability of the cluster. If you have any questions about this, please reach out to Red Hat support at https://access.redhat.com/support".

Section Authorized.
Context `{AdmissionCtl} `{Decoder NetworkPolicy}.

Definition renderNetworkPolicy (req : Request) : result NetworkPolicy :=
  if nonempty (req_Object req) then DecodeRaw (req_Object req) else DecodeRaw (req_OldObject req).

Definition authorized (request : Request) : Response :=
  match renderNetworkPolicy request with
  | Err err => Errored StatusBadRequest err
  | Ok np =>
      if negb (isAllowedNamespace (np_Namespace np)) then
        if isAllowedUser request then
          reply request (Allowed ("User '" +:+ username request +:+ "' in group(s) '" +:+ Join (groups request) ", " +:+ "' can operate on NetworkPolicies"))
        else if existsb privilegedServiceAccount (groups request) then
          reply request (Allowed ("Privileged service accounts in group(s) '" +:+ Join (groups request) ", " +:+ "' can operate on NetworkPolicies"))
        else reply request (Denied ("User '" +:+ username request +:+ "' prevented from accessing Red Mat managed resources." +:+ supportMessage))
      else if String.eqb (np_Namespace np) "openshift-ingress" then
        if existsb privilegedServiceAccount (groups request) then
          reply request (Allowed ("Privileged service accounts in group(s) '" +:+ Join (groups request) ", " +:+ "' can operate on NetworkPolicies in openshift-ingress"))
        else
          let ingressName := default "" (np_MatchLabels np !! ingressLabel) in
          let labelFound := bool_decide (is_Some (np_MatchLabels np !! ingressLabel)) in
          if negb labelFound || String.eqb ingressName "default" then
            reply request (Denied ("User '" +:+ username request +:+ "' prevented from creating network policy that may impact default ingress, which is managed by Red Hat." +:+ supportMessage))
          else reply request (Allowed "Non managed namespace")
      else reply request (Allowed "Non managed namespace")
  end.

Definition Authorized (request : Request) : M Response := mret (authorized request).

Definition NewWebhook : Webhook := {|
  wh_Authorized := Authorized; wh_GetURI := GetURI; wh_Validate := Validate; wh_Name := Name;
  wh_FailurePolicy := FailurePolicy; wh_MatchPolicy := MatchPolicy; wh_Rules := Rules;
  wh_ObjectSelector := ObjectSelector; wh_SideEffects := SideEffects;
  wh_TimeoutSeconds := TimeoutSeconds; wh_Doc := Doc;
  wh_SyncSetLabelSelector := SyncSetLabelSelector; wh_ClassicEnabled := ClassicEnabled;
  wh_HypershiftEnabled := HypershiftEnabled |}.

End Authorized.

(** ** Theory *)

Section Theory.
Context `{AdmissionCtl, !AdmissionCtlLaws} `{Decoder NetworkPolicy}.

(** C30: The whole decision on a policy that decodes.  A privileged service
    account always passes.  Anyone else is refused in a managed namespace unless
    listed, and in openshift-ingress, listed or not, unless the policy selects
    the pods of a named ingress controller other than the default one. *)
Theorem networkpolicies_refused_iff req np :
  renderNetworkPolicy req = Ok np →
  resp_Allowed (authorized req) = false ↔
  (∀ g, g ∈ groups req → privilegedServiceAccount g = false) ∧
  ((np_Namespace np = "openshift-ingress" ∧
    (np_MatchLabels np !! ingressLabel = None ∨ np_MatchLabels np !! ingressLabel = Some "default")) ∨
   (np_Namespace np ≠ "openshift-ingress" ∧ IsPrivilegedNamespace (np_Namespace np) = true ∧
    ¬ listed allowedUsers sreAdminGroups req)).
Proof.
  intros Hr. unfold authorized, isAllowedNamespace. rewrite Hr -existsb_false.
  pose proof (listed_iff allowedUsers sreAdminGroups req : isAllowedUser req = true ↔ _) as Ha.
  destruct (String.eqb_spec (np_Namespace np) "openshift-ingress") as [E|E]; simpl; rewrite ?orb_true_r.
  - simpl. destruct (existsb _ _); [autorewrite with go_bool; naive_solver|].
    destruct (np_MatchLabels np !! ingressLabel) as [v|]; simpl; [|autorewrite with go_bool; naive_solver].
    destruct (String.eqb_spec v "default"); autorewrite with go_bool; naive_solver.
  - destruct (IsPrivilegedNamespace _), (isAllowedUser req), (existsb _ _); simpl;
      autorewrite with go_bool; naive_solver.
Qed.
End Theory.

(** ** The interface, discharged *)

Section Laws.
Context `{AdmissionCtl} `{Decoder NetworkPolicy}.

#[export] Instance networkpolicies_laws : WebhookLaws NewWebhook.
Proof.
  apply (pure_webhook_laws _ (λ req, Returned (authorized req))); [done|].
  intros req r. unfold authorized. solve_identified.
Qed.
End Laws.

(** ** Witnesses *)

Module Witness.

#[local] Existing Instance exampleCtl.
#[local] Existing Instance exampleCtl_laws.
Definition policy : NetworkPolicy := {| np_Namespace := "openshift-ingress"; np_MatchLabels := ∅ |}.
#[local] Instance decoder : Decoder NetworkPolicy := exampleDecoder [("policy", policy)].

Lemma networkpolicies_refused_iff_witness :
  resp_Allowed (authorized (exampleRequest Create "NetworkPolicy" "networking.k8s.io" "backplane-cluster-admin"
    ["devs"] {| Raw := "policy" |} noRaw)) = false.
Proof.
  apply (networkpolicies_refused_iff _ policy); [reflexivity|]. split; [|left; split; [reflexivity|by left]].
  intros g [->|[]%not_elem_of_nil]%elem_of_cons. vm_compute. reflexivity.
Defined.
End Witness.
