(* ===== verification/ImageContentPolicies.v ===== *)
(** * pkg/webhooks/imagecontentpolicies: the imagecontentpolicies-validation webhook

    Keeps mirrors from being configured for the registries the platform itself
    is installed from. *)

From S2P Require Import Prelude GoStrings Regexp RegexpTheory Admission Utils Webhook.

(** ** Data *)

Definition WebhookName : string := "imagecontentpolicies-validation".
Definition WebhookDoc : string :=
  "Managed OpenShift customers may not create ImageContentSourcePolicy, ImageDigestMirrorSet, or ImageTagMirrorSet resources that configure mirrors that would conflict with system registries (e.g. quay.io, registry.redhat.io, registry.access.redhat.com, etc). For more details, see https://docs.openshift.com/".
Definition unauthorizedRepositoryMirrors : string :=
  "(^registry\.redhat\.io$|^quay\.io(/.*)?$|^registry\.access\.redhat\.com(/.*)?)".

(** configv1.ImageDigestMirrorSet, configv1.ImageTagMirrorSet and
    operatorv1alpha1.ImageContentSourcePolicy: the sources of their mirrors. *)
Record Mirror := { Source : string }.
Record ImageDigestMirrorSet := { ImageDigestMirrors : list Mirror }.
Record ImageTagMirrorSet := { ImageTagMirrors : list Mirror }.
Record ImageContentSourcePolicy := { RepositoryDigestMirrors : list Mirror }.

(** ** The accessors of the interface *)

(** The group names are those of the two API packages (docs/webhooks.json lists
    them). *)
Definition Rules : list RuleWithOperations := [{|
  Operations := ["CREATE"; "UPDATE"];
  APIGroups := ["config.openshift.io"];
  APIVersions := ["*"];
  Resources := ["imagedigestmirrorsets"; "imagetagmirrorsets"];
  Scope := Some ClusterScope |}; {|
  Operations := ["CREATE"; "UPDATE"];
  APIGroups := ["operator.openshift.io"];
  APIVersions := ["*"];
  Resources := ["imagecontentsourcepolicies"];
  Scope := Some ClusterScope |}].
Definition ObjectSelector : option LabelSelector := None.
Definition Doc : string := WebhookDoc.
Definition TimeoutSeconds : Z := 2.
Definition MatchPolicy : MatchPolicyType := Equivalent.
Definition Name : string := WebhookName.
Definition FailurePolicy : FailurePolicyType := Fail.
Definition GetURI : string := "/" +:+ WebhookName.
Definition SideEffects : SideEffectClass := SideEffectClassNone.
Definition SyncSetLabelSelector : LabelSelector := DefaultLabelSelector.
Definition ClassicEnabled : bool := true.
Definition HypershiftEnabled : bool := false.

Definition Validate (request : Request) : bool :=
  if negb (nonempty (req_Object request)) then false
  else Contains ["ImageDigestMirrorSet"; "ImageTagMirrorSet"; "ImageContentSourcePolicy"]
         (gvk_Kind (req_Kind request)).

(** ** The decision *)

(** The loop of the three functions below. *)
Fixpoint authorizeMirrors (mirrors : list Mirror) : bool :=
  match mirrors with
  | [] => true
  | mirror :: rest =>
      if MatchPattern unauthorizedRepositoryMirrors (Source mirror) then false else authorizeMirrors rest
  end.

Definition authorizeImageDigestMirrorSet (idms : ImageDigestMirrorSet) : bool :=
  authorizeMirrors (ImageDigestMirrors idms).
Definition authorizeImageTagMirrorSet (itms : ImageTagMirrorSet) : bool :=
  authorizeMirrors (ImageTagMirrors itms).
Definition authorizeImageContentSourcePolicy (icsp : ImageContentSourcePolicy) : bool :=
  authorizeMirrors (RepositoryDigestMirrors icsp).

Section Authorized.
Context `{AdmissionCtl} `{Decoder ImageDigestMirrorSet} `{Decoder ImageTagMirrorSet}
  `{Decoder ImageContentSourcePolicy}.

(** [request.RequestKind] is a pointer. *)
Definition authorized (request : Request) : outcome Response :=
  requestKind ← deref (req_RequestKind request);
  let kind := gvk_Kind requestKind in
  if String.eqb kind "ImageDigestMirrorSet" then
    match (Decode request : result ImageDigestMirrorSet) with
    | Err err => Returned (Errored StatusBadRequest err)
    | Ok idms =>
        if negb (authorizeImageDigestMirrorSet idms) then
          Returned (WebhookResponse request false WebhookDoc)
        else Returned (WebhookResponse request true "")
    end
  else if String.eqb kind "ImageTagMirrorSet" then
    match (Decode request : result ImageTagMirrorSet) with
    | Err err => Returned (Errored StatusBadRequest err)
    | Ok itms =>
        if negb (authorizeImageTagMirrorSet itms) then
          Returned (WebhookResponse request false WebhookDoc)
        else Returned (WebhookResponse request true "")
    end
  else if String.eqb kind "ImageContentSourcePolicy" then
    match (Decode request : result ImageContentSourcePolicy) with
    | Err err => Returned (Errored StatusBadRequest err)
    | Ok icsp =>
        if negb (authorizeImageContentSourcePolicy icsp) then
          Returned (WebhookResponse request false WebhookDoc)
        else Returned (WebhookResponse request true "")
    end
  else Returned (WebhookResponse request true "").

Definition Authorized (request : Request) : M Response := lift_outcome (authorized request).

Definition NewWebhook : Webhook := {|
  wh_Authorized := Authorized; wh_GetURI := GetURI; wh_Validate := Validate; wh_Name := Name;
  wh_FailurePolicy := FailurePolicy; wh_MatchPolicy := MatchPolicy; wh_Rules := Rules;
  wh_ObjectSelector := ObjectSelector; wh_SideEffects := SideEffects;
  wh_TimeoutSeconds := TimeoutSeconds; wh_Doc := Doc;
  wh_SyncSetLabelSelector := SyncSetLabelSelector; wh_ClassicEnabled := ClassicEnabled;
  wh_HypershiftEnabled := HypershiftEnabled |}.

End Authorized.

(** ** Which mirror sources are reserved *)

Definition optionalPath (n : nat) : re := RAlt (RGroup n (RLit "/" (RCat (RStar RAny) REps))) REps.

Lemma unauthorizedRepositoryMirrors_compiles :
  MustCompile unauthorizedRepositoryMirrors = Some (MkRegexp (RCat (RGroup 1
    (RAlt (pat_exact "registry.redhat.io")
    (RAlt (RCat RBegin (RLit "quay.io" (RCat (optionalPath 2) (RCat REnd REps))))
          (RCat RBegin (RLit "registry.access.redhat.com" (RCat (optionalPath 3) REps)))))) REps)
    [""; ""; ""; ""]).
Proof. vm_compute. reflexivity. Qed.

(** Text within one line. *)
Definition one_line (s : string) : bool := no_char newline s.

Lemma any_one_line w : all_chars (cset_mem (CSet true [(newline, newline)])) w = one_line w.
Proof.
  unfold one_line, no_char. induction w as [|c w IH]; simpl; [done|]. rewrite IH. f_equal.
  pose proof (cset_mem_char newline c) as Hc. unfold cset_mem in *. simpl in *. by rewrite Hc.
Qed.

Lemma accepts_optionalPath n k i s :
  accepts (RCat (optionalPath n) k) i s ↔
  (∃ w t, s = "/" +:+ w +:+ t ∧ one_line w = true ∧ accepts k (i + 1 + String.length w) t) ∨ accepts k i s.
Proof.
  unfold optionalPath. rewrite accepts_cat_alt accepts_cat_group accepts_cat_lit accepts_cat_eps.
  setoid_rewrite accepts_cat_cat. unfold RAny. setoid_rewrite accepts_cat_star_set.
  setoid_rewrite any_one_line. setoid_rewrite accepts_cat_eps. simpl. naive_solver.
Qed.

(** The sources for which no mirror may be configured. *)
Definition reserved_source (s : string) : Prop :=
  s = "registry.redhat.io" ∨ s = "quay.io" ∨ (∃ r, s = "quay.io/" +:+ r ∧ one_line r = true) ∨
  HasPrefix s "registry.access.redhat.com" = true.

Lemma unauthorized_exact i s :
  accepts (RCat (pat_exact "registry.redhat.io") REps) i s ↔ i = 0 ∧ s = "registry.redhat.io".
Proof.
  unfold pat_exact. rewrite accepts_cat_cat accepts_cat_begin accepts_cat_lit.
  setoid_rewrite accepts_cat_cat. setoid_rewrite accepts_cat_end. setoid_rewrite accepts_cat_eps.
  setoid_rewrite accepts_eps. split.
  - intros (-> & s' & -> & -> & _). done.
  - intros [-> ->]. split; [done|]. by exists "".
Qed.

Lemma unauthorized_quay i s :
  accepts (RCat (RCat RBegin (RLit "quay.io" (RCat (optionalPath 2) (RCat REnd REps)))) REps) i s ↔
  i = 0 ∧ (s = "quay.io" ∨ ∃ r, s = "quay.io/" +:+ r ∧ one_line r = true).
Proof.
  rewrite accepts_cat_cat accepts_cat_begin accepts_cat_lit.
  setoid_rewrite accepts_cat_cat. setoid_rewrite accepts_optionalPath.
  setoid_rewrite accepts_cat_cat. setoid_rewrite accepts_cat_end.
  setoid_rewrite accepts_cat_eps. setoid_rewrite accepts_eps. split.
  - intros (-> & s' & -> & [(w & t & -> & Hw & -> & _)|[-> _]]); (split; [done|]); [right|by left].
    exists w. by rewrite str_app_nil_r.
  - intros [-> [->|(r & -> & Hr)]]; (split; [done|]).
    + exists "". split; [done|]. by right.
    + exists ("/" +:+ r). split; [done|]. left. exists r, "". by rewrite str_app_nil_r.
Qed.

Lemma unauthorized_access i s :
  accepts (RCat (RCat RBegin (RLit "registry.access.redhat.com" (RCat (optionalPath 3) REps))) REps) i s ↔
  i = 0 ∧ HasPrefix s "registry.access.redhat.com" = true.
Proof.
  rewrite accepts_cat_cat accepts_cat_begin accepts_cat_lit HasPrefix_iff.
  setoid_rewrite accepts_cat_cat. setoid_rewrite accepts_optionalPath.
  setoid_rewrite accepts_cat_eps. setoid_rewrite accepts_eps. naive_solver.
Qed.

Lemma reserved_source_iff s :
  MatchPattern unauthorizedRepositoryMirrors s = true ↔ reserved_source s.
Proof.
  unfold MatchPattern, reserved_source. rewrite unauthorizedRepositoryMirrors_compiles Match_iff. cbn [prog].
  setoid_rewrite accepts_cat_group. repeat setoid_rewrite accepts_cat_alt.
  setoid_rewrite unauthorized_exact. setoid_rewrite unauthorized_quay. setoid_rewrite unauthorized_access.
  split.
  - intros (a & b & -> & H). assert (String.length a = 0) as ->%str_length_0 by tauto. simpl. tauto.
  - intros H. exists "", s. simpl. tauto.
Qed.

Lemma authorizeMirrors_iff ms :
  authorizeMirrors ms = true ↔ ∀ m, m ∈ ms → ¬ reserved_source (Source m).
Proof.
  induction ms as [|m ms IH]; simpl.
  { split; [intros _ m Hm; by apply not_elem_of_nil in Hm|done]. }
  setoid_rewrite elem_of_cons. pose proof (reserved_source_iff (Source m)) as Hm.
  destruct (MatchPattern _ _); [naive_solver|]. rewrite IH. naive_solver.
Qed.

Section Theory.
Context `{AdmissionCtl, !AdmissionCtlLaws} `{Decoder ImageDigestMirrorSet} `{Decoder ImageTagMirrorSet}
  `{Decoder ImageContentSourcePolicy}.

(** The mirrors of the object a request is about; the zero value of no mirrors
    for any other kind. *)
Definition mirrors_of (req : Request) (kind : string) : result (list Mirror) :=
  if String.eqb kind "ImageDigestMirrorSet" then
    match (Decode req : result ImageDigestMirrorSet) with Ok o => Ok (ImageDigestMirrors o) | Err e => Err e end
  else if String.eqb kind "ImageTagMirrorSet" then
    match (Decode req : result ImageTagMirrorSet) with Ok o => Ok (ImageTagMirrors o) | Err e => Err e end
  else if String.eqb kind "ImageContentSourcePolicy" then
    match (Decode req : result ImageContentSourcePolicy) with Ok o => Ok (RepositoryDigestMirrors o) | Err e => Err e end
  else Ok [].

(** C31: The whole decision.  A request with a RequestKind passes exactly when its
    object decodes and no mirror is for a reserved source: registry.redhat.io
    itself, quay.io or a repository of it, or anything that starts with
    registry.access.redhat.com. *)
Theorem imagecontentpolicies_allowed_iff req kind :
  req_RequestKind req = Some kind →
  allows (authorized req) ↔
  ∃ ms, mirrors_of req (gvk_Kind kind) = Ok ms ∧ ∀ m, m ∈ ms → ¬ reserved_source (Source m).
Proof.
  intros Hk. unfold authorized, mirrors_of. rewrite Hk. simpl.
  setoid_rewrite <-authorizeMirrors_iff.
  unfold authorizeImageDigestMirrorSet, authorizeImageTagMirrorSet, authorizeImageContentSourcePolicy.
  split_ifs; rewrite allows_returned ?WebhookResponse_allowed ?Errored_denied; norm_negb; naive_solver.
Qed.

(** The API server always sets RequestKind; without it the handler panics,
    and that is the only way it can. *)
Theorem imagecontentpolicies_panics_iff req :
  (∃ why, authorized req = Panicked why) ↔ req_RequestKind req = None.
Proof.
  unfold authorized. destruct (req_RequestKind req) as [k|]; simpl; [|naive_solver].
  split; [|done]. split_ifs; by intros [? [=]].
Qed.
End Theory.

(** ** The interface, discharged *)

Section Laws.
Context `{AdmissionCtl} `{Decoder ImageDigestMirrorSet} `{Decoder ImageTagMirrorSet} `{Decoder ImageContentSourcePolicy}.

#[export] Instance imagecontentpolicies_laws : WebhookLaws NewWebhook.
Proof.
  apply (pure_webhook_laws _ authorized); [done|].
  intros req r. unfold authorized. destruct (req_RequestKind req) as [k|]; simpl; [|done].
  solve_identified.
Qed.
End Laws.

(** ** Witnesses *)

Module Witness.

#[local] Existing Instance exampleCtl.
#[local] Existing Instance exampleCtl_laws.
Definition evil : Mirror := {| Source := "registry.access.redhat.com.example.com/app" |}.
#[local] Instance digestDecoder : Decoder ImageDigestMirrorSet := exampleDecoder [("evil", {| ImageDigestMirrors := [evil] |})].
#[local] Instance tagDecoder : Decoder ImageTagMirrorSet := exampleDecoder [].
#[local] Instance policyDecoder : Decoder ImageContentSourcePolicy := exampleDecoder [].

Lemma imagecontentpolicies_allowed_iff_witness :
  ¬ allows (authorized (exampleRequest Create "ImageDigestMirrorSet" "config.openshift.io" "alice" []
    {| Raw := "evil" |} noRaw)).
Proof.
  intros Ha. eapply imagecontentpolicies_allowed_iff in Ha as (ms & E & Hm); [|reflexivity].
  injection E as <-.   apply (Hm evil); [apply list_elem_of_here|]. do 3 right. reflexivity.
Defined.
End Witness.
