(* ===== verification/IngressController.v ===== *)
(** * pkg/webhooks/ingresscontroller: the ingresscontroller-validation webhook

    Keeps the pods of customer ingress controllers off the master nodes. *)

From S2P Require Import Prelude GoStrings Admission Utils Webhook.

(** ** Data *)

Definition WebhookName : string := "ingresscontroller-validation".
Definition docString : string :=
  "Managed OpenShift Customer may create IngressControllers without necessary taints. This can cause those workloads to be provisioned on master nodes.".
Definition legacyIngressSupportFeatureFlag : string := "ext-managed.openshift.io/legacy-ingress-support".

Definition rules : list RuleWithOperations := [{|
  Operations := ["CREATE"; "UPDATE"];
  APIGroups := ["operator.openshift.io"];
  APIVersions := ["*"];
  Resources := ["ingresscontroller"; "ingresscontrollers"];
  Scope := Some NamespacedScope |}].

Definition allowedUsers : list string := ["backplane-cluster-admin"].

(** operatorv1.IngressController: the tolerations' keys of spec.nodePlacement,
    a pointer. *)
Record NodePlacement := { Tolerations : list string }.
Record IngressController := { ic_NodePlacement : option NodePlacement }.

(** ** The accessors of the interface *)

Definition Doc : string := docString.
Definition SyncSetLabelSelector : LabelSelector := customLabelSelector [{|
  lsr_Key := legacyIngressSupportFeatureFlag;
  lsr_Operator := LabelSelectorOpIn;
  lsr_Values := ["false"] |}].
Definition ObjectSelector : option LabelSelector := None.
Definition TimeoutSeconds : Z := 1.
Definition MatchPolicy : MatchPolicyType := Equivalent.
Definition Name : string := WebhookName.
Definition FailurePolicy : FailurePolicyType := Ignore.
Definition Rules : list RuleWithOperations := rules.
Definition GetURI : string := "/" +:+ WebhookName.
Definition SideEffects : SideEffectClass := SideEffectClassNone.
Definition ClassicEnabled : bool := true.
Definition HypershiftEnabled : bool := false.

Definition Validate (req : Request) : bool :=
  negb (String.eqb (username req) "") && String.eqb (gvk_Kind (req_Kind req)) "IngressController".

(** ** The decision *)

Definition isAllowedUser (request : Request) : bool :=
  if Contains allowedUsers (username request) then true else false.

Definition masterKey : string := "node-role.kubernetes.io/master".

Section Authorized.
Context `{AdmissionCtl} `{Decoder IngressController}.

Definition renderIngressController (req : Request) : result IngressController :=
  DecodeRaw (req_Object req).

Definition authorized (request : Request) : outcome Response :=
  match renderIngressController request with
  | Err err => Returned (Errored StatusBadRequest err)
  | Ok ic =>
      if String.eqb (username request) "system:unauthenticated" then
        Returned (reply request (Denied "Unauthenticated"))
      else if HasPrefix (username request) "system:" then
        Returned (reply request (Allowed "authenticated system: users are allowed"))
      else if HasPrefix (username request) "kube:" then
        Returned (reply request (Allowed "kube: users are allowed"))
      else if negb (isAllowedUser request) then
        nodePlacement ← deref (ic_NodePlacement ic);
        if existsb (λ key, ContainsSub key masterKey) (Tolerations nodePlacement) then
          Returned (reply request (Denied "Not allowed to provision ingress controller pods with toleration for master nodes."))
        else Returned (reply request (Allowed "IngressController operation is allowed"))
      else Returned (reply request (Allowed "IngressController operation is allowed"))
  end.

Definition Authorized (request : Request) : M Response := lift_outcome (authorized request).

Definition NewWebhook : Webhook := {|
  wh_Authorized := Authorized; wh_GetURI := GetURI; wh_Validate := Validate; wh_Name := Name;
  wh_FailurePolicy := FailurePolicy; wh_MatchPolicy := MatchPolicy; wh_Rules := Rules;
  wh_ObjectSelector := ObjectSelector; wh_SideEffects := SideEffects;
  wh_TimeoutSeconds := TimeoutSeconds; wh_Doc := Doc;
  wh_SyncSetLabelSelector := SyncSetLabelSelector; wh_ClassicEnabled := ClassicEnabled;
  wh_HypershiftEnabled := HypershiftEnabled |}.

End Authorized.

(** ** Theory *)

Section Theory.
Context `{AdmissionCtl, !AdmissionCtlLaws} `{Decoder IngressController}.

(** A requester that the check on tolerations applies to. *)
Definition checked_user (req : Request) : Prop :=
  HasPrefix (username req) "system:" = false ∧ HasPrefix (username req) "kube:" = false ∧
  username req ∉ allowedUsers.

Lemma authorized_checked req ic :
  checked_user req → renderIngressController req = Ok ic →
  authorized req =
    (nodePlacement ← deref (ic_NodePlacement ic);
     if existsb (λ key, ContainsSub key masterKey) (Tolerations nodePlacement) then
       Returned (reply req (Denied "Not allowed to provision ingress controller pods with toleration for master nodes."))
     else Returned (reply req (Allowed "IngressController operation is allowed"))).
Proof.
  intros (Hs & Hk & Hu%Contains_false) Hr. unfold authorized, isAllowedUser.
  by rewrite Hr (not_system_authenticated _ Hs) Hs Hk Hu.
Qed.

(** The decision for a checked user: a controller with a node placement
    passes exactly when no toleration key mentions the master taint; a controller
    without one, which the API allows, makes the handler panic. *)
Theorem ingresscontroller_checked_decision req ic :
  checked_user req → renderIngressController req = Ok ic →
  match ic_NodePlacement ic with
  | Some placement =>
      (∃ r, authorized req = Returned r) ∧
      (allows (authorized req) ↔ ∀ key, key ∈ Tolerations placement → ContainsSub key masterKey = false)
  | None => ∃ why, authorized req = Panicked why
  end.
Proof.
  intros Hc Hr. rewrite (authorized_checked _ _ Hc Hr).
  destruct (ic_NodePlacement ic) as [placement|]; simpl; [|by eexists].
  rewrite -existsb_false.
  destruct (existsb _ (Tolerations placement)); (split; [by eexists|]); autorewrite with go_bool; done.
Qed.
End Theory.

(** ** The interface, discharged *)

Section Laws.
Context `{AdmissionCtl} `{Decoder IngressController}.

#[export] Instance ingresscontroller_laws : WebhookLaws NewWebhook.
Proof.
  apply (pure_webhook_laws _ authorized); [done|].
  intros req r. unfold authorized. destruct (renderIngressController req) as [ic|e]; [|solve_identified].
  destruct (ic_NodePlacement ic) as [np|]; simpl; [destruct (existsb _ (Tolerations np))|]; solve_identified.
Qed.
End Laws.

(** ** Witnesses *)

Module Witness.

#[local] Existing Instance exampleCtl.
#[local] Existing Instance exampleCtl_laws.
#[local] Instance decoder : Decoder IngressController := exampleDecoder [("bare", {| ic_NodePlacement := None |})].

Definition ask : Request :=
  exampleRequest Create "IngressController" "operator.openshift.io" "alice" [] {| Raw := "bare" |} noRaw.

Lemma ingresscontroller_checked_decision_witness : ∃ why, authorized ask = Panicked why.
Proof.
  apply (ingresscontroller_checked_decision ask {| ic_NodePlacement := None |}); [|reflexivity].
  split; [reflexivity|]. split; [reflexivity|]. by apply Contains_false.
Defined.
End Witness.
