(* ===== verification/IngressConfig.v ===== *)
(** * pkg/webhooks/ingressconfig: the ingress-config-validation webhook

    Reserves the cluster's ingress configuration for privileged requesters. *)

From S2P Require Import Prelude GoStrings Regexp RegexpTheory Admission Utils Webhook.

(** ** Data *)

Definition WebhookName : string := "ingress-config-validation".
Definition privilegedUsers : string := "system:admin".
Definition docString : string :=
  "Managed OpenShift customers may not modify ingress config resources because it can can degrade cluster operators and can interfere with OpenShift SRE monitoring.".

Definition rules : list RuleWithOperations := [{|
  Operations := ["CREATE"; "UPDATE"; "DELETE"];
  APIGroups := ["config.openshift.io"];
  APIVersions := ["*"];
  Resources := ["ingresses"];
  Scope := Some ClusterScope |}].

(** ** The accessors of the interface *)

Definition ObjectSelector : option LabelSelector := None.
Definition Doc : string := docString.
Definition TimeoutSeconds : Z := 2.
Definition MatchPolicy : MatchPolicyType := Equivalent.
Definition Name : string := WebhookName.
Definition FailurePolicy : FailurePolicyType := Ignore.
Definition Rules : list RuleWithOperations := rules.
Definition GetURI : string := "/ingressconfig-validation".
Definition SideEffects : SideEffectClass := SideEffectClassNone.
Definition SyncSetLabelSelector : LabelSelector := DefaultLabelSelector.
Definition ClassicEnabled : bool := true.
Definition HypershiftEnabled : bool := true.

Definition Validate (req : Request) : bool :=
  negb (String.eqb (username req) "") && String.eqb (gvk_Kind (req_Kind req)) "Ingress".

(** ** The decision *)

Section Authorized.
Context `{AdmissionCtl}.

(** [ret] is assigned in sequence: a refusal, replaced for each privileged group
    and for a privileged user. *)
Definition authorized (request : Request) : Response :=
  let ret := reply request (Denied "Only privileged service accounts may access") in
  let ret := fold_left (λ ret group,
    if privilegedServiceAccount group
    then reply request (Allowed "Privileged service accounts may access") else ret) (groups request) ret in
  if MatchPattern privilegedUsers (username request)
  then reply request (Allowed "Privileged service accounts may access") else ret.

Definition Authorized (request : Request) : M Response := mret (authorized request).

Definition NewWebhook : Webhook := {|
  wh_Authorized := Authorized; wh_GetURI := GetURI; wh_Validate := Validate; wh_Name := Name;
  wh_FailurePolicy := FailurePolicy; wh_MatchPolicy := MatchPolicy; wh_Rules := Rules;
  wh_ObjectSelector := ObjectSelector; wh_SideEffects := SideEffects;
  wh_TimeoutSeconds := TimeoutSeconds; wh_Doc := Doc;
  wh_SyncSetLabelSelector := SyncSetLabelSelector; wh_ClassicEnabled := ClassicEnabled;
  wh_HypershiftEnabled := HypershiftEnabled |}.

End Authorized.

(** ** Theory *)

Lemma privilegedUsers_iff s : MatchPattern privilegedUsers s = true ↔ ContainsSub s "system:admin" = true.
Proof. apply (Match_lit_anywhere "system:admin" [""]). Qed.

Section Theory.
Context `{AdmissionCtl, !AdmissionCtlLaws}.

Lemma fold_allowed req gs r :
  resp_Allowed (fold_left (λ ret group, if privilegedServiceAccount group
    then reply req (Allowed "Privileged service accounts may access") else ret) gs r) =
  resp_Allowed r || existsb privilegedServiceAccount gs.
Proof.
  revert r. induction gs as [|g gs IH]; intros r; simpl; [by rewrite orb_false_r|]. rewrite IH.
  destruct (privilegedServiceAccount g); autorewrite with go_bool; [by rewrite orb_true_r|done].
Qed.

(** The whole decision: a request passes exactly when one of the groups is
    that of a privileged service account or the user name has system:admin in
    it, anywhere, since the expression has no anchors. *)
Theorem ingressconfig_allowed_iff req :
  resp_Allowed (authorized req) = true ↔
  (∃ g, g ∈ groups req ∧ privilegedServiceAccount g = true) ∨
  ∃ a b, username req = a +:+ "system:admin" +:+ b.
Proof.
  unfold authorized. rewrite -ContainsSub_iff -privilegedUsers_iff -existsb_elem_of.
  destruct (MatchPattern privilegedUsers _); [autorewrite with go_bool; naive_solver|].
  rewrite fold_allowed reply_Allowed Denied_denied. naive_solver.
Qed.
End Theory.

(** ** The interface, discharged *)

Section Laws.
Context `{AdmissionCtl}.

Lemma fold_identified req gs r :
  identified req r →
  identified req (fold_left (λ ret group, if privilegedServiceAccount group
    then reply req (Allowed "Privileged service accounts may access") else ret) gs r).
Proof.
  revert r. induction gs as [|g gs IH]; intros r Hr; simpl; [done|].
  apply IH. destruct (privilegedServiceAccount g); [apply identified_reply|done].
Qed.

#[export] Instance ingressconfig_laws : WebhookLaws NewWebhook.
Proof.
  apply (pure_webhook_laws _ (λ req, Returned (authorized req))); [done|].
  intros req r. unfold authorized. destruct (MatchPattern _ _); intros [= <-]; [apply identified_reply|].
  apply fold_identified. apply identified_reply.
Qed.
End Laws.

(** ** Witnesses *)

Module Witness.

#[local] Existing Instance exampleCtl.
#[local] Existing Instance exampleCtl_laws.

Lemma ingressconfig_allowed_iff_witness :
  resp_Allowed (authorized (exampleRequest Update "Ingress" "config.openshift.io" "corp:system:administrators-bot"
    [] noRaw noRaw)) = true.
Proof. apply ingressconfig_allowed_iff. right. by exists "corp:", "istrators-bot". Defined.
End Witness.
