(* ===== verification/CustomResourceDefinitions.v ===== *)
(** * pkg/webhooks/customresourcedefinitions: the customresourcedefinitions-validation webhook

    Protects the monitoring resource definitions. *)

From S2P Require Import Prelude GoStrings Regexp Admission Utils Webhook.

(** ** Data *)

Definition WebhookName : string := "customresourcedefinitions-validation".
Definition docString : string :=
  "Managed OpenShift Customers may not change CustomResourceDefinitions managed by Red Hat.".
Definition timeout : Z := 2.
Definition allowedUsers : list string := ["system:admin"; "backplane-cluster-admin"].
Definition sreAdminGroups : list string := ["system:serviceaccounts:openshift-backplane-srep"].

Definition rules : list RuleWithOperations := [{|
  Operations := ["CREATE"; "UPDATE"; "DELETE"];
  APIGroups := ["apiextensions.k8s.io"];
  APIVersions := ["*"];
  Resources := ["customresourcedefinitions"];
  Scope := Some ClusterScope |}].

(** apiextensionsv1.CustomResourceDefinition: its name. *)
Record CustomResourceDefinition := { crd_Name : string }.

(** ** The accessors of the interface *)

Definition Doc : string := docString.
Definition ObjectSelector : option LabelSelector := None.
Definition TimeoutSeconds : Z := timeout.
Definition MatchPolicy : MatchPolicyType := Equivalent.
Definition Name : string := WebhookName.
Definition FailurePolicy : FailurePolicyType := Ignore.
Definition Rules : list RuleWithOperations := rules.
Definition GetURI : string := "/" +:+ WebhookName.
Definition SideEffects : SideEffectClass := SideEffectClassNone.
Definition SyncSetLabelSelector : LabelSelector := DefaultLabelSelector.
Definition ClassicEnabled : bool := true.
Definition HypershiftEnabled : bool := false.

Definition Validate (request : Request) : bool :=
  negb (String.eqb (username request) "") &&
  String.eqb (gvk_Kind (req_Kind request)) "CustomResourceDefinition".

(** ** The decision *)

Definition isAllowedUser (request : Request) : bool :=
  if Contains allowedUsers (username request) then true
  else existsb (Contains (groups request)) sreAdminGroups.

Section Authorized.
Context `{AdmissionCtl} `{Decoder CustomResourceDefinition}.

Definition renderCustomResourceDefinition (req : Request) : result CustomResourceDefinition :=
  if nonempty (req_OldObject req) then DecodeRaw (req_OldObject req) else Decode req.

Definition authorized (request : Request) : Response :=
  match renderCustomResourceDefinition request with
  | Err err => Errored StatusBadRequest err
  | Ok crd =>
      if IsProtectedByResourceName (crd_Name crd) then
        if isAllowedUser request then
          reply request (Allowed ("User '" +:+ username request +:+ "' in group(s) '" +:+ Join (groups request) ", " +:+ "' can operate on CustomResourceDefinitions"))
        else if existsb privilegedServiceAccount (groups request) then
          reply request (Allowed ("Privileged service accounts in group(s) '" +:+ Join (groups request) ", " +:+ "' can operate on CustomResourceDefinitions"))
        else reply request (Denied ("User '" +:+ username request +:+ "' prevented from accessing Red Mat managed resources. This is in an effort to prevent harmful actions that may cause unintended consequences or affect the stability of the cluster. If you have any questions about this, please reach out to Red Hat support at https://access.redhat.com/support"))
      else reply request (Allowed "Non managed CustomResourceDefinition")
  end.

Definition Authorized (request : Request) : M Response := mret (authorized request).

Definition NewWebhook : Webhook := {|
  wh_Authorized := Authorized; wh_GetURI := GetURI; wh_Validate := Validate; wh_Name := Name;
  wh_FailurePolicy := FailurePolicy; wh_MatchPolicy := MatchPolicy; wh_Rules := Rules;
  wh_ObjectSelector := ObjectSelector; wh_SideEffects := SideEffects;
  wh_TimeoutSeconds := TimeoutSeconds; wh_Doc := Doc;
  wh_SyncSetLabelSelector := SyncSetLabelSelector; wh_ClassicEnabled := ClassicEnabled;
  wh_HypershiftEnabled := HypershiftEnabled |}.

End Authorized.

(** ** Theory *)

Section Theory.
Context `{AdmissionCtl, !AdmissionCtlLaws} `{Decoder CustomResourceDefinition}.

(** The whole decision on a definition that decodes: it is refused exactly
    when its name is protected and the requester is neither listed nor a
    privileged service account. *)
Theorem customresourcedefinitions_refused_iff req crd :
  renderCustomResourceDefinition req = Ok crd →
  resp_Allowed (authorized req) = false ↔
  crd_Name crd ∈ protectedNames ∧ ¬ listed allowedUsers sreAdminGroups req ∧
  ∀ g, g ∈ groups req → privilegedServiceAccount g = false.
Proof.
  intros Hr. unfold authorized, IsProtectedByResourceName. rewrite Hr -existsb_false -Contains_iff.
  pose proof (listed_iff allowedUsers sreAdminGroups req : isAllowedUser req = true ↔ _) as Ha.
  destruct (Contains protectedNames _), (isAllowedUser req), (existsb _ _); simpl;
    autorewrite with go_bool; naive_solver.
Qed.
End Theory.

(** ** The interface, discharged *)

Section Laws.
Context `{AdmissionCtl} `{Decoder CustomResourceDefinition}.

#[export] Instance customresourcedefinitions_laws : WebhookLaws NewWebhook.
Proof.
  apply (pure_webhook_laws _ (λ req, Returned (authorized req))); [done|].
  intros req r. unfold authorized. solve_identified.
Qed.
End Laws.

(** ** Witnesses *)

Module Witness.

#[local] Existing Instance exampleCtl.
#[local] Existing Instance exampleCtl_laws.
Definition crd : CustomResourceDefinition := {| crd_Name := "prometheuses.monitoring.coreos.com" |}.
#[local] Instance decoder : Decoder CustomResourceDefinition := exampleDecoder [("crd", crd)].

Lemma customresourcedefinitions_refused_iff_witness :
  resp_Allowed (authorized (exampleRequest Update "CustomResourceDefinition" "apiextensions.k8s.io" "alice" ["devs"]
    {| Raw := "crd" |} {| Raw := "crd" |})) = false.
Proof.
  apply (customresourcedefinitions_refused_iff _ crd); [reflexivity|]. split; [by apply Contains_iff|].
  split; [by apply not_listed|]. intros g [->|[]%not_elem_of_nil]%elem_of_cons. vm_compute. reflexivity.
Defined.
End Witness.
