(* ===== verification/HcpNamespace.v ===== *)
(** * pkg/webhooks/hcpnamespace: the hcpnamespace-validation webhook

    Guards the namespaces of hosted control planes against deletion. *)

From S2P Require Import Prelude GoStrings Regexp RegexpTheory Admission Utils Webhook.

(** ** Data *)

Definition WebhookName : string := "hcpnamespace-validation".
Definition docString : string :=
  "Validates HCP namespace deletion operations are only performed by authorized service accounts".
Definition allowedUsers : list string := [
  "system:admin";
  "system:serviceaccount:open-cluster-management-agent:klusterlet-work-sa";
  "system:serviceaccount:open-cluster-management-agent:klusterlet";
  "system:serviceaccount:hypershift:operator";
  "system:serviceaccount:ocm:ocm";
  "system:serviceaccount:kube-system:namespace-controller"].
Definition protectedNamespacePatterns : list string := [
  "^ocm-staging-.*"; "^ocm-production-.*"; "^ocm-integration-.*"; "^klusterlet-.*"; "^hs-mc-.*"].

Definition rules : list RuleWithOperations := [{|
  Operations := ["DELETE"];
  APIGroups := [""];
  APIVersions := ["*"];
  Resources := ["namespaces"];
  Scope := Some ClusterScope |}].

(** ** The accessors of the interface *)

Definition SyncSetLabelSelector : LabelSelector := customLabelSelector [{|
  lsr_Key := "ext-hypershift.openshift.io/cluster-type";
  lsr_Operator := LabelSelectorOpIn;
  lsr_Values := ["management-cluster"; "service-cluster"] |}].
Definition ObjectSelector : option LabelSelector := None.
Definition Doc : string := docString.
Definition TimeoutSeconds : Z := 2.
Definition MatchPolicy : MatchPolicyType := Equivalent.
Definition Name : string := WebhookName.
Definition FailurePolicy : FailurePolicyType := Ignore.
Definition Rules : list RuleWithOperations := rules.
Definition GetURI : string := "/hcpnamespace-validation".
Definition SideEffects : SideEffectClass := SideEffectClassNone.
Definition ClassicEnabled : bool := true.
Definition HypershiftEnabled : bool := false.

Definition Validate (req : Request) : bool :=
  negb (String.eqb (username req) "") && String.eqb (gvk_Kind (req_Kind req)) "Namespace".

(** ** The decision *)

(** The patterns are compiled one by one and tried in order. *)
Definition isProtectedNamespace (namespaceName : string) : bool :=
  RegexSliceContains namespaceName protectedNamespacePatterns.

Section Authorized.
Context `{AdmissionCtl}.

Definition authorized (request : Request) : Response :=
  if Contains allowedUsers (username request) then
    reply request (Allowed "User/ServiceAccount is authorized to delete HCP namespaces")
  else
    let namespace := req_Name request in
    if negb (isProtectedNamespace namespace) then reply request (Allowed "Namespace is not protected")
    else if negb (String.eqb (req_Operation request) Delete) then
      reply request (Allowed "Only DELETE operations are restricted")
    else reply request (Denied ("Only authorized users/service accounts can delete this namespace " +:+ namespace)).

Definition Authorized (request : Request) : M Response := mret (authorized request).

Definition NewWebhook : Webhook := {|
  wh_Authorized := Authorized; wh_GetURI := GetURI; wh_Validate := Validate; wh_Name := Name;
  wh_FailurePolicy := FailurePolicy; wh_MatchPolicy := MatchPolicy; wh_Rules := Rules;
  wh_ObjectSelector := ObjectSelector; wh_SideEffects := SideEffects;
  wh_TimeoutSeconds := TimeoutSeconds; wh_Doc := Doc;
  wh_SyncSetLabelSelector := SyncSetLabelSelector; wh_ClassicEnabled := ClassicEnabled;
  wh_HypershiftEnabled := HypershiftEnabled |}.

End Authorized.

(** ** Theory *)

Definition protectedPrefixes : list string :=
  ["ocm-staging-"; "ocm-production-"; "ocm-integration-"; "klusterlet-"; "hs-mc-"].

Lemma hcp_protected_iff ns :
  isProtectedNamespace ns = true ↔ ∃ p, p ∈ protectedPrefixes ∧ HasPrefix ns p = true.
Proof.
  unfold isProtectedNamespace. rewrite RegexSliceContains_iff.
  assert (∀ w, MustCompile ("^" +:+ w +:+ ".*") = Some (MkRegexp (pat_prefix w) [""]) →
    (MatchPattern ("^" +:+ w +:+ ".*") ns = true ↔ HasPrefix ns w = true)) as Hw.
  { intros w Hc. unfold MatchPattern. rewrite Hc. apply Match_prefix. }
  split.
  - intros (p & Hp & Hm). apply list_elem_of_In in Hp.
    destruct Hp as [<-|[<-|[<-|[<-|[<-|[]]]]]];
      [apply (Hw "ocm-staging-") in Hm|apply (Hw "ocm-production-") in Hm
      |apply (Hw "ocm-integration-") in Hm|apply (Hw "klusterlet-") in Hm|apply (Hw "hs-mc-") in Hm];
      try (by vm_compute); (eexists; split; [|exact Hm]); by apply Contains_iff.
  - intros (p & Hp & Hm). exists ("^" +:+ p +:+ ".*"). apply list_elem_of_In in Hp.
    destruct Hp as [<-|[<-|[<-|[<-|[<-|[]]]]]]; (split; [by apply Contains_iff|]);
      apply Hw; try done; by vm_compute.
Qed.

Section Theory.
Context `{AdmissionCtl, !AdmissionCtlLaws}.

Lemma hcpnamespace_guard :
  guards_deletion authorized
    (λ req, ∃ p, p ∈ protectedPrefixes ∧ HasPrefix (req_Name req) p = true)
    (λ req, username req ∈ allowedUsers).
Proof.
  intros req. unfold authorized. rewrite -hcp_protected_iff -Contains_iff -String.eqb_eq.
  destruct (Contains allowedUsers _), (isProtectedNamespace _), (String.eqb _ Delete); simpl;
    autorewrite with go_bool; naive_solver.
Qed.
End Theory.

(** ** The interface, discharged *)

Section Laws.
Context `{AdmissionCtl}.

#[export] Instance hcpnamespace_laws : WebhookLaws NewWebhook.
Proof.
  apply (pure_webhook_laws _ (λ req, Returned (authorized req))); [done|].
  intros req r. unfold authorized. solve_identified.
Qed.
End Laws.
