(* ===== verification/HostedCluster.v ===== *)
(** * pkg/webhooks/hostedcluster: the hostedcluster-validation webhook

    Guards HostedCluster objects against deletion. *)

From S2P Require Import Prelude GoStrings Admission Utils Webhook.

(** ** Data *)

Definition WebhookName : string := "hostedcluster-validation".
Definition docString : string :=
  "Validates HostedCluster deletion operations are only performed by authorized service accounts".
Definition allowedServiceAccount : string :=
  "system:serviceaccount:open-cluster-management-agent:klusterlet-work-sa".

Definition rules : list RuleWithOperations := [{|
  Operations := ["DELETE"];
  APIGroups := ["hypershift.openshift.io"];
  APIVersions := ["*"];
  Resources := ["hostedclusters"];
  Scope := Some NamespacedScope |}].

(** ** The accessors of the interface *)

Definition Doc : string := docString.
Definition SyncSetLabelSelector : LabelSelector := customLabelSelector [{|
  lsr_Key := "ext-hypershift.openshift.io/cluster-type";
  lsr_Operator := LabelSelectorOpIn;
  lsr_Values := ["management-cluster"] |}].
Definition ObjectSelector : option LabelSelector := None.
Definition TimeoutSeconds : Z := 2.
Definition MatchPolicy : MatchPolicyType := Equivalent.
Definition Name : string := WebhookName.
Definition FailurePolicy : FailurePolicyType := Ignore.
Definition Rules : list RuleWithOperations := rules.
Definition GetURI : string := "/hostedcluster-validation".
Definition SideEffects : SideEffectClass := SideEffectClassNone.
Definition ClassicEnabled : bool := true.
Definition HypershiftEnabled : bool := false.

Definition Validate (req : Request) : bool :=
  negb (String.eqb (username req) "") &&
  String.eqb (gvk_Kind (req_Kind req)) "HostedCluster" &&
  String.eqb (gvk_Group (req_Kind req)) "hypershift.openshift.io".

(** ** The decision *)

Section Authorized.
Context `{AdmissionCtl}.

Definition authorized (request : Request) : Response :=
  if String.eqb (username request) allowedServiceAccount then
    reply request (Allowed "Service account is authorized to delete HostedCluster resources")
  else if negb (String.eqb (req_Operation request) Delete) then
    reply request (Allowed "Only DELETE operations are restricted")
  else reply request (Denied ("Only " +:+ allowedServiceAccount +:+ " is authorized to delete HostedCluster resources")).

Definition Authorized (request : Request) : M Response := mret (authorized request).

Definition NewWebhook : Webhook := {|
  wh_Authorized := Authorized; wh_GetURI := GetURI; wh_Validate := Validate; wh_Name := Name;
  wh_FailurePolicy := FailurePolicy; wh_MatchPolicy := MatchPolicy; wh_Rules := Rules;
  wh_ObjectSelector := ObjectSelector; wh_SideEffects := SideEffects;
  wh_TimeoutSeconds := TimeoutSeconds; wh_Doc := Doc;
  wh_SyncSetLabelSelector := SyncSetLabelSelector; wh_ClassicEnabled := ClassicEnabled;
  wh_HypershiftEnabled := HypershiftEnabled |}.

End Authorized.

(** ** Theory *)

Section Theory.
Context `{AdmissionCtl, !AdmissionCtlLaws}.

Lemma hostedcluster_guard :
  guards_deletion authorized (λ _, True) (λ req, username req = allowedServiceAccount).
Proof.
  intros req. unfold authorized. rewrite -!String.eqb_eq.
  destruct (String.eqb (username req) _), (String.eqb _ Delete); simpl;
    autorewrite with go_bool; naive_solver.
Qed.
End Theory.

(** ** The interface, discharged *)

Section Laws.
Context `{AdmissionCtl}.

#[export] Instance hostedcluster_laws : WebhookLaws NewWebhook.
Proof.
  apply (pure_webhook_laws _ (λ req, Returned (authorized req))); [done|].
  intros req r. unfold authorized. solve_identified.
Qed.
End Laws.
