(* ===== verification/HostedControlPlane.v ===== *)
(** * pkg/webhooks/hostedcontrolplane: the hostedcontrolplane-validation webhook

    Guards HostedControlPlane objects against deletion. *)

From S2P Require Import Prelude GoStrings Admission Utils Webhook.

(** ** Data *)

Definition WebhookName : string := "hostedcontrolplane-validation".
Definition docString : string :=
  "Validates HostedControlPlane deletion operations are only performed by authorized service accounts".
Definition allowedServiceAccountsUsernames : list string := [
  "system:serviceaccount:open-cluster-management-agent:klusterlet-work-sa";
  "system:serviceaccount:kube-system:generic-garbage-collector";
  "system:serviceaccount:hypershift:operator"].
Definition allowedServiceAccountsNames : list string := ["cluster-api"; "control-plane-pki-operator"].

Definition rules : list RuleWithOperations := [{|
  Operations := ["DELETE"];
  APIGroups := ["hypershift.openshift.io"];
  APIVersions := ["*"];
  Resources := ["hostedcontrolplanes"];
  Scope := Some NamespacedScope |}].

(** ** The accessors of the interface *)

Definition Doc : string := docString.
Definition SyncSetLabelSelector : LabelSelector := customLabelSelector [{|
  lsr_Key := "ext-hypershift.openshift.io/cluster-type";
  lsr_Operator := LabelSelectorOpIn;
  lsr_Values := ["management-cluster"] |}].
Definition ObjectSelector : option LabelSelector := None.
Definition TimeoutSeconds : Z := 2.
Definition MatchPolicy : MatchPolicyType := Equivalent.
Definition Name : string := WebhookName.
Definition FailurePolicy : FailurePolicyType := Ignore.
Definition Rules : list RuleWithOperations := rules.
Definition GetURI : string := "/hostedcontrolplane-validation".
Definition SideEffects : SideEffectClass := SideEffectClassNone.
Definition ClassicEnabled : bool := true.
Definition HypershiftEnabled : bool := false.

Definition Validate (req : Request) : bool :=
  negb (String.eqb (username req) "") &&
  String.eqb (gvk_Kind (req_Kind req)) "HostedControlPlane" &&
  String.eqb (gvk_Group (req_Kind req)) "hypershift.openshift.io".

(** ** The decision *)

Section Authorized.
Context `{AdmissionCtl}.

Definition authorized (request : Request) : Response :=
  if existsb (String.eqb (username request)) allowedServiceAccountsUsernames then
    reply request (Allowed "Service account is authorized to delete HostedControlPlane resources")
  else
    let saName := Split (username request) ":"%char in
    if (0 <? length saName) && Contains allowedServiceAccountsNames (nth (length saName - 1) saName "") then
      reply request (Allowed "Service account is authorized to delete HostedControlPlane resources")
    else if negb (String.eqb (req_Operation request) Delete) then
      reply request (Allowed "Only DELETE operations are restricted")
    else reply request (Denied ("Only authorized service accounts " +:+
      Join (allowedServiceAccountsUsernames ++ allowedServiceAccountsNames) ", " +:+
      " can delete HostedControlPlane resources")).

Definition Authorized (request : Request) : M Response := mret (authorized request).

Definition NewWebhook : Webhook := {|
  wh_Authorized := Authorized; wh_GetURI := GetURI; wh_Validate := Validate; wh_Name := Name;
  wh_FailurePolicy := FailurePolicy; wh_MatchPolicy := MatchPolicy; wh_Rules := Rules;
  wh_ObjectSelector := ObjectSelector; wh_SideEffects := SideEffects;
  wh_TimeoutSeconds := TimeoutSeconds; wh_Doc := Doc;
  wh_SyncSetLabelSelector := SyncSetLabelSelector; wh_ClassicEnabled := ClassicEnabled;
  wh_HypershiftEnabled := HypershiftEnabled |}.

End Authorized.

(** ** Theory *)

(** The last word of a user name is [name]: the name itself, or anything that
    ends in a colon and the name. *)
Definition last_word (user name : string) : Prop :=
  user = name ∨ ∃ prefix, user = prefix +:+ String ":" name.

Section Theory.
Context `{AdmissionCtl, !AdmissionCtlLaws}.

Lemma last_word_iff user :
  (0 <? length (Split user ":")) && Contains allowedServiceAccountsNames
    (nth (length (Split user ":") - 1) (Split user ":") "") = true ↔
  ∃ name, name ∈ allowedServiceAccountsNames ∧ last_word user name.
Proof.
  pose proof (Split_nonempty user ":") as Hne.
  assert ((0 <? length (Split user ":")) = true) as ->.
  { apply Nat.ltb_lt. destruct (Split user ":"); simpl; [done|lia]. }
  rewrite andb_true_l Contains_iff. split.
  - intros Hin. eexists. split; [exact Hin|]. apply Split_last; [|done].
    apply list_elem_of_In in Hin. destruct Hin as [<-|[<-|[]]]; done.
  - intros (name & Hin & Hl). assert (no_char ":" name = true) as Hn.
    { apply list_elem_of_In in Hin. destruct Hin as [<-|[<-|[]]]; done. }
    apply (Split_last user ":" name Hn) in Hl. by rewrite Hl.
Qed.

Lemma hostedcontrolplane_guard :
  guards_deletion authorized (λ _, True)
    (λ req, username req ∈ allowedServiceAccountsUsernames ∨
            ∃ name, name ∈ allowedServiceAccountsNames ∧ last_word (username req) name).
Proof.
  intros req. unfold authorized. rewrite -last_word_iff -(String.eqb_eq _ Delete).
  assert (existsb (String.eqb (username req)) allowedServiceAccountsUsernames = true ↔
    username req ∈ allowedServiceAccountsUsernames) as <-.
  { rewrite existsb_elem_of. setoid_rewrite String.eqb_eq. naive_solver. }
  destruct (existsb _ _), (_ && _), (String.eqb _ Delete); simpl;
    autorewrite with go_bool; naive_solver.
Qed.
End Theory.

(** ** The interface, discharged *)

Section Laws.
Context `{AdmissionCtl}.

#[export] Instance hostedcontrolplane_laws : WebhookLaws NewWebhook.
Proof.
  apply (pure_webhook_laws _ (λ req, Returned (authorized req))); [done|].
  intros req r. unfold authorized. solve_identified.
Qed.
End Laws.
