(* ===== verification/ManifestWorks.v ===== *)
(** * pkg/webhooks/manifestworks: the manifestworks-validation webhook

    Guards ManifestWork objects against deletion. *)

From S2P Require Import Prelude GoStrings Admission Utils Webhook.

(** ** Data *)

Definition WebhookName : string := "manifestworks-validation".
Definition docString : string :=
  "Validates ManifestWorks deletion operations are only performed by authorized service accounts".
Definition allowedServiceAccounts : list string := [
  "system:serviceaccount:ocm:ocm";
  "system:serviceaccount:kube-system:generic-garbage-collector";
  "system:serviceaccount:multicluster-engine:ocm-foundation-sa";
  "system:serviceaccount:multicluster-hub:grc-policy-addon-sa";
  "system:serviceaccount:multicluster-engine:managedcluster-import-controller-v2";
  "system:serviceaccount:kube-system:namespace-controller"].

Definition rules : list RuleWithOperations := [{|
  Operations := ["DELETE"];
  APIGroups := ["work.open-cluster-management.io"];
  APIVersions := ["*"];
  Resources := ["manifestworks"];
  Scope := Some NamespacedScope |}].

(** ** The accessors of the interface *)

Definition Doc : string := docString.
Definition SyncSetLabelSelector : LabelSelector := customLabelSelector [{|
  lsr_Key := "ext-hypershift.openshift.io/cluster-type";
  lsr_Operator := LabelSelectorOpIn;
  lsr_Values := ["service-cluster"] |}; {|
  lsr_Key := "api.openshift.com/environment";
  lsr_Operator := LabelSelectorOpNotIn;
  lsr_Values := ["integration"] |}].
Definition ObjectSelector : option LabelSelector := None.
Definition TimeoutSeconds : Z := 2.
Definition MatchPolicy : MatchPolicyType := Equivalent.
Definition Name : string := WebhookName.
Definition FailurePolicy : FailurePolicyType := Ignore.
Definition Rules : list RuleWithOperations := rules.
Definition GetURI : string := "/manifestworks-validation".
Definition SideEffects : SideEffectClass := SideEffectClassNone.
Definition ClassicEnabled : bool := true.
Definition HypershiftEnabled : bool := false.

Definition Validate (req : Request) : bool :=
  negb (String.eqb (username req) "") &&
  String.eqb (gvk_Kind (req_Kind req)) "ManifestWork" &&
  String.eqb (gvk_Group (req_Kind req)) "work.open-cluster-management.io".

(** ** The decision *)

Section Authorized.
Context `{AdmissionCtl}.

Definition authorized (request : Request) : Response :=
  if Contains allowedServiceAccounts (username request) then
    reply request (Allowed "Service account is authorized to delete ManifestWork resources")
  else if negb (String.eqb (req_Operation request) Delete) then
    reply request (Allowed "Only DELETE operations are restricted")
  else reply request (Denied ("Only authorized service accounts can delete ManifestWork resources. Allowed service accounts: " +:+
    fmt_list allowedServiceAccounts)).

Definition Authorized (request : Request) : M Response := mret (authorized request).

Definition NewWebhook : Webhook := {|
  wh_Authorized := Authorized; wh_GetURI := GetURI; wh_Validate := Validate; wh_Name := Name;
  wh_FailurePolicy := FailurePolicy; wh_MatchPolicy := MatchPolicy; wh_Rules := Rules;
  wh_ObjectSelector := ObjectSelector; wh_SideEffects := SideEffects;
  wh_TimeoutSeconds := TimeoutSeconds; wh_Doc := Doc;
  wh_SyncSetLabelSelector := SyncSetLabelSelector; wh_ClassicEnabled := ClassicEnabled;
  wh_HypershiftEnabled := HypershiftEnabled |}.

End Authorized.

(** ** Theory *)

Section Theory.
Context `{AdmissionCtl, !AdmissionCtlLaws}.

Lemma manifestworks_guard :
  guards_deletion authorized (λ _, True) (λ req, username req ∈ allowedServiceAccounts).
Proof.
  intros req. unfold authorized. rewrite -Contains_iff -String.eqb_eq.
  destruct (Contains allowedServiceAccounts _), (String.eqb _ Delete); simpl;
    autorewrite with go_bool; naive_solver.
Qed.
End Theory.

(** ** The interface, discharged *)

Section Laws.
Context `{AdmissionCtl}.

#[export] Instance manifestworks_laws : WebhookLaws NewWebhook.
Proof.
  apply (pure_webhook_laws _ (λ req, Returned (authorized req))); [done|].
  intros req r. unfold authorized. solve_identified.
Qed.
End Laws.
