(* ===== verification/SdnMigration.v ===== *)
(** * pkg/webhooks/sdnmigration: the sdn-migration-validation webhook

    Keeps customers from changing the network type of the cluster. *)

From S2P Require Import Prelude GoStrings Regexp Admission Utils Webhook.

(** ** Data *)

Definition WebhookName : string := "sdn-migration-validation".
Definition docString : string :=
  "Managed OpenShift customers may not modify the network config type because it can can degrade cluster operators and can interfere with OpenShift SRE monitoring.".
Definition overrideAnnotation : string := "unsupported-red-hat-internal-testing".
Definition privilegedHiveUserAccount : string := "system:admin".

Definition rules : list RuleWithOperations := [{|
  Operations := ["UPDATE"];
  APIGroups := ["config.openshift.io"];
  APIVersions := ["*"];
  Resources := ["networks"];
  Scope := Some ClusterScope |}].

(** configv1.Network: annotations, spec.networkType and status.networkType. *)
Record Network := {
  net_Annotations : gmap string string;
  spec_NetworkType : string;
  status_NetworkType : string;
}.

(** ** The accessors of the interface *)

Definition ObjectSelector : option LabelSelector := None.
Definition Doc : string := docString.
Definition TimeoutSeconds : Z := 2.
Definition MatchPolicy : MatchPolicyType := Equivalent.
Definition Name : string := WebhookName.
Definition FailurePolicy : FailurePolicyType := Ignore.
Definition Rules : list RuleWithOperations := rules.
Definition GetURI : string := "/sdnmigration-validation".
Definition SideEffects : SideEffectClass := SideEffectClassNone.
Definition SyncSetLabelSelector : LabelSelector := DefaultLabelSelector.
Definition ClassicEnabled : bool := true.
Definition HypershiftEnabled : bool := false.

Definition Validate (req : Request) : bool :=
  negb (String.eqb (username req) "") && String.eqb (gvk_Kind (req_Kind req)) "Network".

(** ** The decision *)

Section Authorized.
Context `{AdmissionCtl} `{Decoder Network}.

Definition authorized (request : Request) : Response :=
  if String.eqb (username request) privilegedHiveUserAccount then
    WebhookResponse request true "Privileged user may access"
  else if existsb privilegedServiceAccount (groups request) then
    WebhookResponse request true "Privileged service accounts may access"
  else if String.eqb (req_Operation request) Update then
    match (Decode request : result Network) with
    | Err err => reply request (Errored StatusBadRequest err)
    | Ok object =>
        match (DecodeRaw (req_OldObject request) : result Network) with
        | Err err => reply request (Errored StatusBadRequest err)
        | Ok oldObject =>
            if bool_decide (net_Annotations oldObject !! overrideAnnotation = Some "true") then
              WebhookResponse request true "`red-hat-internal-testing: true` annotation present"
            else if negb (String.eqb (spec_NetworkType object) (status_NetworkType oldObject)) then
              WebhookResponse request false "Changing the network type is not allowed"
            else WebhookResponse request true "allowed action"
        end
    end
  else WebhookResponse request false "Changing the network type is not allowed".

Definition Authorized (request : Request) : M Response := mret (authorized request).

Definition NewWebhook : Webhook := {|
  wh_Authorized := Authorized; wh_GetURI := GetURI; wh_Validate := Validate; wh_Name := Name;
  wh_FailurePolicy := FailurePolicy; wh_MatchPolicy := MatchPolicy; wh_Rules := Rules;
  wh_ObjectSelector := ObjectSelector; wh_SideEffects := SideEffects;
  wh_TimeoutSeconds := TimeoutSeconds; wh_Doc := Doc;
  wh_SyncSetLabelSelector := SyncSetLabelSelector; wh_ClassicEnabled := ClassicEnabled;
  wh_HypershiftEnabled := HypershiftEnabled |}.

End Authorized.

(** ** Theory *)

Section Theory.
Context `{AdmissionCtl, !AdmissionCtlLaws} `{Decoder Network}.

(** The decision on an update whose objects decode.  It passes exactly when
    the requester is the hive account or a privileged service account, the old
    object carries the testing annotation, or the requested network type is the
    one the cluster reports to run. *)
Theorem sdnmigration_update_iff req new old :
  req_Operation req = Update → Decode req = Ok new → DecodeRaw (req_OldObject req) = Ok old →
  resp_Allowed (authorized req) = true ↔
  username req = privilegedHiveUserAccount ∨
  (∃ g, g ∈ groups req ∧ privilegedServiceAccount g = true) ∨
  net_Annotations old !! overrideAnnotation = Some "true" ∨
  spec_NetworkType new = status_NetworkType old.
Proof.
  intros Hop Hn Ho. unfold authorized. rewrite Hop Hn Ho -existsb_elem_of. simpl String.eqb.
  destruct (String.eqb_spec (username req) privilegedHiveUserAccount);
    [rewrite WebhookResponse_allowed; naive_solver|].
  destruct (existsb _ _); [rewrite WebhookResponse_allowed; naive_solver|]. cbn match.
  destruct (bool_decide_reflect (net_Annotations old !! overrideAnnotation = Some "true"));
    [rewrite WebhookResponse_allowed; naive_solver|].
  destruct (String.eqb_spec (spec_NetworkType new) (status_NetworkType old)); simpl;
    rewrite WebhookResponse_allowed; naive_solver.
Qed.
End Theory.

(** ** The interface, discharged *)

Section Laws.
Context `{AdmissionCtl} `{Decoder Network}.

#[export] Instance sdnmigration_laws : WebhookLaws NewWebhook.
Proof.
  apply (pure_webhook_laws _ (λ req, Returned (authorized req))); [done|].
  intros req r. unfold authorized. solve_identified.
Qed.
End Laws.

(** ** Witnesses *)

Module Witness.

#[local] Existing Instance exampleCtl.
#[local] Existing Instance exampleCtl_laws.
Definition sdn : Network :=
  {| net_Annotations := ∅; spec_NetworkType := "OpenShiftSDN"; status_NetworkType := "OpenShiftSDN" |}.
Definition ovn : Network :=
  {| net_Annotations := ∅; spec_NetworkType := "OVNKubernetes"; status_NetworkType := "OpenShiftSDN" |}.
#[local] Instance decoder : Decoder Network := exampleDecoder [("sdn", sdn); ("ovn", ovn)].

Lemma sdnmigration_update_iff_witness :
  resp_Allowed (authorized (exampleRequest Update "Network" "config.openshift.io" "alice" []
    {| Raw := "sdn" |} {| Raw := "ovn" |})) = true.
Proof.
  apply (sdnmigration_update_iff _ sdn ovn); try reflexivity. do 3 right. reflexivity.
Defined.
End Witness.
