(* ===== verification/TechPreviewNoUpgrade.v ===== *)
(** * pkg/webhooks/techpreviewnoupgrade: the techpreviewnoupgrade-validation webhook

    Keeps the feature set that would block upgrades from being enabled. *)

From S2P Require Import Prelude GoStrings Admission Utils Webhook.

(** ** Data *)

Definition WebhookName : string := "techpreviewnoupgrade-validation".
Definition docString : string :=
  "Managed OpenShift Customers may not use TechPreviewNoUpgrade FeatureGate that could prevent any future ability to do a y-stream upgrade to their clusters.".

Definition rules : list RuleWithOperations := [{|
  Operations := ["CREATE"; "UPDATE"];
  APIGroups := ["config.openshift.io"];
  APIVersions := ["*"];
  Resources := ["featuregates"];
  Scope := Some ClusterScope |}].

(** configv1.FeatureGate: spec.featureSet. *)
Record FeatureGate := { FeatureSet : string }.

(** ** The accessors of the interface *)

Definition Doc : string := docString.
Definition ObjectSelector : option LabelSelector := None.
Definition TimeoutSeconds : Z := 1.
Definition MatchPolicy : MatchPolicyType := Equivalent.
Definition Name : string := WebhookName.
Definition FailurePolicy : FailurePolicyType := Ignore.
Definition Rules : list RuleWithOperations := rules.
Definition GetURI : string := "/" +:+ WebhookName.
Definition SideEffects : SideEffectClass := SideEffectClassNone.
Definition SyncSetLabelSelector : LabelSelector := DefaultLabelSelector.
Definition ClassicEnabled : bool := true.
Definition HypershiftEnabled : bool := true.

Definition Validate (req : Request) : bool :=
  negb (String.eqb (username req) "") && String.eqb (gvk_Kind (req_Kind req)) "FeatureGate".

(** ** The decision *)

Section Authorized.
Context `{AdmissionCtl} `{Decoder FeatureGate}.

Definition renderFeatureGate (request : Request) : result FeatureGate := DecodeRaw (req_Object request).

(** The rendered object is never nil without an error. *)
Definition authorized (request : Request) : Response :=
  match renderFeatureGate request with
  | Err err => reply request (Errored StatusBadRequest err)
  | Ok featureGate =>
      if String.eqb (FeatureSet featureGate) "TechPreviewNoUpgrade" then
        reply request (Denied "The TechPreviewNoUpgrade Feature Gate is not allowed")
      else reply request (Allowed "FeatureGate operation is allowed")
  end.

Definition Authorized (request : Request) : M Response := mret (authorized request).

Definition NewWebhook : Webhook := {|
  wh_Authorized := Authorized; wh_GetURI := GetURI; wh_Validate := Validate; wh_Name := Name;
  wh_FailurePolicy := FailurePolicy; wh_MatchPolicy := MatchPolicy; wh_Rules := Rules;
  wh_ObjectSelector := ObjectSelector; wh_SideEffects := SideEffects;
  wh_TimeoutSeconds := TimeoutSeconds; wh_Doc := Doc;
  wh_SyncSetLabelSelector := SyncSetLabelSelector; wh_ClassicEnabled := ClassicEnabled;
  wh_HypershiftEnabled := HypershiftEnabled |}.

End Authorized.

(** ** Theory *)

Section Theory.
Context `{AdmissionCtl, !AdmissionCtlLaws} `{Decoder FeatureGate}.

(** Nobody is exempt: whoever asks, the request passes exactly when the object
    decodes to another feature set. *)
Lemma techpreviewnoupgrade_allowed_iff req :
  resp_Allowed (authorized req) = true ↔
  ∃ gate, renderFeatureGate req = Ok gate ∧ FeatureSet gate ≠ "TechPreviewNoUpgrade".
Proof.
  unfold authorized. destruct (renderFeatureGate req) as [gate|e]; [|autorewrite with go_bool; naive_solver].
  destruct (String.eqb_spec (FeatureSet gate) "TechPreviewNoUpgrade"); autorewrite with go_bool; naive_solver.
Qed.
End Theory.

(** ** The interface, discharged *)

Section Laws.
Context `{AdmissionCtl} `{Decoder FeatureGate}.

#[export] Instance techpreviewnoupgrade_laws : WebhookLaws NewWebhook.
Proof.
  apply (pure_webhook_laws _ (λ req, Returned (authorized req))); [done|].
  intros req r. unfold authorized. solve_identified.
Qed.
End Laws.
