(* ===== verification/HiveOwnership.v ===== *)
(** * pkg/webhooks/hiveownership: the hiveownership-validation webhook

    Keeps customers away from objects that hive manages; which objects these are
    is left to the API server, through the object selector. *)

From S2P Require Import Prelude GoStrings Admission Utils Webhook.

(** ** Data *)

Definition WebhookName : string := "hiveownership-validation".

(** A double quote. *)
Definition quote : string := String (ascii_of_N 34) EmptyString.
Definition docString : string :=
  "Managed OpenShift customers may not edit certain managed resources. A managed resource has a " +:+
  quote +:+ "hive.openshift.io/managed" +:+ quote +:+ ": " +:+ quote +:+ "true" +:+ quote +:+ " label.".
Definition privilegedUsers : list string := [
  "kube:admin"; "system:admin"; "system:serviceaccount:kube-system:generic-garbage-collector";
  "backplane-cluster-admin"].
Definition adminGroups : list string := ["system:serviceaccounts:openshift-backplane-srep"].

Definition rules : list RuleWithOperations := [{|
  Operations := ["UPDATE"; "DELETE"];
  APIGroups := ["quota.openshift.io"];
  APIVersions := ["*"];
  Resources := ["clusterresourcequotas"];
  Scope := Some ClusterScope |}].

(** ** The accessors of the interface *)

Definition ObjectSelector : option LabelSelector := Some {|
  MatchLabels := Some {["hive.openshift.io/managed" := "true"]};
  MatchExpressions := None |}.
Definition Doc : string := docString.
Definition TimeoutSeconds : Z := 2.
Definition MatchPolicy : MatchPolicyType := Equivalent.
Definition Name : string := WebhookName.
Definition FailurePolicy : FailurePolicyType := Ignore.
Definition Rules : list RuleWithOperations := rules.
Definition GetURI : string := "/" +:+ WebhookName.
Definition SideEffects : SideEffectClass := SideEffectClassNone.
Definition SyncSetLabelSelector : LabelSelector := DefaultLabelSelector.
Definition ClassicEnabled : bool := true.
Definition HypershiftEnabled : bool := false.

Definition Validate (req : Request) : bool := negb (String.eqb (username req) "").

(** ** The decision *)

Section Authorized.
Context `{AdmissionCtl}.

Definition authorized (request : Request) : Response :=
  if Contains privilegedUsers (username request) then
    reply request (Allowed "Admin users may edit managed resources")
  else if existsb (Contains adminGroups) (groups request) then
    reply request (Allowed "Members of admin group may edit managed resources")
  else reply request (Denied "Prevented from accessing Red Hat managed resources. This is in an effort to prevent harmful actions that may cause unintended consequences or affect the stability of the cluster. If you have any questions about this, please reach out to Red Hat support at https://access.redhat.com/support").

Definition Authorized (request : Request) : M Response := mret (authorized request).

Definition NewWebhook : Webhook := {|
  wh_Authorized := Authorized; wh_GetURI := GetURI; wh_Validate := Validate; wh_Name := Name;
  wh_FailurePolicy := FailurePolicy; wh_MatchPolicy := MatchPolicy; wh_Rules := Rules;
  wh_ObjectSelector := ObjectSelector; wh_SideEffects := SideEffects;
  wh_TimeoutSeconds := TimeoutSeconds; wh_Doc := Doc;
  wh_SyncSetLabelSelector := SyncSetLabelSelector; wh_ClassicEnabled := ClassicEnabled;
  wh_HypershiftEnabled := HypershiftEnabled |}.

End Authorized.

(** ** Theory *)

Section Theory.
Context `{AdmissionCtl, !AdmissionCtlLaws}.

Lemma hiveownership_allowed_iff req :
  resp_Allowed (authorized req) = true ↔ listed privilegedUsers adminGroups req.
Proof.
  assert (existsb (Contains adminGroups) (groups req) = true ↔ ∃ g, g ∈ adminGroups ∧ g ∈ groups req) as Hg.
  { rewrite existsb_elem_of. setoid_rewrite Contains_iff. naive_solver. }
  unfold authorized, listed. rewrite -Contains_iff -Hg.
  destruct (Contains privilegedUsers _), (existsb _ _); autorewrite with go_bool; naive_solver.
Qed.
End Theory.

(** ** The interface, discharged *)

Section Laws.
Context `{AdmissionCtl}.

#[export] Instance hiveownership_laws : WebhookLaws NewWebhook.
Proof.
  apply (pure_webhook_laws _ (λ req, Returned (authorized req))); [done|].
  intros req r [= <-]. unfold authorized.
  destruct (Contains privilegedUsers _); [apply identified_reply|].
  destruct (existsb (Contains adminGroups) (groups req)); apply identified_reply.
Qed.
End Laws.
