(* ===== verification/KubeObjects.v ===== *)
(** * The Kubernetes objects of the generated manifests

    The types of k8s.io/api, metav1 and the Prometheus operator that
    build/resources.go fills in, with the fields it sets; and the documented
    meaning of label selectors and of the serving-certificate annotation, for the
    theorems about manifests that fit together. *)

From S2P Require Import Prelude Webhook.

(** ** Metadata *)

Record TypeMeta := { tm_Kind : string; tm_APIVersion : string }.

(** metav1.ObjectMeta; a nil map reads like an empty one. *)
Record ObjectMeta := {
  om_Name : string;
  om_Namespace : string;
  om_Labels : gmap string string;
  om_Annotations : gmap string string;
}.

(** A LabelSelector with MatchLabels only. *)
Definition matchLabels (labels : gmap string string) : LabelSelector := {|
  MatchLabels := Some labels; MatchExpressions := None |}.

(** intstr.IntOrString *)
Inductive IntOrString := IntVal (n : Z) | StrVal (s : string).

(** ** rbac/v1 *)

Record PolicyRule := { pr_APIGroups : list string; pr_Resources : list string; pr_Verbs : list string }.
Record Subject := { sb_Kind : string; sb_Name : string; sb_Namespace : string }.
Record RoleRef := { rr_Name : string; rr_Kind : string; rr_APIGroup : string }.

(** Role and ClusterRole; RoleBinding and ClusterRoleBinding. *)
Record Role := { role_Type : TypeMeta; role_Meta : ObjectMeta; role_Rules : list PolicyRule }.
Record RoleBinding := {
  rb_Type : TypeMeta; rb_Meta : ObjectMeta; rb_Subjects : list Subject; rb_RoleRef : RoleRef }.

(** ** core/v1 *)

(** Namespace, ServiceAccount and ConfigMap: only metadata is set. *)
Record MetaObject := { mo_Type : TypeMeta; mo_Meta : ObjectMeta }.

Record ServicePort := {
  sp_Name : string; sp_Port : Z; sp_TargetPort : IntOrString; sp_Protocol : string }.
Record Service := {
  svc_Type : TypeMeta; svc_Meta : ObjectMeta;
  svc_SpecType : string; svc_Selector : gmap string string; svc_Ports : list ServicePort }.

Record NodeSelectorRequirement := { nsr_Key : string; nsr_Operator : string; nsr_Values : list string }.
Record PreferredSchedulingTerm := { pst_Preference : list NodeSelectorRequirement; pst_Weight : Z }.
Record NodeAffinity := {
  na_Required : option (list (list NodeSelectorRequirement));
  na_Preferred : list PreferredSchedulingTerm }.
Record PodAffinityTerm := { pat_LabelSelector : LabelSelector; pat_TopologyKey : string }.
Record Affinity := {
  aff_NodeAffinity : NodeAffinity;
  aff_PodAffinity : list (Z * PodAffinityTerm);
  aff_PodAntiAffinity : list PodAffinityTerm }.

Record Toleration := { tol_Key : string; tol_Operator : string; tol_Value : string; tol_Effect : string }.

Inductive VolumeSource := SecretVolume (secretName : string) | ConfigMapVolume (name : string).
Record Volume := { vol_Name : string; vol_Source : VolumeSource }.
Record VolumeMount := { vm_Name : string; vm_MountPath : string; vm_ReadOnly : bool }.
Record EnvVar := { env_Name : string; env_Value : string }.

Record Container := {
  ctr_Name : string; ctr_Image : string; ctr_ImagePullPolicy : string;
  ctr_TerminationMessagePolicy : string; ctr_VolumeMounts : list VolumeMount;
  ctr_Ports : list Z; ctr_Command : list string; ctr_Env : list EnvVar }.

Record PodSpec := {
  ps_Affinity : Affinity; ps_Tolerations : list Toleration; ps_RestartPolicy : string;
  ps_ServiceAccountName : string; ps_Volumes : list Volume; ps_Containers : list Container }.
Record PodTemplate := { pt_Labels : gmap string string; pt_Spec : PodSpec }.

(** ** apps/v1 *)

Record Deployment := {
  dep_Type : TypeMeta; dep_Meta : ObjectMeta; dep_Replicas : Z; dep_Selector : LabelSelector;
  dep_Strategy : string; dep_MaxUnavailable : IntOrString; dep_Template : PodTemplate }.
Record DaemonSet := {
  ds_Type : TypeMeta; ds_Meta : ObjectMeta; ds_Selector : LabelSelector;
  ds_Strategy : string; ds_MaxUnavailable : IntOrString; ds_Template : PodTemplate }.

(** ** monitoring.coreos.com/v1 *)

Record ServiceMonitor := {
  sm_Type : TypeMeta; sm_Meta : ObjectMeta; sm_EndpointPorts : list string;
  sm_NamespaceNames : list string; sm_Selector : LabelSelector }.

(** ** admissionregistration/v1 *)

(** Pointers to values are the values. *)
Record ServiceReference := { sr_Namespace : string; sr_Path : string; sr_Name : string }.

Record WebhookClientConfig := {
  cc_URL : option string;
  cc_Service : option ServiceReference;
  cc_CABundle : string;
}.

(** ValidatingWebhook and MutatingWebhook. *)
Record WebhookEntry := {
  we_AdmissionReviewVersions : list string;
  we_TimeoutSeconds : Z;
  we_SideEffects : SideEffectClass;
  we_MatchPolicy : MatchPolicyType;
  we_Name : string;
  we_ObjectSelector : option LabelSelector;
  we_FailurePolicy : FailurePolicyType;
  we_ClientConfig : WebhookClientConfig;
  we_Rules : list RuleWithOperations;
}.

(** ValidatingWebhookConfiguration and MutatingWebhookConfiguration. *)
Record WebhookConfiguration := {
  wc_Kind : string;
  wc_APIVersion : string;
  wc_Name : string;
  wc_Annotations : gmap string string;
  wc_Webhooks : list WebhookEntry;
}.

(** ** What runtime.RawExtension carries as an object *)

Inductive Object :=
  | NamespaceObject (o : MetaObject)
  | ServiceAccountObject (o : MetaObject)
  | ConfigMapObject (o : MetaObject)
  | RoleObject (o : Role)
  | RoleBindingObject (o : RoleBinding)
  | ServiceMonitorObject (o : ServiceMonitor)
  | ServiceObject (o : Service)
  | DeploymentObject (o : Deployment).

(** ** Meaning *)

(** Labels satisfy a selector without match expressions. *)
Definition selects (selector labels : gmap string string) : Prop := selector ⊆ labels.

(** The mounts of a container refer to volumes of its pod. *)
Definition mounts_declared (spec : PodSpec) : Prop :=
  ∀ c, c ∈ ps_Containers spec → ∀ m, m ∈ ctr_VolumeMounts c → vm_Name m ∈ vol_Name <$> ps_Volumes spec.

(** What is mounted at a path. *)
Definition mounted (spec : PodSpec) (path : string) (source : VolumeSource) : Prop :=
  ∃ c m v, c ∈ ps_Containers spec ∧ m ∈ ctr_VolumeMounts c ∧ v ∈ ps_Volumes spec ∧
    vm_Name m = vol_Name v ∧ vm_MountPath m = path ∧ vol_Source v = source.
