(* ===== verification/Manifests.v ===== *)
(** * build/resources.go: the objects next to the webhook configurations

    The flags of the generator and the functions that make the namespace, the
    roles, the certificate config map, the service, the daemon set of classic
    clusters and the deployment of the package.  [Deployment] has the theorems
    that these objects fit together. *)

From S2P Require Import Prelude GoStrings Webhook KubeObjects.

(** ** Flags and constants *)

Record Flags := {
  listenPort : Z;
  secretName : string;
  caBundleName : string;
  templateFile : string;
  packageDir : string;
  replicas : Z;
  excludes : string;
  only : string;
  showHookNames : bool;
  namespace : string;
}.

Definition defaultFlags : Flags := {|
  listenPort := 5000; secretName := "webhook-cert"; caBundleName := "webhook-cert";
  templateFile := ""; packageDir := ""; replicas := 2;
  excludes := "debug-hook"; only := ""; showHookNames := false;
  namespace := "openshift-validation-webhook" |}.

Definition serviceName : string := "validation-webhook".
Definition serviceAccountName : string := "validation-webhook".
Definition roleName : string := "validation-webhook".
Definition prometheusRoleName : string := "prometheus-k8s".
Definition repoName : string := "managed-cluster-validating-webhooks".
Definition pkoPhaseAnnotation : string := "package-operator.run/phase".
Definition rbacPhase : string := "rbac".
Definition deployPhase : string := "deploy".
Definition configPhase : string := "config".
Definition webhooksPhase : string := "webhooks".
Definition controlPlaneLabel : string := "hypershift.openshift.io/control-plane".
Definition hsControlPlaneLabel : string := "hypershift.openshift.io/hosted-control-plane".
Definition hsClusterLabel : string := "hypershift.openshift.io/cluster".
Definition caBundleAnnotation : string := "service.beta.openshift.io/inject-cabundle".

Definition sssLabels : gmap string string := {[
  "managed.openshift.io/gitHash" := "${IMAGE_TAG}";
  "managed.openshift.io/gitRepoName" := "${REPO_NAME}";
  "managed.openshift.io/osd" := "true"]}.

(** Conversion of an int (64 bits) to an int32. *)
Definition int32 (z : Z) : Z := (z + 2 ^ 31) mod 2 ^ 32 - 2 ^ 31.

(** rbacv1.GroupName and rbacv1.SchemeGroupVersion.String() *)
Definition rbacGroupName : string := "rbac.authorization.k8s.io".
Definition rbacGroupVersion : string := "rbac.authorization.k8s.io/v1".

Section Create.
Variable flags : Flags.

(** Metadata with a name and a namespace only. *)
Definition named (name namespace : string) : ObjectMeta := {|
  om_Name := name; om_Namespace := namespace; om_Labels := ∅; om_Annotations := ∅ |}.

Definition createNamespace : MetaObject := {|
  mo_Type := {| tm_Kind := "Namespace"; tm_APIVersion := "v1" |};
  mo_Meta := {|
    om_Name := namespace flags; om_Namespace := "";
    om_Labels := {["openshift.io/cluster-monitoring" := "true"]}; om_Annotations := ∅ |} |}.

Definition createServiceAccount : MetaObject := {|
  mo_Type := {| tm_Kind := "ServiceAccount"; tm_APIVersion := "v1" |};
  mo_Meta := named serviceAccountName (namespace flags) |}.

Definition createRole : Role := {|
  role_Type := {| tm_Kind := "Role"; tm_APIVersion := rbacGroupVersion |};
  role_Meta := named roleName (namespace flags);
  role_Rules := [
    {| pr_APIGroups := [""]; pr_Resources := ["services"]; pr_Verbs := ["*"] |};
    {| pr_APIGroups := ["monitoring.coreos.com"]; pr_Resources := ["servicemonitors"]; pr_Verbs := ["*"] |}] |}.

Definition createRoleBinding : RoleBinding := {|
  rb_Type := {| tm_Kind := "RoleBinding"; tm_APIVersion := rbacGroupVersion |};
  rb_Meta := named (roleName +:+ ":" +:+ serviceAccountName) (namespace flags);
  rb_Subjects := [
    {| sb_Kind := "ServiceAccount"; sb_Name := serviceAccountName; sb_Namespace := namespace flags |}];
  rb_RoleRef := {| rr_Name := roleName; rr_Kind := "Role"; rr_APIGroup := rbacGroupName |} |}.

Definition createClusterRole : Role := {|
  role_Type := {| tm_Kind := "ClusterRole"; tm_APIVersion := rbacGroupVersion |};
  role_Meta := named roleName "";
  role_Rules := [
    {| pr_APIGroups := ["imageregistry.operator.openshift.io"]; pr_Resources := ["configs"]; pr_Verbs := ["get"] |}] |}.

Definition createClusterRoleBinding : RoleBinding := {|
  rb_Type := {| tm_Kind := "ClusterRoleBinding"; tm_APIVersion := rbacGroupVersion |};
  rb_Meta := named (roleName +:+ ":" +:+ serviceAccountName) "";
  rb_Subjects := [
    {| sb_Kind := "ServiceAccount"; sb_Name := serviceAccountName; sb_Namespace := namespace flags |}];
  rb_RoleRef := {| rr_Name := roleName; rr_Kind := "ClusterRole"; rr_APIGroup := rbacGroupName |} |}.

Definition createPrometheusRole : Role := {|
  role_Type := {| tm_Kind := "Role"; tm_APIVersion := rbacGroupVersion |};
  role_Meta := named prometheusRoleName (namespace flags);
  role_Rules := [
    {| pr_APIGroups := [""]; pr_Resources := ["services"; "endpoints"; "pods"]; pr_Verbs := ["get"; "list"; "watch"] |}] |}.

Definition createPromethusRoleBinding : RoleBinding := {|
  rb_Type := {| tm_Kind := "RoleBinding"; tm_APIVersion := rbacGroupVersion |};
  rb_Meta := named "prometheus-k8s" (namespace flags);
  rb_Subjects := [
    {| sb_Kind := "ServiceAccount"; sb_Name := "prometheus-k8s"; sb_Namespace := "openshift-monitoring" |}];
  rb_RoleRef := {| rr_Name := prometheusRoleName; rr_Kind := "Role"; rr_APIGroup := rbacGroupName |} |}.

Definition createServiceMonitor : ServiceMonitor := {|
  sm_Type := {| tm_Kind := "ServiceMonitor"; tm_APIVersion := "monitoring.coreos.com/v1" |};
  sm_Meta := named "validating-webhook-metrics" (namespace flags);
  sm_EndpointPorts := ["metrics"];
  sm_NamespaceNames := [namespace flags];
  sm_Selector := matchLabels {["app" := serviceName]} |}.

Definition createCACertConfigMap : MetaObject := {|
  mo_Type := {| tm_Kind := "ConfigMap"; tm_APIVersion := "v1" |};
  mo_Meta := {|
    om_Name := "webhook-cert"; om_Namespace := namespace flags; om_Labels := ∅;
    om_Annotations := {["service.beta.openshift.io/inject-cabundle" := "true"]} |} |}.

(** [o.Annotations[pkoPhaseAnnotation] = phase; o.Namespace = ""] *)
Definition inPhase (phase : string) (meta : ObjectMeta) : ObjectMeta := {|
  om_Name := om_Name meta; om_Namespace := ""; om_Labels := om_Labels meta;
  om_Annotations := <[pkoPhaseAnnotation := phase]> (om_Annotations meta) |}.

Definition createPackagedCACertConfigMap (phase : string) : MetaObject := {|
  mo_Type := mo_Type createCACertConfigMap;
  mo_Meta := inPhase phase (mo_Meta createCACertConfigMap) |}.
(** The label of the server's pods. *)
Definition appLabel : gmap string string := {["app" := "validation-webhook"]}.

Definition nodeSelectorIn (key value : string) : list NodeSelectorRequirement :=
  [{| nsr_Key := key; nsr_Operator := "In"; nsr_Values := [value] |}].

(** What the two workloads mount and run alike. *)
Definition serviceCerts : Volume := {| vol_Name := "service-certs"; vol_Source := SecretVolume (secretName flags) |}.
Definition serviceCA : Volume := {| vol_Name := "service-ca"; vol_Source := ConfigMapVolume (caBundleName flags) |}.
Definition serviceCertsMount : VolumeMount := {| vm_Name := "service-certs"; vm_MountPath := "/service-certs"; vm_ReadOnly := true |}.
Definition serviceCAMount : VolumeMount := {| vm_Name := "service-ca"; vm_MountPath := "/service-ca"; vm_ReadOnly := true |}.
Definition command : list string := [
  "webhooks"; "-tlskey"; "/service-certs/tls.key"; "-tlscert"; "/service-certs/tls.crt";
  "-cacert"; "/service-ca/service-ca.crt"; "-tls"].

Definition packagedAffinity : Affinity := {|
  aff_NodeAffinity := {|
    na_Required := None;
    na_Preferred := [
      {| pst_Preference := nodeSelectorIn hsControlPlaneLabel "true"; pst_Weight := 50 |};
      {| pst_Preference := nodeSelectorIn hsClusterLabel "{{.package.metadata.namespace}}"; pst_Weight := 100 |}] |};
  aff_PodAffinity := [
    (100%Z, {| pat_LabelSelector := matchLabels {[hsControlPlaneLabel := "{{.package.metadata.namespace}}"]};
               pat_TopologyKey := "kubernetes.io/hostname" |})];
  aff_PodAntiAffinity := [
    {| pat_LabelSelector := matchLabels appLabel; pat_TopologyKey := "topology.kubernetes.io/zone" |}] |}.

Definition packagedPodSpec : PodSpec := {|
  ps_Affinity := packagedAffinity;
  ps_Tolerations := [
    {| tol_Key := controlPlaneLabel; tol_Operator := "Equal"; tol_Value := "true"; tol_Effect := "NoSchedule" |};
    {| tol_Key := hsControlPlaneLabel; tol_Operator := "Equal"; tol_Value := "true"; tol_Effect := "NoSchedule" |};
    {| tol_Key := hsClusterLabel; tol_Operator := "Equal"; tol_Value := "{{.package.metadata.namespace}}"; tol_Effect := "NoSchedule" |}];
  ps_RestartPolicy := "Always";
  ps_ServiceAccountName := "";
  ps_Volumes := [serviceCerts; serviceCA;
    {| vol_Name := "hosted-kubeconfig"; vol_Source := SecretVolume "service-network-admin-kubeconfig" |}];
  ps_Containers := [{|
    ctr_Name := "webhooks"; ctr_Image := "REPLACED_BY_PIPELINE"; ctr_ImagePullPolicy := "IfNotPresent";
    ctr_TerminationMessagePolicy := "FallbackToLogsOnError";
    ctr_VolumeMounts := [serviceCertsMount; serviceCAMount;
      {| vm_Name := "hosted-kubeconfig"; vm_MountPath := "/etc/hosted-kubernetes"; vm_ReadOnly := true |}];
    ctr_Ports := [int32 (listenPort flags)];
    ctr_Command := command;
    ctr_Env := [{| env_Name := "KUBECONFIG"; env_Value := "/etc/hosted-kubernetes/kubeconfig" |}] |}] |}.

Definition createPackagedDeployment (replicas : Z) (phase : string) : Deployment := {|
  dep_Type := {| tm_Kind := "Deployment"; tm_APIVersion := "apps/v1" |};
  dep_Meta := {|
    om_Name := "validation-webhook"; om_Namespace := ""; om_Labels := appLabel;
    om_Annotations := {[pkoPhaseAnnotation := phase]} |};
  dep_Replicas := replicas;
  dep_Selector := matchLabels appLabel;
  dep_Strategy := "RollingUpdate";
  dep_MaxUnavailable := IntVal 1;
  dep_Template := {| pt_Labels := appLabel; pt_Spec := packagedPodSpec |} |}.

Definition classicPodSpec : PodSpec := {|
  ps_Affinity := {|
    aff_NodeAffinity := {|
      na_Required := Some [nodeSelectorIn "node-role.kubernetes.io/master" ""]; na_Preferred := [] |};
    aff_PodAffinity := []; aff_PodAntiAffinity := [] |};
  ps_Tolerations := [
    {| tol_Key := "node-role.kubernetes.io/master"; tol_Operator := ""; tol_Value := ""; tol_Effect := "NoSchedule" |};
    {| tol_Key := "node-role.kubernetes.io/master"; tol_Operator := ""; tol_Value := ""; tol_Effect := "NoExecute" |}];
  ps_RestartPolicy := "Always";
  ps_ServiceAccountName := serviceAccountName;
  ps_Volumes := [serviceCerts; serviceCA];
  ps_Containers := [{|
    ctr_Name := "webhooks"; ctr_Image := "${REGISTRY_IMG}@${IMAGE_DIGEST}"; ctr_ImagePullPolicy := "IfNotPresent";
    ctr_TerminationMessagePolicy := "FallbackToLogsOnError";
    ctr_VolumeMounts := [serviceCertsMount; serviceCAMount];
    ctr_Ports := [int32 (listenPort flags)];
    ctr_Command := command;
    ctr_Env := [] |}] |}.

Definition createDaemonSet : DaemonSet := {|
  ds_Type := {| tm_Kind := "DaemonSet"; tm_APIVersion := "apps/v1" |};
  ds_Meta := {|
    om_Name := "validation-webhook"; om_Namespace := namespace flags; om_Labels := appLabel; om_Annotations := ∅ |};
  ds_Selector := matchLabels appLabel;
  ds_Strategy := "RollingUpdate";
  ds_MaxUnavailable := StrVal "10%";
  ds_Template := {| pt_Labels := appLabel; pt_Spec := classicPodSpec |} |}.

Definition servingCertAnnotation : string := "service.beta.openshift.io/serving-cert-secret-name".

Definition createService : Service := {|
  svc_Type := {| tm_Kind := "Service"; tm_APIVersion := "v1" |};
  svc_Meta := {|
    om_Name := serviceName; om_Namespace := namespace flags;
    om_Labels := {["name" := serviceName; "hypershift.openshift.io/allow-guest-webhooks" := "true"]};
    om_Annotations := {[servingCertAnnotation := secretName flags]} |};
  svc_SpecType := "ClusterIP";
  svc_Selector := {["app" := "validation-webhook"]};
  svc_Ports := [{|
    sp_Name := "https"; sp_Port := 443; sp_TargetPort := IntVal (int32 (listenPort flags)); sp_Protocol := "TCP" |}] |}.

Definition createPackagedService (phase : string) : Service := {|
  svc_Type := svc_Type createService;
  svc_Meta := inPhase phase (svc_Meta createService);
  svc_SpecType := svc_SpecType createService;
  svc_Selector := svc_Selector createService;
  svc_Ports := svc_Ports createService |}.
End Create.
