(* ===== verification/Registry.v ===== *)
(** * The registered webhooks (pkg/webhooks/add_*.go)

    Each add_*.go file registers one webhook when the program starts; the Go
    runtime runs the [init] functions of a package in the order of the file
    names.  [Webhooks] is the registry they leave behind. *)

From S2P Require Import Prelude GoStrings Admission Utils Webhook.
From S2P Require ClusterLogging ClusterRole ClusterRoleBinding CustomResourceDefinitions HcpNamespace HiveOwnership.
From S2P Require HostedCluster HostedControlPlane ImageContentPolicies IngressConfig IngressController ManifestWorks.
From S2P Require Namespace NetworkOperator NetworkPolicies Node Pod PodImageSpec.
From S2P Require PrometheusRule RegularUser SCC SdnMigration Service ServiceAccount.
From S2P Require TechPreviewNoUpgrade.
Import (hints) ClusterLogging ClusterRole ClusterRoleBinding CustomResourceDefinitions HcpNamespace HiveOwnership.
Import (hints) HostedCluster HostedControlPlane ImageContentPolicies IngressConfig IngressController ManifestWorks.
Import (hints) Namespace NetworkOperator NetworkPolicies Node Pod PodImageSpec.
Import (hints) PrometheusRule RegularUser SCC SdnMigration Service ServiceAccount.
Import (hints) TechPreviewNoUpgrade.

Section Registry.
Context `{AdmissionCtl}.
Context `{Decoder Namespace.Namespace} `{Decoder RegularUser.NetNamespace} `{Decoder RegularUser.ConfigMap}
  `{Decoder ClusterLogging.ClusterLogging} `{Decoder Service.Service} `{Decoder NetworkOperator.Network}
  `{Decoder PodImageSpec.Pod} `{PodImageSpec.KubeClient} `{Decoder Pod.Pod} `{Decoder Node.Node}
  `{Decoder ClusterRole.ClusterRole} `{Decoder ClusterRoleBinding.ClusterRoleBinding}
  `{Decoder ServiceAccount.ServiceAccount} `{Decoder SCC.SecurityContextConstraints}
  `{Decoder PrometheusRule.prometheusRule} `{Decoder NetworkPolicies.NetworkPolicy}
  `{Decoder ImageContentPolicies.ImageDigestMirrorSet} `{Decoder ImageContentPolicies.ImageTagMirrorSet}
  `{Decoder ImageContentPolicies.ImageContentSourcePolicy} `{Decoder IngressController.IngressController}
  `{Decoder CustomResourceDefinitions.CustomResourceDefinition} `{Decoder SdnMigration.Network}
  `{Decoder TechPreviewNoUpgrade.FeatureGate}.

Definition init_add_clusterlogging : RegisteredWebhooks → RegisteredWebhooks :=
  Register ClusterLogging.WebhookName ClusterLogging.NewWebhook.
Definition init_add_clusterrole : RegisteredWebhooks → RegisteredWebhooks :=
  Register ClusterRole.WebhookName ClusterRole.NewWebhook.
Definition init_add_clusterrolebinding : RegisteredWebhooks → RegisteredWebhooks :=
  Register ClusterRoleBinding.WebhookName ClusterRoleBinding.NewWebhook.
Definition init_add_customresourcedefinitions : RegisteredWebhooks → RegisteredWebhooks :=
  Register CustomResourceDefinitions.WebhookName CustomResourceDefinitions.NewWebhook.
Definition init_add_hcpnamespace : RegisteredWebhooks → RegisteredWebhooks :=
  Register HcpNamespace.WebhookName HcpNamespace.NewWebhook.
Definition init_add_hiveownership : RegisteredWebhooks → RegisteredWebhooks :=
  Register HiveOwnership.WebhookName HiveOwnership.NewWebhook.
Definition init_add_hostedcluster : RegisteredWebhooks → RegisteredWebhooks :=
  Register HostedCluster.WebhookName HostedCluster.NewWebhook.
Definition init_add_hostedcontrolplane : RegisteredWebhooks → RegisteredWebhooks :=
  Register HostedControlPlane.WebhookName HostedControlPlane.NewWebhook.
Definition init_add_imagecontentpolicies : RegisteredWebhooks → RegisteredWebhooks :=
  Register ImageContentPolicies.WebhookName ImageContentPolicies.NewWebhook.
Definition init_add_ingressconfig_hook : RegisteredWebhooks → RegisteredWebhooks :=
  Register IngressConfig.WebhookName IngressConfig.NewWebhook.
Definition init_add_ingresscontroller : RegisteredWebhooks → RegisteredWebhooks :=
  Register IngressController.WebhookName IngressController.NewWebhook.
Definition init_add_manifestworks : RegisteredWebhooks → RegisteredWebhooks :=
  Register ManifestWorks.WebhookName ManifestWorks.NewWebhook.
Definition init_add_namespace_hook : RegisteredWebhooks → RegisteredWebhooks :=
  Register Namespace.WebhookName Namespace.NewWebhook.
Definition init_add_networkoperator : RegisteredWebhooks → RegisteredWebhooks :=
  Register NetworkOperator.WebhookName NetworkOperator.NewWebhook.
Definition init_add_networkpolicy : RegisteredWebhooks → RegisteredWebhooks :=
  Register NetworkPolicies.WebhookName NetworkPolicies.NewWebhook.
Definition init_add_node : RegisteredWebhooks → RegisteredWebhooks :=
  Register Node.WebhookName Node.NewWebhook.
Definition init_add_pod : RegisteredWebhooks → RegisteredWebhooks :=
  Register Pod.WebhookName Pod.NewWebhook.
Definition init_add_podimagespec : RegisteredWebhooks → RegisteredWebhooks :=
  Register PodImageSpec.WebhookName PodImageSpec.NewWebhook.
Definition init_add_prometheusrule : RegisteredWebhooks → RegisteredWebhooks :=
  Register PrometheusRule.WebhookName PrometheusRule.NewWebhook.
Definition init_add_regularuser : RegisteredWebhooks → RegisteredWebhooks :=
  Register RegularUser.WebhookName RegularUser.NewWebhook.
Definition init_add_scc : RegisteredWebhooks → RegisteredWebhooks :=
  Register SCC.WebhookName SCC.NewWebhook.
Definition init_add_sdnmigration : RegisteredWebhooks → RegisteredWebhooks :=
  Register SdnMigration.WebhookName SdnMigration.NewWebhook.
Definition init_add_service_hook : RegisteredWebhooks → RegisteredWebhooks :=
  Register Service.WebhookName Service.NewWebhook.
Definition init_add_serviceaccount : RegisteredWebhooks → RegisteredWebhooks :=
  Register ServiceAccount.WebhookName ServiceAccount.NewWebhook.
Definition init_add_techpreviewnoupgrade : RegisteredWebhooks → RegisteredWebhooks :=
  Register TechPreviewNoUpgrade.WebhookName TechPreviewNoUpgrade.NewWebhook.

(** The [init] functions in the order they run. *)
Definition inits : list (RegisteredWebhooks → RegisteredWebhooks) := [
  init_add_clusterlogging; init_add_clusterrole; init_add_clusterrolebinding;
  init_add_customresourcedefinitions; init_add_hcpnamespace; init_add_hiveownership;
  init_add_hostedcluster; init_add_hostedcontrolplane; init_add_imagecontentpolicies;
  init_add_ingressconfig_hook; init_add_ingresscontroller; init_add_manifestworks;
  init_add_namespace_hook; init_add_networkoperator; init_add_networkpolicy; init_add_node;
  init_add_pod; init_add_podimagespec; init_add_prometheusrule; init_add_regularuser;
  init_add_scc; init_add_sdnmigration; init_add_service_hook; init_add_serviceaccount;
  init_add_techpreviewnoupgrade].

(** The package variable [Webhooks] after initialisation. *)
Definition Webhooks : RegisteredWebhooks := fold_left (λ hooks init, init hooks) inits ∅.

(** ** Theory *)

(** The same registrations as a list, latest first. *)
Definition registrations : list (string * Webhook) := [
  (TechPreviewNoUpgrade.WebhookName, TechPreviewNoUpgrade.NewWebhook);
  (ServiceAccount.WebhookName, ServiceAccount.NewWebhook);
  (Service.WebhookName, Service.NewWebhook);
  (SdnMigration.WebhookName, SdnMigration.NewWebhook); (SCC.WebhookName, SCC.NewWebhook);
  (RegularUser.WebhookName, RegularUser.NewWebhook);
  (PrometheusRule.WebhookName, PrometheusRule.NewWebhook);
  (PodImageSpec.WebhookName, PodImageSpec.NewWebhook); (Pod.WebhookName, Pod.NewWebhook);
  (Node.WebhookName, Node.NewWebhook);
  (NetworkPolicies.WebhookName, NetworkPolicies.NewWebhook);
  (NetworkOperator.WebhookName, NetworkOperator.NewWebhook);
  (Namespace.WebhookName, Namespace.NewWebhook);
  (ManifestWorks.WebhookName, ManifestWorks.NewWebhook);
  (IngressController.WebhookName, IngressController.NewWebhook);
  (IngressConfig.WebhookName, IngressConfig.NewWebhook);
  (ImageContentPolicies.WebhookName, ImageContentPolicies.NewWebhook);
  (HostedControlPlane.WebhookName, HostedControlPlane.NewWebhook);
  (HostedCluster.WebhookName, HostedCluster.NewWebhook);
  (HiveOwnership.WebhookName, HiveOwnership.NewWebhook);
  (HcpNamespace.WebhookName, HcpNamespace.NewWebhook);
  (CustomResourceDefinitions.WebhookName, CustomResourceDefinitions.NewWebhook);
  (ClusterRoleBinding.WebhookName, ClusterRoleBinding.NewWebhook);
  (ClusterRole.WebhookName, ClusterRole.NewWebhook);
  (ClusterLogging.WebhookName, ClusterLogging.NewWebhook)].

Lemma Webhooks_registrations : Webhooks = list_to_map registrations.
Proof. reflexivity. Qed.

Lemma registrations_names : NoDup registrations.*1.
Proof. apply (bool_decide_eq_true (NoDup registrations.*1)). vm_compute. reflexivity. Qed.

Lemma registrations_uris : NoDup (wh_GetURI <$> registrations.*2).
Proof. apply (bool_decide_eq_true (NoDup (wh_GetURI <$> registrations.*2))). vm_compute. reflexivity. Qed.

Context `{!AdmissionCtlLaws}.

Lemma Webhooks_lookup name hook : Webhooks !! name = Some hook ↔ (name, hook) ∈ registrations.
Proof. rewrite Webhooks_registrations. symmetry. apply elem_of_list_to_map, registrations_names. Qed.

(** Splits a statement about every registered webhook into one per webhook. *)
Lemma registrations_forall (P : string * Webhook → Prop) :
  Forall P registrations → ∀ name hook, Webhooks !! name = Some hook → P (name, hook).
Proof. intros Hall name hook Hin%Webhooks_lookup. by rewrite Forall_forall in Hall; apply Hall. Qed.

(** Two registered webhooks with one URI are the same. *)
Lemma Webhooks_uri_inj n1 n2 h1 h2 :
  Webhooks !! n1 = Some h1 → Webhooks !! n2 = Some h2 → wh_GetURI h1 = wh_GetURI h2 → n1 = n2 ∧ h1 = h2.
Proof.
  intros L1%Webhooks_lookup L2%Webhooks_lookup E.
  pose proof registrations_uris as Hnd. rewrite -list_fmap_compose in Hnd.
  apply list_elem_of_lookup in L1 as [i Hi], L2 as [j Hj].
  assert (i = j) as ->; [|by simplify_eq].
  apply (NoDup_lookup _ _ _ (wh_GetURI h1) Hnd); rewrite list_lookup_fmap; [by rewrite Hi|].
  rewrite Hj E. done.
Qed.

Lemma Webhooks_laws name hook : Webhooks !! name = Some hook → WebhookLaws hook.
Proof.
  apply (registrations_forall (λ p, WebhookLaws p.2)).
  repeat (constructor; [simpl; typeclasses eauto|]). constructor.
Qed.

(** C33: The registry.  Every add_*.go registers its webhook under the name the
    webhook gives itself, no registration is overwritten by another, all 25
    webhooks have URIs of their own, and their timeouts are in the range the API
    server accepts. *)
Theorem registry_sound :
  size Webhooks = 25 ∧
  (∀ name hook, Webhooks !! name = Some hook →
     wh_Name hook = name ∧ (1 ≤ wh_TimeoutSeconds hook ≤ 30)%Z) ∧
  (∀ n1 n2 h1 h2, Webhooks !! n1 = Some h1 → Webhooks !! n2 = Some h2 →
     wh_GetURI h1 = wh_GetURI h2 → n1 = n2).
Proof.
  split; [|split].
  - rewrite Webhooks_registrations. by vm_compute.
  - apply (registrations_forall (λ p, wh_Name p.2 = p.1 ∧ (1 ≤ wh_TimeoutSeconds p.2 ≤ 30)%Z)).
    repeat (constructor; [split; [reflexivity|simpl; vm_compute; split; discriminate]|]). constructor.
  - intros n1 n2 h1 h2 L1 L2 E. by destruct (Webhooks_uri_inj _ _ _ _ L1 L2 E).
Qed.

(** C34: What the dispatcher relies on holds for every registered webhook: a
    response carries the request's UID unless it is the plain error response,
    the verdict does not depend on earlier requests, and the counters of blocked
    requests only grow. *)
Theorem registry_webhook_laws name hook req w r w' user :
  Webhooks !! name = Some hook → wh_Authorized hook req w = (Returned r, w') →
  identified req r ∧ (∀ w2, fst (wh_Authorized hook req w2) = Returned r) ∧
  blockedCount w user ≤ blockedCount w' user.
Proof.
  intros Hh Hr. pose proof (Webhooks_laws _ _ Hh) as Hlaws. split; [exact (hook_identified req w r w' Hr)|]. split.
  - intros w2. by rewrite (hook_stateless req w2 w) Hr.
  - pose proof (hook_monotone req w user) as Hm. by rewrite Hr in Hm.
Qed.

(** C32: The four guards of the management and service clusters keep their common
    contract: a request is refused exactly when it deletes an object (for the
    namespace guard: one with a protected prefix) and the requester is not on
    the list of the guard; for hosted control planes a user whose last name part
    is cluster-api or control-plane-pki-operator, whatever comes before the
    colon, is on it. *)
Theorem management_guards :
  guards_deletion HcpNamespace.authorized
    (λ req, ∃ p, p ∈ HcpNamespace.protectedPrefixes ∧ HasPrefix (req_Name req) p = true)
    (λ req, username req ∈ HcpNamespace.allowedUsers) ∧
  guards_deletion HostedCluster.authorized (λ _, True)
    (λ req, username req = HostedCluster.allowedServiceAccount) ∧
  guards_deletion HostedControlPlane.authorized (λ _, True)
    (λ req, username req ∈ HostedControlPlane.allowedServiceAccountsUsernames ∨
       ∃ name, name ∈ HostedControlPlane.allowedServiceAccountsNames ∧
         HostedControlPlane.last_word (username req) name) ∧
  guards_deletion ManifestWorks.authorized (λ _, True)
    (λ req, username req ∈ ManifestWorks.allowedServiceAccounts).
Proof.
  split; [apply HcpNamespace.hcpnamespace_guard|]. split; [apply HostedCluster.hostedcluster_guard|].
  split; [apply HostedControlPlane.hostedcontrolplane_guard|apply ManifestWorks.manifestworks_guard].
Qed.
End Registry.

(** ** Witnesses *)

Module Witness.
#[local] Existing Instance exampleCtl.
#[local] Existing Instance exampleCtl_laws.
#[local] Instance decoder T : Decoder T := exampleDecoder [].
#[local] Instance kube : PodImageSpec.KubeClient := {|
  PodImageSpec.newKubeClient := None; PodImageSpec.GetRegistryConfig := λ _, Err "not found";
  PodImageSpec.GetImageStreamTag := λ _ _, Err "not found"; PodImageSpec.MarshalPod := λ _, Ok "" |}.

(** User "dev" deletes a hosted cluster. *)
Definition deletion : Request := exampleRequest Delete "HostedCluster" "hypershift.openshift.io" "dev" [] noRaw oldRaw.
Definition start : World := {| blockedRequests := ∅ |}.

Lemma registry_webhook_laws_witness : identified deletion (HostedCluster.authorized deletion).
Proof.
  refine (proj1 (registry_webhook_laws HostedCluster.WebhookName HostedCluster.NewWebhook deletion start
    (HostedCluster.authorized deletion) start "dev" _ _)); reflexivity.
Defined.

Lemma management_guards_witness : resp_Allowed (HostedCluster.authorized deletion) = false.
Proof.
  apply (proj1 (proj2 management_guards) deletion). split; [reflexivity|]. split; [done|]. discriminate.
Defined.
End Witness.
