(* ===== verification/Url.v ===== *)
(** * net/url: the path of a request URI

    [url.Parse] as far as the dispatcher uses it: the decoded path, or an error.
    Parsing the authority of //host/path references is left to a parameter;
    only its success matters. *)

From S2P Require Import Prelude GoStrings.

(** ** strings.Cut *)

(** What comes before the first separator, and after it if there is one. *)
Fixpoint Cut (s : string) (sep : ascii) : string * option string :=
  match s with
  | EmptyString => ("", None)
  | String c s' =>
      if Ascii.eqb c sep then ("", Some s')
      else let '(before, rest) := Cut s' sep in (String c before, rest)
  end.

Lemma Cut_none s sep : no_char sep s = true → Cut s sep = (s, None).
Proof.
  induction s as [|c s IH]; [done|]. intros [Hc Hs]%no_char_cons. simpl.
  apply Ascii.eqb_neq in Hc. by rewrite Hc (IH Hs).
Qed.

Lemma Cut_some a b sep : no_char sep a = true → Cut (a +:+ String sep b) sep = (a, Some b).
Proof.
  induction a as [|c a IH]; simpl; [by rewrite Ascii.eqb_refl|]. intros [Hc Ha]%no_char_cons.
  apply Ascii.eqb_neq in Hc. by rewrite Hc (IH Ha).
Qed.

(** ** Escapes *)

Definition code (c : ascii) : N := N_of_ascii c.

(** Control bytes. *)
Definition isCTL (c : ascii) : bool := N.ltb (code c) 32 || N.eqb (code c) 127.

Definition unhex (c : ascii) : option N :=
  let n := code c in
  if N.leb 48 n && N.leb n 57 then Some (n - 48)%N
  else if N.leb 97 n && N.leb n 102 then Some (n - 97 + 10)%N
  else if N.leb 65 n && N.leb n 70 then Some (n - 65 + 10)%N
  else None.

(** [unescape(s, encodePath)]: each escape becomes its byte. *)
Fixpoint unescape (s : string) : result string :=
  match s with
  | EmptyString => Ok ""
  | String c s' =>
      if Ascii.eqb c "%" then
        match s' with
        | String a (String b s'') =>
            match unhex a, unhex b with
            | Some x, Some y =>
                match unescape s'' with
                | Ok t => Ok (String (ascii_of_N (x * 16 + y)) t)
                | Err e => Err e
                end
            | _, _ => Err "invalid URL escape"
            end
        | _ => Err "invalid URL escape"
        end
      else match unescape s' with Ok t => Ok (String c t) | Err e => Err e end
  end.

Lemma unescape_plain s : no_char "%" s = true → unescape s = Ok s.
Proof.
  induction s as [|c s IH]; [done|]. intros [Hc Hs]%no_char_cons. simpl.
  apply Ascii.eqb_neq in Hc. by rewrite Hc (IH Hs).
Qed.

(** ** The scheme *)

Definition is_letter (c : ascii) : bool :=
  (N.leb 97 (code c) && N.leb (code c) 122) || (N.leb 65 (code c) && N.leb (code c) 90).

Definition is_scheme_tail (c : ascii) : bool :=
  is_digit c || existsb (Ascii.eqb c) ["+"; "-"; "."]%char.

Inductive scheme_scan := NoScheme | MissingScheme | Scheme (scheme rest : string).

(** The loop of [getScheme]; [first]: at offset 0. *)
Fixpoint scanScheme (first : bool) (s : string) : scheme_scan :=
  match s with
  | EmptyString => NoScheme
  | String c s' =>
      if is_letter c || (is_scheme_tail c && negb first) then
        match scanScheme false s' with
        | Scheme scheme rest => Scheme (String c scheme) rest
        | other => other
        end
      else if is_scheme_tail c then NoScheme
      else if Ascii.eqb c ":" then (if first then MissingScheme else Scheme "" s')
      else NoScheme
  end.

Definition getScheme (rawURL : string) : result (string * string) :=
  match scanScheme true rawURL with
  | NoScheme => Ok ("", rawURL)
  | MissingScheme => Err "missing protocol scheme"
  | Scheme scheme rest => Ok (scheme, rest)
  end.

(** ** Parse *)

Section Parse.
Variable parseAuthority : string → option error.

(** [parse(rawURL, false)]: the path of the URL. *)
Definition parse (rawURL : string) : result string :=
  if negb (all_chars (λ c, negb (isCTL c)) rawURL) then Err "invalid control character in URL"
  else if String.eqb rawURL "*" then Ok "*"
  else match getScheme rawURL with
  | Err e => Err e
  | Ok (scheme, rest) =>
      let rest := fst (Cut rest "?") in
      if negb (HasPrefix rest "/") && negb (String.eqb scheme "") then Ok ""
      else if negb (HasPrefix rest "/") && ContainsSub (fst (Cut rest "/")) ":" then
        Err "first path segment in URL cannot contain colon"
      else if (negb (String.eqb scheme "") || negb (HasPrefix rest "///")) && HasPrefix rest "//" then
        let authority := fst (Cut (String.substring 2 (String.length rest) rest) "/") in
        let rest :=
          match snd (Cut (String.substring 2 (String.length rest) rest) "/") with
          | Some path => String "/" path
          | None => ""
          end in
        match parseAuthority authority with Some e => Err e | None => unescape rest end
      else unescape rest
  end.

Definition Parse (rawURL : string) : result string :=
  let '(u, frag) := Cut rawURL "#" in
  match parse u with
  | Err e => Err e
  | Ok path =>
      match unescape (default "" frag) with Err e => Err e | Ok _ => Ok path end
  end.

(** ** Plain paths *)

Definition printable (s : string) : bool := all_chars (λ c, negb (isCTL c)) s.

(** A path that stands for itself in a URL. *)
Definition plain_path (p : string) : bool :=
  HasPrefix p "/" && negb (HasPrefix p "//") && printable p &&
  no_char "#" p && no_char "?" p && no_char "%" p.

Lemma parse_plain p rest :
  plain_path p = true → printable rest = true → fst (Cut (p +:+ rest) "?") = p →
  parse (p +:+ rest) = Ok p.
Proof.
  unfold plain_path. rewrite !andb_true_iff negb_true_iff.
  intros [[[[[Hs Hss] Hpr] _] _] He] Hrest Hcut. unfold parse.
  pose proof Hpr as Hpr'. unfold printable in Hpr', Hrest. rewrite all_chars_app Hpr' Hrest. simpl.
  destruct p as [|c p]; [done|]. simpl in Hs. destruct (Ascii.eqb_spec c "/") as [->|]; [|done].
  assert (String.eqb (String "/" p +:+ rest) "*" = false) as -> by done.
  assert (getScheme (String "/" p +:+ rest) = Ok ("", String "/" p +:+ rest)) as -> by done.
  cbv beta iota zeta. rewrite Hcut Hss (HasPrefix_app "/" p : HasPrefix (String "/" p) "/" = true).
  cbn [negb andb]. rewrite andb_false_r. by apply unescape_plain.
Qed.

(** A registered path is found again, with or without a query. *)
Lemma Parse_plain p : plain_path p = true → Parse p = Ok p.
Proof.
  intros Hp. pose proof Hp as Hp'. unfold plain_path in Hp'. rewrite !andb_true_iff in Hp'.
  destruct Hp' as [[[_ Hh] Hq] _]. unfold Parse. rewrite (Cut_none _ _ Hh).
  rewrite -{1}(str_app_nil_r p) parse_plain //. by rewrite str_app_nil_r (Cut_none _ _ Hq).
Qed.

Lemma Parse_query p query :
  plain_path p = true → printable query = true → no_char "#" query = true →
  Parse (p +:+ String "?" query) = Ok p.
Proof.
  intros Hp Hpr Hq. pose proof Hp as Hp'. unfold plain_path in Hp'. rewrite !andb_true_iff in Hp'.
  destruct Hp' as [[[_ Hh] Hqm] _]. unfold Parse.
  rewrite (Cut_none (p +:+ String "?" query)).
  { unfold no_char in *. rewrite all_chars_app Hh. simpl. exact Hq. }
  rewrite parse_plain //. by rewrite (Cut_some _ _ _ Hqm).
Qed.
End Parse.
