(* ===== verification/Strconv.v ===== *)
(** * strconv.ParseInt(s, 0, 64)

    How Go's flag package reads an integer: a sign, a prefix for the base,
    underscores between the digits, and the two errors.  The theorems bound what
    it returns and say that it reads back the decimal notation of every int. *)

From stdpp Require Import pretty.
From S2P Require Import Prelude GoStrings.

Definition syntaxError : error := "invalid syntax".
Definition rangeError : error := "value out of range".

(** A letter in lower case. *)
Definition lower (c : ascii) : ascii := ascii_of_N (N.lor (N_of_ascii c) 32).

Definition digit (c : ascii) : option Z :=
  let n := N_of_ascii (lower c) in
  if is_digit c then Some (digit_val c)
  else if N.leb 97 n && N.leb n 122 then Some (Z.of_N n - 97 + 10)%Z
  else None.

(** The base a number without its sign is in, and its digits. *)
Definition radix (s : string) : Z * string :=
  match s with
  | String "0" (String c (String _ _ as digits)) =>
      if Ascii.eqb (lower c) "b" then (2, digits)%Z
      else if Ascii.eqb (lower c) "o" then (8, digits)%Z
      else if Ascii.eqb (lower c) "x" then (16, digits)%Z
      else (8, String c digits)%Z
  | String "0" digits => (8, digits)%Z
  | _ => (10, s)%Z
  end.

(** The loop over the digits, with its tests before an overflow. *)
Fixpoint accumulate (base n : Z) (s : string) : result Z :=
  match s with
  | EmptyString => Ok n
  | String c s' =>
      if Ascii.eqb c "_" then accumulate base n s'
      else match digit c with
      | None => Err syntaxError
      | Some d =>
          if (base <=? d)%Z then Err syntaxError
          else if (max_u64 / base + 1 <=? n)%Z then Err rangeError
          else
            let n' := (n * base)%Z in
            let n1 := u64 (n' + d) in
            if (n1 <? n')%Z then Err rangeError else accumulate base n1 s'
      end
  end.

(** What an underscore may follow: the last character was none, a digit, an
    underscore or another one. *)
Inductive saw := Nothing | Digit | Underscore | Other.

Fixpoint separated (hex : bool) (last : saw) (s : string) : bool :=
  match s with
  | EmptyString => match last with Underscore => false | _ => true end
  | String c s' =>
      let n := N_of_ascii (lower c) in
      if is_digit c || hex && N.leb 97 n && N.leb n 102 then separated hex Digit s'
      else if Ascii.eqb c "_" then match last with Digit => separated hex Underscore s' | _ => false end
      else match last with Underscore => false | _ => separated hex Other s' end
  end.

(** Of a number without its sign. *)
Definition underscoreOK (s : string) : bool :=
  match s with
  | String "0" (String c rest) =>
      if existsb (Ascii.eqb (lower c)) ["b"; "o"; "x"]%char
      then separated (Ascii.eqb (lower c) "x") Digit rest else separated false Nothing s
  | _ => separated false Nothing s
  end.

(** strconv.ParseUint(s, 0, 64) *)
Definition ParseUint0 (s : string) : result Z :=
  if String.eqb s "" then Err syntaxError
  else
    let '(base, digits) := radix s in
    match accumulate base 0 digits with
    | Err e => Err e
    | Ok n => if negb (no_char "_" digits) && negb (underscoreOK s) then Err syntaxError else Ok n
    end.

(** The sign and what is behind it. *)
Definition sign (s : string) : bool * string :=
  match s with
  | String "+" s' => (false, s')
  | String "-" s' => (true, s')
  | _ => (false, s)
  end.

Definition ParseInt (s : string) : result Z :=
  let '(neg, s) := sign s in
  match ParseUint0 s with
  | Err e => Err e
  | Ok un =>
      if negb neg && (2 ^ 63 <=? un)%Z then Err rangeError
      else if neg && (2 ^ 63 <? un)%Z then Err rangeError
      else Ok (if neg then (- un)%Z else un)
  end.

Example ParseInt_examples :
  ParseInt <$> ["5000"; "-0x_1F"; "1_000"; "1__0"; "0b102"; "08"; "+"; "9223372036854775808"; "-9223372036854775808"] =
  [Ok 5000; Ok (-31); Ok 1000; Err syntaxError; Err syntaxError; Err syntaxError; Err syntaxError; Err rangeError;
   Ok (- 2 ^ 63)]%Z.
Proof. reflexivity. Qed.

(** ** Theory *)

Definition is_int64 (n : Z) : Prop := (- 2 ^ 63 ≤ n < 2 ^ 63)%Z.

Lemma digit_bounds c d : digit c = Some d → (0 ≤ d < 36)%Z.
Proof.
  unfold digit. destruct (is_digit c) eqn:Hc.
  - intros [= <-]. pose proof (digit_val_bounds c Hc). lia.
  - destruct (N.leb 97 _) eqn:H1, (N.leb _ 122) eqn:H2; simpl; try done. intros [= <-].
    apply N.leb_le in H1, H2. lia.
Qed.

Lemma accumulate_bounds base n s v : (2 ≤ base)%Z → (0 ≤ n)%Z → accumulate base n s = Ok v → (0 ≤ v)%Z.
Proof.
  intros Hb. revert n. induction s as [|c s IH]; intros n Hn; cbn [accumulate]; [by intros [= <-]|].
  destruct (Ascii.eqb c "_"); [by apply IH|]. destruct (digit c) as [d|] eqn:Hd; [|done].
  destruct (base <=? d)%Z; [done|]. destruct (_ <=? n)%Z; [done|]. destruct (_ <? _)%Z; [done|].
  apply IH. apply Z.mod_pos_bound. lia.
Qed.

Lemma radix_base s : (2 ≤ fst (radix s))%Z.
Proof.
  unfold radix. repeat match goal with |- context [match ?x with _ => _ end] => destruct x end; simpl; lia.
Qed.

Lemma ParseInt_bounds s n : ParseInt s = Ok n → is_int64 n.
Proof.
  unfold ParseInt, is_int64. destruct (sign s) as [neg t]. destruct (ParseUint0 t) as [un|] eqn:E; [|done].
  assert (0 ≤ un)%Z.
  { unfold ParseUint0 in E. destruct (String.eqb t ""); [done|]. pose proof (radix_base t) as Hb.
    destruct (radix t) as [base digits]. destruct (accumulate base 0 digits) as [m|] eqn:Ha; [|done].
    destruct (negb _ && _); [done|]. injection E as ->. by apply (accumulate_bounds _ _ _ _ Hb (Z.le_refl 0) Ha). }
  destruct neg; simpl.
  - destruct (Z.ltb_spec (2 ^ 63) un); [done|]. intros [= <-]. lia.
  - destruct (Z.leb_spec (2 ^ 63) un); [done|]. intros [= <-]. lia.
Qed.

(** *** Decimal notation *)

Lemma accumulate_decimal n s :
  all_chars is_digit s = true → (0 ≤ n)%Z → (digits_val n s ≤ max_u64)%Z → accumulate 10 n s = Ok (digits_val n s).
Proof.
  revert n. induction s as [|c s IH]; intros n; cbn [accumulate digits_val all_chars]; [done|].
  rewrite andb_true_iff. intros [Hc Hs] Hn Hv. pose proof (digit_val_bounds c Hc) as Hd.
  pose proof (digits_val_nonneg s (n * 10 + digit_val c)%Z Hs ltac:(lia)) as Hmono.
  destruct (Ascii.eqb_spec c "_") as [->|_]; [done|]. unfold digit. rewrite Hc.
  destruct (Z.leb_spec 10 (digit_val c)); [lia|].
  change (max_u64 / 10 + 1)%Z with 1844674407370955162%Z. unfold u64. unfold max_u64 in Hv.
  change (2 ^ 64)%Z with 18446744073709551616%Z in *.
  destruct (Z.leb_spec 1844674407370955162 n); [exfalso; lia|]. rewrite (Z.mod_small (n * 10 + digit_val c)); [lia|].
  destruct (Z.ltb_spec (n * 10 + digit_val c) (n * 10)); [lia|]. apply IH; [done|lia|unfold max_u64; lia].
Qed.

Lemma digits_no_underscore s : all_chars is_digit s = true → no_char "_" s = true.
Proof.
  induction s as [|c s IH]; [done|]. simpl. rewrite andb_true_iff. intros [Hc Hs].
  apply no_char_cons. split; [by intros ->|by apply IH].
Qed.

(** Digits, the first of them not 0. *)
Definition decimal (s : string) : Prop :=
  all_chars is_digit s = true ∧ ∃ c s', s = String c s' ∧ c ≠ "0"%char.

Lemma ParseUint0_decimal s :
  decimal s → (digits_val 0 s ≤ max_u64)%Z → ParseUint0 s = Ok (digits_val 0 s).
Proof.
  intros (Hs & c & s' & E & Hc) Hv. unfold ParseUint0.
  assert (radix s = (10, s)%Z) as ->.
  { rewrite E. destruct c as [[] [] [] [] [] [] [] []]; done. }
  assert (String.eqb s "" = false) as -> by by rewrite E.
  rewrite (accumulate_decimal 0 s Hs) //. by rewrite (digits_no_underscore s Hs).
Qed.

(** The decimal notation of a number is stdpp's [pretty]. *)
Lemma pretty_char n : (n < 10)%N → is_digit (pretty_N_char n) = true ∧ digit_val (pretty_N_char n) = Z.of_N n.
Proof.
  intros Hn. assert (n ∈ [0; 1; 2; 3; 4; 5; 6; 7; 8; 9]%N) as Hin by (rewrite !elem_of_cons; lia).
  repeat (apply elem_of_cons in Hin as [->|Hin]; [done|]). by apply not_elem_of_nil in Hin.
Qed.

Lemma pretty_go_digits n s :
  all_chars is_digit s = true →
  all_chars is_digit (pretty_N_go n s) = true ∧ digits_val 0 (pretty_N_go n s) = digits_val (Z.of_N n) s.
Proof.
  revert s. induction (N.lt_wf_0 n) as [n _ IH]; intros s Hs.
  destruct (decide (n = 0)%N) as [->|Hn]; [by rewrite pretty_N_go_0|].
  rewrite pretty_N_go_step; [lia|]. destruct (pretty_char (n `mod` 10)) as [Hd Hv]; [apply N.mod_lt; lia|].
  destruct (IH (n `div` 10)%N) with (s := String (pretty_N_char (n `mod` 10)) s) as [IH1 IH2].
  { apply N.div_lt; lia. }
  { simpl. by rewrite Hd. }
  split; [done|]. rewrite IH2. cbn [digits_val]. rewrite Hv. f_equal.
  pose proof (N.div_mod n 10). lia.
Qed.

Lemma pretty_go_head n s : (0 < n)%N → ∃ c s', pretty_N_go n s = String c s' ∧ c ≠ "0"%char.
Proof.
  revert s. induction (N.lt_wf_0 n) as [n _ IH]; intros s Hn. rewrite pretty_N_go_step; [lia|].
  destruct (decide (n `div` 10 = 0)%N) as [Hz|Hz].
  - rewrite Hz pretty_N_go_0. eexists _, _. split; [done|]. intros Hc.
    assert (n < 10)%N as Hlt by (pose proof (N.div_mod n 10); pose proof (N.mod_lt n 10); lia). rewrite (N.mod_small _ _ Hlt) in Hc.
    destruct (pretty_char n Hlt) as [_ Hv]. rewrite Hc in Hv. change (digit_val "0") with 0%Z in Hv. lia.
  - apply IH; [apply N.div_lt; lia|by apply N.neq_0_lt_0].
Qed.

Lemma pretty_decimal n : (0 < n)%N → decimal (pretty n) ∧ digits_val 0 (pretty n) = Z.of_N n.
Proof.
  intros Hn. assert (pretty n = pretty_N_go n "") as ->.
  { unfold pretty, pretty_N. by rewrite decide_False; [lia|]. }
  destruct (pretty_go_digits n "" eq_refl) as [Hd Hv]. split; [|done]. split; [done|]. by apply pretty_go_head.
Qed.

(** The decimal notation of an int reads back. *)
Lemma ParseInt_pretty n : is_int64 n → ParseInt (pretty n) = Ok n.
Proof.
  unfold is_int64. intros Hn. destruct n as [|p|p]; [done|..].
  - destruct (pretty_decimal (Npos p) eq_refl) as [Hd Hv]. unfold ParseInt.
    change (pretty (Z.pos p)) with (pretty (N.pos p)).
    assert (sign (pretty (N.pos p)) = (false, pretty (N.pos p))) as ->.
    { destruct Hd as (Hall & c & s' & E & _). rewrite E in Hall |- *. simpl in Hall. apply andb_true_iff in Hall as [Hc _].
      destruct c as [[] [] [] [] [] [] [] []]; done. }
    rewrite (ParseUint0_decimal _ Hd); rewrite Hv; [unfold max_u64; lia|].
    simpl. destruct (Z.leb_spec (2 ^ 63) (Z.pos p)); [lia|done].
  - destruct (pretty_decimal (Npos p) eq_refl) as [Hd Hv]. unfold ParseInt.
    change (pretty (Z.neg p)) with (String "-" (pretty (N.pos p))). cbn [sign].
    rewrite (ParseUint0_decimal _ Hd); rewrite Hv; [unfold max_u64; lia|].
    simpl. destruct (Z.ltb_spec (2 ^ 63) (Z.pos p)); [lia|done].
Qed.
