(* ===== verification/Flag.v ===== *)
(** * Go's [flag] package, as far as the programs use it

    Parsing of the command line into boolean, integer and string flags, with the
    errors of the ExitOnError mode (exit code 2, or 0 for -help). *)

From S2P Require Import Prelude GoStrings Url Strconv.

Inductive kind := BoolFlag | IntFlag | StringFlag.

(** strconv.ParseBool *)
Definition ParseBool (s : string) : result bool :=
  if existsb (String.eqb s) ["1"; "t"; "T"; "TRUE"; "true"; "True"] then Ok true
  else if existsb (String.eqb s) ["0"; "f"; "F"; "FALSE"; "false"; "False"] then Ok false
  else Err "invalid syntax".

(** How parsing ends when it fails: on -help, or with a message. *)
Inductive failure := HelpRequested | BadUsage (msg : string).

(** The values of the flags, as strings; those of boolean flags are printed
    booleans, those of integers what they were given as. *)
Definition values : Type := gmap string string.

Definition boolValue (vs : values) (name : string) : bool :=
  match vs !! name with Some v => String.eqb v "true" | None => false end.
Definition intValue (vs : values) (name : string) : Z :=
  match ParseInt (default "" (vs !! name)) with Ok n => n | Err _ => 0 end.
Definition stringValue (vs : values) (name : string) : string := default "" (vs !! name).

(** The name in an argument after its dashes; [None] if the argument is not a
    flag, [Some ""] for the terminator -- alone. *)
Definition flagText (arg : string) : option string :=
  match arg with
  | String "-" (String "-" s) => Some s
  | String "-" (String c s) => Some (String c s)
  | _ => None
  end.

Definition bad_syntax (name : string) : bool :=
  HasPrefix name "-" || HasPrefix name "=" || String.eqb name "".

(** One flag with its value set. *)
Definition set (kinds : gmap string kind) (name : string) (value : string) (vs : values) : failure + values :=
  match kinds !! name with
  | Some BoolFlag =>
      match ParseBool value with
      | Ok b => inr (<[name := (if b then "true" else "false")]> vs)
      | Err e => inl (BadUsage ("invalid boolean value for -" +:+ name +:+ ": " +:+ e))
      end
  | Some IntFlag =>
      match ParseInt value with
      | Ok _ => inr (<[name := value]> vs)
      | Err e => inl (BadUsage ("invalid value for flag -" +:+ name +:+ ": " +:+ e))
      end
  | Some StringFlag => inr (<[name := value]> vs)
  | None =>
      if String.eqb name "help" || String.eqb name "h" then inl HelpRequested
      else inl (BadUsage ("flag provided but not defined: -" +:+ name))
  end.

(** FlagSet.Parse: flags up to the first argument that is none. *)
Fixpoint Parse (kinds : gmap string kind) (arguments : list string) (vs : values) : failure + values :=
  match arguments with
  | [] => inr vs
  | arg :: rest =>
      match flagText arg with
      | None => inr vs
      | Some text =>
          if String.eqb arg "--" then inr vs
          else if bad_syntax text then inl (BadUsage ("bad flag syntax: " +:+ arg))
          else
            let '(name, value) := Cut text "=" in
            match value, kinds !! name with
            | Some v, _ =>
                match set kinds name v vs with inl f => inl f | inr vs' => Parse kinds rest vs' end
            | None, Some BoolFlag => Parse kinds rest (<[name := "true"]> vs)
            | None, Some _ =>
                match rest with
                | v :: rest' => match set kinds name v vs with inl f => inl f | inr vs' => Parse kinds rest' vs' end
                | [] => inl (BadUsage ("flag needs an argument: -" +:+ name))
                end
            | None, None => set kinds name "" vs
            end
      end
  end.

(** ** Theory *)

(** A name as it is declared: no dash in front, no equals sign. *)
Definition flag_name (name : string) : bool := negb (bad_syntax name) && no_char "=" name.

Lemma flag_name_text name : flag_name name = true → flagText (String "-" name) = Some name.
Proof.
  unfold flag_name, bad_syntax. rewrite andb_true_iff negb_true_iff !orb_false_iff. intros [[[Hd _] Hn] _].
  destruct name as [|c name]; [done|]. simpl in *.
  destruct c as [[] [] [] [] [] [] [] []]; try done. by destruct name.
Qed.

(** A flag in front of a command line. *)
Lemma Parse_bool kinds name rest vs :
  flag_name name = true → kinds !! name = Some BoolFlag →
  Parse kinds (String "-" name :: rest) vs = Parse kinds rest (<[name := "true"]> vs).
Proof.
  intros Hn Hk. cbn [Parse]. rewrite (flag_name_text _ Hn).
  pose proof Hn as Hn'. unfold flag_name in Hn'. rewrite andb_true_iff negb_true_iff in Hn'. destruct Hn' as [Hb He].
  rewrite Hb. destruct (String.eqb_spec (String "-" name) "--") as [E|_].
  { injection E as ->. done. }
  by rewrite (Cut_none _ _ He) Hk.
Qed.

(** The text sets the flag to itself. *)
Definition settable (kinds : gmap string kind) (setting : string * string) : Prop :=
  flag_name setting.1 = true ∧
  (kinds !! setting.1 = Some StringFlag ∨
   kinds !! setting.1 = Some IntFlag ∧ ∃ n, ParseInt setting.2 = Ok n).

Lemma Parse_setting kinds name value rest vs :
  settable kinds (name, value) →
  Parse kinds (String "-" name :: value :: rest) vs = Parse kinds rest (<[name := value]> vs).
Proof.
  intros [Hn Hk]. cbn [fst snd] in *. cbn [Parse]. rewrite (flag_name_text _ Hn).
  pose proof Hn as Hn'. unfold flag_name in Hn'. rewrite andb_true_iff negb_true_iff in Hn'. destruct Hn' as [Hb He].
  rewrite Hb. destruct (String.eqb_spec (String "-" name) "--") as [E|_].
  { injection E as ->. done. }
  rewrite (Cut_none _ _ He). unfold set. by destruct Hk as [Hk|[Hk (n & Hv)]]; rewrite Hk; [|rewrite Hv].
Qed.

Lemma Parse_string kinds name value rest vs :
  flag_name name = true → kinds !! name = Some StringFlag →
  Parse kinds (String "-" name :: value :: rest) vs = Parse kinds rest (<[name := value]> vs).
Proof. intros Hn Hk. apply Parse_setting. split; [done|by left]. Qed.

(** Rendering settings as a command line and parsing it gives them back. *)
Definition render (setting : string * string) : list string := [String "-" setting.1; setting.2].

Lemma Parse_render kinds settings rest vs :
  Forall (settable kinds) settings →
  Parse kinds ((settings ≫= render) ++ rest) vs = Parse kinds rest (fold_left (λ vs s, <[s.1 := s.2]> vs) settings vs).
Proof.
  intros Hall. revert vs. induction Hall as [|[n v] settings Hs _ IH]; intros vs; [done|].
  rewrite bind_cons. cbn [render fst snd]. cbn [app]. rewrite (Parse_setting _ _ _ _ _ Hs). apply IH.
Qed.

(** What a flag is set to, when it is set once or not at all. *)
Lemma settings_lookup_other settings (vs : values) k :
  k ∉ settings.*1 → fold_left (λ vs s, <[s.1 := s.2]> vs) settings vs !! k = vs !! k.
Proof.
  revert vs. induction settings as [|[m u] settings IH]; intros vs; [done|]. rewrite fmap_cons not_elem_of_cons.
  cbn [fst snd fold_left]. intros [Hm Hn]. rewrite (IH _ Hn). apply lookup_insert_ne. congruence.
Qed.

Lemma settings_lookup settings (vs : values) k v :
  NoDup settings.*1 → (k, v) ∈ settings → fold_left (λ vs s, <[s.1 := s.2]> vs) settings vs !! k = Some v.
Proof.
  revert vs. induction settings as [|[n w] settings IH]; intros vs; [by intros _ []%not_elem_of_nil|].
  rewrite fmap_cons. cbn [fst]. intros [Hn Hnd]%NoDup_cons Hin. simpl. apply elem_of_cons in Hin as [E|Hin]; [|by apply IH].
  injection E as <- <-. rewrite (settings_lookup_other _ _ _ Hn). apply lookup_insert_eq.
Qed.
