(* ===== verification/K8sUtil.v ===== *)
(** * pkg/k8sutil: where the process runs

    The environment variables and the files of the process are parameters
    ([OS]), as are the constructors of client configurations and clients
    ([Clients]). *)

From S2P Require Import Prelude GoStrings.

(** ** The operating system *)

(** A file read: its contents, that it does not exist, or another error. *)
Inductive file := Contents (s : string) | NotExist | Unreadable (err : error).

Class OS := {
  LookupEnv : string → option string;
  ReadFile : string → file;
}.

(** os.Getenv *)
Definition Getenv `{OS} (key : string) : string := default "" (LookupEnv key).

(** strings.TrimSpace, on ASCII. *)
Definition isSpace (c : ascii) : bool :=
  existsb (Ascii.eqb c) [" "; "009"; "010"; "011"; "012"; "013"]%char.

Fixpoint TrimLeft (s : string) : string :=
  match s with
  | String c s' => if isSpace c then TrimLeft s' else s
  | EmptyString => s
  end.

(** Drops the spaces that nothing else follows. *)
Fixpoint TrimRight (s : string) : string :=
  match s with
  | String c s' =>
      let t := TrimRight s' in
      if isSpace c && String.eqb t "" then "" else String c t
  | EmptyString => ""
  end.

Definition TrimSpace (s : string) : string := TrimRight (TrimLeft s).

(** ** The package *)

Definition LocalRunMode : string := "local".
Definition ClusterRunMode : string := "cluster".
Definition OperatorNameEnvVar : string := "OPERATOR_NAME".
Definition ForceRunModeEnv : string := "OSDK_FORCE_RUN_MODE".
Definition ErrNoNamespace : error := "namespace not found for current environment".
Definition ErrRunLocal : error := "operator run mode forced to local".

(** client-go and controller-runtime. *)
Class Clients := {
  restConfig : Type;
  Client : Type;
  BuildConfigFromFlags : string → result restConfig;
  InClusterConfig : result restConfig;
  NewClient : restConfig → result Client;
}.

Section K8sUtil.
Context `{OS}.

Definition buildConfig `{Clients} (kubeconfig : string) : result restConfig :=
  if negb (String.eqb kubeconfig "") then
    match BuildConfigFromFlags kubeconfig with Err err => Err err | Ok cfg => Ok cfg end
  else match InClusterConfig with Err err => Err err | Ok cfg => Ok cfg end.

Definition KubeClient `{Clients} : result Client :=
  match buildConfig (Getenv "KUBECONFIG") with
  | Err err => Err err
  | Ok config => match NewClient config with Err err => Err err | Ok c => Ok c end
  end.

Definition isRunModeLocal : bool := String.eqb (Getenv ForceRunModeEnv) LocalRunMode.

Definition namespaceFile : string := "/var/run/secrets/kubernetes.io/serviceaccount/namespace".

Definition GetOperatorNamespace : result string :=
  if isRunModeLocal then Err ErrRunLocal
  else match ReadFile namespaceFile with
  | NotExist => Err ErrNoNamespace
  | Unreadable err => Err err
  | Contents nsBytes => Ok (TrimSpace nsBytes)
  end.

Definition GetOperatorName : result string :=
  match LookupEnv OperatorNameEnvVar with
  | None => Err (OperatorNameEnvVar +:+ " must be set")
  | Some operatorName =>
      if String.length operatorName =? 0 then Err (OperatorNameEnvVar +:+ " must not be empty")
      else Ok operatorName
  end.
End K8sUtil.

(** ** Theory *)

Definition spaces (s : string) : bool := all_chars isSpace s.

(** Neither end of the string is a space. *)
Definition trimmed (s : string) : Prop :=
  TrimLeft s = s ∧ TrimRight s = s.

Lemma TrimLeft_split s : ∃ a, spaces a = true ∧ s = a +:+ TrimLeft s.
Proof.
  induction s as [|c s (a & Ha & E)]; [by exists ""|]. simpl. destruct (isSpace c) eqn:Ec; [|by exists ""].
  exists (String c a). simpl. unfold spaces in *. simpl. by rewrite Ec -E.
Qed.

Lemma TrimRight_split s : ∃ b, spaces b = true ∧ s = TrimRight s +:+ b.
Proof.
  induction s as [|c s (b & Hb & E)]; [by exists ""|]. simpl.
  destruct (isSpace c) eqn:Ec; simpl; [|exists b; split; [done|]; simpl; by rewrite {1}E].
  destruct (String.eqb_spec (TrimRight s) "") as [Et|_]; [|exists b; split; [done|]; simpl; by rewrite {1}E].
  exists (String c b). unfold spaces in *. simpl. rewrite Ec. split; [done|]. by rewrite {1}E Et.
Qed.

Lemma TrimLeft_idem s : TrimLeft (TrimLeft s) = TrimLeft s.
Proof. induction s as [|c s IH]; simpl; [done|]. destruct (isSpace c) eqn:Ec; [done|]. simpl. by rewrite Ec. Qed.

Lemma TrimRight_idem s : TrimRight (TrimRight s) = TrimRight s.
Proof.
  induction s as [|c s IH]; simpl; [done|]. destruct (isSpace c && String.eqb (TrimRight s) "") eqn:E; [done|].
  simpl. by rewrite IH E.
Qed.

(** Trimming the right end leaves a left end that is no space. *)
Lemma TrimLeft_TrimRight s : TrimLeft s = s → TrimLeft (TrimRight s) = TrimRight s.
Proof.
  destruct s as [|c s]; [done|]. simpl. destruct (isSpace c) eqn:Ec; simpl; [|by rewrite Ec].
  intros E. pose proof (TrimLeft_split s) as (a & _ & E'). rewrite E in E'.
  apply (f_equal String.length) in E'. rewrite str_length_app in E'. simpl in E'. lia.
Qed.

Lemma TrimSpace_split s :
  ∃ a b, spaces a = true ∧ spaces b = true ∧ s = a +:+ TrimSpace s +:+ b ∧ trimmed (TrimSpace s).
Proof.
  destruct (TrimLeft_split s) as (a & Ha & E). destruct (TrimRight_split (TrimLeft s)) as (b & Hb & E').
  exists a, b. split; [done|]. split; [done|]. unfold TrimSpace, trimmed. split; [by rewrite {1}E {1}E'|].
  split; [apply TrimLeft_TrimRight, TrimLeft_idem|apply TrimRight_idem].
Qed.

Lemma TrimLeft_spaces a s : spaces a = true → TrimLeft (a +:+ s) = TrimLeft s.
Proof.
  induction a as [|c a IH]; [done|]. unfold spaces in *. simpl. rewrite andb_true_iff. intros [-> Ha]. by apply IH.
Qed.

Lemma TrimRight_spaces s b : spaces b = true → TrimRight (s +:+ b) = TrimRight s.
Proof.
  intros Hb. induction s as [|c s IH]; simpl; [|by rewrite IH].
  induction b as [|c b IHb]; [done|]. unfold spaces in *. simpl in *. rewrite andb_true_iff in Hb.
  destruct Hb as [-> Hb]. by rewrite (IHb Hb).
Qed.

(** The trimmed middle is determined. *)
Lemma TrimSpace_unique a s b :
  spaces a = true → spaces b = true → trimmed s → TrimSpace (a +:+ s +:+ b) = s.
Proof.
  intros Ha Hb [Hl Hr]. unfold TrimSpace. rewrite (TrimLeft_spaces _ _ Ha).
  destruct s as [|c s].
  - simpl. rewrite -(str_app_nil_r b) (TrimLeft_spaces _ _ Hb). done.
  - assert (isSpace c = false) as Hc.
    { apply not_true_iff_false. intros Hc. simpl in Hl. rewrite Hc in Hl.
      destruct (TrimLeft_split s) as (a' & _ & E'). rewrite Hl in E'.
      apply (f_equal String.length) in E'. rewrite str_length_app in E'. simpl in E'. lia. }
    assert (TrimLeft (String c s +:+ b) = String c s +:+ b) as -> by (simpl; by rewrite Hc).
    by rewrite (TrimRight_spaces _ _ Hb).
Qed.

(** The namespace of the operator.  The answer is an error exactly when local
    mode is forced (then ErrRunLocal, whatever the files hold) or the service
    account's file cannot be read; otherwise it is the contents of the file
    without the white space at both ends, and nothing else is cut off. *)
Theorem operator_namespace `{OS} ns :
  GetOperatorNamespace = Ok ns ↔
  LookupEnv ForceRunModeEnv ≠ Some LocalRunMode ∧
  ∃ a b, ReadFile namespaceFile = Contents (a +:+ ns +:+ b) ∧
    spaces a = true ∧ spaces b = true ∧ trimmed ns.
Proof.
  unfold GetOperatorNamespace, isRunModeLocal, Getenv.
  assert (String.eqb (default "" (LookupEnv ForceRunModeEnv)) LocalRunMode = true ↔
    LookupEnv ForceRunModeEnv = Some LocalRunMode) as Hmode.
  { rewrite String.eqb_eq. destruct (LookupEnv ForceRunModeEnv) as [v|]; simpl; [|done].
    split; [by intros ->|by intros [= ->]]. }
  destruct (String.eqb (default _ _) _) eqn:Em in |- *; [apply Hmode in Em; naive_solver|].
  apply (bool_iff _ _ Hmode) in Em. split.
  - destruct (ReadFile namespaceFile) as [s| |e]; [|done..]. intros [= <-]. split; [done|].
    destruct (TrimSpace_split s) as (a & b & Ha & Hb & E & Ht). exists a, b. by rewrite -E.
  - intros (_ & a & b & -> & Ha & Hb & Ht). by rewrite TrimSpace_unique.
Qed.

(** ** Witnesses *)

Module Witness.
(** A pod's environment; the file ends in a newline. *)
#[local] Instance os : OS := {|
  LookupEnv := λ key, None;
  ReadFile := λ path, if String.eqb path namespaceFile
    then Contents ("openshift-validation-webhook" +:+ String "010" EmptyString) else NotExist |}.

Lemma operator_namespace_at : GetOperatorNamespace = Ok "openshift-validation-webhook".
Proof. reflexivity. Qed.
End Witness.
