(* ===== verification/Dispatcher.v ===== *)
(** * pkg/dispatcher, pkg/helpers and the request parsing of pkg/webhooks/utils

    How an HTTP request reaches a webhook and how the answer is written.  The
    JSON codecs of the Kubernetes API machinery are parameters ([Codec]); the
    HTTP request and the response writer are records with what the code uses. *)

From S2P Require Import Prelude GoStrings Admission Utils Webhook Url.

(** ** HTTP *)

(** http.Request: RequestURI, the body (nil, or what reading it gives) and the
    Content-Type header. *)
Record HTTPRequest := {
  RequestURI : string;
  Body : option (result string);
  ContentType : string;
}.

(** admissionv1.AdmissionReview, as it is sent. *)
Record AdmissionReview := {
  ar_APIVersion : string;
  ar_Kind : string;
  ar_Response : Response;
}.

(** http.ResponseWriter: the status line, once it is decided, and the reviews
    written to the body. *)
Record Writer := { status : option Z; reviews : list AdmissionReview }.

Definition newWriter : Writer := {| status := None; reviews := [] |}.

(** The first call decides. *)
Definition WriteHeader (code : Z) (w : Writer) : Writer :=
  {| status := match status w with Some c => Some c | None => Some code end; reviews := reviews w |}.

(** Writing a body decides for 200 if nothing was decided. *)
Definition write (review : AdmissionReview) (w : Writer) : Writer :=
  {| status := Some (default StatusOK (status w)); reviews := reviews w ++ [review] |}.

(** What is called of third-party code: decoding an AdmissionReview gives its
    request, which may be nil; encoding one to the writer may fail, and then
    nothing of it is written; parsing the authority of a URL may fail. *)
Class Codec := {
  DecodeReview : string → result (option Request);
  EncodeError : Writer → AdmissionReview → option error;
  parseAuthority : string → option error;
}.

Section Dispatcher.
Context `{AdmissionCtl} `{Codec}.

(** ** utils.ParseHTTPRequest *)

Definition zeroRequest : Request := {|
  req_UID := ""; req_Kind := {| gvk_Group := ""; gvk_Version := ""; gvk_Kind := "" |};
  req_RequestKind := None; req_Name := ""; req_Namespace := ""; req_Operation := "";
  req_UserInfo := {| Username := ""; Groups := [] |};
  req_Object := {| Raw := "" |}; req_OldObject := {| Raw := "" |} |}.

Definition zeroResponse : Response := {|
  resp_UID := ""; resp_Allowed := false; resp_Result := None; resp_Patches := [];
  resp_Patch := ""; resp_AuditAnnotations := None |}.

(** A return with an error: the zero request and an error response. *)
Definition parseFailure (err : error) : Request * Response * option error :=
  (zeroRequest, Errored StatusBadRequest err, Some err).

Definition ParseHTTPRequest (r : HTTPRequest) : Request * Response * option error :=
  match Body r with
  | None => parseFailure "request body is nil"
  | Some (Err err) => parseFailure err
  | Some (Ok body) =>
      if String.length body =? 0 then parseFailure "request body is empty"
      else
        let contentType := ContentType r in
        if negb (String.eqb contentType validContentType) then
          parseFailure ("contentType=" +:+ contentType +:+ ", expected application/json")
        else match DecodeReview body with
        | Err err => parseFailure err
        | Ok None => parseFailure "No request in request body"
        | Ok (Some request) => (request, withUID (req_UID request) zeroResponse, None)
        end
  end.

(** ** helpers.SendResponse *)

Definition auditAnnotations : gmap string string := {["owner" := "srep-managed-webhook"]}.

Definition withAudit (resp : Response) : Response := {|
  resp_UID := resp_UID resp; resp_Allowed := resp_Allowed resp; resp_Result := resp_Result resp;
  resp_Patches := resp_Patches resp; resp_Patch := resp_Patch resp;
  resp_AuditAnnotations := Some auditAnnotations |}.

Definition reviewOf (resp : Response) : AdmissionReview := {|
  ar_APIVersion := "admission.k8s.io/v1"; ar_Kind := "AdmissionReview"; ar_Response := resp |}.

(** The function calls itself when encoding fails.  [stack] is how many nested
    calls the goroutine's stack has room for. *)
Fixpoint SendResponse (stack : nat) (w : Writer) (resp : Response) : outcome Writer :=
  match stack with
  | O => Panicked "stack overflow"
  | S stack' =>
      let responseAdmissionReview := reviewOf (withAudit resp) in
      match EncodeError w responseAdmissionReview with
      | Some err => SendResponse stack' w (Errored StatusInternalServerError err)
      | None => Returned (write responseAdmissionReview w)
      end
  end.

(** Exhausting the stack is fatal: the process ends with code 2, and no deferred
    call runs.  Any other panic ends with its request, net/http recovers. *)
Definition fatal (o : outcome Writer) : bool :=
  match o with Panicked why => String.eqb why "stack overflow" | Returned _ => false end.

(** ** Dispatcher *)

(** URI -> hook factory. *)
Definition Dispatcher : Type := gmap string Webhook.

(** The loop over the registered hooks, in the order the range visits them. *)
Definition buildHookMap (order : list Webhook) : Dispatcher :=
  fold_left (λ hookMap hook, <[wh_GetURI hook := hook]> hookMap) order ∅.

(** Ranging over a map visits each entry once, in an order Go leaves open. *)
Definition NewDispatcher (hooks : RegisteredWebhooks) (d : Dispatcher) : Prop :=
  ∃ order, order ≡ₚ (map_to_list hooks).*2 ∧ d = buildHookMap order.

(** [HandleRequest] holds the dispatcher's lock from start to end (also when a
    handler panics: the unlock is deferred), so requests are handled one after
    the other.  [stack] is the stack of [SendResponse]. *)
Definition HandleRequest (stack : nat) (d : Dispatcher) (r : HTTPRequest) (w : Writer) : M Writer :=
  match Parse parseAuthority (RequestURI r) with
  | Err err =>
      lift_outcome (SendResponse stack (WriteHeader StatusBadRequest w) (Errored StatusBadRequest err))
  | Ok path =>
      match d !! path with
      | Some hook =>
          let '(request, _, err) := ParseHTTPRequest r in
          match err with
          | Some err =>
              lift_outcome (SendResponse stack (WriteHeader StatusBadRequest w) (Errored StatusBadRequest err))
          | None =>
              if negb (wh_Validate hook request) then
                lift_outcome (SendResponse stack w (Errored StatusBadRequest "not a valid webhook request"))
              else
                resp ← wh_Authorized hook request;
                lift_outcome (SendResponse stack w resp)
          end
      | None =>
          lift_outcome (SendResponse stack (WriteHeader StatusNotFound w)
            (Errored StatusBadRequest "request is not for a registered webhook"))
      end
  end.

(** A run of the server: the requests it handles, one after the other, each with
    a writer of its own. *)
Fixpoint serve (stack : nat) (d : Dispatcher) (rs : list HTTPRequest) (world : World) :
    list (outcome Writer) * World :=
  match rs with
  | [] => ([], world)
  | r :: rest =>
      let '(o, world') := HandleRequest stack d r newWriter world in
      let '(os, world'') := serve stack d rest world' in
      (o :: os, world'')
  end.

End Dispatcher.

(** ** The table of hooks *)

Lemma buildHookMap_snoc order h :
  buildHookMap (order ++ [h]) = <[wh_GetURI h := h]> (buildHookMap order).
Proof. unfold buildHookMap. by rewrite fold_left_app. Qed.

Lemma buildHookMap_lookup order uri h :
  NoDup (wh_GetURI <$> order) →
  buildHookMap order !! uri = Some h ↔ h ∈ order ∧ wh_GetURI h = uri.
Proof.
  induction order as [|x order IH] using rev_ind; intros Hnd.
  { unfold buildHookMap. simpl. rewrite lookup_empty. split; [done|]. intros [Hin _].
    by apply not_elem_of_nil in Hin. }
  rewrite fmap_app in Hnd. apply NoDup_app in Hnd as (Hnd & Hx & _).
  rewrite buildHookMap_snoc lookup_insert_Some elem_of_app list_elem_of_singleton.
  rewrite (IH Hnd). split.
  - intros [[E ->] | (Hne & Hin & E)]; auto.
  - intros [[Hin | ->] E]; [|by auto]. right. split; [|done]. intros Ex.
    apply (Hx (wh_GetURI h)); [apply list_elem_of_fmap; eauto|].
    apply list_elem_of_singleton. simpl. congruence.
Qed.

(** No two hooks of the registry have one URI. *)
Definition distinct_uris (hooks : RegisteredWebhooks) : Prop :=
  ∀ n1 n2 h1 h2, hooks !! n1 = Some h1 → hooks !! n2 = Some h2 →
    wh_GetURI h1 = wh_GetURI h2 → n1 = n2.

Lemma distinct_uris_NoDup hooks : distinct_uris hooks → NoDup (wh_GetURI <$> (map_to_list hooks).*2).
Proof.
  intros Hd. rewrite -list_fmap_compose. apply NoDup_fmap_2_strong; [|apply NoDup_map_to_list].
  intros [n1 h1] [n2 h2] L1%elem_of_map_to_list L2%elem_of_map_to_list E. simpl in E.
  pose proof (Hd _ _ _ _ L1 L2 E) as ->. simpl in L1, L2. congruence.
Qed.

Lemma dispatcher_lookup hooks d uri h :
  distinct_uris hooks → NewDispatcher hooks d →
  d !! uri = Some h ↔ ∃ name, hooks !! name = Some h ∧ wh_GetURI h = uri.
Proof.
  intros Hd (order & Hperm & ->).
  rewrite buildHookMap_lookup; [rewrite Hperm; by apply distinct_uris_NoDup|].
  rewrite Hperm list_elem_of_fmap. split.
  - intros [((n & h') & -> & Hin%elem_of_map_to_list) E]. eauto.
  - intros (name & Hin & E). split; [|done]. exists (name, h). by rewrite elem_of_map_to_list.
Qed.

(** ** Sending *)

Section Theory.
Context `{AdmissionCtl, !AdmissionCtlLaws} `{Codec}.

(** The encoder takes what it is given here: the response itself, or, when that
    cannot be encoded, the error response. *)
Lemma SendResponse_first stack w resp :
  EncodeError w (reviewOf (withAudit resp)) = None →
  SendResponse (S stack) w resp = Returned (write (reviewOf (withAudit resp)) w).
Proof. intros E. simpl. by rewrite E. Qed.

(** What a call that returns has written: one review, of the response or of an
    error response. *)
Lemma SendResponse_returned stack w resp w' :
  SendResponse stack w resp = Returned w' →
  ∃ resp', w' = write (reviewOf (withAudit resp')) w ∧
    (resp' = resp ∨ ∃ e, resp' = Errored StatusInternalServerError e).
Proof.
  revert resp. induction stack as [|stack IH]; intros resp; simpl; [done|].
  destruct (EncodeError _ _) as [e|]; [|intros [= <-]; eauto].
  intros Hr. destruct (IH _ Hr) as (resp' & -> & [->|[e' ->]]); eauto 10.
Qed.

(** An encoder that keeps failing drives [SendResponse] into its own
    recursion until the stack is exhausted, however large it is; nothing is
    written. *)
Theorem send_response_diverges w resp :
  (∀ review, EncodeError w review ≠ None) →
  ∀ stack, SendResponse stack w resp = Panicked "stack overflow".
Proof.
  intros Hf stack. revert resp. induction stack as [|stack IH]; intros resp; simpl; [done|].
  destruct (EncodeError w _) as [e|] eqn:E; [apply IH|]. by destruct (Hf _ E).
Qed.

(** C36: Two frames of stack are enough when error responses can be encoded:
    [SendResponse] returns, having written exactly one review with the audit
    annotation, which allows only if the given response does. *)
Theorem send_response_total stack w resp :
  (∀ e, EncodeError w (reviewOf (withAudit (Errored StatusInternalServerError e))) = None) →
  ∃ resp', SendResponse (S (S stack)) w resp = Returned (write (reviewOf (withAudit resp')) w) ∧
    (EncodeError w (reviewOf (withAudit resp)) = None → resp' = resp) ∧
    (resp_Allowed resp' = true → resp' = resp).
Proof.
  intros He. simpl. destruct (EncodeError w (reviewOf (withAudit resp))) as [e|] eqn:E.
  - rewrite He. exists (Errored StatusInternalServerError e). split; [done|]. split; [done|].
    by rewrite Errored_denied.
  - by exists resp.
Qed.

(** ** Handling *)

Lemma Errored_not_allowed c e : resp_Allowed (withAudit (Errored c e)) ≠ true.
Proof. simpl. by rewrite Errored_denied. Qed.

(** The table the dispatcher builds does not depend on the order in which the
    map of hooks is traversed, as long as no two hooks share a URI. *)
Theorem dispatcher_order_irrelevant hooks d1 d2 :
  distinct_uris hooks → NewDispatcher hooks d1 → NewDispatcher hooks d2 → d1 = d2.
Proof.
  intros Hd N1 N2. apply map_eq. intros uri. apply option_eq. intros h.
  by rewrite (dispatcher_lookup _ _ _ _ Hd N1) (dispatcher_lookup _ _ _ _ Hd N2).
Qed.

(** The status line of the answer. *)
Definition expectedStatus (d : Dispatcher) (r : HTTPRequest) : Z :=
  match Parse parseAuthority (RequestURI r) with
  | Err _ => StatusBadRequest
  | Ok path =>
      match d !! path with
      | None => StatusNotFound
      | Some _ =>
          match (ParseHTTPRequest r).2 with Some _ => StatusBadRequest | None => StatusOK end
      end
  end.

(** One call of [SendResponse] on a writer nothing was written to. *)
Lemma SendResponse_answer stack w0 resp w' :
  reviews w0 = [] → SendResponse stack w0 resp = Returned w' →
  status w' = Some (default StatusOK (status w0)) ∧
  ∃ review, reviews w' = [review] ∧
    (resp_Allowed (ar_Response review) = true →
     resp_Allowed resp = true ∧ ar_Response review = withAudit resp).
Proof.
  intros Hw (resp' & -> & Hor)%SendResponse_returned. split; [done|].
  exists (reviewOf (withAudit resp')). simpl. rewrite Hw. split; [done|].
  destruct Hor as [->|[e ->]]; [done|]. by rewrite Errored_denied.
Qed.

(** Answers that no hook had a say in. *)
Lemma SendResponse_error stack w0 c e w' :
  reviews w0 = [] → SendResponse stack w0 (Errored c e) = Returned w' →
  status w' = Some (default StatusOK (status w0)) ∧
  ∃ review, reviews w' = [review] ∧ resp_Allowed (ar_Response review) = false.
Proof.
  intros Hw Hsend. apply (SendResponse_answer _ _ _ _ Hw) in Hsend as (Hs & review & Hr & Ha).
  split; [done|].
  exists review. split; [done|]. apply not_true_iff_false. intros Ht.
  destruct (Ha Ht) as [He _]. by rewrite Errored_denied in He.
Qed.

Lemma ParseHTTPRequest_ok r req resp :
  ParseHTTPRequest r = (req, resp, None) → resp = withUID (req_UID req) zeroResponse.
Proof.
  unfold ParseHTTPRequest, parseFailure. destruct (Body r) as [[body|]|]; [|done..].
  destruct (_ =? 0); [done|]. destruct (negb _); [done|].
  destruct (DecodeReview body) as [[request|]|]; [|done..]. by intros [= <- <-].
Qed.

(** Nothing but a hook's own verdict lets a request through.  A request that
    is handled is answered with one review, under the status the documentation
    of the handler promises; if the review allows, the path of the URI is that of
    a registered webhook, the body holds an admission request which the webhook
    finds valid, and the review is the webhook's allowing response. *)
Lemma handle_sound stack hooks d r world w' world' :
  distinct_uris hooks → NewDispatcher hooks d →
  HandleRequest stack d r newWriter world = (Returned w', world') →
  status w' = Some (expectedStatus d r) ∧
  ∃ review, reviews w' = [review] ∧
    (resp_Allowed (ar_Response review) = true →
     ∃ name hook req resp,
       hooks !! name = Some hook ∧ Parse parseAuthority (RequestURI r) = Ok (wh_GetURI hook) ∧
       ParseHTTPRequest r = (req, withUID (req_UID req) zeroResponse, None) ∧
       wh_Validate hook req = true ∧ wh_Authorized hook req world = (Returned resp, world') ∧
       ar_Response review = withAudit resp).
Proof.
  intros Hd Hnew. unfold HandleRequest, expectedStatus.
  destruct (Parse parseAuthority (RequestURI r)) as [path|e].
  2:{ intros [= Hs <-]. destruct (SendResponse_error _ _ _ _ _ (eq_refl : reviews (WriteHeader _ newWriter) = []) Hs) as (-> & review & Hr & Ha).
      split; [done|]. exists review. rewrite Ha. done. }
  destruct (d !! path) as [hook|] eqn:Eh.
  2:{ intros [= Hs <-]. destruct (SendResponse_error _ _ _ _ _ (eq_refl : reviews (WriteHeader _ newWriter) = []) Hs) as (-> & review & Hr & Ha).
      split; [done|]. exists review. rewrite Ha. done. }
  apply (dispatcher_lookup _ _ _ _ Hd Hnew) in Eh as (name & Hname & <-).
  destruct (ParseHTTPRequest r) as [[req resp0] [e|]] eqn:Ep; simpl.
  { intros [= Hs <-]. destruct (SendResponse_error _ _ _ _ _ (eq_refl : reviews (WriteHeader _ newWriter) = []) Hs) as (-> & review & Hr & Ha).
    split; [done|]. exists review. rewrite Ha. done. }
  rewrite (ParseHTTPRequest_ok _ _ _ Ep). destruct (wh_Validate hook req) eqn:Ev; simpl.
  2:{ intros [= Hs <-]. destruct (SendResponse_error _ newWriter _ _ _ eq_refl Hs) as (-> & review & Hr & Ha).
      split; [done|]. exists review. rewrite Ha. done. }
  unfold mbind, M_bind, lift_outcome.
  destruct (wh_Authorized hook req world) as [[resp|why] w1] eqn:Ea; [|done]. intros [= Hs <-].
  destruct (SendResponse_answer _ newWriter _ _ eq_refl Hs) as (-> & review & Hr & Ha).
  split; [done|]. exists review. split; [done|]. intros Ht. destruct (Ha Ht) as [_ ->].
  exists name, hook, req, resp. done.
Qed.

(** A well-formed request is routed to its webhook.  When the URI is the
    webhook's path, with or without a query, the body parses to a request the
    webhook finds valid, and the webhook's response can be encoded, the handler
    answers 200 with that response, whatever the stack. *)
Lemma handle_request_routed stack hooks d r world name hook req resp world' :
  distinct_uris hooks → NewDispatcher hooks d →
  hooks !! name = Some hook → plain_path (wh_GetURI hook) = true →
  (RequestURI r = wh_GetURI hook ∨
   ∃ query, printable query = true ∧ no_char "#" query = true ∧
     RequestURI r = wh_GetURI hook +:+ String "?" query) →
  (ParseHTTPRequest r).1.1 = req → (ParseHTTPRequest r).2 = None →
  wh_Validate hook req = true → wh_Authorized hook req world = (Returned resp, world') →
  EncodeError newWriter (reviewOf (withAudit resp)) = None →
  HandleRequest (S stack) d r newWriter world =
    (Returned {| status := Some StatusOK; reviews := [reviewOf (withAudit resp)] |}, world').
Proof.
  intros Hd Hnew Hh Hplain Huri Hreq Herr Hv Ha He.
  assert (Parse parseAuthority (RequestURI r) = Ok (wh_GetURI hook)) as Hp.
  { destruct Huri as [->|(query & Hq & Hf & ->)]; [by apply Parse_plain|by apply Parse_query]. }
  assert (d !! wh_GetURI hook = Some hook) as Hl by (apply (dispatcher_lookup _ _ _ _ Hd Hnew); eauto).
  unfold HandleRequest. rewrite Hp Hl.
  destruct (ParseHTTPRequest r) as [[req' resp0] err]; simpl in Hreq, Herr; subst req' err.
  rewrite Hv. unfold mbind, M_bind. cbn [negb]. cbv beta iota. rewrite Ha. unfold lift_outcome.
  by rewrite (SendResponse_first _ _ _ He).
Qed.

(** ** Runs *)

(** What the theorems on runs ask of the hooks. *)
Definition lawful (hooks : RegisteredWebhooks) : Prop :=
  ∀ name hook, hooks !! name = Some hook → WebhookLaws hook.

Lemma HandleRequest_effects stack hooks d r w :
  distinct_uris hooks → NewDispatcher hooks d → lawful hooks →
  (∀ world1 world2, fst (HandleRequest stack d r w world1) = fst (HandleRequest stack d r w world2)) ∧
  (∀ world user, blockedCount world user ≤ blockedCount (snd (HandleRequest stack d r w world)) user).
Proof.
  intros Hd Hnew Hl. unfold HandleRequest.
  destruct (Parse parseAuthority (RequestURI r)) as [path|e]; [|done].
  destruct (d !! path) as [hook|] eqn:Eh; [|done].
  apply (dispatcher_lookup _ _ _ _ Hd Hnew) in Eh as (name & Hname & _).
  specialize (Hl _ _ Hname). destruct (ParseHTTPRequest r) as [[req resp0] [e|]]; [done|].
  destruct (negb _); [done|]. unfold mbind, M_bind, lift_outcome. split.
  - intros world1 world2. pose proof (hook_stateless req world1 world2) as Hs.
    destruct (wh_Authorized hook req world1) as [[r1|] w1], (wh_Authorized hook req world2) as [[r2|] w2];
      simpl in *; congruence.
  - intros world user. pose proof (hook_monotone req world user) as Hm.
    by destruct (wh_Authorized hook req world) as [[r1|] w1].
Qed.

(** Requests do not influence each other.  In any run of the server each
    request is answered as it would be on its own, whatever was handled before
    and whatever had been counted, and the counters of blocked requests never go
    down. *)
Lemma serve_alone stack hooks d rs world :
  distinct_uris hooks → NewDispatcher hooks d → lawful hooks →
  (∀ world0, fst (serve stack d rs world) =
     (λ r, fst (HandleRequest stack d r newWriter world0)) <$> rs) ∧
  (∀ user, blockedCount world user ≤ blockedCount (snd (serve stack d rs world)) user).
Proof.
  intros Hd Hnew Hl. revert world. induction rs as [|r rs IH]; intros world; [done|]. simpl.
  destruct (HandleRequest_effects stack hooks d r newWriter Hd Hnew Hl) as [Hs Hm].
  destruct (HandleRequest stack d r newWriter world) as [o world1] eqn:E.
  destruct (IH world1) as [IHf IHm]. destruct (serve stack d rs world1) as [os world2]. simpl in *. split.
  - intros world0. f_equal; [|apply IHf]. by rewrite (Hs world0 world) E.
  - intros user. specialize (Hm world user). rewrite E in Hm. simpl in Hm. specialize (IHm user). lia.
Qed.
End Theory.

(** ** Witnesses *)

Module Witness.
#[local] Existing Instance exampleCtl.
#[local] Existing Instance exampleCtl_laws.

Definition denial : Response := exampleValidationResponse false "no".

(** An encoder that never works, and one that only takes error responses. *)
Definition broken : Codec := {|
  DecodeReview := λ _, Err "cannot decode"; EncodeError := λ _ _, Some "broken pipe"; parseAuthority := λ _, None |}.
Definition picky : Codec := {|
  DecodeReview := λ _, Err "cannot decode";
  EncodeError := λ _ review,
    match resp_Result (ar_Response review) with
    | Some s => if Z.eqb (status_Code s) StatusInternalServerError then None else Some "cannot encode"
    | None => Some "cannot encode"
    end;
  parseAuthority := λ _, None |}.

Lemma send_response_diverges_witness :
  @SendResponse exampleCtl broken 1000 newWriter denial = Panicked "stack overflow".
Proof. apply (send_response_diverges (H1 := broken)). discriminate. Defined.

Lemma send_response_total_witness :
  ∃ resp', @SendResponse exampleCtl picky 2 newWriter denial = Returned (write (reviewOf (withAudit resp')) newWriter) ∧
    (@EncodeError picky newWriter (reviewOf (withAudit denial)) = None → resp' = denial) ∧
    (resp_Allowed resp' = true → resp' = denial).
Proof. apply (send_response_total (H1 := picky)). reflexivity. Defined.
End Witness.
