(* ===== verification/Server.v ===== *)
(** * cmd/main.go and the server as a whole

    The loop of [main] that hooks every registered webhook up with the HTTP
    server, and the theorems about the program that is put together: the
    registry, the dispatcher built from it, and the handlers. *)

From S2P Require Import Prelude GoStrings Admission Utils Webhook Url Registry Dispatcher.
From S2P Require Namespace RegularUser ClusterLogging Service NetworkOperator PodImageSpec Pod Node.
From S2P Require ClusterRole ClusterRoleBinding ServiceAccount SCC PrometheusRule NetworkPolicies.
From S2P Require ImageContentPolicies IngressController CustomResourceDefinitions SdnMigration TechPreviewNoUpgrade.
From S2P Require HostedCluster.

(** ** The loop over the webhooks in main *)

(** http.HandleFunc on the default mux: panics on an empty pattern and on one
    that is registered already. *)
Definition HandleFunc (pattern : string) (mux : gset string) : outcome (gset string) :=
  if String.eqb pattern "" then Panicked "http: invalid pattern"
  else if bool_decide (pattern ∈ mux) then Panicked "http: multiple registrations"
  else Returned ({[pattern]} ∪ mux).

(** [seen] is keyed by name in one place and by URI in the other. *)
Fixpoint listen (order : list (string * Webhook)) (seen mux : gset string) : outcome (gset string) :=
  match order with
  | [] => Returned mux
  | (name, realHook) :: rest =>
      if bool_decide (wh_GetURI realHook ∈ seen) then
        Panicked ("Duplicate webhook trying to listen on " +:+ wh_GetURI realHook)
      else
        let seen := {[name]} ∪ seen in
        mux ← HandleFunc (wh_GetURI realHook) mux;
        listen rest seen mux
  end.

(** ** Theory *)

Lemma HandleFunc_fresh pattern mux :
  pattern ≠ "" → pattern ∉ mux → HandleFunc pattern mux = Returned ({[pattern]} ∪ mux).
Proof.
  intros Hne%String.eqb_neq Hin. unfold HandleFunc. by rewrite Hne bool_decide_eq_false_2.
Qed.

Lemma listen_distinct order seen mux :
  NoDup (wh_GetURI <$> order.*2) →
  (∀ u, u ∈ wh_GetURI <$> order.*2 → u ≠ "" ∧ (u ∉ mux) ∧ (u ∉ seen) ∧ u ∉ order.*1) →
  listen order seen mux = Returned (list_to_set (wh_GetURI <$> order.*2) ∪ mux).
Proof.
  revert seen mux. induction order as [|[n h] order IH]; intros seen mux.
  { intros _ _. simpl. by rewrite (left_id_L ∅ (∪)). }
  rewrite !fmap_cons. cbn [fst snd]. intros [Hh Hnd]%NoDup_cons Hall. cbn [listen].
  destruct (Hall (wh_GetURI h) (list_elem_of_here _ _)) as (Hne & Hm & Hs & _).
  rewrite (bool_decide_eq_false_2 _ Hs) (HandleFunc_fresh _ _ Hne Hm). cbn [mbind outcome_bind].
  rewrite (IH _ _ Hnd).
  2: by rewrite list_to_set_cons (assoc_L (∪)) (comm_L (∪) (list_to_set _) {[_]}).
  intros u Hu. destruct (Hall u (list_elem_of_further _ _ _ Hu)) as (Hne' & Hm' & Hs' & Hn').
  apply not_elem_of_cons in Hn' as [Hn1 Hn2]. rewrite !not_elem_of_union !not_elem_of_singleton.
  split_and!; try done. by intros ->.
Qed.

(** Two webhooks on one URI.  The check for duplicates in [main] looks the
    URI up among the names seen so far, so it does not see them, in whatever way
    they follow each other: it is the HTTP mux that panics, with its own message. *)
Theorem main_duplicate_check_misses n1 n2 h1 h2 rest :
  wh_GetURI h1 = wh_GetURI h2 → wh_GetURI h1 ≠ n1 → wh_GetURI h1 ≠ "" →
  listen ((n1, h1) :: (n2, h2) :: rest) ∅ ∅ = Panicked "http: multiple registrations".
Proof.
  intros E Hn Hne. cbn [listen]. rewrite -E.
  rewrite (bool_decide_eq_false_2 _ (not_elem_of_empty (C:=gset string) _)).
  rewrite (HandleFunc_fresh _ _ Hne (not_elem_of_empty _)). cbn [mbind outcome_bind].
  assert (wh_GetURI h1 ∉ ({[n1]} ∪ ∅ : gset string)) as Hs.
  { by rewrite (right_id_L ∅ (∪)) not_elem_of_singleton. }
  rewrite (bool_decide_eq_false_2 _ Hs). unfold HandleFunc.
  apply String.eqb_neq in Hne. rewrite Hne bool_decide_eq_true_2 //.
  rewrite elem_of_union elem_of_singleton. by left.
Qed.

(** ** The program *)

Section Server.
Context `{AdmissionCtl, !AdmissionCtlLaws} `{Codec}.
Context `{Decoder Namespace.Namespace} `{Decoder RegularUser.NetNamespace} `{Decoder RegularUser.ConfigMap}
  `{Decoder ClusterLogging.ClusterLogging} `{Decoder Service.Service} `{Decoder NetworkOperator.Network}
  `{Decoder PodImageSpec.Pod} `{PodImageSpec.KubeClient} `{Decoder Pod.Pod} `{Decoder Node.Node}
  `{Decoder ClusterRole.ClusterRole} `{Decoder ClusterRoleBinding.ClusterRoleBinding}
  `{Decoder ServiceAccount.ServiceAccount} `{Decoder SCC.SecurityContextConstraints}
  `{Decoder PrometheusRule.prometheusRule} `{Decoder NetworkPolicies.NetworkPolicy}
  `{Decoder ImageContentPolicies.ImageDigestMirrorSet} `{Decoder ImageContentPolicies.ImageTagMirrorSet}
  `{Decoder ImageContentPolicies.ImageContentSourcePolicy} `{Decoder IngressController.IngressController}
  `{Decoder CustomResourceDefinitions.CustomResourceDefinition} `{Decoder SdnMigration.Network}
  `{Decoder TechPreviewNoUpgrade.FeatureGate}.

Lemma Webhooks_distinct_uris : distinct_uris Webhooks.
Proof. intros n1 n2 h1 h2 L1 L2 E. by destruct (Webhooks_uri_inj _ _ _ _ L1 L2 E). Qed.

Lemma Webhooks_lawful : lawful Webhooks.
Proof. intros name hook. apply Webhooks_laws. Qed.

(** Every URI is a path that stands for itself and no webhook's name. *)
Lemma Webhooks_uris name hook :
  Webhooks !! name = Some hook →
  plain_path (wh_GetURI hook) = true ∧ wh_GetURI hook ∉ registrations.*1.
Proof.
  apply (registrations_forall (λ p, plain_path (wh_GetURI p.2) = true ∧ wh_GetURI p.2 ∉ registrations.*1)).
  apply (bool_decide_eq_true (Forall (λ p : string * Webhook,
    plain_path (wh_GetURI p.2) = true ∧ wh_GetURI p.2 ∉ registrations.*1) registrations)).
  vm_compute. reflexivity.
Qed.

(** The program starts.  In whatever order the map of webhooks is visited,
    the loop of [main] runs through without a panic and leaves a mux that has the
    URIs of the registered webhooks and nothing else. *)
Theorem main_listens order :
  order ≡ₚ map_to_list Webhooks →
  ∃ mux, listen order ∅ ∅ = Returned mux ∧
    ∀ uri, uri ∈ mux ↔ ∃ name hook, Webhooks !! name = Some hook ∧ wh_GetURI hook = uri.
Proof.
  intros Hperm.
  assert (∀ uri, uri ∈ wh_GetURI <$> order.*2 ↔ ∃ name hook, Webhooks !! name = Some hook ∧ wh_GetURI hook = uri) as Hin.
  { intros uri. rewrite Hperm -list_fmap_compose list_elem_of_fmap. split.
    - intros ([n h] & -> & Hl%elem_of_map_to_list). eauto.
    - intros (n & h & Hl & <-). exists (n, h). by rewrite elem_of_map_to_list. }
  rewrite listen_distinct.
  - rewrite Hperm. apply distinct_uris_NoDup, Webhooks_distinct_uris.
  - intros u (n & h & Hl & <-)%Hin. destruct (Webhooks_uris _ _ Hl) as [Hp Hn].
    split_and!; [by intros E; rewrite E in Hp|apply not_elem_of_empty..|].
    rewrite Hperm. intros ([n' h'] & E & Hl'%elem_of_map_to_list%Webhooks_lookup)%list_elem_of_fmap.
    apply Hn, list_elem_of_fmap. exists (n', h'). done.
  - eexists. split; [done|]. intros uri. by rewrite (right_id_L ∅ (∪)) elem_of_list_to_set.
Qed.
(** C4: Nothing but a webhook's own verdict lets a request through.  A request
    that is handled is answered with one review, under the status that the kind
    of failure calls for; if the review allows, the path of the URI is that of a
    registered webhook, the body holds an admission request that the webhook
    finds valid, and the review is the webhook's allowing response. *)
Theorem server_sound stack d r world w' world' :
  NewDispatcher Webhooks d → HandleRequest stack d r newWriter world = (Returned w', world') →
  status w' = Some (expectedStatus d r) ∧
  ∃ review, reviews w' = [review] ∧
    (resp_Allowed (ar_Response review) = true →
     ∃ name hook req resp,
       Webhooks !! name = Some hook ∧ Parse parseAuthority (RequestURI r) = Ok (wh_GetURI hook) ∧
       ParseHTTPRequest r = (req, withUID (req_UID req) zeroResponse, None) ∧
       wh_Validate hook req = true ∧ wh_Authorized hook req world = (Returned resp, world') ∧
       ar_Response review = withAudit resp).
Proof. intros Hnew. by apply handle_sound; [apply Webhooks_distinct_uris|]. Qed.

(** C5: Every webhook is served.  A request to the path of any registered
    webhook, with or without a query, whose body parses and which the webhook
    finds valid is answered 200 with the webhook's response and the audit
    annotation added, if the response can be encoded. *)
Theorem server_routes stack d r world name hook req resp world' :
  NewDispatcher Webhooks d → Webhooks !! name = Some hook →
  (RequestURI r = wh_GetURI hook ∨
   ∃ query, printable query = true ∧ no_char "#" query = true ∧
     RequestURI r = wh_GetURI hook +:+ String "?" query) →
  (ParseHTTPRequest r).1.1 = req → (ParseHTTPRequest r).2 = None →
  wh_Validate hook req = true → wh_Authorized hook req world = (Returned resp, world') →
  EncodeError newWriter (reviewOf (withAudit resp)) = None →
  HandleRequest (S stack) d r newWriter world =
    (Returned {| status := Some StatusOK; reviews := [reviewOf (withAudit resp)] |}, world').
Proof.
  intros Hnew Hh. destruct (Webhooks_uris _ _ Hh) as [Hp _].
  by apply (handle_request_routed _ _ _ _ _ _ _ _ _ _ Webhooks_distinct_uris Hnew Hh).
Qed.

(** The webhooks whose handlers can panic: the namespace webhook on a request
    without the objects its operation has, the others on objects or requests
    with an optional field unset. *)
Definition panicking : list string := [
  ClusterLogging.WebhookName; ImageContentPolicies.WebhookName; IngressController.WebhookName;
  Namespace.WebhookName; PodImageSpec.WebhookName].

Lemma Webhooks_panic name hook req world why :
  Webhooks !! name = Some hook → fst (wh_Authorized hook req world) = Panicked why → name ∈ panicking.
Proof.
  intros Hh. revert name hook Hh req world why.
  apply (registrations_forall (λ p, ∀ req world why,
    fst (wh_Authorized p.2 req world) = Panicked why → p.1 ∈ panicking)).
  repeat (constructor; [cbn [fst snd]; first
    [ intros ? ? ?; discriminate
    | intros _ _ _ _; unfold panicking; rewrite !elem_of_cons; tauto
    | intros req world why; destruct (Node.Authorized_runs req) as [(? & Hrun & _)|(? & Hrun & _)];
      simpl; rewrite Hrun; discriminate ]|]).
  constructor.
Qed.

(** Handlers panic on nothing but a nil pointer. *)
Lemma lift_nil_only {A B} (o : outcome A) (f : A → M B) world :
  nil_only o → (∀ a w, nil_only (fst (f a w))) → nil_only (fst ((lift_outcome o ≫= f) world)).
Proof. intros Ho Hf. destruct o as [a|why]; [apply Hf|]. intros why' [= <-]. by apply Ho. Qed.

Lemma ClusterLogging_nil_only req : nil_only (ClusterLogging.authorized req).
Proof. unfold ClusterLogging.authorized. solve_nil_only. Qed.

Lemma ImageContentPolicies_nil_only req : nil_only (ImageContentPolicies.authorized req).
Proof. unfold ImageContentPolicies.authorized. solve_nil_only. Qed.

Lemma IngressController_nil_only req : nil_only (IngressController.authorized req).
Proof. unfold IngressController.authorized. solve_nil_only. Qed.

Lemma Namespace_nil_only req : nil_only (Namespace.authorized req).
Proof.
  unfold Namespace.authorized, Namespace.unauthorizedLabelChanges, Namespace.doesNamespaceContainProtectedLabels.
  solve_nil_only.
Qed.

Lemma PodImageSpec_nil_only req : nil_only (PodImageSpec.authorized req).
Proof.
  assert (∀ cs, nil_only (PodImageSpec.mutateContainers cs)) as Hcs.
  { induction cs as [|c cs IH]; cbn [PodImageSpec.mutateContainers]; [apply nil_only_returned|].
    unfold PodImageSpec.lookupImageStreamTagSpec. solve_nil_only. }
  unfold PodImageSpec.authorized, PodImageSpec.mutatePod. solve_nil_only; apply Hcs.
Qed.

Lemma Webhooks_nil_only name hook req world :
  Webhooks !! name = Some hook → nil_only (fst (wh_Authorized hook req world)).
Proof.
  intros Hh. revert name hook Hh req world.
  apply (registrations_forall (λ p, ∀ req world, nil_only (fst (wh_Authorized p.2 req world)))).
  repeat (constructor; [cbn [fst snd]; intros req world; first
    [ intros ? ?; discriminate
    | apply ImageContentPolicies_nil_only | apply IngressController_nil_only | apply Namespace_nil_only
    | apply lift_nil_only; [apply ClusterLogging_nil_only|intros; apply nil_only_returned]
    | apply lift_nil_only; [apply PodImageSpec_nil_only|intros r w; by destruct (Complete r req) as [? [?|]]]
    | destruct (Node.Authorized_runs req) as [(? & Hrun & _)|(? & Hrun & _)]; simpl; rewrite Hrun; apply nil_only_returned ]|]).
  constructor.
Qed.

(** No request exhausts a stack with room for two calls, when error responses
    can be encoded. *)
Lemma SendResponse_not_fatal stack w resp :
  2 ≤ stack → (∀ w code err, EncodeError w (reviewOf (withAudit (Errored code err))) = None) →
  fatal (SendResponse stack w resp) = false.
Proof.
  intros Hs He. destruct stack as [|[|stack]]; [lia..|]. simpl. destruct (EncodeError w _); [|done]. by rewrite He.
Qed.

Lemma HandleRequest_not_fatal stack d r w world :
  2 ≤ stack → (∀ w code err, EncodeError w (reviewOf (withAudit (Errored code err))) = None) →
  NewDispatcher Webhooks d → fatal (fst (HandleRequest stack d r w world)) = false.
Proof.
  intros Hs He Hnew. pose proof (λ w resp, SendResponse_not_fatal stack w resp Hs He) as Hsend. unfold HandleRequest.
  destruct (Parse parseAuthority (RequestURI r)) as [path|e]; [|apply Hsend].
  destruct (d !! path) as [hook|] eqn:Eh; [|apply Hsend].
  apply (dispatcher_lookup _ _ _ _ Webhooks_distinct_uris Hnew) in Eh as (name & Hname & _).
  destruct (ParseHTTPRequest r) as [[req resp0] [e|]]; [apply Hsend|]. destruct (negb _); [apply Hsend|].
  pose proof (Webhooks_nil_only _ _ req world Hname) as Hnil. unfold mbind, M_bind, lift_outcome.
  destruct (wh_Authorized hook req world) as [[resp|why] w']; [apply Hsend|]. simpl. by rewrite (Hnil why eq_refl).
Qed.

(** With an encoder that takes everything, only a handler can panic. *)
Lemma HandleRequest_panics stack hooks d r w world why :
  (∀ w review, EncodeError w review = None) → distinct_uris hooks → NewDispatcher hooks d →
  fst (HandleRequest (S stack) d r w world) = Panicked why →
  ∃ name hook req, hooks !! name = Some hook ∧ Parse parseAuthority (RequestURI r) = Ok (wh_GetURI hook) ∧
    fst (wh_Authorized hook req world) = Panicked why.
Proof.
  intros He Hd Hnew. unfold HandleRequest.
  destruct (Parse parseAuthority (RequestURI r)) as [path|e]; [|by rewrite SendResponse_first].
  destruct (d !! path) as [hook|] eqn:Eh; [|by rewrite SendResponse_first].
  apply (dispatcher_lookup _ _ _ _ Hd Hnew) in Eh as (name & Hname & <-).
  destruct (ParseHTTPRequest r) as [[req resp0] [e|]]; [by rewrite SendResponse_first|].
  destruct (negb _); [by rewrite SendResponse_first|]. unfold mbind, M_bind, lift_outcome.
  destruct (wh_Authorized hook req world) as [[resp|why'] w'] eqn:Ea; [by rewrite SendResponse_first|].
  intros [= <-]. exists name, hook, req. by rewrite Ea.
Qed.

(** C6: A run of the server.  With one frame for [SendResponse] and an encoder
    that takes every review, each request of a run is answered, as it would be on
    its own, with one review, unless it is addressed to one of the five webhooks
    whose handlers can panic; and no request lowers a counter. *)
Theorem server_run stack d rs world :
  (∀ w review, EncodeError w review = None) → NewDispatcher Webhooks d →
  (∀ i r, rs !! i = Some r →
     ∃ o, fst (serve (S stack) d rs world) !! i = Some o ∧
       (∀ world0, fst (HandleRequest (S stack) d r newWriter world0) = o) ∧
       ((∃ w', o = Returned w' ∧ length (reviews w') = 1 ∧ status w' = Some (expectedStatus d r)) ∨
        ∃ name hook, name ∈ panicking ∧ Webhooks !! name = Some hook ∧
          Parse parseAuthority (RequestURI r) = Ok (wh_GetURI hook))) ∧
  (∀ user, blockedCount world user ≤ blockedCount (snd (serve (S stack) d rs world)) user).
Proof.
  intros He Hnew.
  destruct (serve_alone (S stack) Webhooks d rs world Webhooks_distinct_uris Hnew Webhooks_lawful) as [Hs Hm].
  split; [|done]. intros i r Hr. exists (fst (HandleRequest (S stack) d r newWriter world)). split.
  { by rewrite (Hs world) list_lookup_fmap Hr. }
  destruct (HandleRequest_effects (S stack) Webhooks d r newWriter Webhooks_distinct_uris Hnew Webhooks_lawful) as [Heq _].
  split; [intros world0; apply Heq|].
  destruct (HandleRequest (S stack) d r newWriter world) as [[w'|why] world'] eqn:E; simpl.
  - left. exists w'. destruct (handle_sound _ _ _ _ _ _ _ Webhooks_distinct_uris Hnew E) as (Hst & review & Hrev & _).
    by rewrite Hst Hrev.
  - right. assert (fst (HandleRequest (S stack) d r newWriter world) = Panicked why) as Hp by by rewrite E.
    destruct (HandleRequest_panics _ _ _ _ _ _ _ He Webhooks_distinct_uris Hnew Hp) as (name & hook & req & Hn & Hpath & Ha).
    exists name, hook. pose proof (Webhooks_panic _ _ _ _ _ Hn Ha). done.
Qed.
End Server.

(** ** Witnesses *)

Module Witness.
#[local] Existing Instance exampleCtl.
#[local] Existing Instance exampleCtl_laws.

(** A client that posts the deletion of a hosted cluster by user "dev". *)
Definition deletion : Request := exampleRequest Delete "HostedCluster" "hypershift.openshift.io" "dev" [] noRaw oldRaw.

#[local] Instance codec : Codec := {|
  DecodeReview := λ body, if String.eqb body "review" then Ok (Some deletion) else Err "cannot decode";
  EncodeError := λ _ _, None;
  parseAuthority := λ _, None |}.

(** No object decodes here, and the API server has no image streams. *)
#[local] Instance decoder T : Decoder T := exampleDecoder [].
#[local] Instance kube : PodImageSpec.KubeClient := {|
  PodImageSpec.newKubeClient := None; PodImageSpec.GetRegistryConfig := λ _, Err "not found";
  PodImageSpec.GetImageStreamTag := λ _ _, Err "not found"; PodImageSpec.MarshalPod := λ _, Ok "" |}.

Definition post (uri : string) : HTTPRequest := {|
  RequestURI := uri; Body := Some (Ok "review"); ContentType := "application/json" |}.

Definition dispatcher : Dispatcher := buildHookMap (map_to_list Webhooks).*2.

Lemma dispatcher_new : NewDispatcher Webhooks dispatcher.
Proof. by exists (map_to_list Webhooks).*2. Qed.

Definition start : World := {| blockedRequests := ∅ |}.

(** What the webhook says, and the answer that carries it. *)
Definition verdict : Response := HostedCluster.authorized deletion.
Definition answer : Writer := {| status := Some StatusOK; reviews := [reviewOf (withAudit verdict)] |}.

Lemma server_routes_witness :
  HandleRequest 1 dispatcher (post "/hostedcluster-validation?timeout=2s") newWriter start = (Returned answer, start).
Proof.
  apply (server_routes 0 dispatcher _ start HostedCluster.WebhookName HostedCluster.NewWebhook deletion verdict start).
  - apply dispatcher_new.
  - reflexivity.
  - right. exists "timeout=2s". split; [reflexivity|]. split; reflexivity.
  - reflexivity.
  - reflexivity.
  - reflexivity.
  - reflexivity.
  - reflexivity.
Defined.

Lemma server_sound_witness : status answer = Some (expectedStatus dispatcher (post "/hostedcluster-validation")).
Proof.
  refine (proj1 (server_sound 1 dispatcher (post "/hostedcluster-validation") start answer start dispatcher_new _)).
  vm_compute. reflexivity.
Defined.

(** The second request of the run is answered as it would be on its own. *)
Lemma server_run_witness :
  (∃ o, fst (serve 1 dispatcher [post "/hostedcluster-validation"; post "/none"] start) !! 1 = Some o ∧
     ∀ world0, fst (HandleRequest 1 dispatcher (post "/none") newWriter world0) = o) ∧
  blockedCount start "dev" ≤
  blockedCount (snd (serve 1 dispatcher [post "/hostedcluster-validation"; post "/none"] start)) "dev".
Proof.
  destruct (server_run 0 dispatcher [post "/hostedcluster-validation"; post "/none"] start)
    as [Hall Hcount]; [reflexivity|apply dispatcher_new|]. split; [|apply Hcount].
  destruct (Hall 1 (post "/none") eq_refl) as (o & Ho & Halone & _). exists o. split; [exact Ho|exact Halone].
Defined.

Lemma main_listens_witness :
  ∃ mux, listen (map_to_list Webhooks) ∅ ∅ = Returned mux ∧
    ∀ uri, uri ∈ mux ↔ ∃ name hook, Webhooks !! name = Some hook ∧ wh_GetURI hook = uri.
Proof. apply main_listens. reflexivity. Defined.

Lemma main_duplicate_check_misses_witness :
  listen [("a", HostedCluster.NewWebhook); ("b", HostedCluster.NewWebhook)] ∅ ∅ =
  Panicked "http: multiple registrations".
Proof. apply main_duplicate_check_misses; [reflexivity|discriminate|discriminate]. Defined.
End Witness.
