(* ===== verification/Concurrent.v ===== *)
(** * pkg/dispatcher: requests that are served at the same time

    net/http runs each request in a goroutine of its own.  Here [HandleRequest] is
    a machine with a step for each call it makes, the dispatcher's mutex is part of
    the state, and the goroutines interleave in any way.  The theorems say that
    nothing of this shows: the interleaved server refines the function [serve],
    which handles the requests one after the other, and it cannot get stuck. *)

From S2P Require Import Prelude GoStrings Admission Utils Webhook Url Dispatcher.
From S2P Require HostedCluster Server.

(** ** The handler as a machine *)

(** Where a goroutine is: before [d.mu.Lock()], behind it, with the hook found,
    with the request parsed, about to call SendResponse, with the deferred unlock
    still to come (after a return or a panic), and at its end. *)
Inductive pc :=
  | Waiting
  | Locked
  | Routed (hook : Webhook)
  | Parsed (hook : Webhook) (request : Request)
  | Replying (w : Writer) (resp : Response)
  | Unlocking (o : outcome Writer)
  | Finished (o : outcome Writer).

(** The lock is held. *)
Definition critical (p : pc) : bool := match p with Waiting | Finished _ => false | _ => true end.

(** [threads]: the goroutines in the order of their arrival. *)
Record Machine := { mu : bool; threads : list (HTTPRequest * pc); shared : World }.

Section Machine.
Context `{AdmissionCtl} `{Codec}.
Variables (stack : nat) (d : Dispatcher).

(** What a goroutine does next while it holds the lock. *)
Definition next (r : HTTPRequest) (p : pc) (world : World) : option (pc * World) :=
  match p with
  | Locked =>
      match Parse parseAuthority (RequestURI r) with
      | Err err => Some (Replying (WriteHeader StatusBadRequest newWriter) (Errored StatusBadRequest err), world)
      | Ok path =>
          match d !! path with
          | Some hook => Some (Routed hook, world)
          | None =>
              Some (Replying (WriteHeader StatusNotFound newWriter)
                (Errored StatusBadRequest "request is not for a registered webhook"), world)
          end
      end
  | Routed hook =>
      let '(request, _, err) := ParseHTTPRequest r in
      match err with
      | Some err => Some (Replying (WriteHeader StatusBadRequest newWriter) (Errored StatusBadRequest err), world)
      | None => Some (Parsed hook request, world)
      end
  | Parsed hook request =>
      if negb (wh_Validate hook request) then
        Some (Replying newWriter (Errored StatusBadRequest "not a valid webhook request"), world)
      else
        match wh_Authorized hook request world with
        | (Returned resp, world') => Some (Replying newWriter resp, world')
        | (Panicked why, world') => Some (Unlocking (Panicked why), world')
        end
  | Replying w resp => Some (Unlocking (SendResponse stack w resp), world)
  | Waiting | Unlocking _ | Finished _ => None
  end.

(** A step of one of the goroutines.  Which one gets the lock is open. *)
Inductive internal (s : Machine) : Machine → Prop :=
  | locks i r :
      threads s !! i = Some (r, Waiting) → mu s = false →
      internal s {| mu := true; threads := <[i := (r, Locked)]> (threads s); shared := shared s |}
  | runs i r p p' world' :
      threads s !! i = Some (r, p) → next r p (shared s) = Some (p', world') →
      internal s {| mu := mu s; threads := <[i := (r, p')]> (threads s); shared := world' |}
  | unlocks i r o :
      threads s !! i = Some (r, Unlocking o) → fatal o = false →
      internal s {| mu := false; threads := <[i := (r, Finished o)]> (threads s); shared := shared s |}.

Inductive step (s : Machine) : Machine → Prop :=
  | arrives r : step s {| mu := mu s; threads := threads s ++ [(r, Waiting)]; shared := shared s |}
  | internally s' : internal s s' → step s s'.

Definition idle (w : World) : Machine := {| mu := false; threads := []; shared := w |}.

Definition reachable : Machine → Machine → Prop := rtc step.

(** ** The machine computes [HandleRequest] *)

(** What a goroutine that holds the lock will end with. *)
Definition finish (r : HTTPRequest) (p : pc) (world : World) : outcome Writer * World :=
  match p with
  | Waiting | Locked => HandleRequest stack d r newWriter world
  | Routed hook =>
      let '(request, _, err) := ParseHTTPRequest r in
      match err with
      | Some err => (SendResponse stack (WriteHeader StatusBadRequest newWriter) (Errored StatusBadRequest err), world)
      | None =>
          if negb (wh_Validate hook request) then
            (SendResponse stack newWriter (Errored StatusBadRequest "not a valid webhook request"), world)
          else (resp ← wh_Authorized hook request; lift_outcome (SendResponse stack newWriter resp)) world
      end
  | Parsed hook request =>
      if negb (wh_Validate hook request) then
        (SendResponse stack newWriter (Errored StatusBadRequest "not a valid webhook request"), world)
      else (resp ← wh_Authorized hook request; lift_outcome (SendResponse stack newWriter resp)) world
  | Replying w resp => (SendResponse stack w resp, world)
  | Unlocking o | Finished o => (o, world)
  end.

Lemma next_finish r p world p' world' :
  next r p world = Some (p', world') → finish r p' world' = finish r p world.
Proof.
  destruct p as [| |hook|hook request|w resp|o|o]; simpl; try done.
  - unfold HandleRequest. destruct (Parse parseAuthority (RequestURI r)) as [path|e]; [|by intros [= <- <-]].
    destruct (d !! path) as [hook|]; [|by intros [= <- <-]]. intros [= <- <-]. simpl.
    destruct (ParseHTTPRequest r) as [[request resp0] [e|]]; [done|]. by destruct (negb _).
  - destruct (ParseHTTPRequest r) as [[request resp0] [e|]]; by intros [= <- <-].
  - destruct (negb _); [by intros [= <- <-]|]. unfold mbind, M_bind, lift_outcome.
    destruct (wh_Authorized hook request world) as [[resp|why] world1]; by intros [= <- <-].
  - by intros [= <- <-].
Qed.

Lemma next_critical r p world p' world' :
  next r p world = Some (p', world') → critical p = true ∧ critical p' = true.
Proof.
  destruct p as [| |hook|hook request|w resp|o|o]; simpl; try done.
  - destruct (Parse parseAuthority (RequestURI r)) as [path|e]; [|by intros [= <- _]].
    destruct (d !! path); by intros [= <- _].
  - destruct (ParseHTTPRequest r) as [[request resp0] [e|]]; by intros [= <- _].
  - destruct (negb _); [by intros [= <- _]|].
    destruct (wh_Authorized hook request world) as [[resp|why] world1]; by intros [= <- _].
  - by intros [= <- _].
Qed.
End Machine.

(** ** Refinement of [serve] *)

Section Refinement.
Context `{AdmissionCtl} `{Codec}.
Variables (stack : nat) (d : Dispatcher) (w0 : World).
Abbreviation serving := (serve stack d).

Lemma serve_snoc rs r world :
  serving (rs ++ [r]) world =
  (fst (serving rs world) ++ [fst (HandleRequest stack d r newWriter (snd (serving rs world)))],
   snd (HandleRequest stack d r newWriter (snd (serving rs world)))).
Proof.
  revert world. induction rs as [|r' rs IH]; intros world; simpl.
  - by destruct (HandleRequest stack d r newWriter world).
  - destruct (HandleRequest stack d r' newWriter world) as [o world1]. rewrite IH.
    by destruct (serving rs world1).
Qed.

Lemma serve_length rs world : length (fst (serving rs world)) = length rs.
Proof.
  revert world. induction rs as [|r rs IH]; intros world; simpl; [done|].
  destruct (HandleRequest stack d r newWriter world) as [o world1]. specialize (IH world1).
  destruct (serving rs world1). simpl in *. by rewrite IH.
Qed.

(** [order]: goroutines with their requests.  Those of [done] have finished, each
    with what [serve] answers at its place. *)
Definition settled (s : Machine) (done : list (nat * HTTPRequest)) : Prop :=
  ∀ k i r, done !! k = Some (i, r) →
    ∃ o, threads s !! i = Some (r, Finished o) ∧ fst (serving done.*2 w0) !! k = Some o.

(** The goroutines that got the lock, in their order: all have finished, or the
    last one still holds the lock and is on its way to what [HandleRequest] gives. *)
Inductive serial (s : Machine) : list (nat * HTTPRequest) → Prop :=
  | serial_free done :
      mu s = false → shared s = snd (serving done.*2 w0) → NoDup done.*1 → settled s done →
      (∀ i r p, threads s !! i = Some (r, p) → i ∉ done.*1 → p = Waiting) →
      serial s done
  | serial_held done i r p :
      mu s = true → threads s !! i = Some (r, p) → critical p = true →
      finish stack d r p (shared s) = HandleRequest stack d r newWriter (snd (serving done.*2 w0)) →
      NoDup done.*1 → i ∉ done.*1 → settled s done →
      (∀ j r' p', threads s !! j = Some (r', p') → j ∉ done.*1 → j ≠ i → p' = Waiting) →
      serial s (done ++ [(i, r)]).

Lemma serial_idle : serial (idle w0) [].
Proof. apply serial_free; [done|done|by constructor|by intros k i r|by intros i r p]. Qed.

(** A goroutine of [done] has finished. *)
Lemma settled_finished s done i r p :
  settled s done → threads s !! i = Some (r, p) → i ∈ done.*1 → critical p = false ∧ p ≠ Waiting.
Proof.
  intros Hs Hi ([j r'] & -> & [k Hk]%list_elem_of_lookup)%list_elem_of_fmap. destruct (Hs _ _ _ Hk) as (o & Ho & _).
  simpl in Hi. rewrite Hi in Ho. by simplify_eq.
Qed.

(** Another goroutine's step leaves [done] settled. *)
Lemma settled_insert s done i t m w :
  settled s done → i ∉ done.*1 →
  settled {| mu := m; threads := <[i := t]> (threads s); shared := w |} done.
Proof.
  intros Hs Hi k j r Hk. destruct (Hs _ _ _ Hk) as (o & Ho & Hserve). exists o. split; [|done]. simpl.
  rewrite list_lookup_insert_ne //. intros ->. apply Hi, list_elem_of_fmap. exists (j, r).
  split; [done|by apply list_elem_of_lookup; exists k].
Qed.

Lemma settled_arrives s done r :
  settled s done → settled {| mu := mu s; threads := threads s ++ [(r, Waiting)]; shared := shared s |} done.
Proof.
  intros Hs k i r' Hk. destruct (Hs _ _ _ Hk) as (o & Ho & Hserve). exists o. split; [|done]. by apply lookup_app_l_Some.
Qed.

Lemma arrived_lookup s r i r' p :
  (threads s ++ [(r, Waiting)]) !! i = Some (r', p) → threads s !! i = Some (r', p) ∨ p = Waiting.
Proof.
  intros [Hi|[_ Hi]]%lookup_app_Some; [by left|]. right. apply list_lookup_singleton_Some in Hi as [_ [= _ <-]]. done.
Qed.

(** Who is in the critical section holds the lock, and is the last of the order. *)
Lemma serial_critical s order i r p :
  serial s order → threads s !! i = Some (r, p) → critical p = true →
  mu s = true ∧ ∃ done, order = done ++ [(i, r)] ∧
    finish stack d r p (shared s) = HandleRequest stack d r newWriter (snd (serving done.*2 w0)) ∧
    NoDup done.*1 ∧ (i ∉ done.*1) ∧ settled s done ∧
    (∀ j r' p', threads s !! j = Some (r', p') → j ∉ done.*1 → j ≠ i → p' = Waiting).
Proof.
  intros [done Hmu Hw Hnd Hs Hrest|done i0 r0 p0 Hmu Hi0 Hc0 Hf Hnd Hni Hs Hrest] Hi Hc.
  - destruct (decide (i ∈ done.*1)) as [Hin|Hin].
    + destruct (settled_finished _ _ _ _ _ Hs Hi Hin); congruence.
    + by rewrite (Hrest _ _ _ Hi Hin) in Hc.
  - split; [done|]. assert (i = i0) as ->; [|rewrite Hi0 in Hi; simplify_eq; by exists done].
    destruct (decide (i ∈ done.*1)) as [Hin|Hin].
    + destruct (settled_finished _ _ _ _ _ Hs Hi Hin); congruence.
    + destruct (decide (i = i0)) as [|Hne]; [done|]. by rewrite (Hrest _ _ _ Hi Hin Hne) in Hc.
Qed.

Lemma lookup_inserted (ts : list (HTTPRequest * pc)) i j r p r' p' q :
  ts !! i = Some (r, q) → <[i := (r, p)]> ts !! j = Some (r', p') →
  (j = i ∧ r' = r ∧ p' = p) ∨ (j ≠ i ∧ ts !! j = Some (r', p')).
Proof.
  intros Hi Hj. destruct (decide (j = i)) as [->|Hne].
  - rewrite (list_lookup_insert_eq _ _ _ (lookup_lt_Some _ _ _ Hi)) in Hj. left. by simplify_eq.
  - right. split; [done|]. rewrite list_lookup_insert_ne in Hj; [by intros ->|done].
Qed.

Lemma serial_locks s order i r :
  serial s order → threads s !! i = Some (r, Waiting) → mu s = false →
  serial {| mu := true; threads := <[i := (r, Locked)]> (threads s); shared := shared s |} (order ++ [(i, r)]).
Proof.
  intros [done _ Hw Hnd Hs Hrest|done i0 r0 p0 Hmu' _ _ _ _ _ _ _] Hi Hmu; [|congruence].
  assert (i ∉ done.*1) as Hni by (intros Hin; by destruct (settled_finished _ _ _ _ _ Hs Hi Hin)).
  apply (serial_held _ done i r Locked); simpl; try done.
  - apply list_lookup_insert_eq, (lookup_lt_Some _ _ _ Hi).
  - by rewrite Hw.
  - by apply settled_insert.
  - intros j r' p' [(-> & _)|[_ Hj]]%(lookup_inserted _ _ _ _ _ _ _ _ Hi) Hnj Hne; [done|by apply (Hrest j r')].
Qed.

Lemma serial_runs s order i r p p' world' :
  serial s order → threads s !! i = Some (r, p) → next stack d r p (shared s) = Some (p', world') →
  serial {| mu := mu s; threads := <[i := (r, p')]> (threads s); shared := world' |} order.
Proof.
  intros Hser Hi Hn. destruct (next_critical _ _ _ _ _ _ _ Hn) as [Hc Hc'].
  destruct (serial_critical _ _ _ _ _ Hser Hi Hc) as (Hmu & done & -> & Hf & Hnd & Hni & Hs & Hrest).
  apply (serial_held _ done i r p'); cbn [mu threads shared]; try done.
  - apply list_lookup_insert_eq, (lookup_lt_Some _ _ _ Hi).
  - by rewrite (next_finish _ _ _ _ _ _ _ Hn).
  - by apply settled_insert.
  - intros j r' q [(-> & _)|[_ Hj]]%(lookup_inserted _ _ _ _ _ _ _ _ Hi) Hnj Hne; [done|by apply (Hrest j r')].
Qed.

Lemma serial_unlocks s order i r o :
  serial s order → threads s !! i = Some (r, Unlocking o) →
  serial {| mu := false; threads := <[i := (r, Finished o)]> (threads s); shared := shared s |} order.
Proof.
  intros Hser Hi.
  destruct (serial_critical _ _ _ _ _ Hser Hi eq_refl) as (Hmu & done & -> & Hf & Hnd & Hni & Hs & Hrest).
  simpl in Hf. apply serial_free; simpl; [done|..].
  - rewrite fmap_app serve_snoc. cbn [fmap list_fmap snd]. by rewrite -Hf.
  - rewrite fmap_app. apply NoDup_app. split; [done|]. split; [|by apply NoDup_singleton].
    intros j Hj ->%list_elem_of_singleton. done.
  - intros k j r' [Hk|[Hlen Hk]]%lookup_app_Some.
    + destruct (settled_insert s done i (r, Finished o) false (shared s) Hs Hni _ _ _ Hk) as (o' & Ho' & Hserve).
      exists o'. split; [done|]. rewrite fmap_app serve_snoc. by apply lookup_app_l_Some.
    + apply list_lookup_singleton_Some in Hk as [Hz [= <- <-]]. exists o. split.
      { simpl. apply list_lookup_insert_eq, (lookup_lt_Some _ _ _ Hi). }
      rewrite fmap_app serve_snoc. cbn [fst fmap list_fmap snd]. rewrite -Hf.
      apply list_lookup_middle. rewrite serve_length length_fmap. lia.
  - intros j r' q Hj Hnj. rewrite fmap_app not_elem_of_app not_elem_of_cons in Hnj. destruct Hnj as [Hnj [Hne _]].
    apply (lookup_inserted _ _ _ _ _ _ _ _ Hi) in Hj as [(-> & _)|[_ Hj]]; [done|by apply (Hrest j r')].
Qed.

Lemma serial_step s s' order : serial s order → step stack d s s' → ∃ more, serial s' (order ++ more).
Proof.
  intros Hser Hstep. destruct Hstep as [r|s1 Hint]; [|destruct Hint as [i r Hi Hmu|i r p p' world' Hi Hn|i r o Hi _]].
  - exists []. rewrite app_nil_r. destruct Hser as [done Hmu Hw Hnd Hs Hrest|done i0 r0 p0 Hmu Hi0 Hc0 Hf Hnd Hni Hs Hrest].
    + apply serial_free; simpl; try done; [by apply settled_arrives|].
      intros i r' p [Hi| ->]%arrived_lookup Hni; [by apply (Hrest i r')|done].
    + apply (serial_held _ done i0 r0 p0); cbn [mu threads shared]; try done; [by apply lookup_app_l_Some|by apply settled_arrives|].
      intros i r' p [Hi| ->]%arrived_lookup Hnj Hne; [by apply (Hrest i r')|done].
  - exists [(i, r)]. by apply serial_locks.
  - exists []. rewrite app_nil_r. by apply (serial_runs _ _ _ _ _ _ _ Hser Hi).
  - exists []. rewrite app_nil_r. by apply serial_unlocks.
Qed.

Lemma serial_reachable s s' order : serial s order → reachable stack d s s' → ∃ more, serial s' (order ++ more).
Proof.
  intros Hser Hr. revert order Hser. induction Hr as [s|s s1 s2 Hstep _ IH]; intros order Hser.
  { exists []. by rewrite app_nil_r. }
  destruct (serial_step _ _ _ Hser Hstep) as [more1 H1]. destruct (IH _ H1) as [more2 H2].
  exists (more1 ++ more2). by rewrite app_assoc.
Qed.

(** ** What the order says *)

(** [order] explains the machine's state: it has the goroutines that got the
    lock, once each and with their requests; the finished ones have the
    answers that [serve] gives to the requests of [order] at their places, and
    while nobody holds the lock the counters are those that [serve] leaves. *)
Definition explains (order : list (nat * HTTPRequest)) (s : Machine) : Prop :=
  NoDup order.*1 ∧
  (∀ i r, (i, r) ∈ order ↔ ∃ p, threads s !! i = Some (r, p) ∧ p ≠ Waiting) ∧
  (∀ i r o, threads s !! i = Some (r, Finished o) →
     ∃ k, order !! k = Some (i, r) ∧ fst (serving order.*2 w0) !! k = Some o) ∧
  (mu s = false → shared s = snd (serving order.*2 w0)) ∧
  (∀ i j r r' p p', threads s !! i = Some (r, p) → threads s !! j = Some (r', p') →
     critical p = true → critical p' = true → mu s = true ∧ i = j).

Lemma serial_order_nodup s order : serial s order → NoDup order.*1.
Proof.
  intros [fin _ _ Hnd _ _|fin i r p _ _ _ _ Hnd Hni _ _]; [done|]. rewrite fmap_app. apply NoDup_app.
  split; [done|]. split; [|by apply NoDup_singleton]. by intros j Hj ->%list_elem_of_singleton.
Qed.

Lemma serial_in_order s order i r p :
  serial s order → threads s !! i = Some (r, p) → i ∈ order.*1 ↔ p ≠ Waiting.
Proof.
  intros Hser Hi. destruct Hser as [done _ _ _ Hs Hrest|done j r' q _ Hj Hc _ _ _ Hs Hrest].
  - split; [intros Hin; apply (settled_finished _ _ _ _ _ Hs Hi Hin)|]. intros Hp.
    destruct (decide (i ∈ done.*1)) as [|Hni]; [done|]. by destruct Hp; apply (Hrest i r).
  - rewrite fmap_app elem_of_app list_elem_of_singleton. split.
    + intros [Hin| ->]; [apply (settled_finished _ _ _ _ _ Hs Hi Hin)|]. simpl in Hi.
      rewrite Hj in Hi. simplify_eq. by intros ->.
    + intros Hp. destruct (decide (i ∈ done.*1)) as [|Hni]; [by left|].
      destruct (decide (i = j)) as [|Hne]; [by right|]. by destruct Hp; apply (Hrest i r).
Qed.

(** The finished ones of the goroutines that are done. *)
Lemma settled_answer s done i r o :
  settled s done → threads s !! i = Some (r, Finished o) → i ∈ done.*1 →
  ∃ k, done !! k = Some (i, r) ∧ fst (serving done.*2 w0) !! k = Some o.
Proof.
  intros Hs Hi ([j r'] & -> & [k Hk]%list_elem_of_lookup)%list_elem_of_fmap. destruct (Hs _ _ _ Hk) as (o' & Ho & Hserve).
  simpl in Hi. rewrite Ho in Hi. simplify_eq. by exists k.
Qed.

Lemma serial_finished s order i r o :
  serial s order → threads s !! i = Some (r, Finished o) →
  ∃ k, order !! k = Some (i, r) ∧ fst (serving order.*2 w0) !! k = Some o.
Proof.
  intros Hser Hi. assert (i ∈ order.*1) as Hin by by apply (serial_in_order _ _ _ _ _ Hser Hi).
  destruct Hser as [done _ _ _ Hs _|done j r' q _ Hj Hc _ _ _ Hs _]; [by apply (settled_answer s)|].
  rewrite fmap_app elem_of_app list_elem_of_singleton in Hin. destruct Hin as [Hin| ->].
  - destruct (settled_answer _ _ _ _ _ Hs Hi Hin) as (k & Hk & Hserve). exists k. split; [by apply lookup_app_l_Some|].
    rewrite fmap_app serve_snoc. by apply lookup_app_l_Some.
  - simpl in Hi. rewrite Hj in Hi. by simplify_eq.
Qed.

Lemma settled_member s done i r :
  settled s done → (i, r) ∈ done → ∃ p, threads s !! i = Some (r, p) ∧ p ≠ Waiting.
Proof. intros Hs [k Hk]%list_elem_of_lookup. destruct (Hs _ _ _ Hk) as (o & Ho & _). by exists (Finished o). Qed.

Lemma serial_member s order i r :
  serial s order → (i, r) ∈ order ↔ ∃ p, threads s !! i = Some (r, p) ∧ p ≠ Waiting.
Proof.
  intros Hser. split.
  - destruct Hser as [fin _ _ _ Hs _|fin j r' q _ Hj Hc _ _ _ Hs _]; [by apply settled_member|].
    intros [Hin|Hin%list_elem_of_singleton]%elem_of_app; [by apply (settled_member s fin)|]. simplify_eq.
    exists q. split; [done|]. by intros ->.
  - intros (p & Hi & Hp). apply (serial_in_order _ _ _ _ _ Hser Hi) in Hp as ([j r'] & -> & Hin)%list_elem_of_fmap.
    assert (∃ q, threads s !! j = Some (r', q)) as [q Hq]; [|simpl in *; by rewrite Hq in Hi; simplify_eq].
    destruct Hser as [fin _ _ _ Hs _|fin k r0 q0 _ Hk _ _ _ _ Hs _].
    + destruct (settled_member _ _ _ _ Hs Hin) as (q & Hq & _). eauto.
    + apply elem_of_app in Hin as [Hin|Hin%list_elem_of_singleton]; [|simplify_eq; eauto].
      destruct (settled_member _ _ _ _ Hs Hin) as (q & Hq & _). eauto.
Qed.

Lemma serial_explains s order : serial s order → explains order s.
Proof.
  intros Hser. split; [by apply (serial_order_nodup s)|]. split; [intros i r; by apply serial_member|].
  split; [intros i r o; by apply serial_finished|]. split.
  - by destruct Hser as [done _ Hw _ _ _|done j r' q Hmu _ _ _ _ _ _ _]; [|rewrite Hmu].
  - intros i j r r' p p' Hi Hj Hc Hc'.
    destruct (serial_critical _ _ _ _ _ Hser Hi Hc) as (Hmu & done & -> & _).
    destruct (serial_critical _ _ _ _ _ Hser Hj Hc') as (_ & done' & E & _). split; [done|].
    by apply app_inj_2 in E as [_ [= -> _]].
Qed.
End Refinement.

Section Theorems.
Context `{AdmissionCtl} `{Codec}.
Variables (stack : nat) (d : Dispatcher).

(** C7: Concurrent requests are linearizable.  However the goroutines of the
    requests interleave, there is an order in which they got the lock such that
    each finished request has the very answer that handling the requests one after
    the other in this order gives it, panics included, and the counters are those
    that this leaves; at most one goroutine is in the critical section, and it
    holds the lock.  The order respects time: what happens later only appends to
    it, so a request that came after another one was answered is behind it. *)
Theorem dispatcher_linearizable w0 s s' :
  reachable stack d (idle w0) s → reachable stack d s s' →
  ∃ order more, explains stack d w0 order s ∧ explains stack d w0 (order ++ more) s'.
Proof.
  intros Hr Hr'. destruct (serial_reachable _ _ _ _ _ _ (serial_idle stack d w0) Hr) as [order Hser].
  destruct (serial_reachable _ _ _ _ _ _ Hser Hr') as [more Hser'].
  exists order, more. split; by apply serial_explains.
Qed.
End Theorems.

(** ** Progress *)

(** How many steps a goroutine still has. *)
Definition weight (p : pc) : nat :=
  match p with
  | Waiting => 6 | Locked => 5 | Routed _ => 4 | Parsed _ _ => 3
  | Replying _ _ => 2 | Unlocking _ => 1 | Finished _ => 0
  end.

Definition remaining (s : Machine) : nat := sum_list_with (weight ∘ snd) (threads s).

(** The process has ended in the middle of a request. *)
Definition crashed (s : Machine) : Prop :=
  ∃ i r o, threads s !! i = Some (r, Unlocking o) ∧ fatal o = true.

Definition answered (p : pc) : bool := match p with Finished _ => true | _ => false end.

Lemma sum_list_with_insert {A} (f : A → nat) l i x y :
  l !! i = Some x → f y < f x → sum_list_with f (<[i := y]> l) < sum_list_with f l.
Proof.
  intros Hi Hlt. rewrite -{2}(take_drop_middle l i x Hi) (insert_take_drop l i y (lookup_lt_Some _ _ _ Hi)).
  rewrite !sum_list_with_app. simpl. lia.
Qed.

Section Progress.
Context `{AdmissionCtl} `{Codec}.
Variables (stack : nat) (d : Dispatcher).
Abbreviation internal := (internal stack d).

Lemma next_weight r p world p' world' : next stack d r p world = Some (p', world') → weight p' < weight p.
Proof.
  destruct p as [| |hook|hook request|w resp|o|o]; simpl; try done.
  - destruct (Parse parseAuthority (RequestURI r)) as [path|e]; [|intros [= <- _]; simpl; lia].
    destruct (d !! path); intros [= <- _]; simpl; lia.
  - destruct (ParseHTTPRequest r) as [[request resp0] [e|]]; intros [= <- _]; simpl; lia.
  - destruct (negb _); [intros [= <- _]; simpl; lia|].
    destruct (wh_Authorized hook request world) as [[resp|why] world1]; intros [= <- _]; simpl; lia.
  - intros [= <- _]; simpl; lia.
Qed.

(** Only at its ends and before the lock has a goroutine no call to make. *)
Lemma next_None r p world : next stack d r p world = None → p = Waiting ∨ ∃ o, p = Unlocking o ∨ p = Finished o.
Proof.
  destruct p as [| |hook|hook request|w resp|o|o]; simpl; eauto.
  - destruct (Parse parseAuthority (RequestURI r)) as [path|e]; [by destruct (d !! path)|done].
  - by destruct (ParseHTTPRequest r) as [[request resp0] [e|]].
  - destruct (negb _); [done|]. by destruct (wh_Authorized hook request world) as [[resp|why] world1].
  - done.
Qed.

Lemma internal_remaining s s' : internal s s' → remaining s' < remaining s.
Proof.
  intros [i r Hi _|i r p p' world' Hi Hn|i r o Hi _]; eapply sum_list_with_insert; try exact Hi; simpl; try lia.
  exact (next_weight _ _ _ _ _ Hn).
Qed.

Lemma nsteps_remaining n s s' : nsteps internal n s s' → n + remaining s' ≤ remaining s.
Proof.
  induction 1 as [s|n s1 s2 s3 Hstep _ IH]; [done|]. pose proof (internal_remaining _ _ Hstep). lia.
Qed.

Lemma remaining_bound s : remaining s ≤ 6 * length (threads s).
Proof.
  unfold remaining. induction (threads s) as [|[r p] ts IH]; simpl; [done|]. assert (weight p ≤ 6) by (destruct p; simpl; lia). lia.
Qed.

(** The lock is free, or one of the goroutines holds it. *)
Lemma serial_holder w0 s order :
  serial stack d w0 s order → mu s = false ∨ ∃ i r p, threads s !! i = Some (r, p) ∧ critical p = true.
Proof. intros [fin Hmu _ _ _ _|fin i r p _ Hi Hc _ _ _ _ _]; [by left|right; by exists i, r, p]. Qed.

(** Who holds the lock can go on, or has ended the process. *)
Lemma critical_runs s i r p :
  threads s !! i = Some (r, p) → critical p = true → (∃ s', internal s s') ∨ crashed s.
Proof.
  intros Hi Hc. destruct (next stack d r p (shared s)) as [[p' world']|] eqn:Hn.
  - left. eexists. exact (runs _ _ _ i r p p' world' Hi Hn).
  - apply next_None in Hn as [Hp|(o & [Hp|Hp])]; subst p; try done. destruct (fatal o) eqn:Ho.
    + right. by exists i, r, o.
    + left. eexists. exact (unlocks _ _ _ i r o Hi Ho).
Qed.

(** As long as a goroutine has no answer, one of them can go on. *)
Lemma unanswered_runs w0 s order i r p :
  serial stack d w0 s order → threads s !! i = Some (r, p) → answered p = false →
  (∃ s', internal s s') ∨ crashed s.
Proof.
  intros Hser Hi Ha. destruct (critical p) eqn:Hc; [by apply (critical_runs s i r p)|].
  destruct p; try done. destruct (serial_holder _ _ _ Hser) as [Hmu|(j & r' & p & Hj & Hcj)].
  - left. eexists. exact (locks _ _ _ i r Hi Hmu).
  - by apply (critical_runs s j r' p).
Qed.

Lemma internal_reachable s s' : rtc internal s s' → reachable stack d s s'.
Proof. apply rtc_subrel. intros x y. apply internally. Qed.

Lemma not_all_answered s :
  forallb (answered ∘ snd) (threads s) = false → ∃ i r p, threads s !! i = Some (r, p) ∧ answered p = false.
Proof.
  intros Hall. destruct (decide (Exists (λ t, answered t.2 = false) (threads s))) as [Hex|Hne].
  - apply Exists_exists in Hex as ([r p] & [i Hi]%list_elem_of_lookup & Hp). by exists i, r, p.
  - apply not_true_iff_false in Hall as []. apply forallb_forall. intros t Hin%list_elem_of_In.
    apply not_false_iff_true. intros Ht. apply Hne, Exists_exists. by exists t.
Qed.

(** Running what can run comes to the end. *)
Lemma runs_out w0 n s order :
  remaining s ≤ n → serial stack d w0 s order →
  ∃ s', rtc internal s s' ∧ (forallb (answered ∘ snd) (threads s') = true ∨ crashed s').
Proof.
  revert s order. induction n as [|n IH]; intros s order Hn Hser;
    (destruct (forallb (answered ∘ snd) (threads s)) eqn:Hall; [exists s; by auto using rtc_refl|];
     destruct (not_all_answered _ Hall) as (i & r & p & Hi & Ha);
     destruct (unanswered_runs _ _ _ _ _ _ Hser Hi Ha) as [[s1 Hs1]|]; [|exists s; by auto using rtc_refl]; pose proof (internal_remaining _ _ Hs1); try lia).
  destruct (serial_step _ _ _ _ _ _ Hser (internally _ _ _ _ Hs1)) as [more Hser1].
  destruct (IH s1 _ ltac:(lia) Hser1) as (s2 & Hs2 & Hall2). exists s2. split; [exact (rtc_l _ _ _ _ Hs1 Hs2)|done].
Qed.

(** C8: The server always comes to an answer.  From every state that it reaches,
    each run of the goroutines that are there ends after at most six steps each,
    whatever the scheduler does; a run that cannot go on has answered all of them,
    panics included, so that there is no deadlock on the mutex, unless SendResponse
    overflowed the stack and ended the process; and such a run exists. *)
Theorem dispatcher_progress w0 s :
  reachable stack d (idle w0) s →
  (∀ n s', nsteps internal n s s' → n ≤ 6 * length (threads s)) ∧
  (∀ s', rtc internal s s' → (∀ s'', ¬ internal s' s'') →
     forallb (answered ∘ snd) (threads s') = true ∨ crashed s') ∧
  (∃ s', rtc internal s s' ∧ (forallb (answered ∘ snd) (threads s') = true ∨ crashed s')).
Proof.
  intros Hr. destruct (serial_reachable _ _ _ _ _ _ (serial_idle stack d w0) Hr) as [order Hser]. split; [|split].
  - intros n s' Hs'. pose proof (nsteps_remaining _ _ _ Hs'). pose proof (remaining_bound s). lia.
  - intros s' Hs' Hstuck. destruct (serial_reachable _ _ _ _ _ _ Hser (internal_reachable _ _ Hs')) as [more Hser'].
    destruct (forallb (answered ∘ snd) (threads s')) eqn:Hall; [by left|].
    destruct (not_all_answered _ Hall) as (i & r & p & Hi & Ha).
    destruct (unanswered_runs _ _ _ _ _ _ Hser' Hi Ha) as [[s1 Hs1]|]; [by destruct (Hstuck s1)|by right].
  - by apply (runs_out w0 (remaining s) s order).
Qed.
End Progress.

(** ** Witnesses *)

Module Witness.
Import Server.Witness.
#[local] Existing Instance exampleCtl.
#[local] Existing Instance Server.Witness.codec.
#[local] Existing Instance Server.Witness.decoder.
#[local] Existing Instance Server.Witness.kube.

Definition request1 : HTTPRequest := post "/hostedcluster-validation".
Definition request2 : HTTPRequest := post "/none".

(** Two requests arrive, and the second one is answered before the first one gets
    the lock. *)
Definition arrived : Machine := {| mu := false; threads := [(request1, Waiting); (request2, Waiting)]; shared := start |}.
Definition notFound : outcome Writer :=
  SendResponse 1 (WriteHeader StatusNotFound newWriter)
    (Errored StatusBadRequest "request is not for a registered webhook").
Definition overtaken : Machine := {|
  mu := false; threads := [(request1, Waiting); (request2, Finished notFound)]; shared := start |}.

Lemma arrived_reachable : reachable 1 dispatcher (idle start) arrived.
Proof. eapply rtc_l; [apply (arrives _ _ _ request1)|]. eapply rtc_l; [apply (arrives _ _ _ request2)|]. apply rtc_refl. Qed.

Lemma overtaken_reachable : reachable 1 dispatcher arrived overtaken.
Proof.
  eapply rtc_l; [apply internally; by apply (locks 1 dispatcher arrived 1 request2)|].
  eapply rtc_l; [apply internally; apply (runs _ _ _ 1 request2 Locked); [done|vm_compute; reflexivity]|].
  eapply rtc_l; [apply internally; eapply (runs _ _ _ 1 request2); [done|reflexivity]|].
  eapply rtc_l; [apply internally; by eapply (unlocks _ _ _ 1 request2)|].
  apply rtc_refl.
Qed.

Lemma dispatcher_linearizable_witness :
  ∃ order, explains 1 dispatcher start order overtaken ∧ fst (serve 1 dispatcher order.*2 start) !! 0 = Some notFound.
Proof.
  destruct (dispatcher_linearizable 1 dispatcher start arrived overtaken arrived_reachable overtaken_reachable)
    as (order & more & _ & Hex). exists (order ++ more). split; [exact Hex|].
  destruct Hex as (Hnd & Hin & Hfin & _). destruct (Hfin 1 request2 notFound eq_refl) as (k & Hk & Hserve).
  destruct k as [|k]; [exact Hserve|exfalso].
  destruct ((order ++ more) !! 0) as [[i r]|] eqn:H0; [|by apply lookup_ge_None in H0; apply lookup_lt_Some in Hk; lia].
  destruct (proj1 (Hin i r) (list_elem_of_lookup_2 _ _ _ H0)) as (p & Hp & Hne).
  destruct i as [|[|i]]; [by simpl in Hp; simplify_eq| |done].
  assert (0 = S k); [|done].
  apply (NoDup_lookup (order ++ more).*1 0 (S k) 1 Hnd); rewrite list_lookup_fmap; [by rewrite H0|by rewrite Hk].
Defined.

Lemma dispatcher_progress_witness :
  ∃ s', rtc (internal 1 dispatcher) arrived s' ∧
    (forallb (answered ∘ snd) (threads s') = true ∨ crashed s').
Proof. exact (proj2 (proj2 (dispatcher_progress 1 dispatcher start arrived arrived_reachable))). Defined.
End Witness.
