(* ===== verification/Main.v ===== *)
(** * cmd/main.go: the life of the server process

    From the command line to the exit code: the flags, the registration of the
    webhooks, the metrics server, TLS, and the server goroutine with the select
    on its error and the shutdown signal.  [setup] is what happens before the
    server runs, as a function; the concurrent rest is a step relation. *)

From S2P Require Import Prelude GoStrings Admission Webhook Url K8sUtil Registry Dispatcher Server.
From S2P Require Flag.
From S2P Require Namespace RegularUser ClusterLogging Service NetworkOperator PodImageSpec Pod Node.
From S2P Require ClusterRole ClusterRoleBinding ServiceAccount SCC PrometheusRule NetworkPolicies.
From S2P Require ImageContentPolicies IngressController CustomResourceDefinitions SdnMigration TechPreviewNoUpgrade.
From S2P Require HostedCluster.

(** ** The command line *)

Definition metricsPath : string := "/metrics".
Definition metricsPort : string := "8080".

Definition kinds : gmap string Flag.kind := {[
  "listen" := Flag.StringFlag; "port" := Flag.StringFlag; "testhooks" := Flag.BoolFlag;
  "tls" := Flag.BoolFlag; "tlskey" := Flag.StringFlag; "tlscert" := Flag.StringFlag;
  "cacert" := Flag.StringFlag; "metrics-bind-address" := Flag.StringFlag]}.

Definition defaults : Flag.values := {[
  "listen" := "0.0.0.0"; "port" := "5000"; "testhooks" := "false";
  "tls" := "false"; "tlskey" := ""; "tlscert" := ""; "cacert" := "";
  "metrics-bind-address" := ":" +:+ metricsPort]}.

(** net.JoinHostPort *)
Definition JoinHostPort (host port : string) : string :=
  if ContainsSub host ":" then "[" +:+ host +:+ "]:" +:+ port else host +:+ ":" +:+ port.

(** ** Set-up *)

(** The configuration of the HTTP server that is started. *)
Record ServerConfig := {
  Addr : string;
  RootCAs : option string;
  TLSFiles : option (string * string);
}.

(** config/config.go *)
Definition OperatorName : string := "validation-webhook".
Definition OperatorNamespace : string := "openshift-validation-webhook".

(** What the builder of the metrics library is told; the collectors are those of
    pkg/localmetrics. *)
Record MetricsConfig := {
  mc_Namespace : string; mc_Name : string; mc_Port : string; mc_Path : string;
  mc_ServiceLabel : gmap string string; mc_Collectors : list Node.CounterVec }.

Definition metricsServer : MetricsConfig := {|
  mc_Namespace := OperatorNamespace; mc_Name := OperatorName +:+ "-metrics";
  mc_Port := metricsPort; mc_Path := metricsPath; mc_ServiceLabel := {["app" := "validation-webhook"]};
  mc_Collectors := Node.MetricsList |}.

(** The metrics library. *)
Class Metrics := { ConfigureMetrics : MetricsConfig → option error }.

Section Main.
Context `{AdmissionCtl} `{Codec} `{OS} `{Metrics}.

(** What is logged about the metrics server; it has no other effect on the
    process. *)
Definition metricsLog : string :=
  match GetOperatorNamespace with
  | Err err =>
      if String.eqb err ErrRunLocal then "Skipping metrics server creation; not running in a cluster."
      else "Failed to get operator namespace"
  | Ok _ =>
      match ConfigureMetrics metricsServer with
      | Some err => "Failed to configure metrics"
      | None => "Successfully configured metrics"
      end
  end.

(** The HTTP server as the flags ask for it, or why there is none. *)
Definition serverConfig (flags : Flag.values) : ending + ServerConfig :=
  let addr := JoinHostPort (Flag.stringValue flags "listen") (Flag.stringValue flags "port") in
  if Flag.boolValue flags "tls" then
    match ReadFile (Flag.stringValue flags "cacert") with
    | Contents cafile =>
        inr {| Addr := addr; RootCAs := Some cafile;
               TLSFiles := Some (Flag.stringValue flags "tlscert", Flag.stringValue flags "tlskey") |}
    | _ => inl (Exit 1)
    end
  else inr {| Addr := addr; RootCAs := None; TLSFiles := None |}.

(** Up to the start of the server.  [order]: the webhooks as the range over the
    registry visits them. *)
Definition setup (arguments : list string) (order : list (string * Webhook)) :
    ending + (gset string * string * ServerConfig) :=
  match Flag.Parse kinds arguments defaults with
  | inl Flag.HelpRequested => inl (Exit 0)
  | inl (Flag.BadUsage _) => inl (Exit 2)
  | inr flags =>
      match listen order ∅ ∅ with
      | Panicked why => inl (Crash why)
      | Returned mux =>
          if Flag.boolValue flags "testhooks" then inl (Exit 0)
          else match serverConfig flags with
          | inl e => inl e
          | inr config => inr (mux, metricsLog, config)
          end
      end
  end.

(** ** The running process *)

Inductive phase := Serving | Draining | Ended (e : ending).

(** [errCh]: the channel of capacity one that the server goroutine writes its
    error to; [signalled]: the context of the signal handler is done. *)
Record Process := {
  ph : phase;
  errCh : option error;
  signalled : bool;
  answers : list (HTTPRequest * outcome Writer);
  world : World;
}.

Definition started (w : World) : Process := {|
  ph := Serving; errCh := None; signalled := false; answers := []; world := w |}.

Definition enter (next : phase) (p : Process) : Process := {|
  ph := next; errCh := errCh p; signalled := signalled p; answers := answers p; world := world p |}.

(** What can happen next.  Requests are handled until the process has ended:
    those that were accepted before the shutdown are drained.  A request whose
    answer exhausts the stack ends the process at once.  The two cases of the
    select may both be possible; Go then picks either. *)
Inductive step (stack : nat) (d : Dispatcher) (mux : gset string) (p : Process) : Process → Prop :=
  | handles r path o w' :
      (ph p = Serving ∨ ph p = Draining) →
      Parse parseAuthority (RequestURI r) = Ok path → path ∈ mux →
      HandleRequest stack d r newWriter (world p) = (o, w') → fatal o = false →
      step stack d mux p {| ph := ph p; errCh := errCh p; signalled := signalled p;
                            answers := answers p ++ [(r, o)]; world := w' |}
  | overflows r path o w' :
      (ph p = Serving ∨ ph p = Draining) →
      Parse parseAuthority (RequestURI r) = Ok path → path ∈ mux →
      HandleRequest stack d r newWriter (world p) = (o, w') → fatal o = true →
      step stack d mux p {| ph := Ended (Crash "stack overflow"); errCh := errCh p; signalled := signalled p;
                            answers := answers p; world := w' |}
  | server_returns err :
      (ph p = Serving ∨ ph p = Draining) → errCh p = None →
      step stack d mux p {| ph := ph p; errCh := Some err; signalled := signalled p;
                            answers := answers p; world := world p |}
  | signal_arrives :
      (ph p = Serving ∨ ph p = Draining) →
      step stack d mux p {| ph := ph p; errCh := errCh p; signalled := true;
                            answers := answers p; world := world p |}
  | selects_error err :
      ph p = Serving → errCh p = Some err → step stack d mux p (enter (Ended (Exit 1)) p)
  | selects_signal :
      ph p = Serving → signalled p = true → step stack d mux p (enter Draining p)
  | shutdown_fails :
      ph p = Draining → step stack d mux p (enter (Ended (Exit 1)) p)
  | shutdown_succeeds :
      ph p = Draining → step stack d mux p (enter (Ended (Exit 0)) p).

Definition reachable (stack : nat) (d : Dispatcher) (mux : gset string) : Process → Process → Prop :=
  rtc (step stack d mux).
End Main.

(** ** Theory *)

Section Theory.
Context `{AdmissionCtl} `{Codec}.
Variables (stack : nat) (hooks : RegisteredWebhooks) (d : Dispatcher) (mux : gset string).
Hypothesis Hdistinct : distinct_uris hooks.
Hypothesis Hlawful : lawful hooks.
Hypothesis Hnew : NewDispatcher hooks d.

(** A request for a path of the mux that exhausts the stack, whenever it comes. *)
Definition overflowing (r : HTTPRequest) : Prop :=
  ∃ path, Parse parseAuthority (RequestURI r) = Ok path ∧ path ∈ mux ∧
    ∀ w, fatal (fst (HandleRequest stack d r newWriter w)) = true.

(** What holds of every process that was started: it drains only after a
    signal, it ends with code 0 only after a signal, it ends with code 1 only
    after an error of the server or a signal and else by a request that exhausts
    the stack, and each answer was given to a request for a path of the mux, as
    the dispatcher would have answered it at any other time. *)
Definition sane (p : Process) : Prop :=
  (ph p = Draining → signalled p = true) ∧
  (∀ e, ph p = Ended e →
     (e = Exit 0 ∧ signalled p = true) ∨ (e = Exit 1 ∧ (errCh p ≠ None ∨ signalled p = true)) ∨
     (e = Crash "stack overflow" ∧ ∃ r, overflowing r)) ∧
  (∀ r o, (r, o) ∈ answers p → fatal o = false ∧
     ∃ path, Parse parseAuthority (RequestURI r) = Ok path ∧ path ∈ mux ∧
       ∀ w, fst (HandleRequest stack d r newWriter w) = o).

Lemma sane_started w : sane (started w).
Proof. split; [done|]. split; [done|]. intros r o []%not_elem_of_nil. Qed.

Lemma sane_step p p' : sane p → step stack d mux p p' → sane p'.
Proof.
  intros (Hd & He & Ha) Hstep. unfold sane.
  pose proof (λ r, proj1 (HandleRequest_effects stack hooks d r newWriter Hdistinct Hnew Hlawful)) as Hsame.
  destruct Hstep as [r path o w' Hph Hp Hm Hh Hf|r path o w' Hph Hp Hm Hh Hf|err Hph _|Hph|err Hph Herr|Hph Hs|Hph|Hph]; simpl.
  - split; [done|]. split; [done|]. intros r' o' [Hin|[= -> ->]%list_elem_of_singleton]%elem_of_app; [by apply Ha|].
    split; [done|]. exists path. split; [done|]. split; [done|]. intros w. by rewrite (Hsame r w (world p)) Hh.
  - split; [done|]. split; [|done]. intros e [= <-]. right. right. split; [done|]. exists r, path.
    do 2 (split; [done|]). intros w. by rewrite (Hsame r w (world p)) Hh.
  - split; [done|]. split; [|done]. intros e E. destruct Hph; congruence.
  - split; [done|]. split; [|done]. intros e E. destruct Hph; congruence.
  - split; [done|]. split; [|done]. intros e [= <-]. right. left. split; [done|]. left. by rewrite Herr.
  - split; [done|]. split; [done|done].
  - split; [done|]. split; [|done]. intros e [= <-]. right. left. split; [done|]. right. by apply Hd.
  - split; [done|]. split; [|done]. intros e [= <-]. left. split; [done|]. by apply Hd.
Qed.

Lemma sane_reachable p p' : sane p → reachable stack d mux p p' → sane p'.
Proof. intros Hp Hr. revert Hp. induction Hr as [|p p1 p2 Hs _ IH]; [done|]. intros Hp. by apply IH, (sane_step p). Qed.

Lemma counters_reachable p p' user :
  reachable stack d mux p p' → blockedCount (world p) user ≤ blockedCount (world p') user.
Proof.
  induction 1 as [|p p1 p2 Hs _ IH]; [done|]. etrans; [|exact IH].
  destruct Hs as [r path o w' _ _ _ Hh _|r path o w' _ _ _ Hh _|err _ _|_|err _ _|_ _|_|_]; simpl; [..|done|done|done|done|done|done];
    (destruct (HandleRequest_effects stack hooks d r newWriter Hdistinct Hnew Hlawful) as [_ Hm];
     specialize (Hm (world p) user); by rewrite Hh in Hm).
Qed.

(** A process that has not ended can still be shut down gracefully. *)
Lemma can_stop p :
  sane p → (∀ e, ph p ≠ Ended e) → ∃ p', reachable stack d mux p p' ∧ ph p' = Ended (Exit 0).
Proof.
  intros (Hd & _ & _) Hne. destruct (ph p) as [| |e] eqn:E; [| |by destruct (Hne e)].
  - set (p1 := {| ph := ph p; errCh := errCh p; signalled := true; answers := answers p; world := world p |}).
    exists (enter (Ended (Exit 0)) (enter Draining p1)). split; [|done].
    eapply rtc_l; [by apply signal_arrives; left|].
    eapply rtc_l; [by apply (selects_signal _ _ _ p1)|]. apply rtc_once. by apply shutdown_succeeds.
  - exists (enter (Ended (Exit 0)) p). split; [|done]. apply rtc_once. by apply shutdown_succeeds.
Qed.
End Theory.

(** ** The program *)

Section Program.
Context `{AdmissionCtl, !AdmissionCtlLaws} `{Codec} `{OS} `{Metrics}.
Context `{Decoder Namespace.Namespace} `{Decoder RegularUser.NetNamespace} `{Decoder RegularUser.ConfigMap}
  `{Decoder ClusterLogging.ClusterLogging} `{Decoder Service.Service} `{Decoder NetworkOperator.Network}
  `{Decoder PodImageSpec.Pod} `{PodImageSpec.KubeClient} `{Decoder Pod.Pod} `{Decoder Node.Node}
  `{Decoder ClusterRole.ClusterRole} `{Decoder ClusterRoleBinding.ClusterRoleBinding}
  `{Decoder ServiceAccount.ServiceAccount} `{Decoder SCC.SecurityContextConstraints}
  `{Decoder PrometheusRule.prometheusRule} `{Decoder NetworkPolicies.NetworkPolicy}
  `{Decoder ImageContentPolicies.ImageDigestMirrorSet} `{Decoder ImageContentPolicies.ImageTagMirrorSet}
  `{Decoder ImageContentPolicies.ImageContentSourcePolicy} `{Decoder IngressController.IngressController}
  `{Decoder CustomResourceDefinitions.CustomResourceDefinition} `{Decoder SdnMigration.Network}
  `{Decoder TechPreviewNoUpgrade.FeatureGate}.

(** C13: The start of the process.  Once the command line parses, the webhooks are
    registered without a panic and in whatever order the registry is visited;
    with -testhooks the process ends with code 0, and otherwise the server is
    started, with exactly the registered URIs, unless TLS is asked for and the CA
    file cannot be read: then the process ends with code 1. *)
Theorem main_startup arguments order order' flags :
  order ≡ₚ map_to_list Webhooks → order' ≡ₚ map_to_list Webhooks →
  Flag.Parse kinds arguments defaults = inr flags →
  setup arguments order = setup arguments order' ∧
  match setup arguments order with
  | inl e =>
      (e = Exit 0 ∧ Flag.boolValue flags "testhooks" = true) ∨
      (e = Exit 1 ∧ Flag.boolValue flags "testhooks" = false ∧ Flag.boolValue flags "tls" = true ∧
       ∀ ca, ReadFile (Flag.stringValue flags "cacert") ≠ Contents ca)
  | inr (mux, _, config) =>
      Flag.boolValue flags "testhooks" = false ∧
      (∀ uri, uri ∈ mux ↔ ∃ name hook, Webhooks !! name = Some hook ∧ wh_GetURI hook = uri) ∧
      (Flag.boolValue flags "tls" = false ∧ RootCAs config = None ∨
       Flag.boolValue flags "tls" = true ∧
       ∃ ca, ReadFile (Flag.stringValue flags "cacert") = Contents ca ∧ RootCAs config = Some ca)
  end.
Proof.
  intros Ho Ho' Hf. unfold setup. rewrite Hf.
  destruct (main_listens _ Ho) as (mux & -> & Hmux), (main_listens _ Ho') as (mux' & -> & Hmux').
  assert (mux' = mux) as -> by (apply set_eq; intros uri; by rewrite Hmux Hmux').
  split; [done|]. unfold serverConfig.
  destruct (Flag.boolValue flags "testhooks"); [by left|]. destruct (Flag.boolValue flags "tls").
  - destruct (ReadFile _) as [ca| |e] eqn:E; [|by right..]. split; [done|]. split; [done|]. right. eauto.
  - split; [done|]. split; [done|]. by left.
Qed.

(** C12: The life of the process.  Whatever interleaving of requests, an error of
    the server, signals and the shutdown takes place: the exit code is 0 only
    after a signal, and 1 only after an error of the server or a signal (a failed
    shutdown); the one other end is the crash of a process that gets a request
    whose answer exhausts the stack, and there is none if error responses can be
    encoded and the stack has room for two calls.  Every answer is the
    dispatcher's, for a path of the mux, and independent of the other requests; the
    counters only grow; and a process that has not ended can still be shut down
    with code 0. *)
Theorem main_run stack d mux w p :
  NewDispatcher Webhooks d → reachable stack d mux (started w) p →
  (∀ e, ph p = Ended e →
     (e = Exit 0 ∧ signalled p = true) ∨ (e = Exit 1 ∧ (errCh p ≠ None ∨ signalled p = true)) ∨
     (e = Crash "stack overflow" ∧ ∃ r, overflowing stack d mux r)) ∧
  (2 ≤ stack → (∀ w code err, EncodeError w (reviewOf (withAudit (Errored code err))) = None) →
     ∀ why, ph p ≠ Ended (Crash why)) ∧
  (∀ r o, (r, o) ∈ answers p → fatal o = false ∧
     ∃ path, Parse parseAuthority (RequestURI r) = Ok path ∧ path ∈ mux ∧
       ∀ w0, fst (HandleRequest stack d r newWriter w0) = o) ∧
  (∀ user, blockedCount w user ≤ blockedCount (world p) user) ∧
  ((∀ e, ph p ≠ Ended e) → ∃ p', reachable stack d mux p p' ∧ ph p' = Ended (Exit 0)).
Proof.
  intros Hnew Hr.
  pose proof (sane_reachable stack Webhooks d mux Webhooks_distinct_uris Webhooks_lawful Hnew _ _ (sane_started _ _ _ w) Hr) as Hs.
  pose proof (λ user, counters_reachable stack Webhooks d mux Webhooks_distinct_uris Webhooks_lawful Hnew _ _ user Hr) as Hc.
  pose proof Hs as (_ & He & Ha). split_and!; [done| |done|done|by apply can_stop].
  intros Hstack Henc why Hw. destruct (He _ Hw) as [[[=] _]|[[[=] _]|(_ & r & path & _ & _ & Hf)]].
  specialize (Hf w). rewrite HandleRequest_not_fatal in Hf; done.
Qed.
End Program.

(** ** Witnesses *)

Module Witness.
#[local] Existing Instance exampleCtl.
#[local] Existing Instance exampleCtl_laws.
#[local] Existing Instance Server.Witness.codec.
#[local] Existing Instance Server.Witness.decoder.
#[local] Existing Instance Server.Witness.kube.

(** A pod with the CA file mounted, and a metrics library that works. *)
#[local] Instance os : OS := {|
  LookupEnv := λ key, None;
  ReadFile := λ path, if String.eqb path "/service-ca/service-ca.crt" then Contents "CA" else NotExist |}.
#[local] Instance metrics : Metrics := {| ConfigureMetrics := λ _, None |}.

Definition commandLine : list string := [
  "-tlskey"; "/service-certs/tls.key"; "-tlscert"; "/service-certs/tls.crt";
  "-cacert"; "/service-ca/service-ca.crt"; "-tls"].

Definition parsed : Flag.values :=
  match Flag.Parse kinds commandLine defaults with inr flags => flags | inl _ => ∅ end.

Lemma main_startup_witness :
  setup commandLine (map_to_list Webhooks) = setup commandLine (rev (map_to_list Webhooks)).
Proof.
  refine (proj1 (main_startup commandLine (map_to_list Webhooks) (rev (map_to_list Webhooks)) parsed _ _ _)).
  - reflexivity.
  - symmetry. apply Permutation_rev.
  - vm_compute. reflexivity.
Defined.

(** A request is answered, then the process is signalled and shut down. *)
Definition after : Process := {|
  ph := Ended (Exit 0); errCh := None; signalled := true;
  answers := [(Server.Witness.post "/hostedcluster-validation", Returned Server.Witness.answer)];
  world := Server.Witness.start |}.

Lemma main_run_witness : Exit 0 = Exit 0 ∧ signalled after = true.
Proof.
  destruct (main_run 1 Server.Witness.dispatcher {["/hostedcluster-validation"]} Server.Witness.start after
    Server.Witness.dispatcher_new) as (He & _).
  - eapply rtc_l.
    { apply (handles _ _ _ _ (Server.Witness.post "/hostedcluster-validation") "/hostedcluster-validation"
        (Returned Server.Witness.answer) Server.Witness.start);
        [by left|reflexivity|set_solver|vm_compute; reflexivity|reflexivity]. }
    eapply rtc_l; [by apply signal_arrives; left|]. eapply rtc_l; [by apply selects_signal|].
    apply rtc_once. by apply shutdown_succeeds.
  - destruct (He (Exit 0) eq_refl) as [H|[[H _]|[H _]]]; [exact H|discriminate H|discriminate H].
Defined.
End Witness.
