(* ===== verification/SyncSet.v ===== *)
(** * pkg/syncset: resources grouped by label selector

    The list that stands in for a map from label selectors to resources, its
    rendering as SelectorSyncSets, and the encoding of a packaged webhook
    configuration with its CA bundle put back as plain text. *)

From stdpp Require Import pretty.
From S2P Require Import Prelude GoStrings Admission Webhook.

(** ** The grouped resources *)

Section SyncSet.
Context {RawExtension : Type}.

Record mapEntry := { key : LabelSelector; values : list RawExtension }.

Record SyncSetResourcesByLabelSelector := { entries : list mapEntry }.

(** The value the generator starts from. *)
Definition emptySyncSet : SyncSetResourcesByLabelSelector := {| entries := [] |}.

(** The index of the entry of a key: [Get] hands out a pointer into the slice.
    The first entry wins. *)
Fixpoint findEntry (es : list mapEntry) (k : LabelSelector) : option nat :=
  match es with
  | [] => None
  | e :: es' => if bool_decide (key e = k) then Some 0 else S <$> findEntry es' k
  end.

Definition Get (s : SyncSetResourcesByLabelSelector) (k : LabelSelector) : option nat :=
  findEntry (entries s) k.

(** [existingEntry.values = append(existingEntry.values, object)] *)
Definition appendValue (object : RawExtension) (e : mapEntry) : mapEntry :=
  {| key := key e; values := values e ++ [object] |}.

Definition Add (k : LabelSelector) (object : RawExtension) (s : SyncSetResourcesByLabelSelector) :
    SyncSetResourcesByLabelSelector :=
  match Get s k with
  | Some i => {| entries := alter (appendValue object) i (entries s) |}
  | None => {| entries := entries s ++ [{| key := k; values := [object] |}] |}
  end.

(** hivev1.SelectorSyncSet, with the fields that are set. *)
Record SelectorSyncSet := {
  sss_Kind : string;
  sss_APIVersion : string;
  sss_Name : string;
  sss_Labels : gmap string string;
  sss_ResourceApplyMode : string;
  sss_Resources : list RawExtension;
  sss_ClusterDeploymentSelector : LabelSelector;
}.

Definition createSelectorSyncSet (name : string) (resources : list RawExtension) (selector : LabelSelector)
    (labels : gmap string string) : SelectorSyncSet := {|
  sss_Kind := "SelectorSyncSet"; sss_APIVersion := "hive.openshift.io/v1";
  sss_Name := name; sss_Labels := labels; sss_ResourceApplyMode := "Sync";
  sss_Resources := resources; sss_ClusterDeploymentSelector := selector |}.

Definition renderEntry (labels : gmap string string) (i : nat) (entry : mapEntry) : SelectorSyncSet :=
  createSelectorSyncSet ("managed-cluster-validating-webhooks-" +:+ pretty i) (values entry) (key entry) labels.

(** The sets; [Encode.EncodeAll] encodes them in this order, and may exit. *)
Definition RenderSelectorSyncSets (s : SyncSetResourcesByLabelSelector) (labels : gmap string string) :
    list SelectorSyncSet :=
  imap (renderEntry labels) (entries s).

(** ** Theory *)

Definition keys (s : SyncSetResourcesByLabelSelector) : list LabelSelector := key <$> entries s.

(** What the entries hold under a key, in order. *)
Definition resourcesOf (s : SyncSetResourcesByLabelSelector) (k : LabelSelector) : list RawExtension :=
  e ← entries s; if bool_decide (key e = k) then values e else [].

(** [Add] in one traversal of the entries. *)
Fixpoint addTo (k : LabelSelector) (object : RawExtension) (es : list mapEntry) : list mapEntry :=
  match es with
  | [] => [{| key := k; values := [object] |}]
  | e :: es' => if bool_decide (key e = k) then appendValue object e :: es' else e :: addTo k object es'
  end.

Lemma entries_Add k object s : entries (Add k object s) = addTo k object (entries s).
Proof.
  unfold Add, Get. destruct s as [es]. simpl. induction es as [|e es IH]; simpl; [done|].
  case_bool_decide; [done|]. destruct (findEntry es k); simpl in *; f_equal; exact IH.
Qed.

Lemma addTo_keys k object es :
  key <$> addTo k object es = (key <$> es) ++ (if bool_decide (k ∈ key <$> es) then [] else [k]).
Proof.
  induction es as [|e es IH]; [done|]. rewrite fmap_cons. cbn [addTo].
  rewrite (bool_decide_ext (k ∈ key e :: (key <$> es)) (key e = k ∨ k ∈ key <$> es)).
  { rewrite elem_of_cons. naive_solver. }
  destruct (decide (key e = k)) as [Hk|Hk].
  - rewrite (bool_decide_eq_true_2 (key e = k) Hk) (bool_decide_eq_true_2 (_ ∨ _) (or_introl Hk)).
    by rewrite app_nil_r.
  - rewrite (bool_decide_eq_false_2 (key e = k) Hk) fmap_cons IH (bool_decide_ext (key e = k ∨ k ∈ key <$> es) (k ∈ key <$> es)) //. tauto.
Qed.

Lemma keys_Add_NoDup k object s : NoDup (keys s) → NoDup (keys (Add k object s)).
Proof.
  intros Hnd. unfold keys. rewrite entries_Add addTo_keys. apply NoDup_app. split; [done|].
  case_bool_decide as Hk; [by split; [intros ? _; apply not_elem_of_nil|apply NoDup_nil_2]|]. split; [|apply NoDup_singleton].
  intros k' Hk' ->%list_elem_of_singleton. done.
Qed.

Lemma keys_Add k object s k' : k' ∈ keys (Add k object s) ↔ k' = k ∨ k' ∈ keys s.
Proof.
  unfold keys. rewrite entries_Add addTo_keys elem_of_app.
  case_bool_decide as Hk; [|by rewrite list_elem_of_singleton; tauto].
  split; [intros [?|[]%not_elem_of_nil]; auto|]. intros [->|?]; auto.
Qed.

Lemma values_absent es k :
  k ∉ key <$> es → (es ≫= λ e, if bool_decide (key e = k) then values e else []) = [].
Proof.
  induction es as [|x es IH]; [done|]. rewrite fmap_cons not_elem_of_cons. intros [Hx Hes]. simpl.
  case_bool_decide; [congruence|]. by apply IH.
Qed.

(** Adding puts the resource last under its key and leaves the other keys. *)
Lemma resourcesOf_Add k object s k' :
  NoDup (keys s) →
  resourcesOf (Add k object s) k' = resourcesOf s k' ++ (if bool_decide (k = k') then [object] else []).
Proof.
  unfold resourcesOf, keys. rewrite entries_Add. generalize (entries s) as es. clear s.
  induction es as [|e es IH]; [intros _; simpl; by case_bool_decide|].
  rewrite fmap_cons. intros [Hni Hnd]%NoDup_cons. cbn [addTo]. destruct (decide (key e = k)) as [Hk|Hk].
  - rewrite (bool_decide_eq_true_2 (key e = k) Hk). rewrite !bind_cons Hk.
    change (key (appendValue object e)) with (key e). rewrite Hk.
    destruct (decide (k = k')) as [<-|Hk'].
    + rewrite (bool_decide_eq_true_2 (k = k) eq_refl) !values_absent; [by rewrite -Hk..|].
      by rewrite !app_nil_r.
    + by rewrite (bool_decide_eq_false_2 (k = k') Hk') app_nil_r.
  - rewrite (bool_decide_eq_false_2 (key e = k) Hk) !bind_cons (IH Hnd). by rewrite app_assoc.
Qed.

Lemma resourcesOf_adds calls s k :
  NoDup (keys s) →
  NoDup (keys (fold_left (λ s call, Add call.1 call.2 s) calls s)) ∧
  resourcesOf (fold_left (λ s call, Add call.1 call.2 s) calls s) k =
    resourcesOf s k ++ (filter (λ call, call.1 = k) calls).*2.
Proof.
  revert s. induction calls as [|[k' o] calls IH]; intros s Hnd; [by rewrite app_nil_r|].
  simpl. destruct (IH _ (keys_Add_NoDup k' o s Hnd)) as [Hnd' ->]. split; [done|].
  rewrite (resourcesOf_Add _ _ _ _ Hnd) -app_assoc. f_equal. rewrite filter_cons. simpl.
  by case_bool_decide; case_decide.
Qed.

(** A sequence of calls of [Add]. *)
Definition adds (calls : list (LabelSelector * RawExtension)) : SyncSetResourcesByLabelSelector :=
  fold_left (λ s call, Add call.1 call.2 s) calls emptySyncSet.

Lemma resourcesOf_entry s i e :
  NoDup (keys s) → entries s !! i = Some e → resourcesOf s (key e) = values e.
Proof.
  unfold resourcesOf, keys. generalize (entries s) as es. clear s. intros es. revert i.
  induction es as [|x es IH]; intros i; [done|]. rewrite fmap_cons NoDup_cons bind_cons. intros [Hni Hnd] Hi.
  destruct i as [|i]; [|change (es !! i = Some e) in Hi].
  - injection Hi as ->. rewrite bool_decide_eq_true_2 // (values_absent _ _ Hni). apply app_nil_r.
  - assert (key x ≠ key e) as Hx; [|by rewrite (bool_decide_eq_false_2 _ Hx); apply (IH i)].
    intros E. apply Hni. rewrite E. apply list_elem_of_fmap. exists e. split; [done|].
    apply list_elem_of_lookup. eauto.
Qed.

Lemma rendered_selectors labels s :
  sss_ClusterDeploymentSelector <$> RenderSelectorSyncSets s labels = keys s.
Proof.
  unfold RenderSelectorSyncSets, keys. apply list_eq. intros i.
  rewrite !list_lookup_fmap list_lookup_imap. by destruct (entries s !! i).
Qed.

Lemma rendered_names labels s : NoDup (sss_Name <$> RenderSelectorSyncSets s labels).
Proof.
  unfold RenderSelectorSyncSets. apply NoDup_alt. intros i j name.
  rewrite !list_lookup_fmap !list_lookup_imap.
  destruct (entries s !! i); [|done]. destruct (entries s !! j); [|done]. simpl. intros [= <-] [= E].
  by apply (inj pretty) in E.
Qed.

(** C37: The minimal set of SelectorSyncSets.  After any sequence of additions no
    two of the rendered sets select alike, their names are distinct, every
    selector that was used has one, and the set of a selector carries exactly the
    resources that were added under it, each as often as it was added and in the
    order of the additions. *)
Theorem syncset_minimal calls labels :
  let rendered := RenderSelectorSyncSets (adds calls) labels in
  NoDup (sss_ClusterDeploymentSelector <$> rendered) ∧ NoDup (sss_Name <$> rendered) ∧
  (∀ k, k ∈ sss_ClusterDeploymentSelector <$> rendered ↔ k ∈ calls.*1) ∧
  (∀ sss, sss ∈ rendered →
     sss_Resources sss = (filter (λ call, call.1 = sss_ClusterDeploymentSelector sss) calls).*2).
Proof.
  assert (NoDup (keys (adds calls)) ∧ (∀ k, k ∈ keys (adds calls) ↔ k ∈ calls.*1) ∧
    ∀ k, resourcesOf (adds calls) k = (filter (λ call, call.1 = k) calls).*2) as (Hnd & Hin & Hres).
  { split; [apply (resourcesOf_adds calls emptySyncSet DefaultLabelSelector), NoDup_nil_2|].
    split; [|intros k; apply (resourcesOf_adds calls emptySyncSet k), NoDup_nil_2].
    induction calls as [|[k o] calls IH] using rev_ind; [done|]. unfold adds. rewrite fold_left_app. simpl.
    fold (adds calls). intros k'. rewrite keys_Add IH fmap_app elem_of_app list_elem_of_singleton. simpl. tauto. }
  simpl. rewrite rendered_selectors. split; [done|]. split; [apply rendered_names|]. split; [done|].
  intros sss (i & Hi)%list_elem_of_lookup. unfold RenderSelectorSyncSets in Hi.
  rewrite list_lookup_imap in Hi. destruct (entries (adds calls) !! i) as [e|] eqn:He; [|done].
  injection Hi as <-. simpl. rewrite -Hres. symmetry. by apply (resourcesOf_entry _ i).
Qed.
End SyncSet.
