(* ===== verification/Json.v ===== *)
(** * encoding/json: decoded documents

    What json.Unmarshal puts into an interface{}: maps, slices, strings, numbers,
    booleans and nil; the type assertions with which Go walks such a value, which
    panic when they fail; and assignment deep inside it. *)

From S2P Require Import Prelude.

Unset Elimination Schemes.
Inductive json :=
  | JNull
  | JBool (b : bool)
  | JNumber (n : Z)
  | JString (s : string)
  | JArray (elements : list json)
  | JObject (members : gmap string json).
Set Elimination Schemes.

(** One step into a document: a member of an object, an element of an array. *)
Inductive access := Key (k : string) | Index (i : nat).

#[export] Instance access_eq_dec : EqDecision access.
Proof. solve_decision. Defined.

Definition get1 (a : access) (j : json) : option json :=
  match a, j with
  | Key k, JObject members => members !! k
  | Index i, JArray elements => elements !! i
  | _, _ => None
  end.

Fixpoint getAt (path : list access) (j : json) : option json :=
  match path with
  | [] => Some j
  | a :: path' => j' ← get1 a j; getAt path' j'
  end.

(** [v.(map[string]interface{})] and [v.([]interface{})] *)
Definition asMap (j : json) : outcome (gmap string json) :=
  match j with JObject members => Returned members | _ => Panicked "interface conversion" end.

Definition asSlice (j : json) : outcome (list json) :=
  match j with JArray elements => Returned elements | _ => Panicked "interface conversion" end.

(** [v.(T1)[a1].(T2)[a2]... = value]: the maps on the way are assigned to in
    place.  Reading an absent member gives nil, indexing out of range panics. *)
Fixpoint assignAt (path : list access) (value : json) (j : json) : outcome json :=
  match path with
  | [] => Returned value
  | Key k :: path' =>
      members ← asMap j;
      member ← assignAt path' value (default JNull (members !! k));
      Returned (JObject (<[k := member]> members))
  | Index i :: path' =>
      elements ← asSlice j;
      match elements !! i with
      | None => Panicked "index out of range"
      | Some element =>
          element' ← assignAt path' value element;
          Returned (JArray (<[i := element']> elements))
      end
  end.

(** ** Theory *)

(** Neither path leads through the place of the other. *)
Fixpoint apart (p q : list access) : Prop :=
  match p, q with
  | a :: p', b :: q' => a ≠ b ∨ apart p' q'
  | _, _ => False
  end.

Lemma assignAt_get path value j j' :
  assignAt path value j = Returned j' → getAt path j' = Some value.
Proof.
  revert j j'. induction path as [|[k|i] path IH]; intros j j'; simpl; [by intros [= <-]| |].
  - destruct (asMap j) as [members|]; simpl; [|done].
    destruct (assignAt path value _) as [member|] eqn:E; simpl; [|done]. intros [= <-]. simpl.
    rewrite lookup_insert_eq. by apply (IH _ _ E).
  - destruct (asSlice j) as [elements|]; simpl; [|done]. destruct (elements !! i) as [element|] eqn:Ei; [|done].
    destruct (assignAt path value element) as [element'|] eqn:E; simpl; [|done]. intros [= <-]. simpl.
    rewrite (list_lookup_insert_eq _ _ _ (lookup_lt_Some _ _ _ Ei)). by apply (IH _ _ E).
Qed.

(** Nothing can be assigned below nil. *)
Lemma assignAt_null path value j' : assignAt path value JNull = Returned j' → path = [].
Proof. by destruct path as [|[] path]. Qed.

(** Assignment leaves every other place alone. *)
Lemma assignAt_frame path value j j' q :
  assignAt path value j = Returned j' → apart path q → getAt q j' = getAt q j.
Proof.
  revert j j' q. induction path as [|[k|i] path IH]; intros j j' [|b q]; try done; cbn [assignAt apart].
  - destruct j as [| | | | |members]; simpl; try done.
    destruct (assignAt path value _) as [member|] eqn:E; simpl; [|done]. intros [= <-] Hap.
    destruct b as [k'|i']; simpl; [|done].
    destruct (decide (k = k')) as [<-|Hne]; [|by rewrite lookup_insert_ne].
    rewrite lookup_insert_eq. destruct Hap as [[]|Hap]; [done|].
    destruct (members !! k) as [m|] eqn:Em; simpl in *; [by apply (IH _ _ _ E Hap)|].
    apply assignAt_null in E. by subst path.
  - destruct j as [| | | |elements|]; simpl; try done. destruct (elements !! i) as [element|] eqn:Ei; [|done].
    destruct (assignAt path value element) as [element'|] eqn:E; simpl; [|done]. intros [= <-] Hap.
    destruct b as [k'|i']; simpl; [done|].
    destruct (decide (i = i')) as [<-|Hne]; [|by rewrite list_lookup_insert_ne].
    rewrite (list_lookup_insert_eq _ _ _ (lookup_lt_Some _ _ _ Ei)). rewrite Ei. destruct Hap as [[]|Hap]; [done|].
    by apply (IH _ _ _ E Hap).
Qed.

(** Assigning to a member of an object that is there succeeds. *)
Lemma assignAt_member path k value j members :
  getAt path j = Some (JObject members) →
  ∃ j', assignAt (path ++ [Key k]) value j = Returned j' ∧
    getAt path j' = Some (JObject (<[k := value]> members)).
Proof.
  revert j. induction path as [|[k'|i] path IH]; intros j; simpl getAt.
  - intros [= ->]. eexists. split; [reflexivity|done].
  - destruct j as [| | | | |ms]; try done. simpl. destruct (ms !! k') as [j1|] eqn:E; [|done]. simpl. intros Hj.
    destruct (IH _ Hj) as (j' & Ha & Hg). exists (JObject (<[k' := j']> ms)).
    rewrite Ha.
    split; [done|]. simpl. by rewrite lookup_insert_eq.
  - destruct j as [| | | |es|]; try done. simpl. destruct (es !! i) as [j1|] eqn:E; [|done]. simpl. intros Hj.
    destruct (IH _ Hj) as (j' & Ha & Hg). exists (JArray (<[i := j']> es)).
    rewrite Ha. split; [done|]. simpl.
    by rewrite (list_lookup_insert_eq _ _ _ (lookup_lt_Some _ _ _ E)).
Qed.

Lemma getAt_app p q j : getAt (p ++ q) j = (j' ← getAt p j; getAt q j').
Proof. revert j. induction p as [|a p IH]; intros j; [done|]. simpl. destruct (get1 a j); simpl; [apply IH|done]. Qed.
