(* ===== verification/Filepath.v ===== *)
(** * path/filepath on Unix: Clean and Join

    The lexical normal form of a path, and the joining of its elements. *)

From S2P Require Import Prelude GoStrings.

(** One element of a path, on the elements before it (the last one first). *)
Definition element (rooted : bool) (out : list string) (e : string) : list string :=
  if String.eqb e "" || String.eqb e "." then out
  else if String.eqb e ".." then
    match out with
    | last :: before => if String.eqb last ".." then ".." :: out else before
    | [] => if rooted then [] else [".."]
    end
  else e :: out.

Definition rooted (path : string) : bool := HasPrefix path "/".

Definition elements (path : string) : list string :=
  rev (fold_left (element (rooted path)) (Split path "/") []).

(** [filepath.Clean] *)
Definition Clean (path : string) : string :=
  if rooted path then "/" +:+ Join (elements path) "/"
  else match elements path with [] => "." | es => Join es "/" end.

(** [filepath.Join] *)
Fixpoint JoinPath (elem : list string) : string :=
  match elem with
  | [] => ""
  | e :: rest => if String.eqb e "" then JoinPath rest else Clean (Join elem "/")
  end.

(** ** Theory *)

(** A name that is neither of the special elements and has no separator. *)
Definition ordinary (name : string) : Prop :=
  name ≠ "" ∧ name ≠ "." ∧ name ≠ ".." ∧ no_char "/" name = true.

Lemma rooted_app path s : path ≠ "" → rooted (path +:+ s) = rooted path.
Proof. destruct path as [|c path]; [done|]. intros _. unfold rooted. cbn [String.append HasPrefix]. by destruct path, s. Qed.

Lemma elements_file dir name :
  dir ≠ "" → ordinary name → elements (dir +:+ String "/" name) = elements dir ++ [name].
Proof.
  intros Hd (Hn & Hdot & Hdots & Hs). unfold elements. rewrite rooted_app // Split_snoc // fold_left_app. cbn [fold_left].
  apply String.eqb_neq in Hn, Hdot, Hdots.
  unfold element at 1. by rewrite Hn Hdot Hdots.
Qed.

Lemma Join_snoc es name : es ≠ [] → Join (es ++ [name]) "/" = Join es "/" +:+ String "/" name.
Proof.
  intros Hne. induction es as [|e es IH]; [done|]. destruct es as [|e' es]; [done|].
  change ((e :: e' :: es) ++ [name]) with (e :: ((e' :: es) ++ [name])).
  rewrite (Join_cons e (e' :: es)) // (Join_cons e ((e' :: es) ++ [name])) // IH //. by rewrite -!str_app_assoc.
Qed.

(** Joining a directory that is in normal form and a file name. *)
Lemma JoinPath_clean dir name :
  Clean dir = dir → dir ≠ "/" → dir ≠ "." → ordinary name → JoinPath [dir; name] = dir +:+ String "/" name.
Proof.
  intros Hc Hroot Hdot Hn. assert (dir ≠ "") as Hd by by intros ->.
  cbn [JoinPath]. rewrite (proj2 (String.eqb_neq dir "")) //. cbn [Join].
  change (dir +:+ "/" +:+ name) with (dir +:+ String "/" name).
  unfold Clean in *. rewrite rooted_app // elements_file //.
  destruct (elements dir) as [|e es] eqn:E.
  - exfalso. destruct (rooted dir); simpl in Hc; congruence.
  - destruct (rooted dir).
    + rewrite Join_snoc //. rewrite -[RHS](f_equal (λ d, d +:+ String "/" name) Hc). by rewrite -!str_app_assoc.
    + change (Join ((e :: es) ++ [name]) "/" = dir +:+ String "/" name). by rewrite Join_snoc // Hc.
Qed.

Example Clean_examples :
  Clean <$> [""; "a/./b//c/"; "../a/../../b"; "/../a/.."; "a/.."; "/a/../../b"] = ["."; "a/b/c"; "../../b"; "/"; "."; "/b"].
Proof. vm_compute. reflexivity. Qed.
