(* ===== verification/Encode.v ===== *)
(** * pkg/syncset: the encoders

    [Encode] and the three encoders that edit the encoded document before it is
    written.  Marshalling the Kubernetes types is a parameter ([Marshal]); what
    the code relies on is stated as laws: the documented places of the fields. *)

From S2P Require Import Prelude Process Webhook KubeObjects Json.

(** json.Marshal at the types that are encoded; a document stands for its text
    (json.Unmarshal into an interface gives it back).  [PrintConfiguration] is the
    verb %+v, which prints the addresses of pointers. *)
Class Marshal := {
  MarshalDaemonSet : DaemonSet → result json;
  MarshalConfiguration : WebhookConfiguration → result json;
  PrintConfiguration : WebhookConfiguration → string;
}.

(** The places that the encoders assign to. *)
Definition podSpecPath : list access := [Key "spec"; Key "template"; Key "spec"].
Definition clientConfigPath : list access := [Key "webhooks"; Index 0; Key "clientConfig"].

(** The documented encoding of the types: where the pod spec of a daemon set and
    the client configurations of webhooks are. *)
Class MarshalLaws `{Marshal} : Prop := {
  daemonset_podSpec ds j : MarshalDaemonSet ds = Ok j → ∃ spec, getAt podSpecPath j = Some (JObject spec);
  configuration_webhooks cfg j w ws : MarshalConfiguration cfg = Ok j → wc_Webhooks cfg = w :: ws →
    ∃ clientConfig, getAt clientConfigPath j = Some (JObject clientConfig);
}.

Section Encode.
Context `{Marshal}.

(** [Encode] at a type, by the functions that marshal and print its values. *)
Definition Encode {A} (marshal : A → result json) (print : A → string) (obj : A) : process json :=
  match marshal obj with
  | Ok o => mret o
  | Err err => _ ← Println ("Error encoding " +:+ print obj); stop (Exit 1)
  end.

(** [Encode] in a loop. *)
Fixpoint EncodeAll {A} (marshal : A → result json) (print : A → string) (objs : list A) : process (list json) :=
  match objs with
  | [] => mret []
  | obj :: rest =>
      o ← Encode marshal print obj;
      os ← EncodeAll marshal print rest;
      mret (o :: os)
  end.

(** What Unmarshal leaves in the variable: nil if there is no document. *)
Definition decoded (o : result json) : json := match o with Ok j => j | Err _ => JNull end.

Definition EncodeAndFixDaemonset (ds : DaemonSet) : outcome (result json) :=
  let o := decoded (MarshalDaemonSet ds) in
  o ← (if String.length (ps_ServiceAccountName (pt_Spec (ds_Template ds))) =? 0
       then assignAt (podSpecPath ++ [Key "serviceAccountName"]) (JString "") o
       else Returned o);
  r ← assignAt (podSpecPath ++ [Key "serviceAccount"]) (JString "") o;
  Returned (Ok r).

(** [vw.Webhooks[0].ClientConfig.CABundle] is read before marshalling. *)
Definition EncodeValidatingAndFixCA (vw : WebhookConfiguration) : outcome (result json) :=
  match wc_Webhooks vw with
  | [] => Returned (Err "Require at least one webhook")
  | webhook :: _ =>
      let caBundleValue := cc_CABundle (we_ClientConfig webhook) in
      let o := MarshalConfiguration vw in
      if String.eqb caBundleValue "" then Returned o
      else
        r ← assignAt (clientConfigPath ++ [Key "caBundle"]) (JString caBundleValue) (decoded o);
        Returned (Ok r)
  end.

(** The same text for the other kind. *)
Definition EncodeMutatingAndFixCA (vw : WebhookConfiguration) : outcome (result json) :=
  match wc_Webhooks vw with
  | [] => Returned (Err "Require at least one webhook")
  | webhook :: _ =>
      let caBundleValue := cc_CABundle (we_ClientConfig webhook) in
      let o := MarshalConfiguration vw in
      if String.eqb caBundleValue "" then Returned o
      else
        r ← assignAt (clientConfigPath ++ [Key "caBundle"]) (JString caBundleValue) (decoded o);
        Returned (Ok r)
  end.

(** ** Theory *)

Context `{!MarshalLaws}.

Lemma Encode_ok {A} (marshal : A → result json) print obj o e :
  marshal obj = Ok o → Encode marshal print obj e = (inr o, e).
Proof. unfold Encode. by intros ->. Qed.

Lemma EncodeAll_ok {A} (marshal : A → result json) print objs os e :
  Forall2 (λ obj o, marshal obj = Ok o) objs os → EncodeAll marshal print objs e = (inr os, e).
Proof.
  intros Hall. induction Hall as [|obj o objs os Ho Hall IH]; [done|]. cbn [EncodeAll].
  rewrite (bind_runs _ _ _ _ _ (Encode_ok _ _ _ _ _ Ho)). by rewrite (bind_runs _ _ _ _ _ IH).
Qed.

(** The result of fixing the CA bundle: the marshalled document with the bundle
    as it is, not in base64, and nothing else changed. *)
Lemma fixed_CA cfg w ws j :
  wc_Webhooks cfg = w :: ws → cc_CABundle (we_ClientConfig w) ≠ "" → MarshalConfiguration cfg = Ok j →
  ∃ r, EncodeValidatingAndFixCA cfg = Returned (Ok r) ∧ EncodeMutatingAndFixCA cfg = Returned (Ok r) ∧
    getAt (clientConfigPath ++ [Key "caBundle"]) r = Some (JString (cc_CABundle (we_ClientConfig w))) ∧
    ∀ q, apart (clientConfigPath ++ [Key "caBundle"]) q → getAt q r = getAt q j.
Proof.
  intros Hw Hca Hj. unfold EncodeValidatingAndFixCA, EncodeMutatingAndFixCA. rewrite Hw Hj.
  apply String.eqb_neq in Hca. rewrite Hca. cbn [decoded].
  destruct (configuration_webhooks _ _ _ _ Hj Hw) as (clientConfig & Hc).
  destruct (assignAt_member _ "caBundle" (JString (cc_CABundle (we_ClientConfig w))) _ _ Hc) as (r & Hr & _).
  rewrite Hr. exists r. split; [done|]. split; [done|]. split; [by apply (assignAt_get _ _ _ _ Hr)|].
  intros q. by apply (assignAt_frame _ _ _ _ _ Hr).
Qed.

Lemma encoded_daemonset ds j :
  MarshalDaemonSet ds = Ok j → ∃ r, EncodeAndFixDaemonset ds = Returned (Ok r).
Proof.
  intros Hj. unfold EncodeAndFixDaemonset. rewrite Hj. cbn [decoded].
  destruct (daemonset_podSpec _ _ Hj) as (spec & Hspec).
  destruct (_ =? 0); cbn [mbind outcome_bind].
  - destruct (assignAt_member _ "serviceAccountName" (JString "") _ _ Hspec) as (j1 & H1 & Hs1).
    destruct (assignAt_member _ "serviceAccount" (JString "") _ _ Hs1) as (r & Hr & _).
    exists r. rewrite H1. cbn [mbind outcome_bind]. by rewrite Hr.
  - destruct (assignAt_member _ "serviceAccount" (JString "") _ _ Hspec) as (r & Hr & _). exists r. by rewrite Hr.
Qed.

(** The daemon set's encoding.  It sets the deprecated field serviceAccount of
    the pod to the empty string and, if the pod names no service account, also
    the field serviceAccountName, which marshalling would have left out; every
    other place of the document is as it was marshalled, and a service account
    that is named stays. *)
Theorem daemonset_fixed ds j :
  MarshalDaemonSet ds = Ok j →
  ∃ r, EncodeAndFixDaemonset ds = Returned (Ok r) ∧
    getAt (podSpecPath ++ [Key "serviceAccount"]) r = Some (JString "") ∧
    getAt (podSpecPath ++ [Key "serviceAccountName"]) r =
      (if String.eqb (ps_ServiceAccountName (pt_Spec (ds_Template ds))) "" then Some (JString "")
       else getAt (podSpecPath ++ [Key "serviceAccountName"]) j) ∧
    ∀ q, apart (podSpecPath ++ [Key "serviceAccount"]) q →
         apart (podSpecPath ++ [Key "serviceAccountName"]) q → getAt q r = getAt q j.
Proof.
  intros Hj. unfold EncodeAndFixDaemonset. rewrite Hj. cbn [decoded].
  destruct (daemonset_podSpec _ _ Hj) as (spec & Hspec).
  change (String.length _ =? 0) with (Nat.eqb (String.length (ps_ServiceAccountName (pt_Spec (ds_Template ds)))) 0).
  destruct (String.eqb_spec (ps_ServiceAccountName (pt_Spec (ds_Template ds))) "") as [->|Hne]; cbn [String.length Nat.eqb].
  - destruct (assignAt_member _ "serviceAccountName" (JString "") _ _ Hspec) as (j1 & H1 & Hs1).
    destruct (assignAt_member _ "serviceAccount" (JString "") _ _ Hs1) as (r & Hr & Hs).
    exists r. rewrite H1. cbn [mbind outcome_bind]. rewrite Hr !getAt_app Hs. cbn [mbind option_bind]. simpl.
    rewrite lookup_insert_eq lookup_insert_ne // lookup_insert_eq. do 3 (split; [done|]). intros q Hq1 Hq2.
    by rewrite (assignAt_frame _ _ _ _ _ Hr Hq1) (assignAt_frame _ _ _ _ _ H1 Hq2).
  - assert (Nat.eqb (String.length (ps_ServiceAccountName (pt_Spec (ds_Template ds)))) 0 = false) as ->.
    { apply Nat.eqb_neq. by rewrite str_length_0. }
    destruct (assignAt_member _ "serviceAccount" (JString "") _ _ Hspec) as (r & Hr & Hs).
    exists r. cbn [mbind outcome_bind]. rewrite Hr !getAt_app Hs Hspec. simpl.
    rewrite lookup_insert_eq lookup_insert_ne //. do 3 (split; [done|]). intros q Hq1 _.
    by rewrite (assignAt_frame _ _ _ _ _ Hr Hq1).
Qed.
End Encode.

(** ** Witnesses *)

Module Witness.
(** The parts of the encodings that the laws speak of. *)
Definition podSpec (name : string) : json :=
  JObject (if String.eqb name "" then ∅ else {["serviceAccountName" := JString name]}).

Definition document (ds : DaemonSet) : json :=
  JObject {["spec" := JObject {["template" := JObject {["spec" :=
    podSpec (ps_ServiceAccountName (pt_Spec (ds_Template ds)))]}]}]}.

Definition exampleMarshal : Marshal := {|
  MarshalDaemonSet ds := Ok (document ds);
  MarshalConfiguration cfg := Ok (JObject {["webhooks" := JArray
    ((λ w, JObject {["clientConfig" := JObject {["caBundle" := JString "base64"]}]}) <$> wc_Webhooks cfg)]});
  PrintConfiguration cfg := wc_Name cfg |}.

Lemma exampleMarshal_laws : @MarshalLaws exampleMarshal.
Proof.
  constructor.
  - intros ds j [= <-]. by eexists.
  - intros cfg j w ws [= <-] E. rewrite E. by eexists.
Qed.

#[local] Existing Instance exampleMarshal.
#[local] Existing Instance exampleMarshal_laws.

(** A daemon set whose pod names no service account. *)
Definition anonymous : DaemonSet := {|
  ds_Type := {| tm_Kind := "DaemonSet"; tm_APIVersion := "apps/v1" |};
  ds_Meta := {| om_Name := "x"; om_Namespace := ""; om_Labels := ∅; om_Annotations := ∅ |};
  ds_Selector := matchLabels ∅; ds_Strategy := ""; ds_MaxUnavailable := IntVal 1;
  ds_Template := {| pt_Labels := ∅; pt_Spec := {|
    ps_Affinity := {| aff_NodeAffinity := {| na_Required := None; na_Preferred := [] |};
                      aff_PodAffinity := []; aff_PodAntiAffinity := [] |};
    ps_Tolerations := []; ps_RestartPolicy := ""; ps_ServiceAccountName := ""; ps_Volumes := []; ps_Containers := [] |} |} |}.

Lemma daemonset_fixed_witness :
  ∃ r, EncodeAndFixDaemonset anonymous = Returned (Ok r) ∧
    getAt (podSpecPath ++ [Key "serviceAccount"]) r = Some (JString "").
Proof.
  destruct (@daemonset_fixed exampleMarshal exampleMarshal_laws anonymous (document anonymous) eq_refl) as (r & Hr & Ha & _). exists r. split; [exact Hr|exact Ha].
Defined.
End Witness.
