(* ===== verification/Resources.v ===== *)
(** * build/resources.go: which webhooks are deployed where

    The generator's webhook configurations, and the two loops of its [main] that
    choose the webhooks of the SelectorSyncSet template (classic clusters) and of
    the package (hosted clusters).  The other objects are in [Manifests]; the
    loops start from whatever [main] put in before them, see [Generate]. *)

From stdpp Require Import sorting.
From S2P Require Import Prelude Process GoStrings Admission Webhook Dispatcher SyncSet Json Encode KubeObjects Manifests.
From S2P Require HostedCluster ManifestWorks.

(** ** Webhook configurations *)

Section Configurations.
Variable flags : Flags.

Definition createValidatingWebhookConfiguration (hook : Webhook) : WebhookConfiguration := {|
  wc_Kind := "ValidatingWebhookConfiguration";
  wc_APIVersion := "admissionregistration.k8s.io/v1";
  wc_Name := "sre-" +:+ wh_Name hook;
  wc_Annotations := {["service.beta.openshift.io/inject-cabundle" := "true"]};
  wc_Webhooks := [{|
    we_AdmissionReviewVersions := ["v1"];
    we_TimeoutSeconds := wh_TimeoutSeconds hook;
    we_SideEffects := wh_SideEffects hook;
    we_MatchPolicy := wh_MatchPolicy hook;
    we_Name := wh_Name hook +:+ ".managed.openshift.io";
    we_ObjectSelector := wh_ObjectSelector hook;
    we_FailurePolicy := wh_FailurePolicy hook;
    we_ClientConfig := {|
      cc_URL := None;
      cc_Service := Some {| sr_Namespace := namespace flags; sr_Path := wh_GetURI hook; sr_Name := serviceName |};
      cc_CABundle := "" |};
    we_Rules := wh_Rules hook |}] |}.

Definition createMutatingWebhookConfiguration (hook : Webhook) : WebhookConfiguration := {|
  wc_Kind := "MutatingWebhookConfiguration";
  wc_APIVersion := "admissionregistration.k8s.io/v1";
  wc_Name := "sre-" +:+ wh_Name hook;
  wc_Annotations := {["service.beta.openshift.io/inject-cabundle" := "true"]};
  wc_Webhooks := [{|
    we_AdmissionReviewVersions := ["v1"];
    we_TimeoutSeconds := wh_TimeoutSeconds hook;
    we_SideEffects := wh_SideEffects hook;
    we_MatchPolicy := wh_MatchPolicy hook;
    we_Name := wh_Name hook +:+ ".managed.openshift.io";
    we_ObjectSelector := wh_ObjectSelector hook;
    we_FailurePolicy := wh_FailurePolicy hook;
    we_ClientConfig := {|
      cc_URL := None;
      cc_Service := Some {| sr_Namespace := namespace flags; sr_Path := wh_GetURI hook; sr_Name := serviceName |};
      cc_CABundle := "" |};
    we_Rules := wh_Rules hook |}] |}.

(** [webhookConfiguration.Webhooks[0].ClientConfig = c] *)
Definition setClientConfig (c : WebhookClientConfig) (entry : WebhookEntry) : WebhookEntry := {|
  we_AdmissionReviewVersions := we_AdmissionReviewVersions entry;
  we_TimeoutSeconds := we_TimeoutSeconds entry; we_SideEffects := we_SideEffects entry;
  we_MatchPolicy := we_MatchPolicy entry; we_Name := we_Name entry;
  we_ObjectSelector := we_ObjectSelector entry; we_FailurePolicy := we_FailurePolicy entry;
  we_ClientConfig := c; we_Rules := we_Rules entry |}.

(** The body the two packaged variants share. *)
Definition packaged (webhookConfiguration : WebhookConfiguration) (webhook : Webhook) (phase : string) :
    WebhookConfiguration :=
  let url := "https://" +:+ serviceName +:+ ".{{.package.metadata.namespace}}.svc.cluster.local" +:+ wh_GetURI webhook in
  {| wc_Kind := wc_Kind webhookConfiguration; wc_APIVersion := wc_APIVersion webhookConfiguration;
     wc_Name := wc_Name webhookConfiguration;
     wc_Annotations :=
       <[caBundleAnnotation := "false"]> (<[pkoPhaseAnnotation := phase]> (wc_Annotations webhookConfiguration));
     wc_Webhooks := alter (setClientConfig {|
       cc_URL := Some url; cc_Service := None; cc_CABundle := "{{.config.serviceca | b64enc }}" |}) 0
       (wc_Webhooks webhookConfiguration) |}.

Definition createPackagedValidatingWebhookConfiguration (webhook : Webhook) (phase : string) : WebhookConfiguration :=
  packaged (createValidatingWebhookConfiguration webhook) webhook phase.

Definition createPackagedMutatingWebhookConfiguration (webhook : Webhook) (phase : string) : WebhookConfiguration :=
  packaged (createMutatingWebhookConfiguration webhook) webhook phase.

(** ** The loops *)

Fixpoint sliceContains (needle : string) (haystack : list string) : bool :=
  match haystack with
  | [] => false
  | hay :: rest => if String.eqb hay needle then true else sliceContains needle rest
  end.

Definition skip : list string := Split (excludes flags) ",".
Definition onlyInclude : list string := Explode (only flags).

(** [sort.Strings] *)
Definition sortStrings (names : list string) : list string := merge_sort String.le names.

(** A resource of the generated files: the Kubernetes objects that are there
    before the loops, and the documents of encoded webhook configurations. *)
Inductive Resource (Object : Type) :=
  | Static (object : Object)
  | Encoded (document : json).
#[global] Arguments Static {Object} object.
#[global] Arguments Encoded {Object} document.

Context `{Marshal} {Object : Type}.
Abbreviation resources := (SyncSetResourcesByLabelSelector (RawExtension := Resource Object)).

(** The loop over the sorted names for the template. *)
Fixpoint templateLoop (hooks : RegisteredWebhooks) (hookNames : list string) (seen : gset string)
    (templateResources : resources) : process resources :=
  match hookNames with
  | [] => mret templateResources
  | hookName :: rest =>
      hook ← unrecovered (deref (hooks !! hookName));
      if bool_decide (wh_GetURI hook ∈ seen) then stop (Crash ("Duplicate hook URI: " +:+ wh_GetURI hook))
      else
        let seen := {[wh_GetURI hook]} ∪ seen in
        if negb (wh_ClassicEnabled hook) then templateLoop hooks rest seen templateResources
        else if length (wh_Rules hook) =? 0 then templateLoop hooks rest seen templateResources
        else
          _ ← when (showHookNames flags) (Println (wh_Name hook));
          if sliceContains (wh_Name hook) skip then templateLoop hooks rest seen templateResources
          else if (0 <? length onlyInclude) && negb (sliceContains (wh_Name hook) onlyInclude) then
            templateLoop hooks rest seen templateResources
          else if HasSuffix hookName "-mutation" then
            raw ← Encode MarshalConfiguration PrintConfiguration (createMutatingWebhookConfiguration hook);
            templateLoop hooks rest seen (Add (wh_SyncSetLabelSelector hook) (Encoded raw) templateResources)
          else
            raw ← Encode MarshalConfiguration PrintConfiguration (createValidatingWebhookConfiguration hook);
            templateLoop hooks rest seen (Add (wh_SyncSetLabelSelector hook) (Encoded raw) templateResources)
  end.

(** What the loop for the package does with the result of an encoder. *)
Definition encodedWebhook (encoder : outcome (result json)) : process json :=
  encoded ← unrecovered encoder;
  match encoded with
  | Err err => _ ← Println ("Error encoding packaged webhook: " +:+ err); stop (Exit 1)
  | Ok encodedWebhook => mret encodedWebhook
  end.

(** The loop for the package. *)
Fixpoint packageLoop (hooks : RegisteredWebhooks) (hookNames : list string) (seen : gset string)
    (packageResources : list (Resource Object)) : process (list (Resource Object)) :=
  match hookNames with
  | [] => mret packageResources
  | hookName :: rest =>
      hook ← unrecovered (deref (hooks !! hookName));
      if bool_decide (wh_GetURI hook ∈ seen) then stop (Crash ("Duplicate hook URI: " +:+ wh_GetURI hook))
      else
        let seen := {[wh_GetURI hook]} ∪ seen in
        if negb (wh_HypershiftEnabled hook) then packageLoop hooks rest seen packageResources
        else if length (wh_Rules hook) =? 0 then packageLoop hooks rest seen packageResources
        else
          _ ← when (showHookNames flags) (Println (wh_Name hook));
          if sliceContains (wh_Name hook) skip then packageLoop hooks rest seen packageResources
          else if (0 <? length onlyInclude) && negb (sliceContains (wh_Name hook) onlyInclude) then
            packageLoop hooks rest seen packageResources
          else if HasSuffix hookName "-mutation" then
            raw ← encodedWebhook (EncodeMutatingAndFixCA (createPackagedMutatingWebhookConfiguration hook webhooksPhase));
            packageLoop hooks rest seen (packageResources ++ [Encoded raw])
          else
            raw ← encodedWebhook (EncodeValidatingAndFixCA (createPackagedValidatingWebhookConfiguration hook webhooksPhase));
            packageLoop hooks rest seen (packageResources ++ [Encoded raw])
  end.

(** The names are collected from the map in the order of its range and sorted. *)
Definition buildTemplate (hooks : RegisteredWebhooks) (range : list string) (start : resources) : process resources :=
  templateLoop hooks (sortStrings range) ∅ start.

Definition buildPackage (hooks : RegisteredWebhooks) (range : list string) (start : list (Resource Object)) :
    process (list (Resource Object)) :=
  packageLoop hooks (sortStrings range) ∅ start.
End Configurations.

(** ** Theory *)

(** [range] is an order in which the names of the registered webhooks are
    visited. *)
Definition range_of (hooks : RegisteredWebhooks) (range : list string) : Prop :=
  range ≡ₚ (map_to_list hooks).*1.

Lemma range_of_elem hooks range name : range_of hooks range → name ∈ range ↔ ∃ hook, hooks !! name = Some hook.
Proof.
  intros ->. rewrite list_elem_of_fmap. split.
  - intros ([n h] & -> & Hin%elem_of_map_to_list). eauto.
  - intros [h Hh]. exists (name, h). by rewrite elem_of_map_to_list.
Qed.

Lemma range_of_NoDup hooks range : range_of hooks range → NoDup range.
Proof. intros ->. apply NoDup_fst_map_to_list. Qed.

Lemma sliceContains_iff needle haystack : sliceContains needle haystack = true ↔ needle ∈ haystack.
Proof.
  induction haystack as [|hay rest IH]; simpl; [split; [done|by intros ?%not_elem_of_nil]|].
  rewrite elem_of_cons. destruct (String.eqb_spec hay needle) as [->|Hne]; [tauto|].
  rewrite IH. split; [auto|]. intros [->|?]; done.
Qed.

Lemma sortStrings_perm names : sortStrings names ≡ₚ names.
Proof. apply merge_sort_Permutation. Qed.

Lemma sortStrings_unique names1 names2 : names1 ≡ₚ names2 → sortStrings names1 = sortStrings names2.
Proof.
  intros Hp. apply (Sorted_unique String.le); [apply Sorted_merge_sort, _..|].
  by rewrite !sortStrings_perm.
Qed.

Section Theory.
Context `{Marshal, !MarshalLaws}.
Variable flags : Flags.
Context {Object : Type}.
Abbreviation resources := (SyncSetResourcesByLabelSelector (RawExtension := Resource Object)).

(** The generated files do not depend on the order in which Go's maps are
    traversed. *)
Theorem build_deterministic hooks range1 range2 (syncset : resources) (package : list (Resource Object)) :
  range_of hooks range1 → range_of hooks range2 →
  buildTemplate flags hooks range1 syncset = buildTemplate flags hooks range2 syncset ∧
  buildPackage flags hooks range1 package = buildPackage flags hooks range2 package.
Proof.
  intros R1 R2. unfold buildTemplate, buildPackage.
  by rewrite (sortStrings_unique range1 range2) //; unfold range_of in *; rewrite R1 R2.
Qed.

(** The webhooks that the guards of a loop let through. *)
Definition deployed (enabled : Webhook → bool) (hook : Webhook) : Prop :=
  enabled hook = true ∧ wh_Rules hook ≠ [] ∧ (wh_Name hook ∉ skip flags) ∧
  (onlyInclude flags = [] ∨ wh_Name hook ∈ onlyInclude flags).

#[export] Instance deployed_dec enabled hook : Decision (deployed enabled hook).
Proof.
  unfold deployed. repeat apply and_dec; try apply _.
Defined.

Definition classicConfiguration (name : string) (hook : Webhook) : WebhookConfiguration :=
  if HasSuffix name "-mutation" then createMutatingWebhookConfiguration flags hook
  else createValidatingWebhookConfiguration flags hook.

Definition hostedConfiguration (name : string) (hook : Webhook) : WebhookConfiguration :=
  if HasSuffix name "-mutation" then createPackagedMutatingWebhookConfiguration flags hook webhooksPhase
  else createPackagedValidatingWebhookConfiguration flags hook webhooksPhase.

(** The documents: what is encoded for a hook if marshalling succeeds. *)
Definition documentOf (o : outcome (result json)) : json :=
  match o with Returned r => decoded r | Panicked _ => JNull end.

Definition classicDocument (name : string) (hook : Webhook) : json :=
  decoded (MarshalConfiguration (classicConfiguration name hook)).

Definition hostedDocument (name : string) (hook : Webhook) : json :=
  documentOf (EncodeValidatingAndFixCA (hostedConfiguration name hook)).

(** The configurations of the hooks that a loop lets through can be
    marshalled. *)
Definition marshals (enabled : Webhook → bool) (configuration : string → Webhook → WebhookConfiguration)
    (hooks : RegisteredWebhooks) : Prop :=
  ∀ name hook, hooks !! name = Some hook → deployed enabled hook →
    ∃ doc, MarshalConfiguration (configuration name hook) = Ok doc.

(** The names that -showhooks prints. *)
Definition listed (enabled : Webhook → bool) (hooks : RegisteredWebhooks) (names : list string) : list string :=
  name ← names; from_option (λ hook,
    if enabled hook && negb (length (wh_Rules hook) =? 0) then [wh_Name hook] else []) [] (hooks !! name).

Definition showing (enabled : Webhook → bool) (hooks : RegisteredWebhooks) (names : list string) (e : Effects) : Effects :=
  {| lines := lines e ++ (if showHookNames flags then listed enabled hooks names else []); files := files e |}.

(** What the loops add, by name. *)
Definition classicAdditions (hooks : RegisteredWebhooks) (names : list string) :
    list (LabelSelector * Resource Object) :=
  name ← names; from_option (λ hook, if bool_decide (deployed wh_ClassicEnabled hook) then
    [(wh_SyncSetLabelSelector hook, Encoded (classicDocument name hook))] else []) [] (hooks !! name).

Definition hostedAdditions (hooks : RegisteredWebhooks) (names : list string) : list (Resource Object) :=
  name ← names; from_option (λ hook, if bool_decide (deployed wh_HypershiftEnabled hook) then
    [Encoded (hostedDocument name hook)] else []) [] (hooks !! name).

(** The guards of both loops. *)
Lemma deployed_guards enabled hook :
  (if negb (enabled hook) then false else if length (wh_Rules hook) =? 0 then false
   else if sliceContains (wh_Name hook) (skip flags) then false
   else negb ((0 <? length (onlyInclude flags)) && negb (sliceContains (wh_Name hook) (onlyInclude flags)))) =
  bool_decide (deployed enabled hook).
Proof.
  apply bool_eq_iff. rewrite bool_decide_eq_true. unfold deployed. rewrite -(sliceContains_iff _ (skip flags)).
  rewrite -(sliceContains_iff _ (onlyInclude flags)).
  destruct (enabled hook), (wh_Rules hook), (sliceContains (wh_Name hook) (skip flags)),
    (onlyInclude flags) as [|o os]; simpl (length _); simpl (_ =? _); simpl (_ <? _);
    try destruct (sliceContains (wh_Name hook) _); naive_solver.
Qed.
(** What the loops rely on: the names still to come are registered, and the
    URIs of their hooks are not among those seen. *)
Definition pending (hooks : RegisteredWebhooks) (names : list string) (seen : gset string) : Prop :=
  NoDup names ∧ ∀ name, name ∈ names → ∃ hook, hooks !! name = Some hook ∧ wh_GetURI hook ∉ seen.

Lemma pending_step hooks name names seen :
  distinct_uris hooks → pending hooks (name :: names) seen →
  ∃ hook, hooks !! name = Some hook ∧ (wh_GetURI hook ∉ seen) ∧ pending hooks names ({[wh_GetURI hook]} ∪ seen).
Proof.
  intros Hd [[Hn Hnd]%NoDup_cons Hall]. destruct (Hall name) as (hook & Hh & Hs); [by left|].
  exists hook. split; [done|]. split; [done|]. split; [done|]. intros name' Hin.
  destruct (Hall name') as (hook' & Hh' & Hs'); [by right|]. exists hook'. split; [done|].
  rewrite elem_of_union elem_of_singleton. intros [E|?]; [|done].
  by rewrite (Hd _ _ _ _ Hh' Hh E) in Hin.
Qed.

Lemma showing_nil enabled hooks e : showing enabled hooks [] e = e.
Proof. unfold showing. simpl. destruct e. by destruct (showHookNames flags); rewrite app_nil_r. Qed.

(** A hook that is skipped before its name is printed, and one whose name is. *)
Lemma showing_skip enabled hooks name names hook e :
  hooks !! name = Some hook → enabled hook && negb (length (wh_Rules hook) =? 0) = false →
  showing enabled hooks (name :: names) e = showing enabled hooks names e.
Proof. intros Hh He. unfold showing, listed. rewrite bind_cons Hh. cbn [from_option]. by rewrite He. Qed.

Lemma showing_name enabled hooks name names hook e :
  hooks !! name = Some hook → enabled hook && negb (length (wh_Rules hook) =? 0) = true →
  showing enabled hooks (name :: names) e =
  showing enabled hooks names {| lines := lines e ++ (if showHookNames flags then [wh_Name hook] else []); files := files e |}.
Proof.
  intros Hh He. unfold showing, listed. rewrite bind_cons Hh. cbn [from_option lines files]. rewrite He.
  destruct (showHookNames flags); [by rewrite -app_assoc|by rewrite !app_nil_r].
Qed.

Lemma hosted_CA hook name :
  ∃ w ws, wc_Webhooks (hostedConfiguration name hook) = w :: ws ∧ cc_CABundle (we_ClientConfig w) ≠ "".
Proof. unfold hostedConfiguration. destruct (HasSuffix name "-mutation"); by eexists _, _. Qed.

(** The encoders of the package on a configuration that can be marshalled. *)
Lemma encodedWebhook_ok name hook doc e :
  MarshalConfiguration (hostedConfiguration name hook) = Ok doc →
  EncodeValidatingAndFixCA (hostedConfiguration name hook) = Returned (Ok (hostedDocument name hook)) ∧
  encodedWebhook (EncodeMutatingAndFixCA (hostedConfiguration name hook)) e = (inr (hostedDocument name hook), e) ∧
  encodedWebhook (EncodeValidatingAndFixCA (hostedConfiguration name hook)) e = (inr (hostedDocument name hook), e).
Proof.
  intros Hj. destruct (hosted_CA hook name) as (w & ws & Hw & Hca). unfold hostedDocument.
  destruct (fixed_CA _ _ _ _ Hw Hca Hj) as (r & Hv & Hm & _). by rewrite Hm Hv.
Qed.

(** Decides the guards one after the other and closes the branches with [IH]. *)
Ltac decide_guards Hg IH :=
  repeat match type of Hg with
  | (if ?b then false else _) = _ => destruct b; [rewrite -Hg; by apply IH|]
  | negb ?b = _ => destruct b; simpl in Hg; [rewrite -Hg; by apply IH|]
  end.

Lemma templateLoop_adds hooks names seen (syncset : resources) e :
  distinct_uris hooks → pending hooks names seen → marshals wh_ClassicEnabled classicConfiguration hooks →
  templateLoop flags hooks names seen syncset e =
    (inr (fold_left (λ s call, Add call.1 call.2 s) (classicAdditions hooks names) syncset),
     showing wh_ClassicEnabled hooks names e).
Proof.
  intros Hd Hp Hm. revert seen syncset e Hp. induction names as [|name names IH]; intros seen syncset e Hp.
  { by rewrite showing_nil. }
  destruct (pending_step _ _ _ _ Hd Hp) as (hook & Hh & Hs & Hp'). unfold classicAdditions. rewrite bind_cons.
  cbn [templateLoop]. rewrite Hh. cbn [deref unrecovered from_option].
  rewrite (bind_runs _ _ e hook e eq_refl) (bool_decide_eq_false_2 _ Hs).
  pose proof (deployed_guards wh_ClassicEnabled hook) as Hg. cbv zeta.
  destruct (wh_ClassicEnabled hook) eqn:He; cbn [negb] in Hg |- *;
    [|rewrite (showing_skip _ _ _ _ _ _ Hh); [by rewrite He|]; rewrite -Hg; by apply IH].
  destruct (length (wh_Rules hook) =? 0) eqn:Hr;
    [rewrite (showing_skip _ _ _ _ _ _ Hh); [by rewrite He Hr|]; rewrite -Hg; by apply IH|].
  rewrite (showing_name _ _ _ _ _ _ Hh); [by rewrite He Hr|].
  rewrite (bind_runs _ _ _ _ _ (when_Println _ _ _)).
  decide_guards Hg IH. symmetry in Hg. destruct (Hm _ _ Hh) as [doc Hdoc]; [by apply bool_decide_eq_true in Hg|].
  rewrite Hg. unfold classicDocument. unfold classicConfiguration in *.
  destruct (HasSuffix name "-mutation"); rewrite (bind_runs _ _ _ _ _ (Encode_ok _ _ _ _ _ Hdoc)) Hdoc; by apply IH.
Qed.

Lemma packageLoop_adds hooks names seen (package : list (Resource Object)) e :
  distinct_uris hooks → pending hooks names seen → marshals wh_HypershiftEnabled hostedConfiguration hooks →
  packageLoop flags hooks names seen package e =
    (inr (package ++ hostedAdditions hooks names), showing wh_HypershiftEnabled hooks names e).
Proof.
  intros Hd Hp Hm. revert seen package e Hp. induction names as [|name names IH]; intros seen package e Hp.
  { by rewrite showing_nil app_nil_r. }
  destruct (pending_step _ _ _ _ Hd Hp) as (hook & Hh & Hs & Hp'). unfold hostedAdditions. rewrite bind_cons.
  cbn [packageLoop]. rewrite Hh. cbn [deref unrecovered from_option].
  rewrite (bind_runs _ _ e hook e eq_refl) (bool_decide_eq_false_2 _ Hs).
  pose proof (deployed_guards wh_HypershiftEnabled hook) as Hg. cbv zeta.
  destruct (wh_HypershiftEnabled hook) eqn:He; cbn [negb] in Hg |- *;
    [|rewrite (showing_skip _ _ _ _ _ _ Hh); [by rewrite He|]; rewrite -Hg; by apply IH].
  destruct (length (wh_Rules hook) =? 0) eqn:Hr;
    [rewrite (showing_skip _ _ _ _ _ _ Hh); [by rewrite He Hr|]; rewrite -Hg; by apply IH|].
  rewrite (showing_name _ _ _ _ _ _ Hh); [by rewrite He Hr|].
  rewrite (bind_runs _ _ _ _ _ (when_Println _ _ _)).
  decide_guards Hg IH. symmetry in Hg. destruct (Hm _ _ Hh) as [doc Hdoc]; [by apply bool_decide_eq_true in Hg|].
  match goal with |- _ = (_, showing _ _ _ ?s) => destruct (encodedWebhook_ok _ _ _ s Hdoc) as (_ & E1 & E2) end.
  rewrite Hg (app_assoc package). unfold hostedConfiguration in E1, E2.
  destruct (HasSuffix name "-mutation"); [rewrite (bind_runs _ _ _ _ _ E1)|rewrite (bind_runs _ _ _ _ _ E2)]; by apply IH.
Qed.

(** A configuration that cannot be marshalled ends the loop for the template. *)
Lemma templateLoop_fails hooks names seen (syncset : resources) e name hook err :
  distinct_uris hooks → pending hooks names seen → name ∈ names → hooks !! name = Some hook →
  deployed wh_ClassicEnabled hook → MarshalConfiguration (classicConfiguration name hook) = Err err →
  ∃ e', templateLoop flags hooks names seen syncset e = (inl (Exit 1), e') ∧ files e' = files e.
Proof.
  intros Hd Hp Hin Hh Hdep Herr. assert (∃ fs, files e = fs) as [fs Hfs] by eauto. rewrite Hfs.
  revert seen syncset e Hp Hin Hfs.
  induction names as [|name' names IH]; intros seen syncset e Hp Hin Hfs; [by apply not_elem_of_nil in Hin|].
  destruct (pending_step _ _ _ _ Hd Hp) as (hook' & Hh' & Hs & Hp'). cbn [templateLoop]. rewrite Hh'. cbn [deref unrecovered].
  rewrite (bind_runs _ _ e hook' e eq_refl) (bool_decide_eq_false_2 _ Hs). cbv zeta.
  pose proof (deployed_guards wh_ClassicEnabled hook') as Hg.
  assert (bool_decide (deployed wh_ClassicEnabled hook') = false → name ∈ names) as Hrest.
  { intros Hn%bool_decide_eq_false. apply elem_of_cons in Hin as [->|?]; [|done]. by simplify_eq. }
  destruct (negb (wh_ClassicEnabled hook')); [apply IH; [done|by apply Hrest|done]|].
  destruct (length (wh_Rules hook') =? 0); [apply IH; [done|by apply Hrest|done]|].
  rewrite (bind_runs _ _ _ _ _ (when_Println _ _ _)).
  assert (∀ s cfg (f : json → process resources), cfg = classicConfiguration name' hook' →
    (name ∈ names → ∀ doc, ∃ e', f doc s = (inl (Exit 1), e') ∧ files e' = fs) →
    files s = fs → ∃ e', (Encode MarshalConfiguration PrintConfiguration cfg ≫= f) s = (inl (Exit 1), e') ∧ files e' = fs) as Hstep.
  { intros s cfg f -> Hf Hs'. destruct (MarshalConfiguration (classicConfiguration name' hook')) as [doc|err'] eqn:Ed.
    - rewrite (bind_runs _ _ _ _ _ (Encode_ok _ _ _ _ _ Ed)). apply Hf.
      apply elem_of_cons in Hin as [->|?]; [|done]. simplify_eq. congruence.
    - unfold Encode. rewrite Ed. eexists. by split. }
  destruct (sliceContains _ (skip flags)); [apply IH; [done|by apply Hrest|done]|].
  destruct (_ && _); [apply IH; [done|by apply Hrest|done]|].
  destruct (HasSuffix name' "-mutation") eqn:Esuffix;
    (apply Hstep; [by rewrite /classicConfiguration Esuffix|intros Hin' doc; by apply IH|done]).
Qed.

Lemma classicAdditions_of hooks (l : list (string * Webhook)) k :
  (∀ p, p ∈ l → hooks !! p.1 = Some p.2) →
  (filter (λ call, call.1 = k) (classicAdditions hooks l.*1)).*2 =
  (λ p, Encoded (classicDocument p.1 p.2)) <$>
    filter (λ p, deployed wh_ClassicEnabled p.2 ∧ wh_SyncSetLabelSelector p.2 = k) l.
Proof.
  induction l as [|[name hook] l IH]; intros Hl; [done|]. unfold classicAdditions.
  rewrite fmap_cons bind_cons filter_app fmap_app filter_cons IH; [by intros p Hp; apply Hl; right|].
  cbn [fst snd]. rewrite (Hl (name, hook)); [by left|]. cbn [fst snd from_option].
  case_bool_decide as Hdep.
  - rewrite filter_cons. cbn [fst snd]. destruct (decide (wh_SyncSetLabelSelector hook = k)) as [Hk|Hk].
    + by rewrite !decide_True.
    + rewrite !decide_False //. by intros [].
  - case_decide as Hc; [by destruct Hc|done].
Qed.

Lemma hostedAdditions_of hooks (l : list (string * Webhook)) :
  (∀ p, p ∈ l → hooks !! p.1 = Some p.2) →
  hostedAdditions hooks l.*1 =
  (λ p, Encoded (hostedDocument p.1 p.2)) <$> filter (λ p, deployed wh_HypershiftEnabled p.2) l.
Proof.
  induction l as [|[name hook] l IH]; intros Hl; [done|]. unfold hostedAdditions.
  rewrite fmap_cons bind_cons filter_cons. unfold hostedAdditions in IH. rewrite IH; [by intros p Hp; apply Hl; right|].
  cbn [fst snd]. rewrite (Hl (name, hook)); [by left|]. cbn [fst snd from_option].
  case_bool_decide as Hdep; [by rewrite decide_True|by rewrite decide_False].
Qed.

Lemma range_pending hooks range : range_of hooks range → pending hooks (sortStrings range) ∅.
Proof.
  intros Hr. split; [rewrite sortStrings_perm; apply (range_of_NoDup _ _ Hr)|].
  intros name. rewrite sortStrings_perm (range_of_elem _ _ _ Hr). intros [hook Hh].
  exists hook. split; [done|]. apply not_elem_of_empty.
Qed.

Lemma map_to_list_hooks (hooks : RegisteredWebhooks) p : p ∈ map_to_list hooks → hooks !! p.1 = Some p.2.
Proof. destruct p. by intros ?%elem_of_map_to_list. Qed.

(** The template.  When no two webhooks share a URI and the configurations can be
    marshalled, the loop succeeds, and each selector ends up with what it had plus
    one encoded configuration, mutating or validating by the webhook's name, for
    every registered webhook that is enabled for classic clusters, has rules, is
    not excluded and, if -only is given, is among its words. *)
Lemma template_contents hooks range (syncset : resources) :
  distinct_uris hooks → range_of hooks range → NoDup (keys syncset) →
  marshals wh_ClassicEnabled classicConfiguration hooks →
  ∃ res, (∀ e, buildTemplate flags hooks range syncset e =
            (inr res, showing wh_ClassicEnabled hooks (sortStrings range) e)) ∧ NoDup (keys res) ∧
    ∀ k, resourcesOf res k ≡ₚ resourcesOf syncset k ++
      ((λ p, Encoded (classicDocument p.1 p.2)) <$>
        filter (λ p, deployed wh_ClassicEnabled p.2 ∧ wh_SyncSetLabelSelector p.2 = k) (map_to_list hooks)).
Proof.
  intros Hd Hr Hk Hm. unfold buildTemplate. eexists.
  split; [intros e; by apply templateLoop_adds, Hm; [|apply range_pending]|].
  split; [by apply (resourcesOf_adds _ syncset DefaultLabelSelector)|]. intros k.
  destruct (resourcesOf_adds (classicAdditions hooks (sortStrings range)) syncset k Hk) as [_ ->].
  f_equiv. rewrite -(classicAdditions_of hooks _ k (map_to_list_hooks hooks)).
  do 2 f_equiv. unfold classicAdditions. by rewrite sortStrings_perm Hr.
Qed.

(** With a configuration that cannot be marshalled the generator exits. *)
Lemma template_fails hooks range (syncset : resources) e :
  distinct_uris hooks → range_of hooks range →
  (∃ name hook err, hooks !! name = Some hook ∧ deployed wh_ClassicEnabled hook ∧
     MarshalConfiguration (classicConfiguration name hook) = Err err) →
  ∃ e', buildTemplate flags hooks range syncset e = (inl (Exit 1), e') ∧ files e' = files e.
Proof.
  intros Hd Hr (name & hook & err & Hh & Hdep & Herr).
  apply (templateLoop_fails hooks _ _ _ _ name hook err); try done; [by apply range_pending|].
  rewrite sortStrings_perm (range_of_elem _ _ _ Hr). eauto.
Qed.

(** The package.  Likewise for the hosted clusters: the loop appends one
    packaged configuration, with its CA bundle fixed, for every registered webhook
    that is enabled for them, has rules and is selected by the flags, and nothing
    else. *)
Lemma package_contents hooks range (package : list (Resource Object)) :
  distinct_uris hooks → range_of hooks range → marshals wh_HypershiftEnabled hostedConfiguration hooks →
  ∃ added, (∀ e, buildPackage flags hooks range package e =
              (inr (package ++ added), showing wh_HypershiftEnabled hooks (sortStrings range) e)) ∧
    added ≡ₚ (λ p, Encoded (hostedDocument p.1 p.2)) <$>
      filter (λ p, deployed wh_HypershiftEnabled p.2) (map_to_list hooks).
Proof.
  intros Hd Hr Hm. eexists.
  split; [intros e; by apply packageLoop_adds, Hm; [|apply range_pending]|].
  rewrite -(hostedAdditions_of hooks _ (map_to_list_hooks hooks)).
  unfold hostedAdditions. by rewrite sortStrings_perm Hr.
Qed.

Lemma Explode_length s w : w ∈ Explode s → String.length w = 1.
Proof. induction s as [|c s IH]; simpl; [by intros ?%not_elem_of_nil|]. by intros [->|?]%elem_of_cons; auto. Qed.

Lemma only_not_deployed enabled hook :
  only flags ≠ "" → String.length (wh_Name hook) ≠ 1 → ¬ deployed enabled hook.
Proof.
  intros Ho Hn (_ & _ & _ & [Hnil|Hin]); [|by apply Hn, (Explode_length (only flags))].
  unfold onlyInclude in Hnil. by destruct (only flags).
Qed.

(** The flag -only.  Its value is split into single characters, not at the
    commas its help text speaks of, so whatever is given, no webhook whose name is
    longer than one character is written to either file: also none of those that
    the value names. *)
Theorem only_flag_drops_everything hooks range (syncset : resources) (package : list (Resource Object)) e :
  distinct_uris hooks → range_of hooks range → only flags ≠ "" →
  (∀ name hook, hooks !! name = Some hook → String.length (wh_Name hook) ≠ 1) →
  (buildTemplate flags hooks range syncset e).1 = inr syncset ∧
  (buildPackage flags hooks range package e).1 = inr package.
Proof.
  intros Hd Hr Ho Hlen. unfold buildTemplate, buildPackage.
  assert (∀ enabled name hook, hooks !! name = Some hook → ¬ deployed enabled hook) as Hnone.
  { intros enabled name hook Hh. by apply only_not_deployed, (Hlen name). }
  assert (∀ enabled configuration, marshals enabled configuration hooks) as Hm.
  { intros enabled configuration name hook Hh Hdep. by destruct (Hnone _ _ _ Hh Hdep). }
  rewrite (templateLoop_adds _ _ _ _ _ Hd (range_pending _ _ Hr) (Hm _ _)).
  rewrite (packageLoop_adds _ _ _ _ _ Hd (range_pending _ _ Hr) (Hm _ _)).
  assert (∀ names, classicAdditions hooks names = [] ∧ hostedAdditions hooks names = []) as Hnil.
  { intros names. unfold classicAdditions, hostedAdditions. induction names as [|name names [IH1 IH2]]; [done|].
    rewrite !bind_cons IH1 IH2 !app_nil_r. destruct (hooks !! name) as [hook|] eqn:Eh; [|done]. cbn [from_option].
    by rewrite !bool_decide_eq_false_2; eauto. }
  destruct (Hnil (sortStrings range)) as [-> ->]. by rewrite app_nil_r.
Qed.
End Theory.

(** ** Witnesses *)

Module Witness.
(** Two of the webhooks, one of them for classic clusters only. *)
#[local] Existing Instance exampleCtl.
#[local] Existing Instance Encode.Witness.exampleMarshal.
#[local] Existing Instance Encode.Witness.exampleMarshal_laws.
Definition hooks : RegisteredWebhooks := {[
  HostedCluster.WebhookName := HostedCluster.NewWebhook; ManifestWorks.WebhookName := ManifestWorks.NewWebhook]}.
Definition range1 : list string := [ManifestWorks.WebhookName; HostedCluster.WebhookName].
Definition range2 : list string := [HostedCluster.WebhookName; ManifestWorks.WebhookName].
Definition onlyOne : Flags := {|
  listenPort := 5000; secretName := "webhook-cert"; caBundleName := "webhook-cert"; templateFile := "";
  packageDir := ""; replicas := 2; excludes := "debug-hook"; only := HostedCluster.WebhookName;
  showHookNames := false; namespace := "webhooks" |}.
Abbreviation none := (emptySyncSet (RawExtension := Resource unit)).

Lemma ranges : range_of hooks range1 ∧ range_of hooks range2.
Proof.
  unfold range_of. assert ((map_to_list hooks).*1 ≡ₚ range1) as -> by (vm_compute; constructor 3 || reflexivity).
  split; [done|]. constructor.
Qed.

Lemma hooks_distinct : distinct_uris hooks.
Proof.
  intros n1 n2 h1 h2. unfold hooks. rewrite !lookup_insert_Some !lookup_empty.
  intros [[<- <-]|[_ [[<- <-]|[_ [=]]]]] [[<- <-]|[_ [[<- <-]|[_ [=]]]]] E; try done; by vm_compute in E.
Qed.

Lemma build_deterministic_witness :
  buildTemplate defaultFlags hooks range1 none = buildTemplate defaultFlags hooks range2 none ∧
  buildPackage defaultFlags hooks range1 ([] : list (Resource unit)) = buildPackage defaultFlags hooks range2 [].
Proof. apply build_deterministic; apply ranges. Defined.

(** All documents can be marshalled in the example. *)
Lemma marshals_example flags enabled configuration (hs : RegisteredWebhooks) : marshals flags enabled configuration hs.
Proof. intros name hook _ _. by eexists. Qed.

Lemma template_contents_witness :
  ∃ res, (∀ e, buildTemplate defaultFlags hooks range1 none e =
            (inr res, showing defaultFlags wh_ClassicEnabled hooks (sortStrings range1) e)) ∧ NoDup (keys res) ∧
    ∀ k, resourcesOf res k ≡ₚ resourcesOf none k ++
      ((λ p, Encoded (classicDocument defaultFlags p.1 p.2)) <$>
        filter (λ p, deployed defaultFlags wh_ClassicEnabled p.2 ∧ wh_SyncSetLabelSelector p.2 = k) (map_to_list hooks)).
Proof. apply template_contents; [apply hooks_distinct|apply ranges|apply NoDup_nil_2|apply marshals_example]. Defined.

Lemma package_contents_witness :
  ∃ added, (∀ e, buildPackage defaultFlags hooks range1 ([] : list (Resource unit)) e =
      (inr ([] ++ added), showing defaultFlags wh_HypershiftEnabled hooks (sortStrings range1) e)) ∧
    added ≡ₚ (λ p, Encoded (hostedDocument defaultFlags p.1 p.2)) <$>
      filter (λ p, deployed defaultFlags wh_HypershiftEnabled p.2) (map_to_list hooks).
Proof. apply package_contents; [apply hooks_distinct|apply ranges|apply marshals_example]. Defined.

Lemma only_flag_drops_everything_witness :
  (buildTemplate onlyOne hooks range1 none nothing).1 = inr none ∧
  (buildPackage onlyOne hooks range1 ([] : list (Resource unit)) nothing).1 = inr [].
Proof.
  apply only_flag_drops_everything; [apply hooks_distinct|apply ranges|discriminate|].
  intros n h. unfold hooks. rewrite !lookup_insert_Some !lookup_empty. by intros [[<- <-]|[_ [[<- <-]|[_ [=]]]]].
Defined.
End Witness.
