(* ===== verification/Generate.v ===== *)
(** * build/resources.go: the generator as a whole

    The two parts of [main]: the SelectorSyncSet template for classic clusters
    and the package for hosted ones, from the flags to the written files.  YAML
    and the file system are parameters; printing, writing and exiting are effects
    of the monad [process]. *)

From stdpp Require Import pretty.
From S2P Require Import Prelude Process GoStrings Strconv Admission Webhook Dispatcher SyncSet Json Filepath Encode KubeObjects.
From S2P Require Import Manifests Resources.
From S2P Require Flag.

(** ** Surroundings *)

(** A resource made by a create function, or one that is encoded already. *)
Inductive Entry := Created (o : Object) | Raw (document : json).

Abbreviation resource := (Resource Entry).
Abbreviation syncsets := (SyncSetResourcesByLabelSelector (RawExtension := resource)).

(** templatev1.Parameter and Template. *)
Record TemplateParameter := { par_Name : string; par_Required : bool; par_Value : string }.
Record Template := {
  tpl_Kind : string; tpl_APIVersion : string; tpl_Name : string;
  tpl_Parameters : list TemplateParameter; tpl_Objects : list json }.

Class Output := {
  MarshalSelectorSyncSet : SelectorSyncSet (RawExtension := resource) → result json;
  PrintSelectorSyncSet : SelectorSyncSet (RawExtension := resource) → string;
  MarshalTemplate : Template → result string;
  MarshalResource : resource → result string;
  WriteFile : string → string → option error;
}.

Definition LF : string := String "010" EmptyString.

(** What [main] leaves behind: the lines it printed, the files it wrote, and the
    end of the process if it did not return. *)
Record Run := { printed : list string; written : list (string * string); stopped : option ending }.

Definition runOf (p : process unit) : Run :=
  let '(r, e) := p nothing in
  {| printed := lines e; written := files e; stopped := match r with inl s => Some s | inr _ => None end |}.

Section Generate.
Context `{Marshal} `{Output}.
Variable flags : Flags.

(** ** The template *)

Definition addDefault (o : Object) (s : syncsets) : syncsets := Add DefaultLabelSelector (Static (Created o)) s.

(** The objects, in the order they are added. *)
Definition templateObjects : list Object := [
  NamespaceObject (createNamespace flags); ServiceAccountObject (createServiceAccount flags);
  RoleObject (createRole flags); RoleBindingObject (createRoleBinding flags);
  RoleObject createClusterRole; RoleBindingObject (createClusterRoleBinding flags);
  RoleObject (createPrometheusRole flags); RoleBindingObject (createPromethusRoleBinding flags);
  ServiceMonitorObject (createServiceMonitor flags); ConfigMapObject (createCACertConfigMap flags);
  ServiceObject (createService flags)].

Definition templateStart : outcome syncsets :=
  let templateResources := fold_left (λ s o, addDefault o s) templateObjects emptySyncSet in
  encoded ← EncodeAndFixDaemonset (createDaemonSet flags);
  match encoded with
  | Err err => Panicked ("couldn't marshal: " +:+ err +:+ LF)
  | Ok encodedDaemonSet => Returned (Add DefaultLabelSelector (Static (Raw encodedDaemonSet)) templateResources)
  end.

Definition template (selectorSyncSets : list json) : Template := {|
  tpl_Kind := "Template"; tpl_APIVersion := "template.openshift.io/v1"; tpl_Name := "selectorsyncset-template";
  tpl_Parameters := [
    {| par_Name := "IMAGE_TAG"; par_Required := true; par_Value := "" |};
    {| par_Name := "REPO_NAME"; par_Required := true; par_Value := repoName |};
    {| par_Name := "REGISTRY_IMG"; par_Required := true; par_Value := "" |};
    {| par_Name := "IMAGE_DIGEST"; par_Required := true; par_Value := "" |}];
  tpl_Objects := selectorSyncSets |}.

(** Writes one file if marshalling its contents went well; [prefix] and [newline]
    are how the part words its panics. *)
Definition emit (prefix newline : string) (path : string) (contents : result string) : process unit :=
  match contents with
  | Err err => stop (Crash (prefix +:+ err +:+ newline))
  | Ok y =>
      match WriteFile path y with
      | Some err => stop (Crash ("Failed to write to " +:+ path +:+ ": " +:+ err +:+ newline))
      | None => wrote path y
      end
  end.

Definition templatePart (hooks : RegisteredWebhooks) (range : list string) : process unit :=
  if String.eqb (templateFile flags) "" then
    Println "No -syncsetfile option supplied, will not generate selector sync set"
  else
    start ← unrecovered templateStart;
    templateResources ← buildTemplate flags hooks range start;
    if showHookNames flags then stop (Exit 0)
    else
      selectorSyncSets ← EncodeAll MarshalSelectorSyncSet PrintSelectorSyncSet
        (RenderSelectorSyncSets templateResources sssLabels);
      emit "couldn't marshal: " LF (templateFile flags) (MarshalTemplate (template selectorSyncSets)).

(** ** The package *)

Definition packageStart : list resource := [
  Static (Created (ConfigMapObject (createPackagedCACertConfigMap flags configPhase)));
  Static (Created (ServiceObject (createPackagedService flags deployPhase)));
  Static (Created (DeploymentObject (createPackagedDeployment flags (int32 (replicas flags)) deployPhase)))].

(** The loop over the resources that fills the string builder. *)
Fixpoint renderPackage (packageResources : list resource) : result string :=
  match packageResources with
  | [] => Ok ""
  | r :: rest =>
      match MarshalResource r with
      | Err err => Err err
      | Ok resourceYaml =>
          match renderPackage rest with
          | Err err => Err err
          | Ok text => Ok ("---" +:+ LF +:+ resourceYaml +:+ text)
          end
      end
  end.

Definition packageFile : string := JoinPath [packageDir flags; "resources.yaml.gotmpl"].

Definition packagePart (hooks : RegisteredWebhooks) (range : list string) : process unit :=
  if String.eqb (packageDir flags) "" then
    Println "No -packagedir option supplied, will not generate package manifest"
  else
    packageResources ← buildPackage flags hooks range packageStart;
    emit "Failed to marshal resource to string: " "" packageFile (renderPackage packageResources).

(** ** Both, one after the other *)

(** [main] behind flag.Parse. *)
Definition body (hooks : RegisteredWebhooks) (range1 range2 : list string) : Run :=
  runOf (_ ← templatePart hooks range1; packagePart hooks range2).
End Generate.

(** ** The command line *)

Definition kinds : gmap string Flag.kind := {[
  "port" := Flag.IntFlag; "secretname" := Flag.StringFlag; "cabundlename" := Flag.StringFlag;
  "syncsetfile" := Flag.StringFlag; "packagedir" := Flag.StringFlag; "replicas" := Flag.IntFlag;
  "exclude" := Flag.StringFlag; "only" := Flag.StringFlag; "showhooks" := Flag.BoolFlag;
  "namespace" := Flag.StringFlag]}.

Definition defaults : Flag.values := {[
  "port" := "5000"; "secretname" := "webhook-cert"; "cabundlename" := "webhook-cert";
  "syncsetfile" := ""; "packagedir" := ""; "replicas" := "2"; "exclude" := "debug-hook"; "only" := "";
  "showhooks" := "false"; "namespace" := "openshift-validation-webhook"]}.

(** The package variables after flag.Parse. *)
Definition flagsOf (vs : Flag.values) : Flags := {|
  listenPort := Flag.intValue vs "port"; secretName := Flag.stringValue vs "secretname";
  caBundleName := Flag.stringValue vs "cabundlename"; templateFile := Flag.stringValue vs "syncsetfile";
  packageDir := Flag.stringValue vs "packagedir"; replicas := Flag.intValue vs "replicas";
  excludes := Flag.stringValue vs "exclude"; only := Flag.stringValue vs "only";
  showHookNames := Flag.boolValue vs "showhooks"; namespace := Flag.stringValue vs "namespace" |}.

(** The usage goes to standard error. *)
Definition main `{Marshal} `{Output} (arguments : list string) (hooks : RegisteredWebhooks)
    (range1 range2 : list string) : Run :=
  match Flag.Parse kinds arguments defaults with
  | inl Flag.HelpRequested => {| printed := []; written := []; stopped := Some (Exit 0) |}
  | inl (Flag.BadUsage _) => {| printed := []; written := []; stopped := Some (Exit 2) |}
  | inr vs => body (flagsOf vs) hooks range1 range2
  end.

(** ** Theory *)

Section Theory.
Context `{Marshal, !MarshalLaws} `{Output}.
Variable flags : Flags.

Definition created (o : Object) : resource := Static (Created o).

Lemma defaults_added (objects : list Object) (s : syncsets) :
  fold_left (λ s o, addDefault o s) objects s =
  fold_left (λ s call, Add call.1 call.2 s) ((λ o, (DefaultLabelSelector, created o)) <$> objects) s.
Proof. revert s. induction objects as [|o objects IH]; intros s; [done|]. simpl. apply IH. Qed.

(** The start of the template: everything is under the default selector, in
    order. *)
Lemma templateStart_ok j :
  MarshalDaemonSet (createDaemonSet flags) = Ok j →
  ∃ doc start, EncodeAndFixDaemonset (createDaemonSet flags) = Returned (Ok doc) ∧
    templateStart flags = Returned start ∧ NoDup (keys start) ∧
    ∀ k, resourcesOf start k =
      if bool_decide (k = DefaultLabelSelector) then (created <$> templateObjects flags) ++ [Static (Raw doc)] else [].
Proof.
  intros Hj. destruct (encoded_daemonset _ _ Hj) as (doc & Hdoc). unfold templateStart. rewrite Hdoc. cbn [mbind outcome_bind].
  eexists doc, _. split; [done|]. split; [done|]. rewrite defaults_added.
  pose proof (λ k, resourcesOf_adds ((λ o, (DefaultLabelSelector, created o)) <$> templateObjects flags) emptySyncSet k
    (NoDup_nil_2 : NoDup (keys emptySyncSet))) as Hall.
  pose proof (proj1 (Hall DefaultLabelSelector)) as Hnd. split; [by apply keys_Add_NoDup|]. intros k.
  rewrite (resourcesOf_Add _ _ _ _ Hnd) (proj2 (Hall k)). unfold templateObjects.
  destruct (decide (k = DefaultLabelSelector)) as [->|Hne].
  - by rewrite !bool_decide_eq_true_2.
  - rewrite !bool_decide_eq_false_2; try congruence. rewrite app_nil_r.
    rewrite !fmap_cons !filter_cons. cbn [fst snd]. by rewrite !decide_False; try congruence.
Qed.
(** The configurations of a template under a selector. *)
Definition classicUnder (hooks : RegisteredWebhooks) (k : LabelSelector) : list resource :=
  (λ p, Encoded (classicDocument flags p.1 p.2)) <$>
    filter (λ p, deployed flags wh_ClassicEnabled p.2 ∧ wh_SyncSetLabelSelector p.2 = k) (map_to_list hooks).

Definition objectsUnder (doc : json) (k : LabelSelector) : list resource :=
  if bool_decide (k = DefaultLabelSelector) then (created <$> templateObjects flags) ++ [Static (Raw doc)] else [].

Definition hostedPackage (hooks : RegisteredWebhooks) : list resource :=
  (λ p, Encoded (hostedDocument flags p.1 p.2)) <$>
    filter (λ p, deployed flags wh_HypershiftEnabled p.2) (map_to_list hooks).

(** The configurations for classic clusters, and those for hosted ones, can be
    marshalled. *)
Definition classicMarshals (hooks : RegisteredWebhooks) : Prop :=
  marshals flags wh_ClassicEnabled (classicConfiguration flags) hooks.
Definition hostedMarshals (hooks : RegisteredWebhooks) : Prop :=
  marshals flags wh_HypershiftEnabled (hostedConfiguration flags) hooks.

Lemma template_built hooks range j :
  distinct_uris hooks → range_of hooks range → MarshalDaemonSet (createDaemonSet flags) = Ok j →
  classicMarshals hooks →
  ∃ doc start res, EncodeAndFixDaemonset (createDaemonSet flags) = Returned (Ok doc) ∧
    templateStart flags = Returned start ∧
    (∀ e, buildTemplate flags hooks range start e =
       (inr res, showing flags wh_ClassicEnabled hooks (sortStrings range) e)) ∧
    NoDup (keys res) ∧ ∀ k, resourcesOf res k ≡ₚ objectsUnder doc k ++ classicUnder hooks k.
Proof.
  intros Hd Hr Hj Hm. destruct (templateStart_ok _ Hj) as (doc & start & Hdoc & Hstart & Hnd & Hres).
  destruct (template_contents flags hooks range start Hd Hr Hnd Hm) as (res & Hb & Hnd' & Hall).
  exists doc, start, res. do 4 (split; [done|]). intros k. by rewrite Hall Hres.
Qed.

Lemma unrecovered_runs {A B} (o : outcome A) a (f : A → process B) e :
  o = Returned a → (unrecovered o ≫= f) e = f a e.
Proof. by intros ->. Qed.

(** The file of the package, for a directory in normal form. *)
Lemma packageFile_clean :
  Clean (packageDir flags) = packageDir flags → packageDir flags ≠ "/" → packageDir flags ≠ "." →
  packageFile flags = packageDir flags +:+ "/resources.yaml.gotmpl".
Proof. intros Hc Hr Hd. by apply JoinPath_clean. Qed.

(** C14: The whole generator, with both files asked for.  If the configuration of
    a webhook that goes into the template cannot be marshalled, it exits with code 1
    before anything is written.  If all can be marshalled: with -showhooks it prints
    the names of the webhooks of classic clusters that have rules, in order, and
    exits with code 0 before anything is written, also the package; without, it
    prints nothing and writes first the template and then the package, at the path
    that joins the directory and the file's name, if the remaining marshalling and
    the writing succeed, and nothing else.  The template holds, under the default
    selector, the eleven objects and the fixed daemon set, and under each selector
    one encoded configuration for every registered webhook of classic clusters that
    the flags let through; the package holds its three objects and then one
    configuration, with its CA bundle fixed, for every such webhook of hosted
    clusters. *)
Theorem generator_complete hooks range1 range2 j :
  distinct_uris hooks → range_of hooks range1 → range_of hooks range2 →
  MarshalDaemonSet (createDaemonSet flags) = Ok j → templateFile flags ≠ "" → packageDir flags ≠ "" →
  ((∃ name hook err, hooks !! name = Some hook ∧ deployed flags wh_ClassicEnabled hook ∧
      MarshalConfiguration (classicConfiguration flags name hook) = Err err) →
   written (body flags hooks range1 range2) = [] ∧ stopped (body flags hooks range1 range2) = Some (Exit 1)) ∧
  (classicMarshals hooks → hostedMarshals hooks →
   if showHookNames flags then
     body flags hooks range1 range2 =
       {| printed := listed wh_ClassicEnabled hooks (sortStrings range1); written := []; stopped := Some (Exit 0) |}
   else ∃ doc res added,
     EncodeAndFixDaemonset (createDaemonSet flags) = Returned (Ok doc) ∧
     NoDup (keys res) ∧ (∀ k, resourcesOf res k ≡ₚ objectsUnder doc k ++ classicUnder hooks k) ∧
     added ≡ₚ hostedPackage hooks ∧
     ∀ sets y1 y2,
       Forall2 (λ set document, MarshalSelectorSyncSet set = Ok document) (RenderSelectorSyncSets res sssLabels) sets →
       MarshalTemplate (template sets) = Ok y1 → renderPackage (packageStart flags ++ added) = Ok y2 →
       WriteFile (templateFile flags) y1 = None → WriteFile (packageFile flags) y2 = None →
       body flags hooks range1 range2 =
         {| printed := []; written := [(templateFile flags, y1); (packageFile flags, y2)]; stopped := None |}).
Proof.
  intros Hd Hr1 Hr2 Hj Ht Hp. apply String.eqb_neq in Ht, Hp. unfold body, templatePart, packagePart, emit, runOf.
  rewrite Ht Hp. split.
  - intros Hfail. destruct (templateStart_ok _ Hj) as (doc & start & _ & Hstart & _).
    destruct (template_fails flags hooks range1 start nothing Hd Hr1 Hfail) as (e' & He & Hfiles).
    rewrite (bind_stops _ _ _ (Exit 1) e'); [|by rewrite Hfiles].
    by rewrite (unrecovered_runs _ _ _ _ Hstart) (bind_stops _ _ _ _ _ He).
  - intros Hm1 Hm2. destruct (template_built _ _ _ Hd Hr1 Hj Hm1) as (doc & start & res & Hdoc & Hstart & Hb & Hnd & Hall).
    destruct (package_contents flags hooks range2 (packageStart flags) Hd Hr2 Hm2) as (added & Hb2 & Hadded).
    unfold showing in Hb, Hb2. destruct (showHookNames flags).
    + erewrite bind_stops; [|by rewrite (unrecovered_runs _ _ _ _ Hstart) (bind_runs _ _ _ _ _ (Hb _))]. done.
    + exists doc, res, added. do 4 (split; [done|]). intros sets y1 y2 Hsets Hy1 Hy2 Hw1 Hw2.
      rewrite (bind_runs _ _ _ () {| lines := []; files := [(templateFile flags, y1)] |}).
      { rewrite (unrecovered_runs _ _ _ _ Hstart) (bind_runs _ _ _ _ _ (Hb _)).
        by rewrite (bind_runs _ _ _ _ _ (EncodeAll_ok _ _ _ _ _ Hsets)) Hy1 Hw1. }
      by rewrite (bind_runs _ _ _ _ _ (Hb2 _)) Hy2 Hw2.
Qed.
End Theory.

(** ** The command line, back and forth *)

(** The flags as the arguments of a command. *)
Definition settings (f : Flags) : list (string * string) := [
  ("port", pretty (listenPort f)); ("secretname", secretName f); ("cabundlename", caBundleName f);
  ("syncsetfile", templateFile f); ("packagedir", packageDir f); ("replicas", pretty (replicas f));
  ("exclude", excludes f); ("only", only f); ("namespace", namespace f)].

Definition commandLine (f : Flags) : list string :=
  (settings f ≫= Flag.render) ++ (if showHookNames f then ["-showhooks"] else []).

Lemma settings_settable f :
  is_int64 (listenPort f) → is_int64 (replicas f) → Forall (Flag.settable kinds) (settings f).
Proof.
  intros Hp Hr. unfold settings, Flag.settable. repeat (constructor; [split; [done|]|]); try by left.
  - right. split; [done|]. eexists. by apply ParseInt_pretty.
  - right. split; [done|]. eexists. by apply ParseInt_pretty.
Qed.

(** Values that hold the settings are those flags. *)
Lemma flagsOf_settings f vs :
  is_int64 (listenPort f) → is_int64 (replicas f) → (∀ k v, (k, v) ∈ settings f → vs !! k = Some v) →
  Flag.boolValue vs "showhooks" = showHookNames f → flagsOf vs = f.
Proof.
  intros Hp Hr Hall Hs. unfold settings in Hall. unfold flagsOf, Flag.intValue, Flag.stringValue. rewrite Hs.
  repeat (erewrite Hall; [|repeat (first [apply list_elem_of_here|apply list_elem_of_further])]). simpl.
  rewrite (ParseInt_pretty _ Hp) (ParseInt_pretty _ Hr). by destruct f.
Qed.

(** C15: The command line of the generator.  Any setting of the ten flags, the two
    numbers being 64-bit integers, can be given as arguments and is what the
    generator runs with; the two command lines of the Makefile ask for just the
    template, with the given webhooks left out, and for just the package; and the
    command line that the README shows for the template ends with exit code 2
    before anything is written, since there is no flag -outfile. *)
Theorem generator_command_line `{Marshal} `{Output} hooks range1 range2 :
  (∀ f, is_int64 (listenPort f) → is_int64 (replicas f) →
     main (commandLine f) hooks range1 range2 = body f hooks range1 range2) ∧
  (∀ names file, main ["-exclude"; names; "-syncsetfile"; file] hooks range1 range2 =
     body {| listenPort := 5000; secretName := "webhook-cert"; caBundleName := "webhook-cert";
             templateFile := file; packageDir := ""; replicas := 2; excludes := names; only := "";
             showHookNames := false; namespace := "openshift-validation-webhook" |} hooks range1 range2) ∧
  (∀ dir, main ["-packagedir"; dir] hooks range1 range2 =
     body {| listenPort := 5000; secretName := "webhook-cert"; caBundleName := "webhook-cert";
             templateFile := ""; packageDir := dir; replicas := 2; excludes := "debug-hook"; only := "";
             showHookNames := false; namespace := "openshift-validation-webhook" |} hooks range1 range2) ∧
  (∀ names file, main ["-exclude"; names; "-outfile"; file] hooks range1 range2 =
     {| printed := []; written := []; stopped := Some (Exit 2) |}).
Proof.
  split; [|split; [|split]].
  - intros f Hp Hr. unfold main, commandLine. rewrite (Flag.Parse_render _ _ _ _ (settings_settable f Hp Hr)).
    pose proof (λ k v, Flag.settings_lookup (settings f) defaults k v
      ltac:(apply (bool_decide_eq_true (NoDup _)); reflexivity)) as Hall.
    pose proof (Flag.settings_lookup_other (settings f) defaults "showhooks"
      ltac:(apply (bool_decide_eq_true (_ ∉ _)); reflexivity)) as Hs. revert Hall Hs.
    generalize (fold_left (λ vs s, <[s.1 := s.2]> vs) (settings f) defaults). intros vs Hall Hs.
    destruct (showHookNames f) eqn:Hshow.
    + rewrite Flag.Parse_bool; [done|done|]. cbn [Flag.Parse]. rewrite (flagsOf_settings f); try done.
      * intros k v Hin. rewrite lookup_insert_ne; [|by apply Hall]. intros <-.
        apply (list_elem_of_fmap_2 fst) in Hin. by apply (bool_decide_eq_true (_ ∈ _)) in Hin.
      * by rewrite /Flag.boolValue lookup_insert_eq Hshow.
    + cbn [Flag.Parse]. rewrite (flagsOf_settings f); try done. by rewrite /Flag.boolValue Hs Hshow.
  - intros names file. unfold main. by rewrite !Flag.Parse_string.
  - intros dir. unfold main. by rewrite !Flag.Parse_string.
  - intros names file. unfold main. by rewrite Flag.Parse_string.
Qed.

(** ** Witnesses *)

Module Witness.
#[local] Existing Instance exampleCtl.
#[local] Existing Instance Encode.Witness.exampleMarshal.
#[local] Existing Instance Encode.Witness.exampleMarshal_laws.

#[local] Instance output : Output := {|
  MarshalSelectorSyncSet := λ s, Ok (JString (sss_Name s)); PrintSelectorSyncSet := sss_Name;
  MarshalTemplate := λ t, Ok (tpl_Name t); MarshalResource := λ r, Ok "resource"; WriteFile := λ path text, None |}.

Definition bothFiles : Flags := {|
  listenPort := 5000; secretName := "webhook-cert"; caBundleName := "webhook-cert";
  templateFile := "template.yaml"; packageDir := "./config/package/"; replicas := 2; excludes := "debug-hook"; only := "";
  showHookNames := false; namespace := "webhooks" |}.

Lemma packages_text (rs : list resource) : ∃ y, renderPackage rs = Ok y.
Proof. induction rs as [|r rs [y IH]]; [by eexists|]. cbn [renderPackage MarshalResource output]. rewrite IH. by eexists. Qed.

Lemma sets_encode (sets : list (SelectorSyncSet (RawExtension := resource))) :
  ∃ docs, Forall2 (λ set document, MarshalSelectorSyncSet set = Ok document) sets docs.
Proof. exists ((λ s, JString (sss_Name s)) <$> sets). apply Forall2_fmap_r, Forall_Forall2_diag, Forall_true. done. Qed.

(** Both files are written, the second at the path that the Makefile expects. *)
Lemma generator_complete_witness :
  ∃ y1 y2, body bothFiles Resources.Witness.hooks Resources.Witness.range1 Resources.Witness.range2 =
    {| printed := []; written := [("template.yaml", y1); ("config/package/resources.yaml.gotmpl", y2)]; stopped := None |}.
Proof.
  destruct (@generator_complete Encode.Witness.exampleMarshal Encode.Witness.exampleMarshal_laws output bothFiles Resources.Witness.hooks Resources.Witness.range1 Resources.Witness.range2
    (Encode.Witness.document (createDaemonSet bothFiles)) Resources.Witness.hooks_distinct (proj1 Resources.Witness.ranges) (proj2 Resources.Witness.ranges) eq_refl)
    as (_ & Hrun); [discriminate|discriminate|].
  destruct (Hrun (Resources.Witness.marshals_example _ _ _ _) (Resources.Witness.marshals_example _ _ _ _))
    as (doc & res & added & _ & _ & _ & _ & Hall).
  destruct (sets_encode (RenderSelectorSyncSets res sssLabels)) as [sets Hsets].
  destruct (packages_text (packageStart bothFiles ++ added)) as [y2 Hy2].
  exists "selectorsyncset-template", y2. exact (Hall sets _ y2 Hsets eq_refl Hy2 eq_refl eq_refl).
Defined.

Lemma generator_command_line_witness :
  main (commandLine bothFiles) Resources.Witness.hooks Resources.Witness.range1 Resources.Witness.range2 =
  body bothFiles Resources.Witness.hooks Resources.Witness.range1 Resources.Witness.range2.
Proof.
  apply (proj1 (generator_command_line Resources.Witness.hooks Resources.Witness.range1 Resources.Witness.range2)).
  - split; [discriminate|reflexivity].
  - split; [discriminate|reflexivity].
Defined.
End Witness.
