(* ===== verification/Deployment.v ===== *)
(** * The deployed system

    The generated manifests against the server they deploy: the pods run a command
    line that cmd/main.go accepts, with the certificates mounted where it looks
    for them, behind the service the webhook configurations refer to; and every
    configuration that is generated is for a webhook that this server serves. *)

From S2P Require Import Prelude Process GoStrings Admission Webhook Url Dispatcher Registry K8sUtil Server SyncSet Json Encode.
From S2P Require Import KubeObjects Manifests Resources Generate.
From S2P Require Flag Main.
From S2P Require Namespace RegularUser ClusterLogging Service NetworkOperator PodImageSpec Pod Node.
From S2P Require ClusterRole ClusterRoleBinding ServiceAccount SCC PrometheusRule NetworkPolicies.
From S2P Require ImageContentPolicies IngressController CustomResourceDefinitions SdnMigration TechPreviewNoUpgrade.
From S2P Require HostedCluster ManifestWorks.

(** ** Objects that fit together *)

(** The flags that cmd/main.go reads from a container's command. *)
Definition commandFlags (c : Container) : Flag.failure + Flag.values :=
  Flag.Parse Main.kinds (tail (ctr_Command c)) Main.defaults.

(** The container serves with the certificate and the key from a secret, and
    trusts the CA file from a config map. *)
Definition certified (spec : PodSpec) (c : Container) (secret configMap : string) : Prop :=
  ∃ vs certs ca, commandFlags c = inr vs ∧ Flag.boolValue vs "tls" = true ∧ Flag.boolValue vs "testhooks" = false ∧
    Flag.stringValue vs "tlscert" = certs +:+ "/tls.crt" ∧ Flag.stringValue vs "tlskey" = certs +:+ "/tls.key" ∧
    mounted spec certs (SecretVolume secret) ∧
    Flag.stringValue vs "cacert" = ca +:+ "/service-ca.crt" ∧ mounted spec ca (ConfigMapVolume configMap) ∧
    Flag.stringValue vs "listen" = "0.0.0.0" ∧ Flag.stringValue vs "port" = "5000".

(** A workload with its service: the selectors meet the labels of the pods, the
    mounts have their volumes, the secret is the one that the service asks the
    cluster to issue, and the service targets the port the container declares. *)
Definition backs (svc : KubeObjects.Service) (selector : LabelSelector) (template : PodTemplate) (configMap : string) : Prop :=
  (∃ labels, selector = matchLabels labels ∧ selects labels (pt_Labels template)) ∧
  selects (svc_Selector svc) (pt_Labels template) ∧ mounts_declared (pt_Spec template) ∧
  ps_Containers (pt_Spec template) ≠ [] ∧
  ∀ c, c ∈ ps_Containers (pt_Spec template) →
    (∃ secret, om_Annotations (svc_Meta svc) !! servingCertAnnotation = Some secret ∧
               certified (pt_Spec template) c secret configMap) ∧
    ∀ port, port ∈ svc_Ports svc → ∃ p, sp_TargetPort port = IntVal p ∧ p ∈ ctr_Ports c.

(** A role binding is for a role and a service account that are generated. *)
Definition binds (binding : RoleBinding) (role : Role) (account : MetaObject) : Prop :=
  rr_Kind (rb_RoleRef binding) = tm_Kind (role_Type role) ∧
  rr_Name (rb_RoleRef binding) = om_Name (role_Meta role) ∧
  om_Namespace (rb_Meta binding) = om_Namespace (role_Meta role) ∧
  rb_Subjects binding = [{|
    sb_Kind := tm_Kind (mo_Type account); sb_Name := om_Name (mo_Meta account);
    sb_Namespace := om_Namespace (mo_Meta account) |}].

Section Coherent.
Variable flags : Flags.

(** What the server's flags are set to by the command of the pods. *)
Definition commandValues : Flag.values :=
  <["tls" := "true"]> (<["cacert" := "/service-ca/service-ca.crt"]> (<["tlscert" := "/service-certs/tls.crt"]>
    (<["tlskey" := "/service-certs/tls.key"]> Main.defaults))).

Lemma command_parses : Flag.Parse Main.kinds (tail command) Main.defaults = inr commandValues.
Proof. unfold command. cbn [tail]. by rewrite !Flag.Parse_string // Flag.Parse_bool. Qed.

(** The settings that matter, in the order of [certified]. *)
Lemma commandValues_set :
  Flag.boolValue commandValues "tls" = true ∧ Flag.boolValue commandValues "testhooks" = false ∧
  Flag.stringValue commandValues "tlscert" = "/service-certs/tls.crt" ∧
  Flag.stringValue commandValues "tlskey" = "/service-certs/tls.key" ∧
  Flag.stringValue commandValues "cacert" = "/service-ca/service-ca.crt" ∧
  Flag.stringValue commandValues "listen" = "0.0.0.0" ∧ Flag.stringValue commandValues "port" = "5000".
Proof. unfold Flag.boolValue, Flag.stringValue, commandValues. by simplify_map_eq. Qed.

Lemma certified_at spec c :
  c ∈ ps_Containers spec → ctr_Command c = command →
  serviceCertsMount ∈ ctr_VolumeMounts c → serviceCAMount ∈ ctr_VolumeMounts c →
  serviceCerts flags ∈ ps_Volumes spec → serviceCA flags ∈ ps_Volumes spec →
  certified spec c (secretName flags) (caBundleName flags).
Proof.
  intros Hc Hcmd Hm1 Hm2 Hv1 Hv2. unfold certified, commandFlags. rewrite Hcmd command_parses.
  destruct commandValues_set as (Htls & Htest & Hcert & Hkey & Hca & Hlisten & Hport).
  exists commandValues, "/service-certs", "/service-ca". split_and!; try done.
  - by exists c, serviceCertsMount, (serviceCerts flags).
  - by exists c, serviceCAMount, (serviceCA flags).
Qed.

(** A workload of one container that runs the command with its mounts. *)
Lemma backs_at svc template c :
  svc_Selector svc = appLabel → pt_Labels template = appLabel →
  om_Annotations (svc_Meta svc) !! servingCertAnnotation = Some (secretName flags) →
  svc_Ports svc = svc_Ports (createService flags) →
  ps_Containers (pt_Spec template) = [c] → ctr_Command c = command → ctr_Ports c = [int32 (listenPort flags)] →
  serviceCertsMount ∈ ctr_VolumeMounts c → serviceCAMount ∈ ctr_VolumeMounts c →
  serviceCerts flags ∈ ps_Volumes (pt_Spec template) → serviceCA flags ∈ ps_Volumes (pt_Spec template) →
  (∀ m, m ∈ ctr_VolumeMounts c → vm_Name m ∈ vol_Name <$> ps_Volumes (pt_Spec template)) →
  backs svc (matchLabels appLabel) template (caBundleName flags).
Proof.
  intros Hs Hl Ha Hp Hc Hcmd Hports Hm1 Hm2 Hv1 Hv2 Hm. unfold backs, mounts_declared, selects.
  rewrite Hs Hl Hc. split; [by exists appLabel|]. split; [done|].
  split; [by intros c' ->%list_elem_of_singleton|]. split; [done|]. intros c' ->%list_elem_of_singleton. split.
  - exists (secretName flags). split; [done|]. apply certified_at; [|done..]. rewrite Hc. by left.
  - rewrite Hp. intros port ->%list_elem_of_singleton. exists (int32 (listenPort flags)). split; [done|].
    rewrite Hports. by left.
Qed.

(** C16: The generated objects fit together, for all flags of the generator.  The
    daemon set and the deployment back the service: their pods carry the labels it
    selects, run a command line that the server's flags accept, serve with the
    certificate the service is annotated to be issued, and trust the CA from the
    config map that -cabundlename names.  The role bindings are for the generated
    roles and the account of the pods.  Three things hold for some flags only: the
    config map that is generated is the one mounted just if -cabundlename is
    webhook-cert, the service's target is the port the server listens on just if
    -port is 5000 (as 32 bits), and the service monitor looks for the metrics in
    the namespace that the server names for them just if -namespace is the
    default: these flags do not reach the other side. *)
Theorem deployment_coherent n phase :
  let ds := createDaemonSet flags in
  let dep := createPackagedDeployment flags n phase in
  backs (createService flags) (ds_Selector ds) (ds_Template ds) (caBundleName flags) ∧
  backs (createPackagedService flags phase) (dep_Selector dep) (dep_Template dep) (caBundleName flags) ∧
  binds (createRoleBinding flags) (createRole flags) (createServiceAccount flags) ∧
  binds (createClusterRoleBinding flags) createClusterRole (createServiceAccount flags) ∧
  ps_ServiceAccountName (pt_Spec (ds_Template ds)) = om_Name (mo_Meta (createServiceAccount flags)) ∧
  om_Namespace (mo_Meta (createServiceAccount flags)) = om_Namespace (ds_Meta ds) ∧
  (om_Name (mo_Meta (createCACertConfigMap flags)) = caBundleName flags ↔ caBundleName flags = "webhook-cert") ∧
  ((∀ port, port ∈ svc_Ports (createService flags) → sp_TargetPort port = IntVal 5000) ↔
   int32 (listenPort flags) = 5000%Z) ∧
  sm_Selector (createServiceMonitor flags) = matchLabels (Main.mc_ServiceLabel Main.metricsServer) ∧
  (sm_NamespaceNames (createServiceMonitor flags) = [Main.mc_Namespace Main.metricsServer] ↔
   namespace flags = "openshift-validation-webhook").
Proof.
  cbv zeta. split; [|split].
  - by eapply backs_at; try reflexivity; simpl; set_solver.
  - by eapply backs_at; try reflexivity; simpl; set_solver.
  - do 4 (split; [done|]). split; [by split; simpl; congruence|].
    split; [|split; [done|by split; [intros [= ->]|intros E; simpl; rewrite E]]].
    split; [|by intros E port ->%list_elem_of_singleton; simpl; rewrite E]. intros Hall. specialize (Hall _ (list_elem_of_here _ _)). simpl in Hall. by injection Hall.
Qed.
End Coherent.

(** ** Configurations and the server *)

Section Served.
Context `{AdmissionCtl, !AdmissionCtlLaws} `{Codec} `{OS} `{Main.Metrics} `{Marshal, !MarshalLaws}.
Context `{Decoder Namespace.Namespace} `{Decoder RegularUser.NetNamespace} `{Decoder RegularUser.ConfigMap}
  `{Decoder ClusterLogging.ClusterLogging} `{Decoder Service.Service} `{Decoder NetworkOperator.Network}
  `{Decoder PodImageSpec.Pod} `{PodImageSpec.KubeClient} `{Decoder Pod.Pod} `{Decoder Node.Node}
  `{Decoder ClusterRole.ClusterRole} `{Decoder ClusterRoleBinding.ClusterRoleBinding}
  `{Decoder ServiceAccount.ServiceAccount} `{Decoder SCC.SecurityContextConstraints}
  `{Decoder PrometheusRule.prometheusRule} `{Decoder NetworkPolicies.NetworkPolicy}
  `{Decoder ImageContentPolicies.ImageDigestMirrorSet} `{Decoder ImageContentPolicies.ImageTagMirrorSet}
  `{Decoder ImageContentPolicies.ImageContentSourcePolicy} `{Decoder IngressController.IngressController}
  `{Decoder CustomResourceDefinitions.CustomResourceDefinition} `{Decoder SdnMigration.Network}
  `{Decoder TechPreviewNoUpgrade.FeatureGate}.

(** Requests for the path, with or without the API server's query, get the
    hook's response. *)
Definition served (mux : gset string) (hook : Webhook) (uri : string) : Prop :=
  uri ∈ mux ∧
  ∀ stack d r world req resp world',
    NewDispatcher Webhooks d →
    (RequestURI r = uri ∨
     ∃ query, printable query = true ∧ no_char "#" query = true ∧ RequestURI r = uri +:+ String "?" query) →
    (ParseHTTPRequest r).1.1 = req → (ParseHTTPRequest r).2 = None →
    wh_Validate hook req = true → wh_Authorized hook req world = (Returned resp, world') →
    EncodeError newWriter (reviewOf (withAudit resp)) = None →
    HandleRequest (S stack) d r newWriter world =
      (Returned {| status := Some StatusOK; reviews := [reviewOf (withAudit resp)] |}, world').

Lemma registered_served mux name hook :
  (∀ uri, uri ∈ mux ↔ ∃ name hook, Webhooks !! name = Some hook ∧ wh_GetURI hook = uri) →
  Webhooks !! name = Some hook → served mux hook (wh_GetURI hook).
Proof.
  intros Hmux Hh. split; [apply Hmux; eauto|]. intros stack d r world req resp world' Hnew.
  destruct (Webhooks_uris _ _ Hh) as [Hp _].
  by apply (handle_request_routed _ _ _ _ _ _ _ _ _ _ Webhooks_distinct_uris Hnew Hh).
Qed.

(** The process that the pods' command starts. *)
Lemma command_starts order ca :
  order ≡ₚ map_to_list Webhooks → ReadFile "/service-ca/service-ca.crt" = Contents ca →
  ∃ mux, Main.setup (tail command) order = inr (mux, Main.metricsLog, {|
      Main.Addr := "0.0.0.0:5000"; Main.RootCAs := Some ca;
      Main.TLSFiles := Some ("/service-certs/tls.crt", "/service-certs/tls.key") |}) ∧
    ∀ uri, uri ∈ mux ↔ ∃ name hook, Webhooks !! name = Some hook ∧ wh_GetURI hook = uri.
Proof.
  intros Ho Hca. destruct (main_listens _ Ho) as (mux & Hl & Hmux). exists mux. split; [|done].
  destruct commandValues_set as (Htls & Htest & Hcert & Hkey & Hpath & Hlisten & Hport).
  unfold Main.setup, Main.serverConfig. by rewrite command_parses Hl Htest Htls Hcert Hkey Hpath Hca Hlisten Hport.
Qed.

(** What a configuration in the template, and one in the package, is about. *)
Definition classic_for (flags : Flags) (mux : gset string) (k : LabelSelector) (cfg : WebhookConfiguration) : Prop :=
  ∃ name hook entry ref, Webhooks !! name = Some hook ∧ wh_ClassicEnabled hook = true ∧
    wh_SyncSetLabelSelector hook = k ∧ wc_Webhooks cfg = [entry] ∧ we_Rules entry = wh_Rules hook ∧
    cc_Service (we_ClientConfig entry) = Some ref ∧
    sr_Name ref = om_Name (svc_Meta (createService flags)) ∧
    sr_Namespace ref = om_Namespace (svc_Meta (createService flags)) ∧ served mux hook (sr_Path ref).

Definition hosted_for (flags : Flags) (mux : gset string) (cfg : WebhookConfiguration) : Prop :=
  ∃ name hook entry uri, Webhooks !! name = Some hook ∧ wh_HypershiftEnabled hook = true ∧
    wc_Webhooks cfg = [entry] ∧ we_Rules entry = wh_Rules hook ∧
    cc_URL (we_ClientConfig entry) =
      Some ("https://" +:+ om_Name (svc_Meta (createPackagedService flags deployPhase)) +:+
            ".{{.package.metadata.namespace}}.svc.cluster.local" +:+ uri) ∧
    served mux hook uri.

Lemma classicUnder_for flags mux k doc :
  (∀ uri, uri ∈ mux ↔ ∃ name hook, Webhooks !! name = Some hook ∧ wh_GetURI hook = uri) →
  classicMarshals flags Webhooks → Encoded doc ∈ classicUnder flags Webhooks k →
  ∃ cfg, MarshalConfiguration cfg = Ok doc ∧ classic_for flags mux k cfg.
Proof.
  intros Hmux Hm ([name hook] & [= ->] & [[Hdep Hk] Hin]%list_elem_of_filter)%list_elem_of_fmap.
  apply elem_of_map_to_list in Hin. cbn [fst snd] in *. exists (classicConfiguration flags name hook).
  destruct (Hm _ _ Hin Hdep) as [doc Hdoc]. unfold classicDocument. rewrite Hdoc. split; [done|]. destruct Hdep as [He _].
  unfold classic_for, classicConfiguration.
  destruct (HasSuffix name "-mutation");
    (exists name, hook; do 2 eexists; split_and!; try done; by apply (registered_served _ name)).
Qed.

Lemma hostedPackage_for flags mux doc :
  (∀ uri, uri ∈ mux ↔ ∃ name hook, Webhooks !! name = Some hook ∧ wh_GetURI hook = uri) →
  hostedMarshals flags Webhooks → Encoded doc ∈ hostedPackage flags Webhooks →
  ∃ cfg, EncodeValidatingAndFixCA cfg = Returned (Ok doc) ∧ hosted_for flags mux cfg.
Proof.
  intros Hmux Hm ([name hook] & [= ->] & [Hdep Hin]%list_elem_of_filter)%list_elem_of_fmap.
  apply elem_of_map_to_list in Hin. cbn [fst snd] in *. exists (hostedConfiguration flags name hook).
  destruct (Hm _ _ Hin Hdep) as [doc Hdoc]. split; [by apply (encodedWebhook_ok _ _ _ _ nothing Hdoc)|].
  destruct Hdep as [He _]. unfold hosted_for, hostedConfiguration.
  destruct (HasSuffix name "-mutation");
    (exists name, hook; eexists; exists (wh_GetURI hook); split_and!; try done; by apply (registered_served _ name)).
Qed.

(** What is deployed works together.  Started with the command of the
    generated pods, where the CA file is mounted, the server listens with TLS on
    port 5000 of all addresses; and every encoded webhook configuration of the
    template, and every one of the package, refers to the generated service with
    the path of one registered webhook, has that webhook's rules and its cluster
    selector, and its requests are answered by that webhook of the started
    server. *)
Lemma deployed_configurations_served flags order range1 range2 j ca :
  order ≡ₚ map_to_list Webhooks → range_of Webhooks range1 → range_of Webhooks range2 →
  MarshalDaemonSet (createDaemonSet flags) = Ok j → classicMarshals flags Webhooks → hostedMarshals flags Webhooks →
  ReadFile "/service-ca/service-ca.crt" = Contents ca →
  ∃ mux config, Main.setup (tail command) order = inr (mux, Main.metricsLog, config) ∧
    Main.Addr config = "0.0.0.0:5000" ∧ Main.RootCAs config = Some ca ∧
    (∃ start res, templateStart flags = Returned start ∧
       (∀ e, (buildTemplate flags Webhooks range1 start e).1 = inr res) ∧
       ∀ k doc, Encoded doc ∈ resourcesOf res k → ∃ cfg, MarshalConfiguration cfg = Ok doc ∧ classic_for flags mux k cfg) ∧
    (∃ added, (∀ e, (buildPackage flags Webhooks range2 (packageStart flags) e).1 = inr (packageStart flags ++ added)) ∧
       ∀ doc, Encoded doc ∈ added →
         ∃ cfg, EncodeValidatingAndFixCA cfg = Returned (Ok doc) ∧ hosted_for flags mux cfg).
Proof.
  intros Ho Hr1 Hr2 Hj Hm1 Hm2 Hca. destruct (command_starts _ _ Ho Hca) as (mux & Hsetup & Hmux).
  eexists mux, _. split; [exact Hsetup|]. do 2 (split; [done|]). split.
  - destruct (template_built _ _ _ _ Webhooks_distinct_uris Hr1 Hj Hm1) as (daemonset & start & res & _ & Hs & Hb & _ & Hall).
    exists start, res. split; [done|]. split; [intros e; by rewrite Hb|]. intros k doc. rewrite Hall. intros [Hin|Hin]%elem_of_app.
    + exfalso. unfold objectsUnder, created in Hin. case_bool_decide; [|by apply not_elem_of_nil in Hin].
      apply elem_of_app in Hin as [(o & [=] & _)%list_elem_of_fmap|[=]%list_elem_of_singleton].
    + by apply classicUnder_for.
  - destruct (package_contents flags Webhooks range2 (packageStart flags) Webhooks_distinct_uris Hr2 Hm2)
      as (added & Hb & Hadded).
    exists added. split; [intros e; by rewrite Hb|]. intros doc. rewrite Hadded. by apply hostedPackage_for.
Qed.
End Served.
