(* ===== verification/ApiServer.v ===== *)
(** * The API server in front of the webhooks

    The Kubernetes API server reads the generated webhook configurations and
    sends each request that a rule selects to the webhook.  It is not part of the
    repository: [ApiServer] is an interface, whose laws state what the
    documentation of admission control and of the resources promises.  Against it
    the theorems say that the rules, the validation and the handlers of the
    webhooks fit: what is sent is valid and answered by the webhook's verdict, and
    what a webhook guards is sent to it. *)

From S2P Require Import Prelude GoStrings Admission Utils Webhook Url Dispatcher Registry K8sUtil Server SyncSet.
From S2P Require Import Json Encode KubeObjects Manifests Resources Generate Deployment.
From S2P Require Main.
From S2P Require Namespace RegularUser ClusterLogging Service NetworkOperator PodImageSpec Pod Node.
From S2P Require ClusterRole ClusterRoleBinding ServiceAccount SCC PrometheusRule NetworkPolicies.
From S2P Require ImageContentPolicies IngressController IngressConfig CustomResourceDefinitions SdnMigration.
From S2P Require TechPreviewNoUpgrade HcpNamespace HostedCluster HostedControlPlane ManifestWorks HiveOwnership.

(** ** Calls *)

(** A request under admission, with the resource it is for. *)
Record Call := {
  call_Group : string;
  call_Version : string;
  call_Resource : string;
  call_SubResource : string;
  call_Namespaced : bool;
  call_Request : Request;
}.

(** The patterns that name the call's resource in a rule, with their wildcards. *)
Definition patterns (c : Call) : list string :=
  (if String.eqb (call_SubResource c) "" then [call_Resource c; "*"] else []) ++
  [call_Resource c +:+ String "/" (call_SubResource c); call_Resource c +:+ "/*";
   "*/" +:+ call_SubResource c; "*/*"].

Definition in_scope (scope : option ScopeType) (namespaced : bool) : bool :=
  match scope with
  | Some ClusterScope => negb namespaced
  | Some NamespacedScope => namespaced
  | Some AllScopes | None => true
  end.

(** What the documentation of RuleWithOperations says. *)
Definition selected (c : Call) (rule : RuleWithOperations) : bool :=
  (Contains (Operations rule) "*" || Contains (Operations rule) (req_Operation (call_Request c))) &&
  (Contains (APIGroups rule) "*" || Contains (APIGroups rule) (call_Group c)) &&
  (Contains (APIVersions rule) "*" || Contains (APIVersions rule) (call_Version c)) &&
  existsb (Contains (patterns c)) (Webhook.Resources rule) &&
  in_scope (Scope rule) (call_Namespaced c).

(** The resources that the rules with a webhook for one kind name: group,
    resource, kind, and whether its objects are in namespaces.  Each is in the
    reference documentation of Kubernetes, of OpenShift or of the operator. *)
Definition documented : list (string * string * string * bool) := [
  ("", "namespaces", "Namespace", false);
  ("", "pods", "Pod", true);
  ("", "serviceaccounts", "ServiceAccount", true);
  ("", "services", "Service", true);
  ("apiextensions.k8s.io", "customresourcedefinitions", "CustomResourceDefinition", false);
  ("config.openshift.io", "featuregates", "FeatureGate", false);
  ("config.openshift.io", "imagedigestmirrorsets", "ImageDigestMirrorSet", false);
  ("config.openshift.io", "imagetagmirrorsets", "ImageTagMirrorSet", false);
  ("config.openshift.io", "ingresses", "Ingress", false);
  ("config.openshift.io", "networks", "Network", false);
  ("hypershift.openshift.io", "hostedclusters", "HostedCluster", true);
  ("hypershift.openshift.io", "hostedcontrolplanes", "HostedControlPlane", true);
  ("logging.openshift.io", "clusterloggings", "ClusterLogging", true);
  ("monitoring.coreos.com", "prometheusrules", "PrometheusRule", true);
  ("networking.k8s.io", "networkpolicies", "NetworkPolicy", true);
  ("operator.openshift.io", "imagecontentsourcepolicies", "ImageContentSourcePolicy", false);
  ("operator.openshift.io", "ingresscontrollers", "IngressController", true);
  ("operator.openshift.io", "networks", "Network", false);
  ("rbac.authorization.k8s.io", "clusterrolebindings", "ClusterRoleBinding", false);
  ("rbac.authorization.k8s.io", "clusterroles", "ClusterRole", false);
  ("security.openshift.io", "securitycontextconstraints", "SecurityContextConstraints", false);
  ("work.open-cluster-management.io", "manifestworks", "ManifestWork", true)].

(** Groups and resources that the rules name and that no API has: resource names
    are plural, and core resources have the empty group. *)
Definition undocumented : list (string * string) := [
  ("v1", "pods"); ("operator.openshift.io", "network"); ("operator.openshift.io", "ingresscontroller")].

(** ** The interface *)

Class ApiServer := {
  (** The requests that come to admission. *)
  receives : Call → Prop;
  (** Those that a webhook of a configuration is called for. *)
  sends : WebhookEntry → Call → Prop;
}.

(** A webhook is called for a request that one of its rules selects, and if it
    has no selectors, for every such request.  A request comes from a user (an
    unauthenticated one is system:anonymous), of the documented kind, on a
    resource that exists; it has its kind before conversion, and the objects that
    its operation has. *)
Class ApiServerLaws `{ApiServer} : Prop := {
  sends_received entry c : sends entry c → receives c;
  sends_selected entry c : sends entry c → existsb (selected c) (we_Rules entry) = true;
  sends_unselective entry c :
    we_ObjectSelector entry = None → receives c → existsb (selected c) (we_Rules entry) = true → sends entry c;
  receives_user c : receives c → username (call_Request c) ≠ "";
  receives_kind c kind namespaced :
    receives c → call_SubResource c = "" →
    (call_Group c, call_Resource c, kind, namespaced) ∈ documented →
    gvk_Group (req_Kind (call_Request c)) = call_Group c ∧
    gvk_Kind (req_Kind (call_Request c)) = kind ∧ call_Namespaced c = namespaced;
  receives_existing c : receives c → (call_Group c, call_Resource c) ∉ undocumented;
  receives_requestKind c : receives c → req_RequestKind (call_Request c) ≠ None;
  receives_object c :
    receives c → req_Operation (call_Request c) = Create ∨ req_Operation (call_Request c) = Update →
    nonempty (req_Object (call_Request c)) = true;
  receives_oldObject c :
    receives c → req_Operation (call_Request c) = Update ∨ req_Operation (call_Request c) = Delete →
    nonempty (req_OldObject (call_Request c)) = true;
}.

(** ** What a rule tells of a call *)

(** A resource without wildcard and subresource. *)
Definition plain (resource : string) : bool := no_char "/" resource && negb (String.eqb resource "*").

Lemma no_char_sep sep a b : no_char sep (a +:+ String sep b) = false.
Proof.
  apply not_true_iff_false. induction a as [|x a IH]; simpl; rewrite no_char_cons; [by intros [[] _]|by intros [_ Ha]].
Qed.

Lemma patterns_plain c resource :
  plain resource = true → Contains (patterns c) resource = true →
  call_SubResource c = "" ∧ call_Resource c = resource.
Proof.
  unfold plain. rewrite andb_true_iff negb_true_iff String.eqb_neq Contains_iff. intros [Hn Hne].
  assert (∀ a b, resource ≠ a +:+ String "/" b) as Hsep.
  { intros a b ->. by rewrite no_char_sep in Hn. }
  unfold patterns. rewrite elem_of_app. intros [Hin|Hin].
  - destruct (String.eqb_spec (call_SubResource c) "") as [Hs|]; [|by apply not_elem_of_nil in Hin].
    rewrite !elem_of_cons in Hin. by destruct Hin as [?|[?|[]%not_elem_of_nil]].
  - exfalso. rewrite !elem_of_cons in Hin. destruct Hin as [E|[E|[E|[E|[]%not_elem_of_nil]]]].
    + by apply Hsep in E.
    + by apply (Hsep (call_Resource c) "*") in E.
    + by apply (Hsep "*" (call_SubResource c)) in E.
    + by apply (Hsep "*" "*") in E.
Qed.

(** The rule names groups and resources that the documentation tells of. *)
Definition simple (rule : RuleWithOperations) : bool :=
  forallb plain (Webhook.Resources rule) && negb (Contains (APIGroups rule) "*") &&
  forallb (λ group, forallb (λ resource,
    bool_decide ((group, resource) ∈ documented.*1.*1 ++ undocumented)) (Webhook.Resources rule)) (APIGroups rule).

(** The groups and kinds of the objects that the rules name. *)
Definition kindsOf (rules : list RuleWithOperations) : list (string * string) :=
  omap (λ '(group, resource, kind, _),
    if existsb (λ rule, Contains (APIGroups rule) group && Contains (Webhook.Resources rule) resource) rules
    then Some (group, kind) else None) documented.

Definition operationsOf (rules : list RuleWithOperations) : list string := rules ≫= Operations.

Section Calls.
Context `{ApiServer, !ApiServerLaws}.

Lemma selected_operation c rules :
  existsb (selected c) rules = true →
  "*" ∈ operationsOf rules ∨ req_Operation (call_Request c) ∈ operationsOf rules.
Proof.
  rewrite existsb_exists. intros (rule & Hin%list_elem_of_In & Hs). unfold selected in Hs.
  rewrite !andb_true_iff orb_true_iff !Contains_iff in Hs. destruct Hs as ((((Hop & _) & _) & _) & _).
  unfold operationsOf. rewrite !list_elem_of_bind. naive_solver.
Qed.

(** A request that simple rules select is for an object of one of their kinds. *)
Lemma selected_kind c rules :
  forallb simple rules = true → receives c → existsb (selected c) rules = true →
  (gvk_Group (req_Kind (call_Request c)), gvk_Kind (req_Kind (call_Request c))) ∈ kindsOf rules.
Proof.
  rewrite forallb_forall existsb_exists. intros Hall Hr (rule & Hin & Hs). specialize (Hall _ Hin).
  unfold simple in Hall. rewrite !andb_true_iff negb_true_iff !forallb_forall in Hall. destruct Hall as [[Hplain Hstar] Hdoc].
  unfold selected in Hs. rewrite Hstar !andb_true_iff orb_false_l existsb_exists in Hs.
  destruct Hs as ((((_ & Hg) & _) & resource & Hres & Hpat) & _).
  destruct (patterns_plain _ _ (Hplain _ Hres) Hpat) as [Hsub <-].
  pose proof Hg as Hg'. apply Contains_iff, list_elem_of_In in Hg'. specialize (Hdoc _ Hg').
  rewrite forallb_forall in Hdoc. specialize (Hdoc _ Hres). apply bool_decide_eq_true, elem_of_app in Hdoc as [Hdoc|Hun].
  2: by destruct (receives_existing _ Hr).
  apply list_elem_of_fmap in Hdoc as ([gr kind] & E & ([[gr' kind'] namespaced] & E' & Hd)%list_elem_of_fmap).
  simpl in E, E'. injection E' as <- <-. subst gr. destruct (receives_kind _ _ _ Hr Hsub Hd) as (-> & -> & _).
  unfold kindsOf. apply list_elem_of_omap. eexists. split; [exact Hd|]. simpl.
  assert (existsb (λ rule, Contains (APIGroups rule) (call_Group c) &&
    Contains (Webhook.Resources rule) (call_Resource c)) rules = true) as ->; [|done].
  apply existsb_exists. exists rule. rewrite Hg. split; [done|]. by apply Contains_iff, list_elem_of_In.
Qed.
End Calls.

(** ** Rules, validation and handlers *)

Section Webhooks.
Context `{AdmissionCtl, !AdmissionCtlLaws} `{Codec} `{ApiServer, !ApiServerLaws}.
Context `{Decoder Namespace.Namespace} `{Decoder RegularUser.NetNamespace} `{Decoder RegularUser.ConfigMap}
  `{Decoder ClusterLogging.ClusterLogging} `{Decoder Service.Service} `{Decoder NetworkOperator.Network}
  `{Decoder PodImageSpec.Pod} `{PodImageSpec.KubeClient} `{Decoder Pod.Pod} `{Decoder Node.Node}
  `{Decoder ClusterRole.ClusterRole} `{Decoder ClusterRoleBinding.ClusterRoleBinding}
  `{Decoder ServiceAccount.ServiceAccount} `{Decoder SCC.SecurityContextConstraints}
  `{Decoder PrometheusRule.prometheusRule} `{Decoder NetworkPolicies.NetworkPolicy}
  `{Decoder ImageContentPolicies.ImageDigestMirrorSet} `{Decoder ImageContentPolicies.ImageTagMirrorSet}
  `{Decoder ImageContentPolicies.ImageContentSourcePolicy} `{Decoder IngressController.IngressController}
  `{Decoder CustomResourceDefinitions.CustomResourceDefinition} `{Decoder SdnMigration.Network}
  `{Decoder TechPreviewNoUpgrade.FeatureGate}.

(** What the rules of the webhook select passes its validation. *)
Definition fits (hook : Webhook) : Prop :=
  ∀ c, receives c → existsb (selected c) (wh_Rules hook) = true → wh_Validate hook (call_Request c) = true.

Lemma fits_user hook : (∀ req, wh_Validate hook req = negb (String.eqb (username req) "")) → fits hook.
Proof. intros Hv c Hr _. rewrite Hv. by apply negb_true_iff, String.eqb_neq, receives_user. Qed.

Lemma fits_kinds hook :
  forallb simple (wh_Rules hook) = true →
  (∀ req, String.eqb (username req) "" = false →
     (forallb (Contains [Create; Update]) (operationsOf (wh_Rules hook)) = true → nonempty (req_Object req) = true) →
     (gvk_Group (req_Kind req), gvk_Kind (req_Kind req)) ∈ kindsOf (wh_Rules hook) → wh_Validate hook req = true) →
  fits hook.
Proof.
  intros Hsimple Hv c Hr Hs. apply Hv; [by apply String.eqb_neq, receives_user| |by apply selected_kind].
  intros Hall. rewrite forallb_forall in Hall. apply receives_object; [done|].
  destruct (selected_operation _ _ Hs) as [Hop|Hop]; apply list_elem_of_In, Hall, Contains_iff in Hop;
    rewrite !elem_of_cons elem_of_nil in Hop; naive_solver.
Qed.

(** The groups and kinds of a webhook's rules are few: tries them all. *)
Ltac solve_kinds :=
  apply fits_kinds; [vm_compute; reflexivity|];
  let req := fresh "req" in let Hu := fresh "Hu" in
  let Hobj := fresh "Hobj" in let Hk := fresh "Hk" in let Hg := fresh "Hg" in
  intros req Hu Hobj Hk;
  match type of Hk with _ ∈ ?l => let l' := eval vm_compute in l in change l with l' in Hk end;
  rewrite ?elem_of_cons elem_of_nil in Hk;
  destruct_or?; try done; injection Hk as Hg Hk;
  cbv -[String.eqb username nonempty gvk_Kind gvk_Group req_Kind req_Object];
  rewrite ?Hu ?Hk ?Hg; first [reflexivity|rewrite (Hobj eq_refl); reflexivity].

Lemma Webhooks_fit name hook : Webhooks !! name = Some hook → fits hook.
Proof.
  apply (registrations_forall (λ p, fits p.2)).
  repeat (constructor; [cbn [snd]; first [by apply fits_user|solve_kinds]|]). constructor.
Qed.

(** The handlers that can panic on a request of the API server. *)
Definition fragile : list string := [
  ClusterLogging.WebhookName; IngressController.WebhookName; PodImageSpec.WebhookName].

Lemma received_runs name hook c world :
  Webhooks !! name = Some hook → name ∉ fragile → receives c →
  ∃ resp world', wh_Authorized hook (call_Request c) world = (Returned resp, world').
Proof.
  intros Hh Hn Hr. destruct (wh_Authorized hook (call_Request c) world) as [[resp|why] world'] eqn:E; [by eauto|].
  exfalso. assert (fst (wh_Authorized hook (call_Request c) world) = Panicked why) as Hp by by rewrite E.
  pose proof (Webhooks_panic _ _ _ _ _ Hh Hp) as Hin. unfold fragile in Hn. unfold panicking in Hin.
  rewrite !elem_of_cons elem_of_nil in Hn Hin.
  destruct Hin as [->|[->|[->|[->|[->|[]]]]]]; try tauto.
  - assert (Webhooks !! ImageContentPolicies.WebhookName = Some ImageContentPolicies.NewWebhook) as Hi by reflexivity.
    rewrite Hi in Hh. injection Hh as <-. apply (receives_requestKind c Hr).
    by apply ImageContentPolicies.imagecontentpolicies_panics_iff; exists why.
  - assert (Webhooks !! Namespace.WebhookName = Some Namespace.NewWebhook) as Hi by reflexivity.
    rewrite Hi in Hh. injection Hh as <-.
    destruct (Namespace.namespace_no_panic (call_Request c)) as [resp Hresp].
    + intros Hop. by apply nonempty_true, (receives_object c Hr); left.
    + intros Hop. split; apply nonempty_true; [by apply (receives_object c Hr); right|by apply (receives_oldObject c Hr); left].
    + simpl in Hp. by rewrite Hresp in Hp.
Qed.

(** C11: The rules, the validation and the handlers fit together.  Each request
    that the API server sends by the rules of a registered webhook passes the
    webhook's own validation, and its handler returns a response; only the
    handlers of ClusterLogging, IngressController and the image mutation can
    still panic, on objects with an optional field unset. *)
Theorem called_webhooks_respond name hook entry c :
  Webhooks !! name = Some hook → we_Rules entry = wh_Rules hook → sends entry c →
  wh_Validate hook (call_Request c) = true ∧
  (name ∉ fragile → ∀ world, ∃ resp world',
     wh_Authorized hook (call_Request c) world = (Returned resp, world')).
Proof.
  intros Hh Hrules Hs. pose proof (sends_received _ _ Hs) as Hr. split.
  - apply (Webhooks_fit _ _ Hh); [done|]. rewrite -Hrules. by apply sends_selected.
  - intros Hn world. by apply (received_runs name).
Qed.

(** The rule of the pod webhook names pods under the group v1, which no API has:
    whatever configuration has its rules, the API server never calls it. *)
Lemma pod_never_called entry c : we_Rules entry = Pod.Rules → ¬ sends entry c.
Proof.
  intros Hrules Hs. pose proof (sends_selected _ _ Hs) as Hsel. rewrite Hrules in Hsel.
  apply (selected_kind c) in Hsel; [|done|by apply (sends_received entry)]. by apply not_elem_of_nil in Hsel.
Qed.

(** ** The deployed system, seen from the API server *)

(** The HTTP request by which the API server calls the webhook at [uri]. *)
Definition carries (r : HTTPRequest) (uri : string) (c : Call) : Prop :=
  (RequestURI r = uri ∨
   ∃ query, printable query = true ∧ no_char "#" query = true ∧ RequestURI r = uri +:+ String "?" query) ∧
  (ParseHTTPRequest r).1.1 = call_Request c ∧ (ParseHTTPRequest r).2 = None.

(** The calls for a configuration's webhook are answered at its address with the
    verdict of one registered webhook. *)
Definition answered (mux : gset string) (entry : WebhookEntry) (uri : string) : Prop :=
  uri ∈ mux ∧ ∃ name hook, Webhooks !! name = Some hook ∧ we_Rules entry = wh_Rules hook ∧
    ∀ stack d r c world resp world',
      NewDispatcher Webhooks d → sends entry c → carries r uri c →
      wh_Authorized hook (call_Request c) world = (Returned resp, world') →
      EncodeError newWriter (reviewOf (withAudit resp)) = None →
      HandleRequest (S stack) d r newWriter world =
        (Returned {| status := Some StatusOK; reviews := [reviewOf (withAudit resp)] |}, world').

Lemma served_answered mux name hook entry uri :
  Webhooks !! name = Some hook → we_Rules entry = wh_Rules hook → served mux hook uri → answered mux entry uri.
Proof.
  intros Hh Hrules [Hin Hserved]. split; [done|]. exists name, hook. do 2 (split; [done|]).
  intros stack d r c world resp world' Hnew Hs (Huri & Hreq & Herr) Ha He.
  apply (Hserved stack d r world (call_Request c)); try done.
  apply (Webhooks_fit _ _ Hh); [by apply (sends_received entry)|]. rewrite -Hrules. by apply sends_selected.
Qed.

Context `{OS} `{Main.Metrics} `{Marshal, !MarshalLaws}.

(** C9: The deployed system answers the API server.  Started with the command of
    the generated pods, where the CA file is mounted, the server listens with TLS
    on port 5000 of all addresses.  Once the configurations can be marshalled, every
    encoded webhook configuration of the generated template refers to the generated
    service, and every one of the package to the address of the service in the
    management cluster, each with a path of the started server; and each call that
    the API server makes by a configuration is answered 200 with the verdict of the
    registered webhook it is for, once its body decodes to the request, its handler
    returns and its review can be encoded. *)
Theorem deployed_calls_answered flags order range1 range2 j ca :
  order ≡ₚ map_to_list Webhooks → range_of Webhooks range1 → range_of Webhooks range2 →
  MarshalDaemonSet (createDaemonSet flags) = Ok j → classicMarshals flags Webhooks → hostedMarshals flags Webhooks →
  ReadFile "/service-ca/service-ca.crt" = Contents ca →
  ∃ mux config start res added,
    Main.setup (tail command) order = inr (mux, Main.metricsLog, config) ∧
    Main.Addr config = "0.0.0.0:5000" ∧ Main.RootCAs config = Some ca ∧
    templateStart flags = Returned start ∧ (∀ e, (buildTemplate flags Webhooks range1 start e).1 = inr res) ∧
    (∀ e, (buildPackage flags Webhooks range2 (packageStart flags) e).1 = inr (packageStart flags ++ added)) ∧
    (∀ k doc, Encoded doc ∈ resourcesOf res k → ∃ cfg entry ref,
       MarshalConfiguration cfg = Ok doc ∧
       wc_Webhooks cfg = [entry] ∧ cc_Service (we_ClientConfig entry) = Some ref ∧
       sr_Name ref = om_Name (svc_Meta (createService flags)) ∧
       sr_Namespace ref = om_Namespace (svc_Meta (createService flags)) ∧
       answered mux entry (sr_Path ref)) ∧
    (∀ doc, Encoded doc ∈ added → ∃ cfg entry uri,
       EncodeValidatingAndFixCA cfg = Returned (Ok doc) ∧
       wc_Webhooks cfg = [entry] ∧
       cc_URL (we_ClientConfig entry) =
         Some ("https://" +:+ om_Name (svc_Meta (createPackagedService flags deployPhase)) +:+
               ".{{.package.metadata.namespace}}.svc.cluster.local" +:+ uri) ∧
       answered mux entry uri).
Proof.
  intros Ho Hr1 Hr2 Hj Hm1 Hm2 Hca.
  destruct (deployed_configurations_served flags order range1 range2 j ca Ho Hr1 Hr2 Hj Hm1 Hm2 Hca)
    as (mux & config & Hsetup & Haddr & Hroot & (start & res & Hstart & Ht & Hclassic) & (added & Hp & Hhosted)).
  exists mux, config, start, res, added. do 6 (split; [done|]). split.
  - intros k doc Hin. destruct (Hclassic _ _ Hin) as (cfg & Hdoc & name & hook & entry & ref & Hh & _ & _ & Hw & Hrules & Hs & Hn & Hns & Hserved).
    exists cfg, entry, ref. do 5 (split; [done|]). by apply (served_answered _ name hook).
  - intros doc Hin. destruct (Hhosted _ Hin) as (cfg & Hdoc & name & hook & entry & uri & Hh & _ & Hw & Hrules & Hurl & Hserved).
    exists cfg, entry, uri. do 3 (split; [done|]). by apply (served_answered _ name hook).
Qed.

(** ** Guarded deletions *)

(** The four kinds of objects of the management and service clusters whose
    deletion is guarded, and whom the guards let through. *)
Inductive forbidden (c : Call) : Webhook → Prop :=
  | forbidden_namespace prefix :
      call_Group c = "" → call_Resource c = "namespaces" →
      prefix ∈ HcpNamespace.protectedPrefixes → HasPrefix (req_Name (call_Request c)) prefix = true →
      username (call_Request c) ∉ HcpNamespace.allowedUsers → forbidden c HcpNamespace.NewWebhook
  | forbidden_cluster :
      call_Group c = "hypershift.openshift.io" → call_Resource c = "hostedclusters" →
      username (call_Request c) ≠ HostedCluster.allowedServiceAccount → forbidden c HostedCluster.NewWebhook
  | forbidden_control_plane :
      call_Group c = "hypershift.openshift.io" → call_Resource c = "hostedcontrolplanes" →
      username (call_Request c) ∉ HostedControlPlane.allowedServiceAccountsUsernames →
      (∀ name, name ∈ HostedControlPlane.allowedServiceAccountsNames →
         ¬ HostedControlPlane.last_word (username (call_Request c)) name) →
      forbidden c HostedControlPlane.NewWebhook
  | forbidden_works :
      call_Group c = "work.open-cluster-management.io" → call_Resource c = "manifestworks" →
      username (call_Request c) ∉ ManifestWorks.allowedServiceAccounts → forbidden c ManifestWorks.NewWebhook.

(** A rule for one resource of all versions in its scope selects its deletion. *)
Lemma deletion_selected c group resource kind namespaced :
  receives c → req_Operation (call_Request c) = Delete → call_SubResource c = "" →
  call_Group c = group → call_Resource c = resource → (group, resource, kind, namespaced) ∈ documented →
  ∀ rule, rule = {| Operations := [Delete]; APIGroups := [group]; APIVersions := ["*"];
                    Webhook.Resources := [resource];
                    Scope := Some (if namespaced then NamespacedScope else ClusterScope) |} →
    existsb (selected c) [rule] = true.
Proof.
  intros Hr Hop Hsub <- <- Hd rule ->. destruct (receives_kind _ _ _ Hr Hsub Hd) as (_ & _ & Hns).
  assert (∀ x l, Contains (x :: l) x = true) as Hhere by (intros; apply Contains_iff, list_elem_of_here).
  apply existsb_exists. eexists. split; [by left|]. unfold selected.
  cbn [Operations APIGroups APIVersions Webhook.Resources Scope].
  assert (existsb (Contains (patterns c)) [call_Resource c] = true) as ->.
  { apply existsb_exists. exists (call_Resource c). split; [by left|]. unfold patterns. by rewrite Hsub Hhere. }
  rewrite Hop !Hhere !orb_true_r Hns. by destruct namespaced.
Qed.

Lemma forbidden_refused c hook world :
  forbidden c hook → req_Operation (call_Request c) = Delete →
  ∃ resp, wh_Authorized hook (call_Request c) world = (Returned resp, world) ∧ resp_Allowed resp = false.
Proof.
  intros Hf Hop. destruct Hf as [prefix _ _ Hp Hpre Hu|_ _ Hu|_ _ Hu Hn|_ _ Hu]; (eexists; split; [reflexivity|]).
  - apply HcpNamespace.hcpnamespace_guard. eauto.
  - by apply HostedCluster.hostedcluster_guard.
  - apply HostedControlPlane.hostedcontrolplane_guard. split; [done|]. split; [done|].
    intros [?|(name & Hin & Hl)]; [done|by apply (Hn name)].
  - by apply ManifestWorks.manifestworks_guard.
Qed.

Lemma forbidden_selected c hook :
  forbidden c hook → receives c → req_Operation (call_Request c) = Delete → call_SubResource c = "" →
  existsb (selected c) (wh_Rules hook) = true ∧ wh_ObjectSelector hook = None.
Proof.
  intros Hf Hr Hop Hsub. destruct Hf as [prefix Hg Hres _ _ _|Hg Hres _|Hg Hres _ _|Hg Hres _]; (split; [|reflexivity]).
  - by apply (deletion_selected c _ _ "Namespace" false Hr Hop Hsub Hg Hres); [apply (bool_decide_eq_true (_ ∈ documented))|].
  - by apply (deletion_selected c _ _ "HostedCluster" true Hr Hop Hsub Hg Hres); [apply (bool_decide_eq_true (_ ∈ documented))|].
  - by apply (deletion_selected c _ _ "HostedControlPlane" true Hr Hop Hsub Hg Hres); [apply (bool_decide_eq_true (_ ∈ documented))|].
  - by apply (deletion_selected c _ _ "ManifestWork" true Hr Hop Hsub Hg Hres); [apply (bool_decide_eq_true (_ ∈ documented))|].
Qed.

Lemma forbidden_registered c hook : forbidden c hook → ∃ name, Webhooks !! name = Some hook.
Proof.
  intros [prefix _ _ _ _ _|_ _ _|_ _ _ _|_ _ _].
  - by exists HcpNamespace.WebhookName.
  - by exists HostedCluster.WebhookName.
  - by exists HostedControlPlane.WebhookName.
  - by exists ManifestWorks.WebhookName.
Qed.

(** C10: Guarded deletions do not get through.  When somebody who is not exempt
    deletes a hosted cluster, a hosted control plane, a manifest work or a
    namespace with a protected prefix, the API server calls the webhook for it, by
    whatever configuration has the webhook's rules and selector, and the server
    answers the call with status 200 and a review that refuses the deletion. *)
Theorem guarded_deletions_refused c hook :
  forbidden c hook → receives c → req_Operation (call_Request c) = Delete → call_SubResource c = "" →
  (∀ entry, we_Rules entry = wh_Rules hook → we_ObjectSelector entry = wh_ObjectSelector hook → sends entry c) ∧
  (∀ stack d r world, NewDispatcher Webhooks d → carries r (wh_GetURI hook) c →
     (∀ review, EncodeError newWriter review = None) →
     ∃ review, HandleRequest (S stack) d r newWriter world =
         (Returned {| status := Some StatusOK; reviews := [review] |}, world) ∧
       resp_Allowed (ar_Response review) = false).
Proof.
  intros Hf Hr Hop Hsub. destruct (forbidden_selected _ _ Hf Hr Hop Hsub) as [Hsel Hnone]. split.
  - intros entry Hrules Hos. apply sends_unselective; [by rewrite Hos|done|by rewrite Hrules].
  - intros stack d r world Hnew (Huri & Hreq & Herr) He.
    destruct (forbidden_registered _ _ Hf) as [name Hh]. destruct (forbidden_refused _ _ world Hf Hop) as (resp & Ha & Hresp).
    exists (reviewOf (withAudit resp)). split; [|done]. destruct (Webhooks_uris _ _ Hh) as [Hp _].
    apply (handle_request_routed _ _ _ _ _ _ _ _ _ _ Webhooks_distinct_uris Hnew Hh Hp Huri Hreq Herr);
      [|done|apply He]. by apply (Webhooks_fit _ _ Hh).
Qed.
End Webhooks.

(** ** Witnesses *)

Module Witness.
#[local] Existing Instance exampleCtl.
#[local] Existing Instance exampleCtl_laws.
#[local] Existing Instance Server.Witness.codec.
#[local] Existing Instance Server.Witness.decoder.
#[local] Existing Instance Server.Witness.kube.
#[local] Existing Instance Main.Witness.os.
#[local] Existing Instance Main.Witness.metrics.
#[local] Existing Instance Encode.Witness.exampleMarshal.
#[local] Existing Instance Encode.Witness.exampleMarshal_laws.

(** User "dev" deletes a hosted cluster. *)
Definition deletion : Call := {|
  call_Group := "hypershift.openshift.io"; call_Version := "v1beta1"; call_Resource := "hostedclusters";
  call_SubResource := ""; call_Namespaced := true; call_Request := Server.Witness.deletion |}.

(** An API server to which just this request comes. *)
#[local] Instance server : ApiServer := {|
  receives := λ c, c = deletion;
  sends := λ entry c, c = deletion ∧ existsb (selected c) (we_Rules entry) = true |}.

#[local] Instance server_laws : ApiServerLaws.
Proof.
  split.
  - by intros entry c [Hc _].
  - by intros entry c [_ Hs].
  - done.
  - by intros c ->.
  - intros c kind namespaced -> _ Hd. assert (kind = "HostedCluster" ∧ namespaced = true) as [-> ->]; [|done].
    unfold documented in Hd. repeat (apply elem_of_cons in Hd as [Hd|Hd]; [by simplify_eq|]). by apply not_elem_of_nil in Hd.
  - intros c ->. by apply (bool_decide_eq_true (_ ∉ undocumented)).
  - by intros c ->.
  - intros c -> [[=]|[=]].
  - by intros c ->.
Qed.

(** The entry of a configuration for the webhook. *)
Definition entry : WebhookEntry := {|
  we_AdmissionReviewVersions := ["v1"]; we_TimeoutSeconds := 2; we_SideEffects := SideEffectClassNone;
  we_MatchPolicy := Equivalent; we_Name := "hostedcluster-validation.managed.openshift.io";
  we_ObjectSelector := None; we_FailurePolicy := Fail;
  we_ClientConfig := {| cc_URL := None; cc_Service := None; cc_CABundle := "" |};
  we_Rules := wh_Rules HostedCluster.NewWebhook |}.

Lemma called_webhooks_respond_witness :
  wh_Validate HostedCluster.NewWebhook (call_Request deletion) = true.
Proof.
  refine (proj1 (called_webhooks_respond HostedCluster.WebhookName HostedCluster.NewWebhook entry deletion _ _ _)).
  - reflexivity.
  - reflexivity.
  - split; reflexivity.
Defined.

Lemma guarded_deletions_refused_witness : sends entry deletion.
Proof.
  refine (proj1 (guarded_deletions_refused deletion HostedCluster.NewWebhook _ _ _ _) entry _ _); try reflexivity.
  apply forbidden_cluster; [reflexivity|reflexivity|discriminate].
Defined.

(** With the default flags, and the CA file in its place. *)
Lemma deployed_calls_answered_witness :
  ∃ mux config, Main.setup (tail command) (map_to_list Webhooks) = inr (mux, Main.metricsLog, config) ∧
    Main.Addr config = "0.0.0.0:5000" ∧ Main.RootCAs config = Some "CA".
Proof.
  assert (MarshalDaemonSet (createDaemonSet defaultFlags) =
    Ok (Encode.Witness.document (createDaemonSet defaultFlags))) as Hj by reflexivity.
  assert (ReadFile "/service-ca/service-ca.crt" = Contents "CA") as Hca by reflexivity.
  destruct (deployed_calls_answered defaultFlags (map_to_list Webhooks) (map_to_list Webhooks).*1
    (map_to_list Webhooks).*1 (Encode.Witness.document (createDaemonSet defaultFlags)) "CA"
    (reflexivity _) (reflexivity _) (reflexivity _) Hj (Resources.Witness.marshals_example _ _ _ _)
    (Resources.Witness.marshals_example _ _ _ _) Hca)
    as (mux & config & start & res & added & Hsetup & Haddr & Hroot & _).
  exists mux, config. split; [exact Hsetup|]. split; [exact Haddr|exact Hroot].
Defined.
End Witness.
