(* ===== verification/Documentation.v ===== *)
(** * hack/documentation: the documentation printer

    [WriteDocs] prints one record per registered webhook, sorted by the names they
    are registered under.  json.MarshalIndent and the write to standard output are
    parameters. *)

From stdpp Require Import sorting.
From S2P Require Import Prelude GoStrings Admission Webhook Registry Resources.
From S2P Require Flag.
From S2P Require Namespace RegularUser ClusterLogging Service NetworkOperator PodImageSpec Pod Node.
From S2P Require ClusterRole ClusterRoleBinding ServiceAccount SCC PrometheusRule NetworkPolicies.
From S2P Require ImageContentPolicies IngressController CustomResourceDefinitions SdnMigration TechPreviewNoUpgrade.

Record docuhook := {
  Name : string;
  Rules : list RuleWithOperations;
  ObjectSelector : option LabelSelector;
  DocumentationString : string;
}.

(** The flags of this program. *)
Definition kinds : gmap string Flag.kind := {["hideRules" := Flag.BoolFlag]}.
Definition defaults : Flag.values := {["hideRules" := "false"]}.

Class Printer := {
  MarshalIndent : list docuhook → result string;
  WriteStdout : string → option error;
}.

Definition LF : string := String "010" EmptyString.

(** One iteration of the loop over the sorted names. *)
Definition dochook (hideRules : bool) (hook : Webhook) : docuhook := {|
  Name := wh_Name hook;
  Rules := if hideRules then [] else wh_Rules hook;
  ObjectSelector := if hideRules then None else wh_ObjectSelector hook;
  DocumentationString := wh_Doc hook |}.

Fixpoint dochooks (hooks : RegisteredWebhooks) (hideRules : bool) (hookNames : list string) : outcome (list docuhook) :=
  match hookNames with
  | [] => Returned []
  | hookName :: rest =>
      realHook ← deref (hooks !! hookName);
      docs ← dochooks hooks hideRules rest;
      Returned (dochook hideRules realHook :: docs)
  end.

(** What is on standard output at the end, and os.Exit if it was called.
    [range]: the names as the range over the map visits them. *)
Definition WriteDocs `{Printer} (hooks : RegisteredWebhooks) (hideRules : bool) (range : list string) :
    outcome (string * option ending) :=
  docs ← dochooks hooks hideRules (sortStrings range);
  match MarshalIndent docs with
  | Err err => Returned ("Error encoding: " +:+ err +:+ LF, Some (Exit 1))
  | Ok b =>
      match WriteStdout b with
      | Some err => Returned ("Error Writing: " +:+ err +:+ LF, Some (Exit 1))
      | None => Returned (b +:+ LF, None)
      end
  end.

Definition main `{Printer} (hooks : RegisteredWebhooks) (arguments range : list string) :
    outcome (string * option ending) :=
  match Flag.Parse kinds arguments defaults with
  | inl Flag.HelpRequested => Returned ("", Some (Exit 0))
  | inl (Flag.BadUsage _) => Returned ("", Some (Exit 2))
  | inr flags => WriteDocs hooks (Flag.boolValue flags "hideRules") range
  end.

(** ** Theory *)

Lemma dochooks_registered (hooks : RegisteredWebhooks) hideRules (names : list string) :
  (∀ name, name ∈ names → is_Some (hooks !! name)) →
  dochooks hooks hideRules names = Returned (dochook hideRules <$> omap (λ name, hooks !! name) names).
Proof.
  induction names as [|name names IH]; intros Hall; [done|]. cbn [dochooks omap list_omap].
  destruct (Hall name (list_elem_of_here _ _)) as [hook Hh]. rewrite Hh. cbn [deref mbind outcome_bind].
  rewrite IH; [|done]. intros n Hn. by apply Hall, list_elem_of_further.
Qed.

(** When the hooks go by the names they are registered under, the records are in
    the order of the names. *)
Lemma dochooks_names (hooks : RegisteredWebhooks) hideRules (names : list string) :
  (∀ name, name ∈ names → ∃ hook, hooks !! name = Some hook ∧ wh_Name hook = name) →
  Name <$> (dochook hideRules <$> omap (λ name, hooks !! name) names) = names.
Proof.
  induction names as [|name names IH]; intros Hall; [done|].
  destruct (Hall name (list_elem_of_here _ _)) as (hook & Hh & Hn). simpl. rewrite Hh. simpl. rewrite Hn. f_equal.
  apply IH. intros n Hin. by apply Hall, list_elem_of_further.
Qed.

Section Documentation.
Context `{AdmissionCtl, !AdmissionCtlLaws} `{Printer}.
Context `{Decoder Namespace.Namespace} `{Decoder RegularUser.NetNamespace} `{Decoder RegularUser.ConfigMap}
  `{Decoder ClusterLogging.ClusterLogging} `{Decoder Service.Service} `{Decoder NetworkOperator.Network}
  `{Decoder PodImageSpec.Pod} `{PodImageSpec.KubeClient} `{Decoder Pod.Pod} `{Decoder Node.Node}
  `{Decoder ClusterRole.ClusterRole} `{Decoder ClusterRoleBinding.ClusterRoleBinding}
  `{Decoder ServiceAccount.ServiceAccount} `{Decoder SCC.SecurityContextConstraints}
  `{Decoder PrometheusRule.prometheusRule} `{Decoder NetworkPolicies.NetworkPolicy}
  `{Decoder ImageContentPolicies.ImageDigestMirrorSet} `{Decoder ImageContentPolicies.ImageTagMirrorSet}
  `{Decoder ImageContentPolicies.ImageContentSourcePolicy} `{Decoder IngressController.IngressController}
  `{Decoder CustomResourceDefinitions.CustomResourceDefinition} `{Decoder SdnMigration.Network}
  `{Decoder TechPreviewNoUpgrade.FeatureGate}.

Lemma Webhooks_named name hook : Webhooks !! name = Some hook → wh_Name hook = name.
Proof.
  apply (registrations_forall (λ p, wh_Name p.2 = p.1)). repeat (constructor; [reflexivity|]). constructor.
Qed.

(** C39: The documentation.  Whatever the command line, the output does not depend
    on the order in which the registry is visited.  Once the command line parses,
    the printed list has one record for each of the 25 registered webhooks and no
    other, sorted by name, with its documentation; the rules and the object
    selector are the webhook's, or left out under -hideRules. *)
Theorem documentation_complete arguments range range' :
  range_of Webhooks range → range_of Webhooks range' →
  main Webhooks arguments range = main Webhooks arguments range' ∧
  ∀ flags, Flag.Parse kinds arguments defaults = inr flags →
    ∃ docs, length docs = 25 ∧ Sorted String.le (Name <$> docs) ∧ NoDup (Name <$> docs) ∧
      (∀ doc, doc ∈ docs ↔ ∃ hook, Webhooks !! Name doc = Some hook ∧ DocumentationString doc = wh_Doc hook ∧
         (Rules doc, ObjectSelector doc) =
         (if Flag.boolValue flags "hideRules" then ([], None) else (wh_Rules hook, wh_ObjectSelector hook))) ∧
      ∀ text, MarshalIndent docs = Ok text → WriteStdout text = None →
        main Webhooks arguments range = Returned (text +:+ LF, None).
Proof.
  intros Hr Hr'. unfold main, WriteDocs. split.
  { rewrite (sortStrings_unique range range'); [by rewrite Hr Hr'|done]. }
  intros flags ->. set (hide := Flag.boolValue flags "hideRules").
  assert (∀ name, name ∈ sortStrings range ↔ ∃ hook, Webhooks !! name = Some hook) as Hin.
  { intros name. by rewrite sortStrings_perm (range_of_elem _ _ _ Hr). }
  rewrite dochooks_registered; [intros name [h Hh]%Hin; eauto|]. cbn [mbind outcome_bind].
  eexists. split; [|split; [|split; [|split; [|by intros text -> ->]]]].
  - rewrite -(length_fmap Name) dochooks_names.
    { intros name [h Hh]%Hin. exists h. split; [done|]. by apply Webhooks_named. }
    rewrite sortStrings_perm Hr Webhooks_registrations map_to_list_to_map; [apply registrations_names|]. done.
  - rewrite dochooks_names; [|apply Sorted_merge_sort, _].
    intros name [h Hh]%Hin. exists h. split; [done|]. by apply Webhooks_named.
  - rewrite dochooks_names; [|rewrite sortStrings_perm; by apply (range_of_NoDup Webhooks)].
    intros name [h Hh]%Hin. exists h. split; [done|]. by apply Webhooks_named.
  - intros doc. rewrite list_elem_of_fmap. setoid_rewrite list_elem_of_omap. split.
    + intros (hook & -> & name & _ & Hh). exists hook. simpl. rewrite (Webhooks_named _ _ Hh). by destruct hide.
    + intros (hook & Hh & Hd & Hrest). exists hook. split; [|exists (Name doc); split; [apply Hin; eauto|done]].
      pose proof (Webhooks_named _ _ Hh) as Hname. unfold dochook.
      destruct doc as [n rs os s]; simpl in *. by destruct hide; injection Hrest as -> ->; rewrite Hname Hd.
Qed.
End Documentation.

(** ** Witnesses *)

Module Witness.
#[local] Existing Instance exampleCtl.
#[local] Existing Instance exampleCtl_laws.
#[local] Existing Instance Registry.Witness.decoder.
#[local] Existing Instance Registry.Witness.kube.
#[local] Instance printer : Printer := {|
  MarshalIndent := λ docs, Ok (Join (Name <$> docs) ","); WriteStdout := λ text, None |}.

Lemma documentation_complete_witness :
  main Webhooks ["-hideRules"] (map_to_list Webhooks).*1 = main Webhooks ["-hideRules"] (rev (map_to_list Webhooks).*1).
Proof.
  refine (proj1 (documentation_complete ["-hideRules"] (map_to_list Webhooks).*1 (rev (map_to_list Webhooks).*1)
    (reflexivity _) _)).
  unfold range_of. symmetry. apply Permutation_rev.
Defined.
End Witness.
