(* ===== verification/NamespaceList.v ===== *)
(** * pkg/config/generate: the generator of the namespace list

    The program that go generate runs: it reads two config maps of managed
    namespaces and writes the Go file with the regular expressions of the
    privileged namespaces, which [Utils.IsPrivilegedNamespace] tests.  HTTP, YAML
    and the file system are parameters. *)

From S2P Require Import Prelude GoStrings Regexp RegexpTheory Utils.

Definition namespaceFiles : list string := ["managed-namespaces.ConfigMap.yaml"; "ocp-namespaces.ConfigMap.yaml"].

(** The base lists, the initial values of the two variables. *)
Definition namespaces : list string := ["^default$"; "^openshift$"; "^kube-.*"; "^redhat-.*"].
Definition configmaps : list string := [].

Definition mccBaseUrl : string :=
  "https://raw.githubusercontent.com/openshift/managed-cluster-config/master/deploy/osd-managed-resources".
Definition namespacesKey : string := "managed_namespaces.yaml".

(** The types of the documents that are read. *)
Record Namespace := { ns_Name : string }.
Record NamespaceConfigList := { nl_Namespace : list Namespace }.
Record NamespacesConfig := { nc_Resources : NamespaceConfigList }.
Record ConfigMap := { cm_Namespace : string; cm_Name : string; cm_Data : gmap string string }.

(** ** Surroundings *)

(** The body of a response: what can be read, the error at its end if it is not
    the regular end, and what Close returns. *)
Record Body := { bytes : string; readError : option error; closeError : option error }.

Class Surroundings := {
  Get : string → result Body;
  UnmarshalConfigMap : string → result ConfigMap;
  UnmarshalNamespaces : string → result NamespacesConfig;
  Create : option error;
  Execute : string → option error;
  CloseFile : option error;
}.

Definition LF : ascii := "010"%char.
Definition CR : ascii := "013"%char.
Definition TAB : ascii := "009"%char.
Definition quote : ascii := "034"%char.

(** ** bufio.Scanner with ScanLines *)

(** bufio.MaxScanTokenSize *)
Definition MaxScanTokenSize : Z := 64 * 1024.

(** Drops a carriage return at the end of a line. *)
Fixpoint dropCR (line : string) : string :=
  match line with
  | EmptyString => ""
  | String c EmptyString => if Ascii.eqb c CR then "" else line
  | String c rest => String c (dropCR rest)
  end.

(** The lines with their terminators removed; text after the last newline is a
    line if there is any. *)
Definition rawLines (s : string) : list string :=
  let ws := Split s LF in
  if String.eqb (List.last ws "") "" then removelast ws else ws.

(** A line that fills the buffer before its end is seen. *)
Definition tooLong (line : string) : bool := (MaxScanTokenSize <=? Z.of_nat (String.length line))%Z.

(** The loop over the scanner: the lines with a newline put back after each. *)
Definition unlines (lines : list string) : string :=
  foldr (λ line rawFile, line +:+ String LF rawFile) "" lines.

Definition scanBody (body : Body) : result string :=
  if existsb tooLong (rawLines (bytes body)) then Err "bufio.Scanner: token too long"
  else match readError body with
       | Some err => Err err
       | None => Ok (unlines (dropCR <$> rawLines (bytes body)))
       end.

(** ** The generator *)

Section Generator.
Context `{Surroundings}.

(** One iteration: what it appends to [configmaps] and to [namespaces], and what
    the call that it defers will return; or the message of log.Fatalf. *)
Definition retrieve (fileName : string) : result (string * list string * option error) :=
  match Get (mccBaseUrl +:+ "/" +:+ fileName) with
  | Err err => Err ("Error retrieving file from managed-cluster-config: " +:+ err)
  | Ok body =>
      match scanBody body with
      | Err err => Err ("Error reading response body: " +:+ err)
      | Ok rawFile =>
          match UnmarshalConfigMap rawFile with
          | Err err => Err ("Error decoding response: " +:+ err)
          | Ok nsConfigMap =>
              let rawConfig := default "" (cm_Data nsConfigMap !! namespacesKey) in
              match UnmarshalNamespaces rawConfig with
              | Err err => Err ("Error decoding configMap: " +:+ err)
              | Ok nsConfig =>
                  let listed := nl_Namespace (nc_Resources nsConfig) in
                  if length listed =? 0 then Err ("No namespaces retrieved from " +:+ fileName)
                  else Ok (cm_Namespace nsConfigMap +:+ "/" +:+ cm_Name nsConfigMap,
                           (λ ns, "^" +:+ ns_Name ns +:+ "$") <$> listed,
                           closeError body)
              end
          end
      end
  end.

(** The loop; [deferred] are the deferred calls, the last one first. *)
Fixpoint retrieveAll (files configmaps namespaces : list string) (deferred : list (option error)) :
    result (list string * list string * list (option error)) :=
  match files with
  | [] => Ok (configmaps, namespaces, deferred)
  | fileName :: rest =>
      match retrieve fileName with
      | Err fatal => Err fatal
      | Ok (source, patterns, close) =>
          retrieveAll rest (configmaps ++ [source]) (namespaces ++ patterns) (close :: deferred)
      end
  end.

(** What {{- range }} ... {{- end }} makes of a list: a line per element. *)
Definition renderItems (items : list string) : string :=
  foldr (λ item text, String LF (String TAB (String quote item)) +:+ String quote ("," +:+ text)) "" items.

(** The template, executed: its text before, between and after the lists. *)
Definition header (timestamp : string) : string :=
  "// Code generated by pkg/config/generate/namespaces.go; DO NOT EDIT." +:+ String LF
  "// Generated at " +:+ timestamp +:+ String LF
  "package config" +:+ String LF (String LF
  "var ConfigMapSources = []string{").
Definition between : string := String LF "}" +:+ String LF (String LF "var PrivilegedNamespaces = []string{").
Definition footer : string := String LF "}" +:+ String LF "".

Definition render (timestamp : string) (configmaps namespaces : list string) : string :=
  header timestamp +:+ renderItems configmaps +:+ between +:+ renderItems namespaces +:+ footer.

(** The deferred calls when [main] returns: the first that fails ends the process
    with log.Fatalf. *)
Fixpoint runDeferred (deferred : list (option error)) (text : string) : ending + string :=
  match deferred with
  | [] => inr text
  | Some _ :: _ => inl (Exit 1)
  | None :: rest => runDeferred rest text
  end.

(** The written file, or the exit of log.Fatalf, which runs no deferred call. *)
Definition main (timestamp : string) : ending + string :=
  match retrieveAll namespaceFiles configmaps namespaces [] with
  | Err _ => inl (Exit 1)
  | Ok (configmaps, namespaces, deferred) =>
      match Create with
      | Some _ => inl (Exit 1)
      | None =>
          let text := render timestamp configmaps namespaces in
          match Execute text with
          | Some _ => inl (Exit 1)
          | None => runDeferred (CloseFile :: deferred) text
          end
      end
  end.
End Generator.

(** ** Theory *)

(** The string literals of a Go file without comments or escapes that hold a
    quote: what stands between pairs of quotes. *)
Fixpoint everySecond (ws : list string) : list string :=
  match ws with
  | _ :: literal :: rest => literal :: everySecond rest
  | _ => []
  end.

Definition literals (text : string) : list string := everySecond (Split text quote).

(** Splitting text whose start has no quote. *)
Lemma literals_item before w rest :
  no_char quote before = true → no_char quote w = true →
  literals (before +:+ String quote (w +:+ String quote rest)) = w :: literals rest.
Proof. intros Hb Hw. unfold literals. by rewrite !Split_app_sep. Qed.

Lemma literals_none before : no_char quote before = true → literals before = [].
Proof. intros Hb. unfold literals. by rewrite Split_word. Qed.

Lemma no_char_app c a b : no_char c (a +:+ b) = no_char c a && no_char c b.
Proof. apply all_chars_app. Qed.

(** The items of a list literal, and what follows them. *)
Lemma literals_items items before after :
  no_char quote before = true → Forall (λ w, no_char quote w = true) items →
  literals (before +:+ renderItems items +:+ after) =
  items ++ literals ((if items is [] then before else ",") +:+ after).
Proof.
  intros Hb Hall. revert before Hb. induction Hall as [|w items Hw Hall IH]; intros before Hb; [done|].
  assert (before +:+ renderItems (w :: items) +:+ after =
    (before +:+ String LF (String TAB "")) +:+ String quote (w +:+ String quote ("," +:+ renderItems items +:+ after))) as ->.
  { by repeat (progress simpl || rewrite -str_app_assoc). }
  rewrite literals_item //; [by rewrite no_char_app Hb|]. rewrite IH //. by destruct items.
Qed.

Lemma literals_render timestamp sources patterns :
  no_char quote timestamp = true → Forall (λ w, no_char quote w = true) sources →
  Forall (λ w, no_char quote w = true) patterns →
  literals (render timestamp sources patterns) = sources ++ patterns.
Proof.
  intros Ht Hs Hp. unfold render.
  assert (no_char quote (header timestamp) = true) as Hh by by rewrite /header !no_char_app Ht.
  rewrite literals_items //. f_equal. rewrite str_app_assoc literals_items //.
  - rewrite no_char_app. by destruct sources; rewrite ?Hh.
  - rewrite literals_none ?app_nil_r //. rewrite no_char_app.
    destruct patterns; [|done]. rewrite no_char_app. by destruct sources; rewrite ?Hh.
Qed.

(** ** Scanning *)

(** A line with the terminator it has in the body. *)
Definition terminated (line : string * bool) : string := line.1 +:+ (if line.2 then String CR (String LF "") else String LF "").

Definition clean (line : string) : bool := no_char CR line && no_char LF line.

(** The line as the scanner's split function sees it. *)
Definition unterminated (line : string * bool) : string := line.1 +:+ (if line.2 then String CR "" else "").

Lemma terminated_line line rest : terminated line +:+ rest = unterminated line +:+ String LF rest.
Proof. destruct line as [w []]; unfold terminated, unterminated; simpl; rewrite -!str_app_assoc; done. Qed.

Lemma rawLines_body lines last :
  Forall (λ l, clean l.1 = true) lines → no_char LF last = true →
  rawLines (foldr (λ l text, terminated l +:+ text) last lines) =
  (unterminated <$> lines) ++ (if String.eqb last "" then [] else [last]).
Proof.
  intros Hall Hl. unfold rawLines.
  assert (Split (foldr (λ l text, terminated l +:+ text) last lines) LF = (unterminated <$> lines) ++ [last]) as ->.
  { induction Hall as [|[w crlf] lines Hw Hall IH]; [by apply Split_word|]. cbn [foldr].
    rewrite terminated_line Split_app_sep; [|by rewrite IH].
    apply andb_true_iff in Hw as [_ Hw]. unfold unterminated. rewrite no_char_app Hw. by destruct crlf. }
  rewrite List.last_last removelast_last. destruct (String.eqb_spec last ""); [by rewrite app_nil_r|done].
Qed.

Lemma dropCR_clean w : no_char CR w = true → dropCR w = w.
Proof.
  unfold no_char. induction w as [|c w IH]; simpl; [done|]. rewrite andb_true_iff negb_true_iff. intros [-> Hw].
  destruct w as [|d w]; [done|]. by rewrite IH.
Qed.

Lemma dropCR_terminated w : dropCR (w +:+ String CR "") = w.
Proof. induction w as [|c w IH]; [done|]. destruct w as [|d w]; [done|]. cbn [String.append dropCR] in *. by rewrite IH. Qed.

Lemma dropCR_unterminated line : clean line.1 = true → dropCR (unterminated line) = line.1.
Proof.
  destruct line as [w []]; intros [Hw _]%andb_true_iff; unfold unterminated; cbn [fst snd].
  - apply dropCR_terminated.
  - rewrite str_app_nil_r. by apply dropCR_clean.
Qed.

(** Reading the config maps.  Whatever mixture of line ends a body has, and
    with or without a newline after its last line, what is handed to the YAML
    parser is its lines with one newline after each, unless the body cannot be
    read to its end or a line of it, with its carriage return, has 65536 bytes or
    more: then the generator fails. *)
Theorem body_lines lines last err close :
  Forall (λ l, clean l.1 = true) lines → clean last = true →
  let raw := (unterminated <$> lines) ++ (if String.eqb last "" then [] else [last]) in
  scanBody {| bytes := foldr (λ l text, terminated l +:+ text) last lines; readError := err; closeError := close |} =
    (if existsb tooLong raw then Err "bufio.Scanner: token too long"
     else match err with
          | Some e => Err e
          | None => Ok (unlines (lines.*1 ++ (if String.eqb last "" then [] else [last])))
          end).
Proof.
  intros Hall Hl raw. unfold scanBody. cbn [bytes readError].
  pose proof Hl as [Hcr Hlf]%andb_true_iff. rewrite (rawLines_body _ _ Hall Hlf). fold raw.
  destruct (existsb tooLong raw); [done|]. destruct err as [e|]; [done|]. do 2 f_equal. subst raw.
  rewrite fmap_app. f_equal.
  - induction Hall as [|l lines Hw Hall IH]; [done|]. rewrite !fmap_cons IH. by rewrite dropCR_unterminated.
  - destruct (String.eqb last ""); [done|]. by rewrite fmap_cons (dropCR_clean _ Hcr).
Qed.

(** ** The list *)

Definition exact (name : string) : string := "^" +:+ name +:+ "$".

Section Theory.
Context `{Surroundings}.

(** What a file contributes, by the names it lists. *)
Record Contribution := { source : string; names : list string; close : option error }.

Definition retrieved (fileName : string) (got : Contribution) : Prop :=
  names got ≠ [] ∧ retrieve fileName = Ok (source got, exact <$> names got, close got).

Lemma retrieve_ok fileName src patterns c :
  retrieve fileName = Ok (src, patterns, c) →
  ∃ got, retrieved fileName got ∧ source got = src ∧ patterns = exact <$> names got ∧ close got = c.
Proof.
  unfold retrieved, retrieve.
  destruct (Get _) as [body|]; [|done]. destruct (scanBody body) as [rawFile|]; [|done].
  destruct (UnmarshalConfigMap rawFile) as [cm|]; [|done]. cbv zeta.
  destruct (UnmarshalNamespaces _) as [config|]; [|done].
  destruct (nl_Namespace (nc_Resources config)) as [|n ns]; [done|]. intros [= <- <- <-].
  eexists {| source := _; names := ns_Name <$> (n :: ns); close := closeError body |}.
  cbn [names source close]. by rewrite -list_fmap_compose.
Qed.

(** What all files contribute together. *)
Definition allNames (got : list Contribution) : list string := concat (names <$> got).

Lemma retrieveAll_iff files cms nss deferred r :
  retrieveAll files cms nss deferred = Ok r ↔
  ∃ got, Forall2 retrieved files got ∧
    r = (cms ++ (source <$> got), nss ++ (exact <$> allNames got), reverse (close <$> got) ++ deferred).
Proof.
  unfold allNames. revert cms nss deferred. induction files as [|f files IH]; intros cms nss deferred; cbn [retrieveAll].
  { split.
    - intros [= <-]. exists []. by rewrite /= !app_nil_r.
    - intros (got & ->%Forall2_nil_inv_l & ->). by rewrite /= !app_nil_r. }
  split.
  - destruct (retrieve f) as [[[src patterns] c]|] eqn:E; [|done].
    intros (got & Hall & ->)%IH. destruct (retrieve_ok _ _ _ _ E) as (g & Hf & <- & -> & <-).
    exists (g :: got). split; [by constructor|]. by rewrite !fmap_cons reverse_cons /= fmap_app -!app_assoc.
  - intros (got & Hall & ->). apply Forall2_cons_inv_l in Hall as (g & got' & Hg & Hall & ->).
    destruct Hg as [Hne ->]. apply IH. exists got'. split; [done|]. by rewrite !fmap_cons reverse_cons /= fmap_app -!app_assoc.
Qed.

Lemma runDeferred_spec deferred text :
  runDeferred deferred text = if existsb (λ c, if c is Some _ then true else false) deferred then inl (Exit 1) else inr text.
Proof. induction deferred as [|[e|] deferred IH]; done. Qed.

(** What keeps [main] from succeeding once the files are retrieved: the output
    cannot be made, written or closed, or a body cannot be closed. *)
Definition obstructed (timestamp : string) (got : list Contribution) : Prop :=
  Create ≠ None ∨ Execute (render timestamp (source <$> got) (namespaces ++ (exact <$> allNames got))) ≠ None ∨
  CloseFile ≠ None ∨ ∃ g, g ∈ got ∧ close g ≠ None.

Lemma main_retrieved timestamp got :
  Forall2 retrieved namespaceFiles got →
  (main timestamp = inl (Exit 1) ∧ obstructed timestamp got) ∨
  (main timestamp = inr (render timestamp (source <$> got) (namespaces ++ (exact <$> allNames got))) ∧
   ¬ obstructed timestamp got).
Proof.
  intros Hall. unfold main, obstructed.
  rewrite (proj2 (retrieveAll_iff namespaceFiles configmaps namespaces [] _) (ex_intro _ got (conj Hall eq_refl))).
  rewrite (app_nil_l (source <$> got)) app_nil_r. cbv zeta.
  destruct Create; [left; naive_solver|]. destruct (Execute _); [left; naive_solver|]. rewrite runDeferred_spec.
  cbn [existsb]. destruct CloseFile; [left; naive_solver|]. cbn [orb].
  destruct (existsb _ _) eqn:E.
  - left. split; [done|]. do 3 right. apply existsb_elem_of in E as (c & Hc & Hs). rewrite elem_of_reverse in Hc.
    apply list_elem_of_fmap in Hc as (g & -> & Hg). exists g. split; [done|]. by intros Hn; rewrite Hn in Hs.
  - right. split; [done|]. intros [?|[?|[?|(g & Hg & Hne)]]]; try done. rewrite existsb_false in E.
    specialize (E (close g)). rewrite elem_of_reverse in E. specialize (E (list_elem_of_fmap_2 close got g Hg)).
    by destruct (close g).
Qed.

(** Testing a namespace against the base list and plain names. *)
Lemma base_and_names names ns :
  forallb plain names = true →
  RegexSliceContains ns (namespaces ++ (exact <$> names)) = true ↔
  ns = "default" ∨ ns = "openshift" ∨ HasPrefix ns "kube-" = true ∨ HasPrefix ns "redhat-" = true ∨ ns ∈ names.
Proof.
  intros Hp. rewrite forallb_forall in Hp. rewrite RegexSliceContains_iff.
  rewrite -MatchPattern_kube -MatchPattern_redhat -(MatchPattern_exact "default" ns) // -(MatchPattern_exact "openshift" ns) //.
  setoid_rewrite elem_of_app. setoid_rewrite list_elem_of_fmap. unfold namespaces. split.
  - intros (p & [Hin|(name & -> & Hin)] & Hm).
    + rewrite !elem_of_cons in Hin. destruct Hin as [->|[->|[->|[->|[]%not_elem_of_nil]]]]; tauto.
    + apply MatchPattern_exact in Hm as ->; [tauto|]. by apply Hp, list_elem_of_In.
  - intros [Hm|[Hm|[Hm|[Hm|Hin]]]].
    1-4: eexists; split; [left; rewrite !elem_of_cons|exact Hm]; tauto.
    exists (exact ns). split; [right; eauto|]. by apply MatchPattern_exact; [apply Hp, list_elem_of_In|].
Qed.

(** C38: The generated list.  Either the generator exits with code 1, or every
    file gave a non-empty list of names and the Go file it writes holds, between
    its quotes, the config maps in the order of the files, the base list, and
    ^name$ for each name, in order and with duplicates; and it is the former
    exactly if a file could not be retrieved, the output not be made, written or
    closed, or the body of a response not be closed.  As long as the names are plain
    (no regular-expression syntax), the patterns of the file make privileged exactly
    default, openshift, the prefixes kube- and redhat-, and the names of the config
    maps. *)
Theorem generated_namespaces timestamp :
  no_char quote timestamp = true →
  (main timestamp = inl (Exit 1) ∧ ∀ got, Forall2 retrieved namespaceFiles got → obstructed timestamp got) ∨
  ∃ text got, main timestamp = inr text ∧ Forall2 retrieved namespaceFiles got ∧ ¬ obstructed timestamp got ∧
    (Forall (λ w, no_char quote w = true) ((source <$> got) ++ allNames got) →
       literals text = (source <$> got) ++ namespaces ++ (exact <$> allNames got)) ∧
    (forallb plain (allNames got) = true → ∀ ns,
       RegexSliceContains ns (namespaces ++ (exact <$> allNames got)) = true ↔
       ns = "default" ∨ ns = "openshift" ∨ HasPrefix ns "kube-" = true ∨ HasPrefix ns "redhat-" = true ∨
       ns ∈ allNames got).
Proof.
  intros Ht. destruct (retrieveAll namespaceFiles configmaps namespaces []) as [r|e] eqn:E.
  2:{ left. split; [by rewrite /main E|]. intros got Hall.
      by rewrite (proj2 (retrieveAll_iff _ _ _ _ _) (ex_intro _ got (conj Hall eq_refl))) in E. }
  pose proof E as (got & Hall & Hr)%retrieveAll_iff. destruct (main_retrieved timestamp got Hall) as [[Hm Ho]|[Hm Ho]].
  - left. split; [done|]. intros got' Hall'.
    destruct (main_retrieved timestamp got' Hall') as [[_ ?]|[Hm' _]]; [done|by rewrite Hm' in Hm].
  - right. eexists _, got. split; [exact Hm|]. do 2 (split; [done|]). split; [|by intros Hp ns; apply base_and_names].
    intros [Hs Hn]%Forall_app. apply literals_render; [done..|]. apply Forall_app. split; [by repeat constructor|].
    apply Forall_fmap. apply (Forall_impl _ _ _ Hn). intros w Hw. change (no_char quote (exact w) = true). by rewrite /exact !no_char_app Hw.
Qed.
End Theory.

(** The list in the repository is one that the generator writes: the base list
    and plain names. *)
Lemma committed_list :
  ∃ names, PrivilegedNamespaces = namespaces ++ (exact <$> names) ∧ forallb plain names = true.
Proof.
  exists (strip_exact <$> drop 4 PrivilegedNamespaces). split; vm_compute; reflexivity.
Qed.

(** ** Witnesses *)

Module Witness.
(** Both files are served; their config maps list one namespace each, given by
    the key of the data. *)
Definition configMap (name listed : string) : ConfigMap := {|
  cm_Namespace := "openshift-monitoring"; cm_Name := name; cm_Data := {[namespacesKey := listed]} |}.

#[local] Instance surroundings : Surroundings := {|
  Get := λ url, Ok {| bytes := url; readError := None; closeError := None |};
  UnmarshalConfigMap := λ text,
    if ContainsSub text "ocp" then Ok (configMap "ocp-namespaces" "openshift-sdn")
    else Ok (configMap "managed-namespaces" "openshift-backplane");
  UnmarshalNamespaces := λ text, Ok {| nc_Resources := {| nl_Namespace := [{| ns_Name := text |}] |} |};
  Create := None;
  Execute := λ text, None;
  CloseFile := None |}.

Lemma generated_namespaces_witness :
  ∃ text got, main "2026-05-01 23:00:25 UTC" = inr text ∧ Forall2 retrieved namespaceFiles got.
Proof.
  destruct (generated_namespaces "2026-05-01 23:00:25 UTC" eq_refl) as [[H _]|(text & got & Hm & Hg & _)].
  - vm_compute in H. discriminate H.
  - exists text, got. split; [exact Hm|exact Hg].
Defined.

Lemma body_lines_witness :
  scanBody {| bytes := terminated ("kind: ConfigMap", true) +:+ "data: {}"; readError := None; closeError := None |} =
  Ok (unlines ["kind: ConfigMap"; "data: {}"]).
Proof.
  pose proof (body_lines [("kind: ConfigMap", true)] "data: {}" None None) as H. cbv zeta in H.
  refine (eq_trans (H _ _) _); [by repeat constructor|reflexivity|vm_compute; reflexivity].
Defined.
End Witness.
