(* ===== verification/Utf8.v ===== *)
(** * unicode/utf8: valid strings

    [utf8.ValidString] on byte sequences: one to four bytes per character, without
    overlong forms, surrogates and values above U+10FFFF.  encoding/json replaces
    what is not valid. *)

From S2P Require Import Prelude.

Definition within (lo hi : nat) (c : ascii) : bool := (lo <=? nat_of_ascii c) && (nat_of_ascii c <=? hi).

(** 10xxxxxx *)
Definition continuation : ascii → bool := within 128 191.

(** The range of the second byte of a character of three or four bytes, by its
    first byte. *)
Definition second (c : ascii) : ascii → bool :=
  match nat_of_ascii c with
  | 224 => within 160 191
  | 237 => within 128 159
  | 240 => within 144 191
  | 244 => within 128 143
  | _ => continuation
  end.

Fixpoint ValidString (s : string) : bool :=
  match s with
  | EmptyString => true
  | String c rest =>
      if within 0 127 c then ValidString rest
      else if within 194 223 c then
        match rest with String d rest => continuation d && ValidString rest | _ => false end
      else if within 224 239 c then
        match rest with
        | String d (String e rest) => second c d && continuation e && ValidString rest
        | _ => false
        end
      else if within 240 244 c then
        match rest with
        | String d (String e (String f rest)) => second c d && continuation e && continuation f && ValidString rest
        | _ => false
        end
      else false
  end.

(** ASCII text is valid, and so is valid text after it. *)
Lemma ValidString_ascii a s : all_chars (within 0 127) a = true → ValidString (a +:+ s) = ValidString s.
Proof.
  induction a as [|c a IH]; [done|]. cbn [all_chars]. intros [Hc Ha]%andb_true_iff.
  cbn [String.append ValidString]. rewrite Hc. by apply IH.
Qed.

(** The bytes of a string. *)
Definition bytes (codes : list nat) : string := foldr (λ n s, String (ascii_of_nat n) s) "" codes.

(** A letter, e acute, the euro sign and a smiley; a continuation byte alone, an
    overlong slash, a surrogate, a value above the last, and a character cut
    short. *)
Example ValidString_examples :
  ValidString (bytes [97; 195; 169; 226; 130; 172; 240; 159; 152; 128]) = true ∧
  (ValidString ∘ bytes <$> [[128]; [192; 175]; [237; 160; 128]; [244; 144; 128; 128]; [226; 130]]) =
    [false; false; false; false; false].
Proof. split; vm_compute; reflexivity. Qed.
