(* ===== verification/TestUtils.v ===== *)
(** * pkg/testutils: how the unit tests drive a webhook

    The helpers that make an admission review, wrap it into an HTTP request and
    hand it to a webhook without the dispatcher; and the theorem that a test of a
    valid request sees what the server answers. *)

From S2P Require Import Prelude GoStrings Utf8 Admission Utils Webhook Url Dispatcher.
From S2P Require HostedCluster.

Definition CanCanNot (b : bool) : string := if b then "can" else "can not".

(** What is called of third-party code: json.Marshal of a review with the given
    request, json.Unmarshal of what a webhook wrote, and the check of
    httptest.NewRequest on its target. *)
Class TestCodec := {
  MarshalReview : Request → result string;
  UnmarshalReview : list AdmissionReview → result (option Response);
  validTarget : string → bool;
  (** what Marshal makes of raw JSON: json.Compact, with HTML escaped *)
  compact : string → string;
}.

Section TestUtils.
Context `{AdmissionCtl} `{Codec} `{TestCodec}.

(** The resource (gvr) is sent as well; no webhook reads it, so that [Request]
    has no such field. *)
Definition fakeRequest (uid : string) (gvk : GroupVersionKind) (operation username : string)
    (userGroups : list string) (namespace : string) (object oldObject : RawExtension) : Request := {|
  req_UID := uid; req_Kind := gvk; req_RequestKind := Some gvk; req_Name := ""; req_Namespace := namespace;
  req_Operation := operation; req_UserInfo := {| Username := username; Groups := userGroups |};
  req_Object := object; req_OldObject := oldObject |}.

(** The two raw extensions that the switch on the operation fills in. *)
Definition objects (operation : string) (obj oldObject : option RawExtension) : outcome (RawExtension * RawExtension) :=
  let none := {| Raw := "" |} in
  if String.eqb operation Create then
    o ← deref obj; Returned (o, none)
  else if String.eqb operation Update then
    o ← deref obj;
    match oldObject with
    | Some old => Returned (o, old)
    | None => old ← deref obj; Returned (o, old)
    end
  else if String.eqb operation Delete then
    o ← deref obj; Returned (none, o)
  else Returned (none, none).

Definition CreateFakeRequestJSON (uid : string) (gvk : GroupVersionKind) (operation username : string)
    (userGroups : list string) (namespace : string) (obj oldObject : option RawExtension) : outcome (result string) :=
  '(object, old) ← objects operation obj oldObject;
  Returned (MarshalReview (fakeRequest uid gvk operation username userGroups namespace object old)).

Definition CreateHTTPRequest (uri uid : string) (gvk : GroupVersionKind) (operation username : string)
    (userGroups : list string) (namespace : string) (obj oldObject : option RawExtension) :
    outcome (result HTTPRequest) :=
  req ← CreateFakeRequestJSON uid gvk operation username userGroups namespace obj oldObject;
  match req with
  | Err err => Returned (Err err)
  | Ok buf =>
      if validTarget uri then
        Returned (Ok {| RequestURI := uri; Body := Some (Ok buf); ContentType := "application/json" |})
      else Panicked "invalid NewRequest arguments"
  end.

(** The webhook's Validate and its URI have no part in this. *)
Definition SendHTTPRequest (stack : nat) (req : HTTPRequest) (s : Webhook) : M (result (option Response)) :=
  let '(request, _, err) := ParseHTTPRequest req in
  match err with
  | Some err => mret (Err err)
  | None =>
      resp ← wh_Authorized s request;
      httpResponse ← lift_outcome (SendResponse stack newWriter resp);
      mret (UnmarshalReview (reviews httpResponse))
  end.
End TestUtils.

(** ** What the library promises *)

(** A raw extension as it comes out of its JSON encoding: without raw JSON it is
    encoded as null, and null is decoded to none. *)
Definition rawOverWire `{TestCodec} (e : RawExtension) : RawExtension :=
  if String.eqb (Raw e) "" || String.eqb (compact (Raw e)) "null" then {| Raw := "" |}
  else {| Raw := compact (Raw e) |}.

(** A request as it comes out, and a response: the patches of controller-runtime
    are not on the wire. *)
Definition overWire `{TestCodec} (req : Request) : Request := {|
  req_UID := req_UID req; req_Kind := req_Kind req; req_RequestKind := req_RequestKind req;
  req_Name := req_Name req; req_Namespace := req_Namespace req; req_Operation := req_Operation req;
  req_UserInfo := req_UserInfo req;
  req_Object := rawOverWire (req_Object req); req_OldObject := rawOverWire (req_OldObject req) |}.

Definition onWire (r : Response) : Response := {|
  resp_UID := resp_UID r; resp_Allowed := resp_Allowed r; resp_Result := resp_Result r; resp_Patches := [];
  resp_Patch := resp_Patch r; resp_AuditAnnotations := resp_AuditAnnotations r |}.

(** What survives encoding/json: strings of valid UTF-8 (others are mended), raw
    JSON that is not nested too deep (the decoder stops at 10000 levels, two of
    which are the review's; the number of brackets bounds the levels), a status
    code of 32 bits, and annotations that are not an empty map (which is left
    out). *)
Fixpoint brackets (s : string) : Z :=
  match s with
  | EmptyString => 0%Z
  | String c rest => ((if Ascii.eqb c "{" || Ascii.eqb c "[" then 1 else 0) + brackets rest)%Z
  end.

Definition representable_raw (e : RawExtension) : bool := (brackets (Raw e) <? 9000)%Z.

Definition kindStrings (gvk : GroupVersionKind) : list string := [gvk_Group gvk; gvk_Version gvk; gvk_Kind gvk].

Definition representable_request (req : Request) : bool :=
  forallb ValidString ([req_UID req; req_Name req; req_Namespace req; req_Operation req; username req] ++ groups req ++
    kindStrings (req_Kind req) ++ from_option kindStrings [] (req_RequestKind req)) &&
  representable_raw (req_Object req) && representable_raw (req_OldObject req).

Definition representable_status (s : Status) : bool :=
  ValidString (status_Reason s) && ValidString (status_Message s) &&
  ((- 2 ^ 31 <=? status_Code s)%Z && (status_Code s <? 2 ^ 31)%Z).

Definition representable_annotations (m : gmap string string) : bool :=
  negb (length (map_to_list m) =? 0) && forallb (λ p, ValidString p.1 && ValidString p.2) (map_to_list m).

Definition representable_response (r : Response) : bool :=
  ValidString (resp_UID r) && from_option representable_status true (resp_Result r) &&
  from_option representable_annotations true (resp_AuditAnnotations r).

Class TestCodecLaws `{Codec, TestCodec} : Prop := {
  review_roundtrip req b : representable_request req = true → MarshalReview req = Ok b →
    DecodeReview b = Ok (Some (overWire req)) ∧ b ≠ "";
  response_roundtrip review : representable_response (ar_Response review) = true →
    UnmarshalReview [review] = Ok (Some (onWire (ar_Response review)));
}.

(** ** Theory *)

Section Theory.
Context `{AdmissionCtl, !AdmissionCtlLaws} `{Codec} `{TestCodec, !TestCodecLaws}.

(** What the switch fills in when it does not panic. *)
Definition objectOf (op : string) (obj : option RawExtension) : RawExtension :=
  if bool_decide (op = Create ∨ op = Update) then default noRaw obj else noRaw.
Definition oldObjectOf (op : string) (obj old : option RawExtension) : RawExtension :=
  if bool_decide (op = Delete) then default noRaw obj
  else if bool_decide (op = Update) then default (default noRaw obj) old else noRaw.

Lemma objects_filled op obj old object oldObject :
  objects op obj old = Returned (object, oldObject) →
  object = objectOf op obj ∧ oldObject = oldObjectOf op obj old ∧ (obj = None → op ∉ [Create; Update; Delete]).
Proof.
  unfold objects, objectOf, oldObjectOf.
  destruct (String.eqb_spec op Create) as [->|Hc]; [by destruct obj; intros [= <- <-]|].
  destruct (String.eqb_spec op Update) as [->|Hu]; [by destruct obj, old; intros [= <- <-]|].
  destruct (String.eqb_spec op Delete) as [->|Hd]; [by destruct obj; intros [= <- <-]|].
  intros [= <- <-]. rewrite !bool_decide_eq_false_2; try tauto. do 2 (split; [done|]). intros _.
  rewrite !elem_of_cons. intros [?|[?|[?|[]%not_elem_of_nil]]]; tauto.
Qed.

(** A created request parses to the request it was made of. *)
Lemma created_parses uri uid gvk op user groups ns obj old r :
  CreateHTTPRequest uri uid gvk op user groups ns obj old = Returned (Ok r) →
  let req := fakeRequest uid gvk op user groups ns (objectOf op obj) (oldObjectOf op obj old) in
  representable_request req = true →
  (obj = None → op ∉ [Create; Update; Delete]) ∧ RequestURI r = uri ∧
  ParseHTTPRequest r = (overWire req, withUID uid zeroResponse, None).
Proof.
  unfold CreateHTTPRequest, CreateFakeRequestJSON. destruct (objects op obj old) as [[object oldObject]|] eqn:Ho; [|done].
  destruct (objects_filled _ _ _ _ _ Ho) as (-> & -> & Hnil).
  cbn [mbind outcome_bind]. destruct (MarshalReview _) as [b|] eqn:E; [|done]. destruct (validTarget uri); [|done].
  intros [= <-] Hv. do 2 (split; [done|]).
  destruct (review_roundtrip _ _ Hv E) as [Hd Hne]. unfold ParseHTTPRequest. cbn [Body ContentType RequestURI].
  rewrite -str_length_0 -Nat.eqb_neq in Hne.
  change (Nat.eqb (String.length b) 0) with (String.length b =? 0) in Hne. rewrite Hne. simpl. by rewrite Hd.
Qed.

(** C40: What a test sees, and what the server answers.  A request that JSON
    can represent, made for the path of a registered webhook, reaches the parser as
    it was specified, with the object in the place that its operation has it; a nil object
    is let through exactly for operations that have none.  SendHTTPRequest returns
    the response of the webhook's handler as it comes over the wire, whether or not
    the webhook's Validate finds the request valid, which it does not ask.  If
    Validate does, this is the very response that the server writes, and it leaves
    the same counters; if not, the server answers that the request is not valid,
    without asking the handler. *)
Theorem harness_faithful stack hooks d name hook uid gvk op user groups ns obj old r world resp world' :
  distinct_uris hooks → NewDispatcher hooks d → hooks !! name = Some hook → plain_path (wh_GetURI hook) = true →
  CreateHTTPRequest (wh_GetURI hook) uid gvk op user groups ns obj old = Returned (Ok r) →
  let made := fakeRequest uid gvk op user groups ns (objectOf op obj) (oldObjectOf op obj old) in
  representable_request made = true →
  let req := overWire made in
  ParseHTTPRequest r = (req, withUID uid zeroResponse, None) ∧
  (obj = None → op ∉ [Create; Update; Delete]) ∧
  (wh_Authorized hook req world = (Returned resp, world') →
   EncodeError newWriter (reviewOf (withAudit resp)) = None →
   (representable_response (withAudit resp) = true →
    SendHTTPRequest (S stack) r hook world = (Returned (Ok (Some (onWire (withAudit resp)))), world')) ∧
   (wh_Validate hook req = true →
    HandleRequest (S stack) d r newWriter world =
      (Returned {| status := Some StatusOK; reviews := [reviewOf (withAudit resp)] |}, world'))) ∧
  (let invalid := reviewOf (withAudit (Errored StatusBadRequest "not a valid webhook request")) in
   wh_Validate hook req = false → EncodeError newWriter invalid = None →
   HandleRequest (S stack) d r newWriter world = (Returned {| status := Some StatusOK; reviews := [invalid] |}, world)).
Proof.
  intros Hd Hnew Hh Hplain Hc made Hmade req. destruct (created_parses _ _ _ _ _ _ _ _ _ _ Hc Hmade) as (Hnil & Huri & Hp).
  split; [done|]. split; [done|]. split.
  - intros Ha He. split.
    + intros Hw. unfold SendHTTPRequest. rewrite Hp. unfold mbind, M_bind. fold req. rewrite Ha. unfold lift_outcome.
      rewrite (SendResponse_first _ _ _ He). unfold mret, M_ret. cbn [reviews write newWriter app]. by rewrite response_roundtrip.
    + intros Hv. apply (handle_request_routed stack hooks d r world name hook req resp world' Hd Hnew Hh Hplain); try done.
      * by left.
      * by rewrite Hp.
      * by rewrite Hp.
  - intros invalid Hv He.
    assert (Parse parseAuthority (RequestURI r) = Ok (wh_GetURI hook)) as Hparse by by rewrite Huri Parse_plain.
    assert (d !! wh_GetURI hook = Some hook) as Hl by (apply (dispatcher_lookup _ _ _ _ Hd Hnew); eauto).
    unfold HandleRequest. rewrite Hparse Hl Hp. fold req. rewrite Hv. cbn [negb]. unfold lift_outcome.
    by rewrite (SendResponse_first _ _ _ He).
Qed.
End Theory.

(** ** Witnesses *)

Module Witness.
#[local] Existing Instance exampleCtl.
#[local] Existing Instance exampleCtl_laws.

#[local] Instance RawExtension_eq_dec : EqDecision RawExtension.
Proof. solve_decision. Defined.
#[local] Instance GroupVersionKind_eq_dec : EqDecision GroupVersionKind.
Proof. solve_decision. Defined.
#[local] Instance UserInfo_eq_dec : EqDecision UserInfo.
Proof. solve_decision. Defined.
#[local] Instance Request_eq_dec : EqDecision Request.
Proof. solve_decision. Defined.

(** User "dev" deletes a hosted cluster; the codec knows this request. *)
Definition gvk : GroupVersionKind := {|
  gvk_Group := "hypershift.openshift.io"; gvk_Version := "v1beta1"; gvk_Kind := "HostedCluster" |}.
Definition deletion : Request := fakeRequest "uid-1" gvk Delete "dev" [] "clusters" noRaw oldRaw.

#[local] Instance codec : Codec := {|
  DecodeReview := λ body, if String.eqb body "review" then Ok (Some deletion) else Err "cannot decode";
  EncodeError := λ _ _, None;
  parseAuthority := λ _, None |}.
#[local] Instance testCodec : TestCodec := {|
  MarshalReview := λ req, if bool_decide (req = deletion) then Ok "review" else Err "unknown";
  UnmarshalReview := λ written, match written with [review] => Ok (Some (onWire (ar_Response review))) | _ => Err "syntax" end;
  validTarget := λ uri, HasPrefix uri "/";
  compact := λ json, json |}.
#[local] Instance testCodec_laws : TestCodecLaws.
Proof.
  constructor; [|done]. intros req b _. unfold MarshalReview, testCodec. case_bool_decide as E; [|done].
  intros [= <-]. rewrite E. split; done.
Qed.

Definition hooks : RegisteredWebhooks := {[HostedCluster.WebhookName := HostedCluster.NewWebhook]}.
Definition request : HTTPRequest := {|
  RequestURI := "/hostedcluster-validation"; Body := Some (Ok "review"); ContentType := "application/json" |}.
Definition start : World := {| blockedRequests := ∅ |}.

Lemma single_hook_distinct : distinct_uris hooks.
Proof. unfold hooks. intros n1 n2 h1 h2 [<- _]%lookup_singleton_Some [<- _]%lookup_singleton_Some _. done. Qed.

(** The test and the server give the same refusal. *)
Lemma harness_faithful_witness :
  (∃ answer, SendHTTPRequest 1 request HostedCluster.NewWebhook start = (Returned (Ok (Some answer)), start) ∧
    resp_Allowed answer = false) ∧
  HandleRequest 1 (buildHookMap (map_to_list hooks).*2) request newWriter start =
    (Returned {| status := Some StatusOK; reviews := [reviewOf (withAudit (HostedCluster.authorized deletion))] |}, start).
Proof.
  pose proof (harness_faithful 0 hooks (buildHookMap (map_to_list hooks).*2) HostedCluster.WebhookName
    HostedCluster.NewWebhook "uid-1" gvk Delete "dev" [] "clusters" (Some oldRaw) None request start
    (HostedCluster.authorized deletion) start single_hook_distinct
    (ex_intro _ (map_to_list hooks).*2 (conj (reflexivity _) eq_refl)) eq_refl eq_refl eq_refl eq_refl) as H.
  cbv zeta in H. destruct H as (_ & _ & H & _). destruct H as [Hsend Hserve]; [vm_compute; reflexivity|reflexivity|].
  split.
  - exists (onWire (withAudit (HostedCluster.authorized deletion))). split; [|vm_compute; reflexivity].
    apply Hsend. vm_compute. reflexivity.
  - apply Hserve. vm_compute. reflexivity.
Defined.
End Witness.
